(* ===== verification/_CoqProject ===== *)
-Q . S2P
Prelude.v
GL.v
Math3d.v
Data.v
Font.v
Gui.v
GuiProps.v
InputEdit.v
View.v
Interfaces.v
Geometry.v
Scene.v
Render.v
Demo.v
ScenePasses.v
ScenePick.v
SceneLights.v
Mesh.v
Focus.v
NewGui.v
Particles.v
Game.v
