(* ===== verification/Prelude.v ===== *)
(** * PYGGEL: a verification development

    PYGGEL is a small OpenGL engine in Python 2.  Its core is the scene
    graph and render loop of [src/trunk/pyggel/scene.py]: objects are
    registered in five ordered pass lists (2d, opaque 3d, shader 3d,
    blended 3d, always-on-top 3d) with a skybox, a shader and up to eight
    lights, and [Scene.render] draws the passes in a fixed order, claims a
    GL light unit per registered light, and optionally picks the object
    under the cursor by reading back the depth or the colour buffer.
    Around it sit the window settings ([src/pyggel/view.py]), the shapes
    ([src/pyggel/geometry.py], [BasicMesh] of [src/trunk/pyggel/mesh.py]),
    vectors and collision volumes ([src/pyggel/math3d.py]), textures
    ([data.py], trunk and pyglet branch), text images
    ([src/trunk/pyggel/font.py]) and the widget toolkit
    ([src/trunk/pyggel/gui.py]), whose widgets draw their text with the
    font module and whose [App] receives the events of the event handler.

    ** Files

    - Prelude.v (this file): Python exceptions [PyExc]; the state and
      exception monad [PyM] with notations [x <- c ;; k] and [c ;;; k]
      (scope [py_scope]); the error monad [x <-? c ;; k]; Python's list
      operations ([py_remove], [py_pop], [py_get], [py_index],
      [py_list_index], [py_setitem], slices [py_slice], [py_slice_from])
      with their errors; [int()] of a float ([py_int]); [pygame.Rect]
      ([Rect], [collidepoint]); generic lemmas on lists, options, slices
      and [Q]; the tactics [ebind_inv] and [vm_refl]; hint database
      [pyggel].
    - GL.v: the fixed-function GL state the code drives ([GLState]:
      enabled capabilities, depth mask, program, projection, matrix stack
      depth, framebuffer) and the per-fragment pipeline [draw_pixel]
      (alpha test, depth test, blending, depth write) that [View.build_gl]
      configures; rewrite database [gl_caps].
    - Math3d.v: [Vector] arithmetic and the [collide] methods of
      [Vector], [Sphere] and [AABox] (math3d.py), modules [VectorOps],
      [Collide].
    - Data.v: [Texture._get_next_biggest] as the fuelled loop [grow],
      [Texture.__init__] of both [data.py] versions (module [TextureOps]).
    - Font.v: font.py: [Font.make_text_image] (module [FontOps]), the
      string operations the code uses ([str.find], [split("\n")], module
      [TextOps]), [MEFont] and [MEFontImage] with the smiley search, the
      glyph loop, line layout, setters, [copy] and sizes (module
      [MEFontOps]).
    - Gui.v: gui.py: every widget class over one store of objects; the
      monad [GM] of methods that may raise or not return, with notations
      [x <~ c ;; k] and [c ;;~ k] (scope [gui_scope]); dispatchers and
      callbacks; layout; the event handlers; constructors; rendering.
    - GuiProps.v: [App.next_widget], the automatic layout, the [Radio]
      click and its label overlap, typing and submitting into an [Input],
      [Input.render]'s [IndexError]; concrete applications for witnesses.
    - InputEdit.v: the abstract text editor [Editor] (module
      [EditorSpec]), the refinement of [Input.handle_keydown] against it,
      and the invariant every method of [Input] keeps (Section
      [InputMethods]).
    - View.v: the [View] record and its GL methods (module [ViewOps]).
    - Interfaces.v: [Camera] and [Light], which are not among the
      sources and are modelled from the specification (modules
      [CameraOps], [LightOps]); the type classes [Renderable] (the
      duck-typed [{visible, render}] of the scene's objects), [Raster]
      (which pixels a display list covers) and [PlainRender] (objects
      whose [render] only draws).
    - Geometry.v: [Cube], [Quad], [Skybox], [Sphere], [Skyball] and
      [BasicMesh] as records; [_compile] as the list of GL commands a
      display list records; [render] and [copy] with their errors
      (modules [GeometryOps], [FacingNames], [ShapeOps], [Faces]); [Shape]
      is an instance of [Renderable].
    - Scene.v: [Tree], [Scene] and every add/remove method (module
      [TreeOps]); the step relation [scene_op] of the public graph
      operations.
    - Render.v: the shared store [World] (objects with their [scene]
      attribute, lights with their [gl_light], the GL state, the log of
      [render] calls) and [Scene.render] ([scene_render]), one definition
      per pass in [PyM]; [Scene.add_2d].
    - Demo.v: a concrete rasteriser, objects and scenes for witnesses.
    - ScenePasses.v: each pass runs to completion on ordinary objects;
      the pure refinement [pipeline_3d] of [render_3d_passes]; removal,
      determinism and GL-state restoration theorems.
    - ScenePick.v: picking against the abstract specifications
      [first_nearest] (depth pick) and [color_changers] (colour pick).
    - SceneLights.v: light-unit assignment and release against
      [expected_store] and [frame_units].
    - Mesh.v: mesh.py's loaders: Python 2's [str.split()],
      [str.split('/')], [int()], [os.path.join] and [os.path.split]
      (module [StrOps]); [MTL] and [OBJ] with their loop bodies, the
      display list of one polygon per face and [verts], and
      [BasicMesh.get_dimensions] with Python 2's mixed-type ordering
      (module [Loader], Section [Files] over [float()] and the file
      system); an OBJ writer ([ObjWriter]) and sample files.
    - Focus.v: [n] presses of the focus key ([repeat_gm n
      (next_widget c)]) and the liveness of the focus cycle.
    - NewGui.v: Newgui.py, the second toolkit: its [Packer] ([pack],
      [pack_wrap], [pack_center]), [App] (widget list, event loops,
      [next_widget], [set_top_widget], [render]) and the [Widget],
      [NewLine] and [Label] classes over one store of widgets, in the
      monad [NM] whose exceptions keep the state reached (scope
      [ngui_scope], notations [x <@ c ;; k] and [c ;;@ k]).
    - Particles.v: the fountain of [devtests/particles.py] (branch
      v0.1-nextgen): the state [PState] [OnInit] sets, [OnTimerFraction]
      on numpy rows ([np_add], [put], [copy], [nonzero]) with
      [random.random()] as a function of the draws made, the six key
      handlers and the two timers' handlers ([handle]), and the states
      they reach ([reachable], a step relation).
    - Game.v: Robocalypto's [game.py]: [level_parse] over [GRID]
      (tiles and wall cubes built by Geometry.v's [new_quad] and
      [new_cube], the game's [Wall] and [RoboBaddie] constructions
      recorded), [do_input], the frame counter of [do_update] and
      [main_loop] with fuel.

    ** Theorem groups

    - Picking (ScenePick.v): the depth pick returns the first of the
      nearest fragments passing the alpha test; the blend pass returns the
      last object whose draw changes the colour under the cursor; the
      always-on-top pass raises [NameError] ([GL_GBA]).
    - Lights (Scene.v, SceneLights.v): every reachable scene holds at
      most eight lights (rule induction on [scene_op]); distinct lights
      get [GL_LIGHT7], [GL_LIGHT6], ... and all are disabled again; a
      light registered twice leaks [GL_LIGHT7].
    - Graph and frames (Scene.v, ScenePasses.v, Render.v): add/remove
      round trip, [ValueError] on absent removal, removed objects are not
      drawn, frames are deterministic, the GL state is restored.
    - Widgets (GuiProps.v, InputEdit.v): a click on a [Radio] option
      reaches the radio through the checkbox's dispatcher; typing and
      return submit the text to the [submit] callbacks;
      [Input.handle_keydown] refines the abstract editor; every method of
      [Input] keeps its invariant and changes no other object of the
      store; [next_widget] never returns when no
      widget is visible, and brings every visible widget to the top
      within as many calls as it stands from the top (Focus.v); the
      automatic layout hands out disjoint boxes (an example shows a
      [Radio]'s labels overlapping the next widget); [Input.render]
      raises [IndexError] for a box right of its text.
    - Newgui (NewGui.v): the wrap layout gives the packed widgets
      boxes that do not overlap (loop invariant [row_inv]); a
      [NewLine] is never placed by it, so a left click right after
      [NewLine(app)] raises [TypeError]; an unknown pack type raises
      [AttributeError] with the widget list left reversed; store
      typing [wt] (distinct listed handles, each naming an object,
      none at or above [fresh]) holds after any script of [NewLine]
      and [Label] constructors, which runs to its end (the frame
      relation [same_shape] carries it through the packer).
    - Particles (Particles.v): in every reachable state the arrays
      keep their rows, no droplet is under the ground, the point sizes,
      multiplier and nozzle speed stay in range and no event raises
      (rule induction on [reachable]); one frame moves each droplet by
      [velocity * delta], sends those on the ground back to the
      emitter and gives the first half (plus one) of them the initial
      colour and a new random velocity ([respawn_run]).
    - Robocalypto (Game.v): [level_parse] returns, for any map, a
      [Wall] per wall cell and a [RoboBaddie] per robot cell at
      [(5x, 5y)] in row-major order, two tiles per cell and a cube per
      wall cell ([builds], composed cell by cell); the main loop stops
      exactly at the first frame with [QUIT] or Escape, the frame
      counter then at [(n + 1) mod 361].
    - Mesh loading (Mesh.v): [OBJ] reads back what [ObjWriter] writes
      (round trip through [str()] and [int()]); the parse loop keeps
      faces well formed; [get_dimensions] returns coordinate lists
      instead of sizes; face index 0 and negative indices wrap to the
      wrong vertex; [map_Kd] lines raise [TypeError]; faces before any
      [usemtl] raise [KeyError] once a library is loaded.
    - Text (Font.v): the glyph layout of [set_text] is disjoint and
      inside the image's rectangle; the smiley search terminates for
      non-empty names and hangs for the empty one; the colour of
      [MEFont.make_text_image] is ignored; a text raises [KeyError] if
      and only if it holds a character with no glyph.
    - Shapes and view (Geometry.v, View.v): missing [blank_texture], sky volumes do not write depth,
      screen-parameter bits, overlay scale, [build_gl] on a fresh view.
    - Math and data (Math3d.v, Data.v): collision symmetry and
      soundness, the corner-only box test missing crossing boxes,
      [perpendicular] along z, termination and bounds of the
      power-of-two size loop, the ignored [flip] of trunk textures.

    ** Representation choices, fuel and bounds

    Python floats are exact rationals [Q] (no rounding is modelled);
    Python ints are [Z]; Python 2 byte strings are [list ascii]; object
    identities are [nat] handles into a store ([gmap]), so aliasing
    between the scene graph and the caller, and between a [Radio], its
    checkboxes and their container, is explicit.  A call that does not
    return is [None] of [option]: the loops whose termination is not
    structural take fuel, and the fuel chosen is proved enough where the
    code terminates: [Z.to_nat x] steps for [_get_next_biggest]
    ([TextureOps.grow_enough_fuel]), [S (length text)] for the smiley
    search with a non-empty name ([smiley_scan_terminates]),
    [S (length ws)] for [App.next_widget] when a widget is visible
    ([next_widget_spec]); with no visible widget, or an empty smiley
    name, every fuel gives [None], which is the code's infinite loop.
    The recursion of widgets through frames ([Frame.get_mouse_pos],
    [render], the event loops) takes the number of allocated objects as
    fuel, which bounds the depth of the containment chain; exhausting it
    is Python's [RuntimeError].  Decimal printing ([str_of_N], used only
    by the OBJ writer) takes [log2 n + 1] digits of fuel, enough since
    [n < 2 ^ (log2 n + 1) <= 10 ^ (log2 n + 1)].  Robocalypto's
    [while self.running] loop takes a number of frames as fuel: any
    fuel above the index of the first quitting frame returns, none at or
    below it does ([main_loop_exits]).

    ** Not modelled

    Pixel rasterisation of display lists (abstracted as [Raster]), pixel
    contents of images and fonts, image and font file loading, pygame
    window and event I/O, the texture objects the MTL loader makes (a
    [Kd] colour stands for its texture; [misc] is not in the sources),
    [view.require_init] (assumed to pass), [Font.make_text_image3D], the blinking of the [Input] cursor
    ([image.Animation]), the user callbacks of Newgui's dispatchers
    (fired events are logged), the parts of Robocalypto's [game.py]
    that use its [objects] module (player, shots, robots, walls and
    their collisions in [do_update]; the module is not in the
    repository), [Game.__init__]'s library calls and [do_draw], and the
    OpenGLContext scene graph and timers the particles demo builds (the
    library's, not the repository's); the [camera]/[light]/[event]/
    [image] modules are not in the sources.  Python floats of the
    particles demo are exact rationals: rounding is not modelled. *)

From stdpp Require Import base list decidable sets gmap.
From Stdlib Require Import QArith Qround ZArith Lia.

(** ** Python exceptions raised by the modelled code *)

Inductive PyExc :=
| ValueError        (** [list.remove] of an absent element, explicit [raise ValueError] *)
| IndexError        (** [list.pop] on an empty list, out-of-range indexing *)
| NameError         (** a global name that is not defined *)
| AttributeError    (** an attribute that the object does not have *)
| KeyError          (** a dictionary lookup of an absent key *)
| TypeError         (** an operation applied to values of the wrong type *)
| ZeroDivisionError (** a division by zero *)
| RuntimeError      (** Python 2's "maximum recursion depth exceeded" *)
| IOError.          (** [open] of a file that cannot be read *)

#[export] Instance PyExc_eq_dec : EqDecision PyExc.
Proof. solve_decision. Defined.

(** ** A state and exception monad

    [PyM S A] is a Python statement sequence run against the mutable
    store [S]: it either raises an exception or returns a value together
    with the updated store. *)

Definition PyM (S A : Type) : Type := S -> PyExc + (A * S).

Definition pret {S A} (a : A) : PyM S A := fun s => inr (a, s).

Definition pbind {S A B} (m : PyM S A) (k : A -> PyM S B) : PyM S B :=
  fun s => match m s with
           | inl e => inl e
           | inr (a, s') => k a s'
           end.

Definition praise {S A} (e : PyExc) : PyM S A := fun _ => inl e.
Definition pget {S} : PyM S S := fun s => inr (s, s).
Definition pput {S} (s : S) : PyM S unit := fun _ => inr (tt, s).
Definition pmodify {S} (f : S -> S) : PyM S unit := fun s => inr (tt, f s).

Declare Scope py_scope.
Delimit Scope py_scope with py.
Notation "x <- c ;; k" := (pbind c (fun x => k))
  (at level 100, c at next level, right associativity) : py_scope.
Notation "c ;;; k" := (pbind c (fun _ => k))
  (at level 100, right associativity) : py_scope.
Open Scope py_scope.

(** [for x in l: body(x)], a statement loop. *)
Fixpoint pfor {S A} (l : list A) (body : A -> PyM S unit) : PyM S unit :=
  match l with
  | [] => pret tt
  | x :: l' => body x ;;; pfor l' body
  end.

(** Pure code that may raise: [PyExc + A], with its bind. *)
Definition ebind {A B} (m : PyExc + A) (k : A -> PyExc + B) : PyExc + B :=
  match m with inl e => inl e | inr a => k a end.
Notation "x <-? c ;; k" := (ebind c (fun x => k))
  (at level 100, c at next level, right associativity) : py_scope.

(** A [for] loop that collects one result per element, stopping at the
    first exception. *)
Fixpoint emap {A B} (f : A -> PyExc + B) (l : list A) : PyExc + list B :=
  match l with
  | [] => inr []
  | x :: l' => y <-? f x ;; ys <-? emap f l' ;; inr (y :: ys)
  end.

(** [if c: body] *)
Definition pwhen {S} (c : bool) (body : PyM S unit) : PyM S unit :=
  if c then body else pret tt.

(** ** Python list operations *)

(** [l.remove(x)]: drop the first element equal to [x]; [ValueError]
    when there is none. *)
Fixpoint py_remove {A} `{EqDecision A} (x : A) (l : list A) : option (list A) :=
  match l with
  | [] => None
  | y :: l' => if decide (x = y) then Some l' else cons y <$> py_remove x l'
  end.

(** [l[i]] for [i >= 0]. *)
Definition py_get {A} (l : list A) (i : nat) : PyExc + A :=
  match l !! i with Some a => inr a | None => inl IndexError end.

(** [l[i]] for any integer [i]: a negative index counts from the end. *)
Definition py_index {A} (l : list A) (i : Z) : PyExc + A :=
  if (0 <=? i)%Z then py_get l (Z.to_nat i)
  else if (- Z.of_nat (length l) <=? i)%Z then py_get l (Z.to_nat (Z.of_nat (length l) + i))
  else inl IndexError.

(** [l.pop()]: remove and return the last element; [IndexError] on []. *)
Definition py_pop {A} (l : list A) : option (A * list A) :=
  match rev l with
  | [] => None
  | x :: r => Some (x, rev r)
  end.

(** [l.index(x)]: the first position of [x], [ValueError] when absent. *)
Fixpoint py_list_index {A} `{EqDecision A} (x : A) (l : list A) : PyExc + nat :=
  match l with
  | [] => inl ValueError
  | y :: l' =>
      if decide (x = y) then inr 0%nat
      else match py_list_index x l' with inl e => inl e | inr k => inr (S k) end
  end.

(** [l[k] = v] for [k >= 0]. *)
Definition py_setitem {A} (l : list A) (k : nat) (v : A) : PyExc + list A :=
  if decide (k < length l)%nat then inr (<[k := v]> l) else inl IndexError.

(** A slice bound: a negative one counts from the end, and both are
    clamped to [0 .. len(l)]. *)
Definition py_slice_ix (n : nat) (a : Z) : nat :=
  Z.to_nat (if (a <? 0)%Z then Z.max 0 (a + Z.of_nat n) else Z.min a (Z.of_nat n)).

(** [l[a:b]] and [l[a:]]. *)
Definition py_slice {A} (l : list A) (a b : Z) : list A :=
  let i := py_slice_ix (length l) a in
  let j := py_slice_ix (length l) b in
  take (j - i) (drop i l).

Definition py_slice_from {A} (l : list A) (a : Z) : list A := drop (py_slice_ix (length l) a) l.

(** [int(q)] of a Python float: truncation toward zero. *)
Definition py_int (q : Q) : Z := if Qle_bool 0 q then Qfloor q else (- Qfloor (- q))%Z.

(** [a < b] on Python floats, modelled exactly as rationals. *)
Definition Qltb (a b : Q) : bool := negb (Qle_bool b a).

(** ** pygame's [Rect]

    [pygame.Rect(pos, size)]; [collidepoint] counts the left and top
    edges in and the right and bottom edges out. *)
Record Rect := mkRect { rect_x : Z; rect_y : Z; rect_w : Z; rect_h : Z }.

Definition collidepoint (r : Rect) (p : Z * Z) : bool :=
  bool_decide (rect_x r <= fst p < rect_x r + rect_w r /\
               rect_y r <= snd p < rect_y r + rect_h r)%Z.

(** Two rectangles that share no point. *)
Definition rect_disjoint (a b : Rect) : Prop :=
  (rect_x a + rect_w a <= rect_x b \/ rect_x b + rect_w b <= rect_x a \/
   rect_y a + rect_h a <= rect_y b \/ rect_y b + rect_h b <= rect_y a)%Z.

(** [a] lies inside [b]. *)
Definition rect_inside (a b : Rect) : Prop :=
  (rect_x b <= rect_x a /\ rect_x a + rect_w a <= rect_x b + rect_w b /\
   rect_y b <= rect_y a /\ rect_y a + rect_h a <= rect_y b + rect_h b)%Z.

Create HintDb pyggel.

(** ** Monad laws *)

Lemma pbind_ret {S A B} (a : A) (k : A -> PyM S B) s :
  pbind (pret a) k s = k a s.
Proof. reflexivity. Qed.

Lemma pbind_assoc {S A B C} (m : PyM S A) (k : A -> PyM S B) (h : B -> PyM S C) s :
  pbind (pbind m k) h s = pbind m (fun a => pbind (k a) h) s.
Proof. unfold pbind. destruct (m s) as [e|[a s']]; reflexivity. Qed.

Lemma pbind_inr {S A B} (m : PyM S A) (k : A -> PyM S B) s a s' :
  m s = inr (a, s') -> pbind m k s = k a s'.
Proof. unfold pbind. by intros ->. Qed.

Lemma pbind_inl {S A B} (m : PyM S A) (k : A -> PyM S B) s e :
  m s = inl e -> pbind m k s = inl e.
Proof. unfold pbind. by intros ->. Qed.

Lemma pfor_app {S A} (l1 l2 : list A) (body : A -> PyM S unit) s :
  pfor (l1 ++ l2) body s = pbind (pfor l1 body) (fun _ => pfor l2 body) s.
Proof.
  revert s. induction l1 as [|x l1 IH]; intros s; simpl.
  - reflexivity.
  - rewrite pbind_assoc. unfold pbind at 1 2. destruct (body x s) as [e|[[] s']]; [reflexivity|].
    apply IH.
Qed.

(** A loop whose body never raises runs to completion: the loop is the
    left fold of the body's effect. *)
Lemma pfor_total {S A} (l : list A) (body : A -> PyM S unit) (f : A -> S -> S) s :
  (forall x s, x ∈ l -> body x s = inr (tt, f x s)) ->
  pfor l body s = inr (tt, foldl (fun s x => f x s) s l).
Proof.
  revert s. induction l as [|x l IH]; intros s Hb; simpl; [reflexivity|].
  unfold pbind. rewrite Hb by set_solver. apply IH. intros. apply Hb. set_solver.
Qed.

(** ** Lemmas on [py_remove] and [py_pop] *)

Section PyList.
Context {A : Type} `{EqDecision A}.

Lemma py_remove_None (x : A) l : py_remove x l = None <-> x ∉ l.
Proof.
  induction l as [|y l IH]; simpl.
  - split; [intros _; apply not_elem_of_nil | done].
  - case_decide; subst.
    + split; [done|]. intros Hn. exfalso. apply Hn. left.
    + rewrite fmap_None, IH, elem_of_cons. naive_solver.
Qed.

Lemma py_remove_Some (x : A) l l' :
  py_remove x l = Some l' <->
  exists l1 l2, l = l1 ++ (x :: l2) /\ (x ∉ l1) /\ l' = l1 ++ l2.
Proof.
  revert l'. induction l as [|y l IH]; intros l'; simpl.
  - split; [done|]. intros (l1 & l2 & Hl & _). by destruct l1.
  - case_decide as Hxy; subst.
    + split.
      * intros [= <-]. exists [], l. split_and!; [done| apply not_elem_of_nil | done].
      * intros (l1 & l2 & Hl & Hn & ->). destruct l1 as [|z l1].
        -- simpl in Hl. by injection Hl as ->.
        -- simpl in Hl. injection Hl as -> _. exfalso. apply Hn. left.
    + rewrite fmap_Some. split.
      * intros (l'' & Hr & ->). apply IH in Hr as (l1 & l2 & -> & Hn & ->).
        exists (y :: l1), l2. split_and!; [done| |done]. rewrite elem_of_cons. naive_solver.
      * intros (l1 & l2 & Hl & Hn & ->). destruct l1 as [|z l1].
        -- simpl in Hl. injection Hl as -> _. done.
        -- simpl in Hl. injection Hl as -> Hl. exists (l1 ++ l2). split; [|done].
           apply IH. exists l1, l2. split_and!; [done| |done].
           intros Hin. apply Hn. by right.
Qed.

Lemma py_remove_length (x : A) l l' :
  py_remove x l = Some l' -> length l = S (length l').
Proof.
  intros (l1 & l2 & -> & _ & ->)%py_remove_Some. rewrite !length_app. simpl. lia.
Qed.

(** An element that occurs once is gone after its removal. *)
Lemma py_remove_not_elem (x : A) l l' :
  py_remove x l = Some l' -> NoDup l -> x ∉ l'.
Proof.
  intros (l1 & l2 & -> & Hn & ->)%py_remove_Some Hnd.
  apply NoDup_app in Hnd as (_ & Hd & Hnd2). apply NoDup_cons in Hnd2 as [Hx _].
  rewrite elem_of_app. intros [Hin|Hin]; [done|]. done.
Qed.

Lemma py_remove_subseteq (x y : A) l l' :
  py_remove x l = Some l' -> y ∈ l' -> y ∈ l.
Proof.
  intros (l1 & l2 & -> & _ & ->)%py_remove_Some. rewrite !elem_of_app, elem_of_cons.
  naive_solver.
Qed.

(** Removing an element of the prefix leaves the suffix alone. *)
Lemma py_remove_app_l (x : A) l1 l2 :
  x ∈ l1 -> py_remove x (l1 ++ l2) = (fun l => l ++ l2) <$> py_remove x l1.
Proof.
  induction l1 as [|y l1 IH]; intros Hx; [by apply not_elem_of_nil in Hx|]. simpl.
  case_decide; [done|]. rewrite IH by (apply elem_of_cons in Hx; naive_solver).
  by destruct (py_remove x l1).
Qed.

Lemma py_pop_None (l : list A) : py_pop l = None <-> l = [].
Proof.
  unfold py_pop. split.
  - destruct (rev l) eqn:E; [|done]. intros _. by apply (f_equal (@rev A)) in E; rewrite rev_involutive in E.
  - intros ->. done.
Qed.

Lemma py_pop_Some (l : list A) x l' : py_pop l = Some (x, l') <-> l = l' ++ [x].
Proof.
  unfold py_pop. split.
  - destruct (rev l) as [|y r] eqn:E; [done|]. intros [= -> <-].
    apply (f_equal (@rev A)) in E. rewrite rev_involutive in E. by rewrite E.
  - intros ->. rewrite rev_app_distr. simpl. rewrite rev_involutive. done.
Qed.

Lemma py_pop_app_last (l : list A) x : py_pop (l ++ [x]) = Some (x, l).
Proof. by apply py_pop_Some. Qed.
End PyList.

(** ** Rationals *)

Lemma Qltb_spec a b : Qltb a b = true <-> (a < b)%Q.
Proof.
  unfold Qltb. rewrite negb_true_iff. split.
  - intros H. apply Qnot_le_lt. intros Hle. apply Qle_bool_iff in Hle. congruence.
  - intros H. destruct (Qle_bool b a) eqn:E; [|done]. apply Qle_bool_iff in E.
    exfalso. by apply (Qlt_not_le a b).
Qed.

Lemma Qltb_false a b : Qltb a b = false <-> (b <= a)%Q.
Proof.
  unfold Qltb. rewrite negb_false_iff. apply Qle_bool_iff.
Qed.

(** ** Finite maps *)

(** Writing back an updated copy of a stored value is [alter]. *)
Lemma insert_alter_lookup {K A} `{Countable K} (m : gmap K A) i x (f : A -> A) :
  m !! i = Some x -> <[i := f x]> m = alter f i m.
Proof.
  intros Hi. apply map_eq. intros j. destruct (decide (i = j)) as [->|Hne].
  - by rewrite lookup_insert_eq, lookup_alter_eq, Hi.
  - by rewrite lookup_insert_ne, lookup_alter_ne.
Qed.

#[export] Hint Resolve py_pop_app_last : pyggel.

(** ** Lists *)

Lemma omap_Forall2 {A B} (f : A -> option B) l l' :
  Forall2 (fun x y => f x = Some y) l l' -> omap f l = l'.
Proof. induction 1 as [|x y l l' Hf _ IH]; [done|]. cbn [omap list_omap]. rewrite Hf. by f_equal. Qed.

Lemma ForallOrdPairs_app {A} (R : A -> A -> Prop) l1 l2 :
  ForallOrdPairs R l1 -> ForallOrdPairs R l2 ->
  (forall a b, a ∈ l1 -> b ∈ l2 -> R a b) -> ForallOrdPairs R (l1 ++ l2).
Proof.
  induction 1 as [|a l1 Ha _ IH]; intros H2 Hx; [done|]. cbn. constructor.
  - apply Forall_app. split; [done|]. apply Forall_forall. intros b Hb. apply Hx; [left | done].
  - apply IH; [done|]. intros x y Hx' Hy. apply Hx; [by right | done].
Qed.

Lemma ForallOrdPairs_impl {A} (R R' : A -> A -> Prop) l :
  (forall a b, R a b -> R' a b) -> ForallOrdPairs R l -> ForallOrdPairs R' l.
Proof. intros HR. induction 1; constructor; [eapply Forall_impl; eauto | done]. Qed.

(** ** Rectangles *)

Lemma rect_disjoint_sym a b : rect_disjoint a b -> rect_disjoint b a.
Proof. unfold rect_disjoint. lia. Qed.

(** Disjoint rectangles have no point in common under [collidepoint]. *)
Lemma rect_disjoint_collide a b p :
  rect_disjoint a b -> collidepoint a p = true -> collidepoint b p = false.
Proof.
  unfold rect_disjoint, collidepoint. intros Hd Ha. apply bool_decide_eq_true in Ha.
  apply bool_decide_eq_false. lia.
Qed.

(** ** The error monad *)

Lemma ebind_inr {A B} (m : PyExc + A) (k : A -> PyExc + B) b :
  ebind m k = inr b <-> exists a, m = inr a /\ k a = inr b.
Proof. destruct m; cbn; naive_solver. Qed.

(** [if a > b then a else b], the running maximum of the code's loops. *)
Lemma gtb_max a b : (if Z.gtb a b then a else b) = Z.max a b.
Proof. destruct (Z.gtb_spec a b); lia. Qed.

(** Take apart hypotheses [x <-? m ;; k = inr b]. *)
(** The value of a call that returned, or [d]: names the result of a
    concrete run in the witnesses. *)
Definition ok_or {A} (d : A) (r : option (PyExc + A)) : A :=
  match r with Some (inr a) => a | _ => d end.

(** Equality of two closed terms by evaluation in the virtual machine:
    both sides are normalised, so that checking the proof evaluates each
    side once. *)
Ltac vm_refl := lazymatch goal with |- _ = _ => vm_compute; reflexivity end.

Ltac ebind_inv :=
  repeat match goal with
         | H : ebind _ _ = inr _ |- _ => apply ebind_inr in H as (? & ? & ?)
         end.

Lemma emap_inl {A B} (f : A -> PyExc + B) l e :
  emap f l = inl e -> Exists (fun x => f x = inl e) l.
Proof.
  induction l as [|x l IH]; cbn; [done|].
  destruct (f x) eqn:Hx; cbn; [intros [= ->]; by left|].
  destruct (emap f l); cbn; [intros [= ->]; right; auto | done].
Qed.

Lemma emap_Exists {A B} (f : A -> PyExc + B) l :
  Exists (fun x => exists e, f x = inl e) l -> exists e, emap f l = inl e.
Proof.
  induction 1 as [x l [e He]|x l _ [e IH]]; cbn.
  - rewrite He. by eexists.
  - destruct (f x); cbn; [by eexists|]. rewrite IH. by eexists.
Qed.

Lemma py_list_index_lookup {A} `{EqDecision A} (l : list A) k x :
  NoDup l -> l !! k = Some x -> py_list_index x l = inr k.
Proof.
  revert k. induction l as [|y l IH]; intros k Hnd Hk; [done|].
  apply NoDup_cons in Hnd as [Hy Hnd]. cbn. destruct k as [|k]; cbn in Hk.
  - injection Hk as ->. by rewrite decide_True.
  - rewrite decide_False; [by rewrite (IH k)|]. intros ->. apply Hy. by eapply list_elem_of_lookup_2.
Qed.

Lemma py_slice_ix_len (n : nat) : py_slice_ix n (Z.of_nat n) = n.
Proof. unfold py_slice_ix. rewrite (proj2 (Z.ltb_ge _ _)) by lia. rewrite Z.min_id. apply Nat2Z.id. Qed.

Lemma py_slice_all {A} (l : list A) : py_slice l 0 (Z.of_nat (length l)) = l.
Proof.
  unfold py_slice. rewrite py_slice_ix_len.
  assert (py_slice_ix (length l) 0 = 0%nat) as ->.
  { unfold py_slice_ix. cbn. rewrite Z.min_l by lia. done. }
  rewrite Nat.sub_0_r, drop_0, take_ge by lia. done.
Qed.

Lemma py_slice_from_end {A} (l : list A) : py_slice_from l (Z.of_nat (length l)) = [].
Proof. unfold py_slice_from. rewrite py_slice_ix_len. apply drop_all. Qed.

(** Python slices of a list at non-negative bounds are [take] and [drop]. *)
Lemma py_slice_ix_nonneg (n : nat) (a : Z) :
  (0 <= a)%Z -> py_slice_ix n a = Nat.min (Z.to_nat a) n.
Proof.
  intros Ha. unfold py_slice_ix. rewrite (proj2 (Z.ltb_ge _ _)) by lia.
  destruct (Z.le_ge_cases a (Z.of_nat n)); [rewrite Z.min_l, Nat.min_l | rewrite Z.min_r, Nat.min_r]; lia.
Qed.

Lemma py_slice_0 {A} (l : list A) (b : Z) : (0 <= b)%Z -> py_slice l 0 b = take (Z.to_nat b) l.
Proof.
  intros Hb. unfold py_slice. rewrite !py_slice_ix_nonneg by lia. cbn.
  rewrite drop_0, Nat.sub_0_r. destruct (Nat.le_ge_cases (Z.to_nat b) (length l)).
  - by rewrite Nat.min_l.
  - rewrite Nat.min_r, !take_ge by lia. done.
Qed.

Lemma py_slice_from_drop {A} (l : list A) (a : Z) : (0 <= a)%Z -> py_slice_from l a = drop (Z.to_nat a) l.
Proof.
  intros Ha. unfold py_slice_from. rewrite py_slice_ix_nonneg by done.
  destruct (Nat.le_ge_cases (Z.to_nat a) (length l)).
  - by rewrite Nat.min_l.
  - rewrite Nat.min_r, !drop_ge by lia. done.
Qed.

(** A [for] loop collecting results none of which raises. *)
Lemma emap_inr_map {A B} (f : A -> PyExc + B) (g : A -> B) l :
  (forall x, x ∈ l -> f x = inr (g x)) -> emap f l = inr (map g l).
Proof.
  induction l as [|x l IH]; intros Hf; cbn; [done|].
  rewrite Hf by constructor. cbn. rewrite IH; [done|]. intros y Hy. apply Hf. by constructor.
Qed.

Lemma py_index_nat {A} `{Inhabited A} (l : list A) (i : nat) :
  (i < length l)%nat -> py_index l (Z.of_nat i) = inr (l !!! i).
Proof.
  intros Hi. unfold py_index, py_get. rewrite (proj2 (Z.leb_le 0 _)) by lia.
  rewrite Nat2Z.id. destruct (lookup_lt_is_Some_2 l i Hi) as [x Hx].
  by rewrite Hx, (list_lookup_total_correct _ _ _ Hx).
Qed.

(** A negative index [-k] with [k <= len(l)] reads [l[len(l) - k]]. *)
Lemma py_index_neg {A} `{Inhabited A} (l : list A) (k : nat) :
  (0 < k <= length l)%nat -> py_index l (- Z.of_nat k) = inr (l !!! (length l - k)%nat).
Proof.
  intros Hk. unfold py_index, py_get.
  rewrite (proj2 (Z.leb_gt 0 _)), (proj2 (Z.leb_le _ _)) by lia.
  replace (Z.to_nat (Z.of_nat (length l) + - Z.of_nat k)) with (length l - k)%nat by lia.
  destruct (lookup_lt_is_Some_2 l (length l - k)%nat) as [x Hx]; [lia|].
  by rewrite Hx, (list_lookup_total_correct _ _ _ Hx).
Qed.

(** [for x in l: body(x)] keeps every property each pass keeps. *)
Lemma pfor_inv {S A} (P : S -> Prop) (l : list A) (body : A -> PyM S unit) s u s' :
  (forall x t t', x ∈ l -> P t -> body x t = inr (tt, t') -> P t') ->
  P s -> pfor l body s = inr (u, s') -> P s'.
Proof.
  revert s. induction l as [|x l IH]; intros s Hb Hs; cbn; [by intros [= _ <-]|].
  unfold pbind. destruct (body x s) as [e|[[] s1]] eqn:Hx; [done|].
  apply IH; [intros y t t' Hy; apply Hb; by constructor|]. eapply Hb; [constructor|done|done].
Qed.
