(* ===== verification/GL.v ===== *)
(** * GL: the OpenGL fixed-function state driven by PYGGEL

    PYGGEL draws through PyOpenGL/pyglet.  This file models the part of
    the GL state that [scene.py], [view.py] and [geometry.py] read or
    write: the enabled capabilities, the depth mask, the bound GLSL
    program, the projection and the depth of the modelview stack, and the
    framebuffer (depth and colour of every pixel).  Per-fragment
    operations follow the configuration [View.build_gl] installs once at
    start-up: alpha test [glAlphaFunc(GL_GEQUAL, .5)], depth test
    [glDepthFunc(GL_LEQUAL)], blending
    [glBlendFunc(GL_SRC_ALPHA, GL_ONE_MINUS_SRC_ALPHA)].  Rasterisation
    itself (which pixels a display list covers, at which depth and
    colour) is an input: a coverage function from pixels to optional
    fragments.  Floats are modelled exactly as rationals. *)

From stdpp Require Import base countable gmap sets list.
From Stdlib Require Import QArith ZArith Lia.
From S2P Require Import Prelude.

Local Open Scope nat_scope.

Record Color := RGBA { cr : Q; cg : Q; cb : Q; ca : Q }.

(** Python compares colour tuples with [!=]: componentwise float equality. *)
Definition color_eqb (c d : Color) : bool :=
  Qeq_bool (cr c) (cr d) && Qeq_bool (cg c) (cg d) &&
  Qeq_bool (cb c) (cb d) && Qeq_bool (ca c) (ca d).

Record Frag := { frag_depth : Q; frag_color : Color }.
Record Pixel := { px_depth : Q; px_color : Color }.

Inductive Cap :=
| GL_DEPTH_TEST | GL_ALPHA_TEST | GL_LIGHTING | GL_BLEND | GL_TEXTURE_2D
| GL_FOG | GL_SCISSOR_TEST | GL_CULL_FACE | GL_COLOR_MATERIAL | GL_NORMALIZE
| GL_LIGHT (n : nat).

#[export] Instance Cap_eq_dec : EqDecision Cap.
Proof. solve_decision. Defined.

Definition cap_code (c : Cap) : nat :=
  match c with
  | GL_DEPTH_TEST => 0 | GL_ALPHA_TEST => 1 | GL_LIGHTING => 2 | GL_BLEND => 3
  | GL_TEXTURE_2D => 4 | GL_FOG => 5 | GL_SCISSOR_TEST => 6 | GL_CULL_FACE => 7
  | GL_COLOR_MATERIAL => 8 | GL_NORMALIZE => 9 | GL_LIGHT n => 10 + n
  end.

Definition cap_decode (n : nat) : option Cap :=
  match n with
  | 0 => Some GL_DEPTH_TEST | 1 => Some GL_ALPHA_TEST | 2 => Some GL_LIGHTING
  | 3 => Some GL_BLEND | 4 => Some GL_TEXTURE_2D | 5 => Some GL_FOG
  | 6 => Some GL_SCISSOR_TEST | 7 => Some GL_CULL_FACE | 8 => Some GL_COLOR_MATERIAL
  | 9 => Some GL_NORMALIZE | S (S (S (S (S (S (S (S (S (S n))))))))) => Some (GL_LIGHT n)
  end.

#[export] Instance Cap_countable : Countable Cap.
Proof.
  apply (inj_countable' cap_code (fun n => default GL_DEPTH_TEST (cap_decode n))).
  intros []; reflexivity.
Defined.

(** The projection installed by [set3d] / [set2d]. *)
Inductive Proj :=
| NoProj
| Perspective (angle : Q) (w h : Z) (near far : Q)
| Ortho (w h : Z).

Record GLState := mkGL {
  caps : gset Cap;
  depth_mask : bool;
  program : nat;                (** [glUseProgram]: 0 is the fixed pipeline *)
  proj : Proj;
  mv_depth : nat;               (** pushed modelview matrices *)
  fb : Z -> Z -> Pixel;         (** depth and colour buffer *)
}.

Module GLOps.
Definition set_caps (cs : gset Cap) (s : GLState) : GLState :=
  mkGL cs (depth_mask s) (program s) (proj s) (mv_depth s) (fb s).

Definition glEnable (c : Cap) (s : GLState) : GLState := set_caps ({[c]} ∪ caps s) s.
Definition glDisable (c : Cap) (s : GLState) : GLState := set_caps (caps s ∖ {[c]}) s.
Definition enabled (c : Cap) (s : GLState) : bool := bool_decide (c ∈ caps s).

Definition glDepthMask (b : bool) (s : GLState) : GLState :=
  mkGL (caps s) b (program s) (proj s) (mv_depth s) (fb s).

Definition glUseProgram (p : nat) (s : GLState) : GLState :=
  mkGL (caps s) (depth_mask s) p (proj s) (mv_depth s) (fb s).

Definition set_proj (p : Proj) (s : GLState) : GLState :=
  mkGL (caps s) (depth_mask s) (program s) p (mv_depth s) (fb s).

Definition glPushMatrix (s : GLState) : GLState :=
  mkGL (caps s) (depth_mask s) (program s) (proj s) (S (mv_depth s)) (fb s).

(** Popping the base matrix is GL_STACK_UNDERFLOW: the command is ignored. *)
Definition glPopMatrix (s : GLState) : GLState :=
  mkGL (caps s) (depth_mask s) (program s) (proj s) (Nat.pred (mv_depth s)) (fb s).

Definition set_fb (f : Z -> Z -> Pixel) (s : GLState) : GLState :=
  mkGL (caps s) (depth_mask s) (program s) (proj s) (mv_depth s) f.

(** [glClear(GL_DEPTH_BUFFER_BIT | GL_COLOR_BUFFER_BIT)]: depth 1, clear colour. *)
Definition glClear (clear : Color) (s : GLState) : GLState :=
  set_fb (fun _ _ => {| px_depth := 1%Q; px_color := clear |}) s.

(** [glReadPixelsf(x, y, 1, 1, GL_DEPTH_COMPONENT)] and [GL_RGBA]. *)
Definition read_depth (x y : Z) (s : GLState) : Q := px_depth (fb s x y).
Definition read_color (x y : Z) (s : GLState) : Color := px_color (fb s x y).

(** [glBlendFunc(GL_SRC_ALPHA, GL_ONE_MINUS_SRC_ALPHA)] on every channel. *)
Definition blend (src dst : Color) : Color :=
  let a := ca src in
  let mix (x y : Q) := (x * a + y * (1 - a))%Q in
  RGBA (mix (cr src) (cr dst)) (mix (cg src) (cg dst))
       (mix (cb src) (cb dst)) (mix (ca src) (ca dst)).

(** Per-fragment operations on one pixel: alpha test (GEQUAL 0.5),
    depth test (LEQUAL), blending, and the depth write, which happens
    only when the depth test is enabled and the mask is set. *)
Definition draw_pixel (s : GLState) (f : option Frag) (p : Pixel) : Pixel :=
  match f with
  | None => p
  | Some fr =>
      if enabled GL_ALPHA_TEST s && Qltb (ca (frag_color fr)) (1 # 2)%Q then p
      else if enabled GL_DEPTH_TEST s && negb (Qle_bool (frag_depth fr) (px_depth p)) then p
      else {| px_depth := if enabled GL_DEPTH_TEST s && depth_mask s
                          then frag_depth fr else px_depth p;
              px_color := if enabled GL_BLEND s
                          then blend (frag_color fr) (px_color p) else frag_color fr |}
  end.

(** Drawing a display list whose rasterisation is [cov]. *)
Definition gl_draw (cov : Z -> Z -> option Frag) (s : GLState) : GLState :=
  set_fb (fun x y => draw_pixel s (cov x y) (fb s x y)) s.
End GLOps.
Export GLOps.

(** ** Facts about the GL operations *)

(** A matrix push and pop around a draw leave only the draw. *)
Lemma gl_draw_push_pop cov s :
  glPopMatrix (gl_draw cov (glPushMatrix s)) = gl_draw cov s.
Proof. destruct s; reflexivity. Qed.

(** Drawing with the depth mask off, or with the depth test off, never
    changes a pixel's depth. *)
Lemma draw_pixel_depth_kept s f p :
  (depth_mask s = false \/ enabled GL_DEPTH_TEST s = false) ->
  px_depth (draw_pixel s f p) = px_depth p.
Proof.
  intros Hm. destruct f as [fr|]; simpl; [|done].
  destruct (_ && _); [done|]. destruct (_ && negb _); [done|]. simpl.
  destruct Hm as [-> | ->]; by rewrite ?andb_false_r.
Qed.

Lemma color_eqb_spec c d :
  color_eqb c d = true <->
  (cr c == cr d /\ cg c == cg d /\ cb c == cb d /\ ca c == ca d)%Q.
Proof.
  unfold color_eqb. rewrite !andb_true_iff, !Qeq_bool_iff. tauto.
Qed.

Lemma color_eqb_refl c : color_eqb c c = true.
Proof. apply color_eqb_spec. split_and!; reflexivity. Qed.

Lemma color_eqb_trans a b c :
  color_eqb a b = true -> color_eqb b c = true -> color_eqb a c = true.
Proof.
  rewrite !color_eqb_spec. intros (?&?&?&?) (?&?&?&?).
  split_and!; eapply Qeq_trans; eauto.
Qed.

Lemma color_eqb_sym a b : color_eqb a b = color_eqb b a.
Proof.
  apply Bool.eq_iff_eq_true. rewrite !color_eqb_spec.
  split; intros (?&?&?&?); split_and!; by symmetry.
Qed.

(** Comparing against two equal colours gives the same answer. *)
Lemma color_eqb_compat a b c :
  color_eqb a b = true -> color_eqb c a = color_eqb c b.
Proof.
  intros Hab. apply Bool.eq_iff_eq_true. split; intros H.
  - by apply (color_eqb_trans _ a).
  - apply (color_eqb_trans _ b); [done|]. by rewrite color_eqb_sym.
Qed.

(** ** Which GL calls change the enabled capabilities *)

Create Rewrite HintDb gl_caps.

Lemma caps_set_caps cs s : caps (set_caps cs s) = cs.
Proof. reflexivity. Qed.
Lemma caps_glEnable c s : caps (glEnable c s) = {[c]} ∪ caps s.
Proof. reflexivity. Qed.
Lemma caps_glDisable c s : caps (glDisable c s) = caps s ∖ {[c]}.
Proof. reflexivity. Qed.
Lemma caps_glDepthMask b s : caps (glDepthMask b s) = caps s.
Proof. reflexivity. Qed.
Lemma caps_glUseProgram p s : caps (glUseProgram p s) = caps s.
Proof. reflexivity. Qed.
Lemma caps_glPushMatrix s : caps (glPushMatrix s) = caps s.
Proof. reflexivity. Qed.
Lemma caps_glPopMatrix s : caps (glPopMatrix s) = caps s.
Proof. reflexivity. Qed.
Lemma caps_set_proj p s : caps (set_proj p s) = caps s.
Proof. reflexivity. Qed.
Lemma caps_gl_draw cov s : caps (gl_draw cov s) = caps s.
Proof. reflexivity. Qed.

#[export] Hint Rewrite caps_set_caps caps_glEnable caps_glDisable caps_glDepthMask
  caps_glUseProgram caps_glPushMatrix caps_glPopMatrix caps_set_proj caps_gl_draw : gl_caps.
