(* ===== verification/Math3d.v ===== *)
(** * Math3d: vectors and collision volumes of [src/pyggel/math3d.py]

    [Vector] with its arithmetic (lines 23-174), and the collision
    volumes [Sphere] and [AABox] (lines 176-252) whose [collide] methods
    dispatch on the class attribute [ctype].  Components are Python
    floats, modelled as exact rationals; the methods that take square
    roots, sines or arc cosines ([distance], [magnitude], [length],
    [normalize], [angle], [rotate], [move_with_rotation],
    [get_distance]) and [__pow__] are not modelled. *)

From stdpp Require Import base list.
From Stdlib Require Import QArith Qabs Qfield Lqa Bool.
From S2P Require Import Prelude.

Record Vec := mkVec { vx : Q; vy : Q; vz : Q }.

(** A collision volume, by its [ctype]. *)
Inductive Body :=
| BVector (p : Vec)                       (** ["Vector"] *)
| BSphere (p : Vec) (radius : Q)          (** ["Sphere"] *)
| BAABox (p : Vec) (width height depth : Q). (** ["AABox"], half-extents *)

Module VectorOps.
Definition vsub (a b : Vec) : Vec := mkVec (vx a - vx b) (vy a - vy b) (vz a - vz b).
Definition vadd (a b : Vec) : Vec := mkVec (vx a + vx b) (vy a + vy b) (vz a + vz b).
Definition vmul (a b : Vec) : Vec := mkVec (vx a * vx b) (vy a * vy b) (vz a * vz b).
Definition invert (a : Vec) : Vec := mkVec (- vx a) (- vy a) (- vz a).
Definition vabs (a : Vec) : Vec := mkVec (Qabs (vx a)) (Qabs (vy a)) (Qabs (vz a)).

(** [x if (a and b) else 0]: a component is divided only when both
    are non-zero. *)
Definition qdiv_guard (a b : Q) : Q :=
  if negb (Qeq_bool a 0) && negb (Qeq_bool b 0) then a / b else 0.
Definition vdiv (a b : Vec) : Vec :=
  mkVec (qdiv_guard (vx a) (vx b)) (qdiv_guard (vy a) (vy b)) (qdiv_guard (vz a) (vz b)).

(** [Vector.__eq__] and [__nonzero__]. *)
Definition veq (a b : Vec) : bool :=
  Qeq_bool (vx a) (vx b) && Qeq_bool (vy a) (vy b) && Qeq_bool (vz a) (vz b).
Definition nonzero (a : Vec) : bool := negb (veq a (mkVec 0 0 0)).

(** [Vector.dot]: the sum of the components of [self * other]. *)
Definition vdot (a b : Vec) : Q := let x := vmul a b in vx x + vy x + vz x.

Definition cross (a b : Vec) : Vec :=
  mkVec (vy a * vz b - vz a * vy b) (vz a * vx b - vx a * vz b) (vx a * vy b - vy a * vx b).

(** [Vector.perpendicular]: the cross product with [(-y, x, z)]. *)
Definition perpendicular (a : Vec) : Vec := cross a (mkVec (- vy a) (vx a) (vz a)).

Definition fast_distance (a b : Vec) : Q :=
  let n := vsub a b in vx n ^ 2 + vy n ^ 2 + vz n ^ 2.
Definition fast_length (a : Vec) : Q := fast_distance a (mkVec 0 0 0).

(** The augmented assignments [__iadd__], [__isub__], [__imul__] and
    [__idiv__] update the object in place and return [None], which
    Python then binds to the assigned name: the new state of the object
    and the value of [v += w]. *)
Definition iadd (a b : Vec) : Vec * option Vec := (vadd a b, None).
Definition isub (a b : Vec) : Vec * option Vec := (vsub a b, None).
Definition imul (a b : Vec) : Vec * option Vec := (vmul a b, None).
Definition idiv (a b : Vec) : Vec * option Vec := (vdiv a b, None).

(** [__rsub__] and [__rdiv__] are called for [other - v] and
    [other / v] when [other] cannot subtract or divide a vector; their
    bodies evaluate the same expression again, which calls them again
    until the recursion limit. *)
Definition rsub (other : Q) (a : Vec) : PyExc + Vec := inl RuntimeError.
Definition rdiv (other : Q) (a : Vec) : PyExc + Vec := inl RuntimeError.
End VectorOps.
Export VectorOps.

Module Collide.
(** [AABox.__init__]: a size triple, or one number for all three. *)
Definition new_aabox (pos : Vec) (size : Q + Q * Q * Q) : Body :=
  match size with
  | inl s => BAABox pos s s s
  | inr (w, h, d) => BAABox pos w h d
  end.

(** [left <= q.x <= right and bottom <= q.y <= top and front <= q.z <= back]
    for the box of centre [p] grown by [g] on every side. *)
Definition in_box (p : Vec) (w h d g : Q) (q : Vec) : bool :=
  Qle_bool (vx p - w - g) (vx q) && Qle_bool (vx q) (vx p + w + g) &&
  Qle_bool (vy p - h - g) (vy q) && Qle_bool (vy q) (vy p + h + g) &&
  Qle_bool (vz p - d - g) (vz q) && Qle_bool (vz q) (vz p + d + g).

(** The eight [points] of [AABox.collide], in the source's order. *)
Definition box_corners (p : Vec) (w h d : Q) : list Vec :=
  let l := vx p - w in let r := vx p + w in
  let b := vy p - h in let t := vy p + h in
  let f := vz p - d in let k := vz p + d in
  [mkVec l b f; mkVec r b f; mkVec r t f; mkVec l t f;
   mkVec l b k; mkVec r b k; mkVec r t k; mkVec l t k].

(** [AABox.collide] (lines 200-252). *)
Definition box_collide (p : Vec) (w h d : Q) (o : Body) : bool :=
  match o with
  | BVector q => in_box p w h d 0 q
  | BSphere q r => in_box p w h d r q
  | BAABox q w' h' d' =>
      existsb (in_box q w' h' d' 0) (box_corners p w h d) ||
      existsb (in_box p w h d 0) (box_corners q w' h' d')
  end.

(** [Sphere.collide] (lines 182-188). *)
Definition sphere_collide (c : Vec) (r : Q) (o : Body) : bool :=
  match o with
  | BVector q => Qle_bool (fast_distance q c) (r ^ 2)
  | BSphere q r' => Qle_bool (fast_distance q c) ((r + r') ^ 2)
  | BAABox q w h d => box_collide q w h d (BSphere c r)
  end.

(** [collide], dispatched on the receiver's class; [Vector.collide]
    (lines 170-174) hands anything but a vector to the other volume. *)
Definition collide (a b : Body) : bool :=
  match a with
  | BVector p =>
      match b with
      | BVector q => veq p q
      | BSphere q r => sphere_collide q r (BVector p)
      | BAABox q w h d => box_collide q w h d (BVector p)
      end
  | BSphere c r => sphere_collide c r b
  | BAABox p w h d => box_collide p w h d b
  end.
End Collide.
Export Collide.

(** ** Theorems *)

Lemma Qle_bool_compat x x' y y' : x == x' -> y == y' -> Qle_bool x y = Qle_bool x' y'.
Proof.
  intros Hx Hy. apply Bool.eq_iff_eq_true. rewrite !Qle_bool_iff. rewrite Hx, Hy. done.
Qed.

Lemma veq_sym a b : veq a b = veq b a.
Proof.
  unfold veq. rewrite (Qeq_bool_comm (vx a)), (Qeq_bool_comm (vy a)), (Qeq_bool_comm (vz a)).
  done.
Qed.

Lemma fast_distance_sym a b : fast_distance a b == fast_distance b a.
Proof. unfold fast_distance, vsub. cbn. ring. Qed.

(** Collision is symmetric: whichever volume receives [collide],
    the answer is the same, because [Vector.collide] and
    [Sphere.collide] hand the pairs they do not handle to the other
    volume and the pair tests are themselves symmetric. *)
Theorem collide_sym a b : collide a b = collide b a.
Proof.
  destruct a as [p|p r|p w h d], b as [q|q r'|q w' h' d']; cbn -[in_box box_corners];
    try reflexivity.
  - apply veq_sym.
  - apply Qle_bool_compat; [apply fast_distance_sym | ring].
  - apply orb_comm.
Qed.

Lemma corners_in_box p w h d :
  0 <= w -> 0 <= h -> 0 <= d -> Forall (fun c => in_box p w h d 0 c = true) (box_corners p w h d).
Proof.
  intros Hw Hh Hd. unfold box_corners, in_box.
  repeat constructor; cbn; rewrite !andb_true_iff, !Qle_bool_iff; split_and!; lra.
Qed.

(** The box-box test of [AABox.collide] (lines 218-250) is sound:
    when it reports a collision, a corner of one box lies in the other,
    so the boxes share a point. *)
Theorem box_collide_sound p w h d q w' h' d' :
  0 <= w -> 0 <= h -> 0 <= d -> 0 <= w' -> 0 <= h' -> 0 <= d' ->
  collide (BAABox p w h d) (BAABox q w' h' d') = true ->
  exists x, in_box p w h d 0 x = true /\ in_box q w' h' d' 0 x = true.
Proof.
  intros Hw Hh Hd Hw' Hh' Hd'. cbn -[in_box box_corners].
  rewrite orb_true_iff, !existsb_exists. intros [(x & Hx & Hin)|(x & Hx & Hin)]; exists x.
  - split; [|done]. apply list_elem_of_In in Hx.
    exact (proj1 (Forall_forall _ _) (corners_in_box p w h d Hw Hh Hd) x Hx).
  - split; [done|]. apply list_elem_of_In in Hx.
    exact (proj1 (Forall_forall _ _) (corners_in_box q w' h' d' Hw' Hh' Hd') x Hx).
Qed.

Lemma box_collide_sound_witness :
  exists x, in_box (mkVec 0 0 0) 1 1 1 0 x = true /\ in_box (mkVec 1 1 1) 1 1 1 0 x = true.
Proof.
  apply (box_collide_sound (mkVec 0 0 0) 1 1 1 (mkVec 1 1 1) 1 1 1); try lra.
  vm_compute. reflexivity.
Defined.

(** But the test only looks at corners, so it misses boxes that
    cross without either holding a corner of the other: a box 4 wide
    and a box 4 tall, both centred at the origin, share the origin and
    [collide] says they do not collide. *)
Theorem box_collide_misses_cross :
  collide (BAABox (mkVec 0 0 0) 2 1 1) (BAABox (mkVec 0 0 0) 1 2 1) = false /\
  in_box (mkVec 0 0 0) 2 1 1 0 (mkVec 0 0 0) = true /\
  in_box (mkVec 0 0 0) 1 2 1 0 (mkVec 0 0 0) = true.
Proof. split_and!; vm_compute; reflexivity. Qed.

(** [Vector.perpendicular] (lines 38-39) returns a vector
    orthogonal to [v], but the zero vector for every [v] along the z
    axis, so it does not always give a direction perpendicular to [v]. *)
Theorem perpendicular_orthogonal v z :
  vdot (perpendicular v) v == 0 /\
  veq (perpendicular (mkVec 0 0 z)) (mkVec 0 0 0) = true.
Proof.
  split.
  - unfold vdot, perpendicular, cross, vmul. cbn. ring.
  - unfold veq, perpendicular, cross. cbn. rewrite !andb_true_iff, !Qeq_bool_iff.
    split_and!; ring.
Qed.
