(* ===== verification/Data.v ===== *)
(** * Data: textures of [src/trunk/pyggel/data.py] and of the pyglet branch

    [Texture._get_next_biggest] (both versions, identical) grows 16 by
    doubling until it reaches the image size; [Texture.__init__] and
    [_compile] record the padded size.  The trunk version ignores its
    [flip] argument.  The branch's [create_empty_texture] and the
    flattening loops of [VertexArray.render] are modelled as the data
    conversions they are; the GL uploads are not observable here. *)

From stdpp Require Import base list.
From Stdlib Require Import ZArith Lia QArith.
From S2P Require Import Prelude.

Local Open Scope Z_scope.

Module TextureOps.
(** [while nw < x: nw *= 2], with [fuel] iterations at most. *)
Fixpoint grow (fuel : nat) (n x : Z) : option Z :=
  if n <? x then
    match fuel with
    | O => None
    | S f => grow f (2 * n) x
    end
  else Some n.

(** [Texture._get_next_biggest(x, y)] (trunk lines 25-32, branch
    lines 33-41); the image sides bound the number of doublings. *)
Definition get_next_biggest (x y : Z) : option (Z * Z) :=
  match grow (Z.to_nat x) 16 x, grow (Z.to_nat y) 16 y with
  | Some w, Some h => Some (w, h)
  | _, _ => None
  end.

(** Where a texture's pixels come from: an image file (its size once
    loaded) or a [pygame.Surface]. *)
Inductive TexSource := FromFile (name : nat) (w h : Z) | FromSurface (w h : Z).

Record Texture := mkTexture {
  tex_filename : option nat;
  tex_flip : Z;
  tex_size : Z * Z;
  tex_gl : nat;
}.

Definition source_size (src : TexSource) : Z * Z :=
  match src with FromFile _ w h => (w, h) | FromSurface w h => (w, h) end.

(** [Texture.__init__] and [_compile] of the trunk (lines 10-57):
    [self.flip = 0] whatever [flip] is. *)
Definition new_texture (src : TexSource) (flip : Z) (gl_tex : nat) : option Texture :=
  let '(w, h) := source_size src in
  match get_next_biggest w h with
  | Some size =>
      Some (mkTexture (match src with FromFile n _ _ => Some n | FromSurface _ _ => None end)
                      0 size gl_tex)
  | None => None
  end.

(** The branch's constructor (lines 14-31) keeps [flip]. *)
Definition new_texture_branch (src : TexSource) (flip : Z) (gl_tex : nat) : option Texture :=
  match new_texture src flip gl_tex with
  | Some t => Some (mkTexture (tex_filename t) flip (tex_size t) (tex_gl t))
  | None => None
  end.

(** [create_empty_texture] (branch lines 186-201): the fill colour in
    0-255; a colour of three components gets alpha 1, one of another
    length fails to unpack. *)
Definition empty_texture_fill (color : list Q) : PyExc + (Q * Q * Q * Q) :=
  match color with
  | [r; g; b; a] => inr (r * 255, g * 255, b * 255, a * 255)%Q
  | [r; g; b] => inr (r * 255, g * 255, b * 255, 1 * 255)%Q
  | _ => inl ValueError
  end.

(** The loops of [VertexArray.render] (branch lines 140-174): the
    components of each row, [None] read as 0.0, one after another. *)
Definition flatten_rows (rows : list (list (option Q))) : list Q :=
  concat (map (map (fun c => match c with Some q => q | None => 0%Q end)) rows).
End TextureOps.
Export TextureOps.

(** The least [16 * 2 ^ k] that is at least [x]. *)
Definition next_pow2_spec (x r : Z) : Prop :=
  exists k, r = 16 * 2 ^ k /\ x <= r /\ (k = 0 \/ 16 * 2 ^ (k - 1) < x) /\ 0 <= k.

(** ** Theorems *)

(** The doubling loop, given enough iterations, stops at the least
    [n * 2 ^ k] that reaches [x]. *)
Lemma grow_spec fuel n x :
  0 < n -> x <= n * 2 ^ Z.of_nat fuel ->
  exists k, grow fuel n x = Some (n * 2 ^ k) /\ x <= n * 2 ^ k /\
            (k = 0 \/ n * 2 ^ (k - 1) < x) /\ 0 <= k.
Proof.
  revert n. induction fuel as [|f IH]; intros n Hn Hx; cbn [grow].
  - exists 0. cbn in Hx. rewrite Z.mul_1_r in Hx |- *.
    rewrite (proj2 (Z.ltb_ge _ _)) by lia. split_and!; [done|lia|by left|lia].
  - destruct (n <? x) eqn:E.
    + apply Z.ltb_lt in E.
      destruct (IH (2 * n)) as (k & Hg & Hle & Hmin & Hk); [lia| |].
      { rewrite Nat2Z.inj_succ, Z.pow_succ_r in Hx by lia. lia. }
      exists (k + 1). rewrite Z.pow_add_r, Z.pow_1_r by lia.
      replace (n * (2 ^ k * 2)) with (2 * n * 2 ^ k) by ring.
      split_and!; [done|done| |lia]. right. replace (k + 1 - 1) with k by lia.
      destruct (Z.eq_dec k 0) as [->|Hk0]; [cbn; lia|].
      destruct Hmin as [->|Hmin]; [lia|].
      replace (2 * n * 2 ^ (k - 1)) with (n * 2 ^ k) in Hmin; [done|].
      replace k with (k - 1 + 1) at 1 by lia. rewrite Z.pow_add_r, Z.pow_1_r by lia. ring.
    + apply Z.ltb_ge in E. exists 0. rewrite Z.mul_1_r.
      split_and!; [done|lia|by left|lia].
Qed.

Lemma grow_enough_fuel x : x <= 16 * 2 ^ Z.of_nat (Z.to_nat x).
Proof.
  destruct (Z_le_gt_dec 0 x).
  - rewrite Z2Nat.id by done. pose proof (Z.pow_gt_lin_r 2 x ltac:(lia) l). lia.
  - cbn. lia.
Qed.

(** [Texture._get_next_biggest] (trunk lines 25-32, branch lines
    33-41) terminates on every image size and returns, per side, the
    least [16 * 2 ^ k] that is at least the side, which is less than
    twice the side when the side exceeds 16. *)
Theorem next_biggest_spec x y :
  exists w h, get_next_biggest x y = Some (w, h) /\
    next_pow2_spec x w /\ next_pow2_spec y h /\
    w < 2 * Z.max 16 x /\ h < 2 * Z.max 16 y.
Proof.
  unfold get_next_biggest.
  destruct (grow_spec (Z.to_nat x) 16 x) as (k & -> & Hx & Hmx & Hk);
    [lia|apply grow_enough_fuel|].
  destruct (grow_spec (Z.to_nat y) 16 y) as (j & -> & Hy & Hmy & Hj);
    [lia|apply grow_enough_fuel|].
  eexists _, _. split; [reflexivity|].
  assert (Hpow : forall i, 0 <= i -> 16 * 2 ^ i = 2 * (16 * 2 ^ (i - 1)) \/ i = 0).
  { intros i Hi. destruct (Z.eq_dec i 0) as [->|Hne]; [by right|left].
    replace i with (i - 1 + 1) at 1 by lia. rewrite Z.pow_add_r, Z.pow_1_r by lia. ring. }
  split_and!; [exists k; by split_and! | exists j; by split_and! | |].
  - destruct Hmx as [->|Hmx]; [cbn; lia|]. destruct (Hpow k Hk) as [E| ->]; [rewrite E|]; cbn; lia.
  - destruct Hmy as [->|Hmy]; [cbn; lia|]. destruct (Hpow j Hj) as [E| ->]; [rewrite E|]; cbn; lia.
Qed.

(** A trunk texture ([Texture.__init__], lines 10-23) gets the
    padded size of its image and always [flip = 0], whatever [flip]
    the caller passed; the pyglet branch keeps the caller's [flip]. *)
Theorem texture_flip_ignored src flip g :
  exists t, new_texture src flip g = Some t /\ tex_flip t = 0 /\
    get_next_biggest (fst (source_size src)) (snd (source_size src)) = Some (tex_size t) /\
    exists t', new_texture_branch src flip g = Some t' /\ tex_flip t' = flip /\
               tex_size t' = tex_size t.
Proof.
  unfold new_texture_branch, new_texture. destruct (source_size src) as [w h] eqn:Es.
  destruct (next_biggest_spec w h) as (a & b & Hg & _). cbn [fst snd]. rewrite Hg.
  eexists. split_and!; [reflexivity|done|done|]. by eexists.
Qed.
