(* ===== verification/Font.v ===== *)
(** * Font: text images of [src/trunk/pyggel/font.py]

    [Font.make_text_image] renders a text with pygame into one image;
    [MEFont] keeps one glyph image per acceptable character and a
    dictionary of "smileys" (named images), and [MEFontImage] lays the
    glyphs of a text out line by line.  Texts are Python 2 byte strings,
    modelled as [list ascii].  pygame's font is the record [PgFont] of the
    two measures the code reads ([size] of a rendered text and
    [get_height]); images ([image.Image], not among the sources) are
    [Img] records of their size, position and colour, and [copy] of an
    image is the same record in a fresh object.

    The smiley search of [make_list_of_glyphs_and_smileys] is a
    [while 1] loop; [scan_smiley] runs it with fuel, and the fuel
    [S (length text)] that [smiley_positions] gives it is enough for
    every non-empty smiley name.  A Python call that does not return is
    the value [None] of [option (PyExc + A)]. *)

From stdpp Require Import base list gmap strings.
From Stdlib Require Import ZArith QArith Lia Ascii.
From Stdlib Require String.
From S2P Require Import Prelude GL.

Local Open Scope nat_scope.

Definition pystr := list ascii.

(** ["\n"] *)
Definition nl : ascii := Ascii.ascii_of_nat 10.

(** An [image.Image]: size, position and [colorize]. *)
Record Img := mkImg { img_w : Z; img_h : Z; img_pos : Z * Z; img_col : Color }.

Definition set_img_pos (p : Z * Z) (g : Img) : Img := mkImg (img_w g) (img_h g) p (img_col g).
Definition set_img_col (c : Color) (g : Img) : Img := mkImg (img_w g) (img_h g) (img_pos g) c.

(** The rectangle [Rect(pos, get_size())] of an image. *)
Definition img_rect (g : Img) : Rect :=
  mkRect (fst (img_pos g)) (snd (img_pos g)) (img_w g) (img_h g).

(** [image.Image]'s default [colorize]. *)
Definition white : Color := RGBA 1 1 1 1.

(** [pygame.font.Font]: [size(text)] is the size of the surface
    [render(text, ...)] returns; [get_height()]. *)
Record PgFont := mkPgFont { pf_size : pystr -> Z * Z; pf_height : Z }.

Module TextOps.

(** [str.find(sub, start)]: the least index at or after [start] where
    [sub] occurs, [-1] (here [None]) when there is none or [start] is
    past the end. *)
Fixpoint is_prefix (p t : pystr) : bool :=
  match p, t with
  | [], _ => true
  | a :: p', b :: t' => bool_decide (a = b) && is_prefix p' t'
  | _ :: _, [] => false
  end.

Fixpoint find_from (sub t : pystr) (i : nat) : option nat :=
  if is_prefix sub t then Some i
  else match t with [] => None | _ :: t' => find_from sub t' (S i) end.

Definition py_find (sub t : pystr) (start : nat) : option nat :=
  if decide (start <= length t) then find_from sub (drop start t) start else None.

(** [text.split("\n")]. *)
Fixpoint split_nl (t : pystr) : list pystr :=
  match t with
  | [] => [[]]
  | c :: r =>
      if decide (c = nl) then [] :: split_nl r
      else match split_nl r with l :: ls => (c :: l) :: ls | [] => [[c]] end
  end.

End TextOps.
Export TextOps.

Module FontOps.

(** [Font.make_text_image] (lines 28-54): a text with a newline is
    rendered line by line into a surface as wide as the widest line and
    [get_height()] high per line. *)
Definition make_text_image (f : PgFont) (text : pystr) (color : Color) : Img :=
  if decide (nl ∈ text) then
    let lines := split_nl text in
    let h := pf_height f in
    let w := fold_left (fun w i => let nw := fst (pf_size f i) in
                                   if Z.gtb nw w then nw else w) lines 0%Z in
    let tot := fold_left (fun tot _ => (tot + h)%Z) lines 0%Z in
    mkImg w tot (0, 0)%Z color
  else mkImg (fst (pf_size f text)) (snd (pf_size f text)) (0, 0)%Z color.

End FontOps.

(** ** [MEFont] *)

Record MEFont := mkMEFont {
  me_font : PgFont;
  (** [self.smileys], in the dictionary's iteration order *)
  smileys : list (pystr * Img);
  me_glyphs : gmap ascii Img;
  acceptable : pystr;
}.

(** The characters of [MEFont.acceptable] (line 251); character 34 is
    the double quote. *)
Definition acceptable_chars : pystr :=
  String.list_ascii_of_string
    "abcdefghijklmnopqrstuvwxyzABCDEFGHIJKLMNOPQRSTUVWXYZ`1234567890-=+_)(*&^%$#@!~[]\;',./<>?:"%string
  ++ [Ascii.ascii_of_nat 34] ++ String.list_ascii_of_string "{}| "%string.

(** A glyph holds one item of a laid-out text: a glyph or smiley image,
    or the ["\n"] that ends a line. *)
Inductive GItem := GGlyph (g : Img) | GNewline.

(** [MEFontImage]: [glyphs] is the list of lines, each with its glyph
    images and its height; [_comp_glyphs] lists the same image objects
    in drawing order. *)
Record MEFontImage := mkMEImage {
  fontobj : MEFont;
  rotation : Q * Q * Q;
  scale : Q;
  me_visible : bool;
  _pos : Z * Z;
  _colorize : Color;
  glyphs : list (list Img * Z);
  _comp_glyphs : list Img;
  _text : pystr;
}.

Module MEFontOps.

(** [MEFont._load_font] (lines 265-273): one image per acceptable
    character. *)
Definition glyph_image (f : PgFont) (c : ascii) : Img :=
  mkImg (fst (pf_size f [c])) (snd (pf_size f [c])) (0, 0)%Z white.

Definition load_glyphs (f : PgFont) : gmap ascii Img :=
  fold_left (fun L i => <[i := glyph_image f i]> L) acceptable_chars ∅.

(** [MEFont.__init__] (lines 241-253). *)
Definition new_mefont (f : PgFont) : MEFont :=
  mkMEFont f [] (load_glyphs f) acceptable_chars.

(** [MEFont.add_smiley] (lines 255-263) with an image: the dictionary
    assignment replaces the value of a name already there in place and
    adds a new name at the end. *)
Fixpoint dict_set {V} (k : pystr) (v : V) (d : list (pystr * V)) : list (pystr * V) :=
  match d with
  | [] => [(k, v)]
  | (k', v') :: d' => if decide (k = k') then (k, v) :: d' else (k', v') :: dict_set k v d'
  end.

Definition add_smiley (fo : MEFont) (name : pystr) (smiley : Img) : MEFont :=
  mkMEFont (me_font fo) (dict_set name smiley (smileys fo)) (me_glyphs fo) (acceptable fo).

(** [d[k]] *)
Fixpoint dict_get {V} (d : list (pystr * V)) (k : pystr) : PyExc + V :=
  match d with
  | [] => inl KeyError
  | (k', v) :: d' => if decide (k = k') then inr v else dict_get d' k
  end.

(** The [while 1] loop of lines 159-165 for one smiley name [s]. *)
Fixpoint scan_smiley (fuel : nat) (s text : pystr) (last : nat)
    (pos : gmap nat pystr) : option (gmap nat pystr) :=
  match fuel with
  | O => None
  | S f =>
      match py_find s text last with
      | Some n => scan_smiley f s text (n + length s) (<[n := s]> pos)
      | None => Some pos
      end
  end.

(** Lines 157-165: [smiley_positions], each name searched from 0, a
    later name overwriting an earlier one found at the same index. *)
Definition smiley_positions (sm : list (pystr * Img)) (text : pystr) : option (gmap nat pystr) :=
  fold_left (fun acc s => acc ≫= scan_smiley (S (length text)) s.1 text 0) sm (Some ∅).

(** Lines 167-179: the loop over the characters with [skip] and [num]. *)
Fixpoint glyph_scan (fo : MEFont) (pos : gmap nat pystr) (text : pystr)
    (skip : Z) (num : nat) : PyExc + list GItem :=
  match text with
  | [] => inr []
  | c :: t =>
      if decide (skip <> 0)%Z then glyph_scan fo pos t (skip - 1)%Z (S num)
      else match pos !! num with
           | Some a =>
               g <-? dict_get (smileys fo) a ;;
               r <-? glyph_scan fo pos t (Z.of_nat (length a) - 1)%Z (S num) ;;
               inr (GGlyph g :: r)
           | None =>
               if decide (c = nl) then
                 r <-? glyph_scan fo pos t skip (S num) ;; inr (GNewline :: r)
               else match me_glyphs fo !! c with
                    | None => inl KeyError
                    | Some g => r <-? glyph_scan fo pos t skip (S num) ;; inr (GGlyph g :: r)
                    end
           end
  end.

(** [make_list_of_glyphs_and_smileys] (lines 153-180). *)
Definition make_list_of_glyphs_and_smileys (fo : MEFont) (text : pystr)
    : option (PyExc + list GItem) :=
  pos ← smiley_positions (smileys fo) text; Some (glyph_scan fo pos text 0%Z 0).

(** Lines 109-122 of [set_text]: the items cut into lines, each with the
    greatest glyph height in it (0 for an empty line). *)
Fixpoint split_lines (items : list GItem) (cur : list Img) (height : Z) : list (list Img * Z) :=
  match items with
  | [] => [(cur, height)]
  | GNewline :: r => (cur, height) :: split_lines r [] 0%Z
  | GGlyph g :: r => split_lines r (cur ++ [g]) (if Z.gtb (img_h g) height then img_h g else height)
  end.

(** [compile_glyphs] (lines 125-137): each glyph moved right of the
    previous ones of its line, each line below the previous lines. *)
Fixpoint place_line (x y indent : Z) (line : list Img) : list Img :=
  match line with
  | [] => []
  | g :: r => set_img_pos (x + indent, y)%Z g :: place_line x y (indent + img_w g) r
  end.

Fixpoint place_lines (pos : Z * Z) (downdent : Z) (ls : list (list Img * Z)) : list (list Img * Z) :=
  match ls with
  | [] => []
  | (line, h) :: r =>
      (place_line pos.1 (pos.2 + downdent)%Z 0%Z line, h) :: place_lines pos (downdent + h)%Z r
  end.

Definition with_glyphs (t : MEFontImage) (gl : list (list Img * Z)) (comp : list Img) : MEFontImage :=
  mkMEImage (fontobj t) (rotation t) (scale t) (me_visible t) (_pos t) (_colorize t) gl comp (_text t).

Definition compile_glyphs (t : MEFontImage) : MEFontImage :=
  let gl := place_lines (_pos t) 0%Z (glyphs t) in
  with_glyphs t gl (concat (map fst gl)).

(** [set_text] (lines 107-123). *)
Definition set_text (t : MEFontImage) (text : pystr) : option (PyExc + MEFontImage) :=
  r ← make_list_of_glyphs_and_smileys (fontobj t) text;
  Some (g <-? r ;;
        inr (compile_glyphs
               (mkMEImage (fontobj t) (rotation t) (scale t) (me_visible t) (_pos t)
                          (_colorize t) (split_lines g [] 0%Z) (_comp_glyphs t) text))).

(** [set_pos] (lines 141-143). *)
Definition set_pos (t : MEFontImage) (p : Z * Z) : MEFontImage :=
  compile_glyphs (mkMEImage (fontobj t) (rotation t) (scale t) (me_visible t) p
                            (_colorize t) (glyphs t) (_comp_glyphs t) (_text t)).

(** [set_col] (lines 147-151): the colour is stored and given to every
    compiled glyph; the lines hold the same image objects. *)
Definition set_col (t : MEFontImage) (c : Color) : MEFontImage :=
  mkMEImage (fontobj t) (rotation t) (scale t) (me_visible t) (_pos t) c
            (map (fun l => (map (set_img_col c) l.1, l.2)) (glyphs t))
            (map (set_img_col c) (_comp_glyphs t)) (_text t).

(** [MEFontImage.__init__] (lines 86-103), in the order of its
    assignments. *)
Definition new_me_image (fo : MEFont) (text : pystr) (colorize : Color) : option (PyExc + MEFontImage) :=
  let t0 := mkMEImage fo (0, 0, 0)%Q 1%Q true (0, 0)%Z white [] [] [] in
  let t1 := set_col t0 colorize in
  let t2 := set_pos t1 (0, 0)%Z in
  set_text t2 text.

(** [MEFont.make_text_image] (lines 275-279). *)
Definition me_make_text_image (fo : MEFont) (text : pystr) (color : Color) : option (PyExc + MEFontImage) :=
  new_me_image fo text color.

(** [get_width], [get_height], [get_size], [get_rect] (lines 210-236). *)
Definition line_width (line : list Img) : Z := fold_left (fun i g => (i + img_w g)%Z) line 0%Z.

Definition width_step (w : Z) (l : list Img * Z) : Z :=
  let ind := line_width l.1 in if Z.gtb ind w then ind else w.

Definition lines_width (ls : list (list Img * Z)) : Z := fold_left width_step ls 0%Z.

Definition lines_height (ls : list (list Img * Z)) : Z := fold_left (fun d l => (d + l.2)%Z) ls 0%Z.

Definition get_width (t : MEFontImage) : Z := lines_width (glyphs t).

Definition get_height (t : MEFontImage) : Z := lines_height (glyphs t).

Definition get_rect (t : MEFontImage) : Rect :=
  mkRect (_pos t).1 (_pos t).2 (get_width t) (get_height t).

(** [copy] (lines 201-208). *)
Definition copy (t : MEFontImage) : option (PyExc + MEFontImage) :=
  r ← new_me_image (fontobj t) (_text t) (_colorize t);
  Some (n <-? r ;;
        let n := set_pos n (_pos t) in
        inr (mkMEImage (fontobj n) (rotation t) (scale t) (me_visible t) (_pos n)
                       (_colorize n) (glyphs n) (_comp_glyphs n) (_text n))).

End MEFontOps.
Export MEFontOps.

(** ** Well-formed fonts *)

(** pygame surfaces have non-negative sizes. *)
Definition img_ok (g : Img) : Prop := (0 <= img_w g /\ 0 <= img_h g)%Z.

Definition font_ok (fo : MEFont) : Prop :=
  map_Forall (fun _ g => img_ok g) (me_glyphs fo) /\ Forall (fun s => img_ok s.2) (smileys fo).

Definition item_ok (it : GItem) : Prop :=
  match it with GGlyph g => img_ok g | GNewline => True end.

(** A line of [glyphs]: its height bounds its glyphs. *)
Definition line_ok (l : list Img * Z) : Prop :=
  (0 <= l.2)%Z /\ Forall (fun g => 0 <= img_w g /\ img_h g <= l.2)%Z l.1.

(** ** Concrete fonts for the witnesses *)

(** A monospaced pygame font: 10 pixels a character, 12 high. *)
Definition mono_font : PgFont := mkPgFont (fun t => (Z.of_nat (length t) * 10, 12)%Z) 12.

(** [MEFontImage] before [__init__] sets its text. *)
Definition blank_image (fo : MEFont) : MEFontImage :=
  mkMEImage fo (0, 0, 0)%Q 1%Q true (0, 0)%Z white [] [] [].

Definition smile : pystr := String.list_ascii_of_string ":)"%string.
Definition two_lines : pystr :=
  String.list_ascii_of_string "ab:)"%string ++ [nl] ++ String.list_ascii_of_string "c"%string.
Definition red_color : Color := RGBA 1 0 0 1.

(** The glyphs and the colour of a made text image. *)
Definition glyph_colors (r : option (PyExc + MEFontImage)) : option (PyExc + list Color) :=
  match r with
  | Some (inr t) => Some (inr (map img_col (_comp_glyphs t)))
  | Some (inl e) => Some (inl e)
  | None => None
  end.

(** The lines and the drawing list hold the same glyph objects. *)
Definition comp_consistent (t : MEFontImage) : Prop :=
  _comp_glyphs t = concat (map fst (glyphs t)).

(** ** Theorems *)

(** *** [str.find] and the smiley search *)

Lemma is_prefix_length p t : is_prefix p t = true -> length p <= length t.
Proof.
  revert t. induction p as [|a p IH]; intros [|b t]; cbn; [lia | lia | discriminate |].
  intros [_ H]%andb_true_iff. apply IH in H. lia.
Qed.

Lemma find_from_bounds sub t i n :
  find_from sub t i = Some n -> i <= n /\ n + length sub <= i + length t.
Proof.
  revert i. induction t as [|b t IH]; intros i; cbn.
  - destruct (is_prefix sub []) eqn:Hp; [|done]. intros [= <-].
    apply is_prefix_length in Hp. cbn in Hp. lia.
  - destruct (is_prefix sub (b :: t)) eqn:Hp.
    + intros [= <-]. apply is_prefix_length in Hp. cbn in Hp. lia.
    + intros H. apply IH in H. lia.
Qed.

Lemma py_find_bounds sub t start n :
  py_find sub t start = Some n -> start <= n /\ n + length sub <= length t.
Proof.
  unfold py_find. case_decide; [|done]. intros H'%find_from_bounds.
  rewrite length_drop in H'. lia.
Qed.

(** Every round of the loop for a non-empty name moves [last] forward. *)
Lemma scan_smiley_some f s t last pos :
  s <> [] -> 1 <= f -> length t + 1 <= f + last -> is_Some (scan_smiley f s t last pos).
Proof.
  intros Hs. assert (length s <> 0) by (destruct s; [done | cbn; lia]).
  revert last pos. induction f as [|f IH]; intros last pos Hf Hlen; [lia|]. cbn.
  destruct (py_find s t last) as [n|] eqn:Hn; [|done].
  apply py_find_bounds in Hn. apply IH; lia.
Qed.

Lemma scan_smiley_mono f k s t last pos r :
  scan_smiley f s t last pos = Some r -> scan_smiley (f + k) s t last pos = Some r.
Proof.
  revert last pos. induction f as [|f IH]; intros last pos; cbn; [done|].
  destruct (py_find s t last); [apply IH | done].
Qed.

(** An empty name is found again at [last], which does not move. *)
Lemma scan_smiley_empty f t last pos :
  last <= length t -> scan_smiley f [] t last pos = None.
Proof.
  intros Hl. revert pos. induction f as [|f IH]; intros pos; [done|]. cbn.
  unfold py_find. rewrite decide_True by done.
  assert (find_from [] (drop last t) last = Some last) as -> by (by destruct (drop last t)).
  rewrite Nat.add_0_r. apply IH.
Qed.

Lemma smiley_positions_None sm text :
  fold_left (fun acc (s : pystr * Img) => acc ≫= scan_smiley (S (length text)) s.1 text 0) sm None = None.
Proof. induction sm; cbn; auto. Qed.

Lemma smiley_positions_some (sm : list (pystr * Img)) text acc :
  Forall (fun s => s.1 <> []) sm -> is_Some acc ->
  is_Some (fold_left (fun acc (s : pystr * Img) => acc ≫= scan_smiley (S (length text)) s.1 text 0) sm acc).
Proof.
  intros Hsm. revert acc. induction Hsm as [|s sm Hs _ IH]; intros acc [p ->]; [by eexists|].
  cbn [fold_left]. apply IH. apply (scan_smiley_some _ _ _ _ p); [done | lia | lia].
Qed.

(** *** Layout of the glyphs *)

Lemma dict_get_elem {V} (d : list (pystr * V)) k v : dict_get d k = inr v -> (k, v) ∈ d.
Proof.
  induction d as [|[k' v'] d IH]; cbn; [done|].
  case_decide; [intros [= <-]; subst; left | intros; right; auto].
Qed.

(** Every glyph [glyph_scan] lays out is an image of the glyph table or
    of the smileys. *)
Lemma glyph_scan_Forall (P : Img -> Prop) fo pos text skip num items :
  map_Forall (fun _ g => P g) (me_glyphs fo) -> Forall (fun s => P s.2) (smileys fo) ->
  glyph_scan fo pos text skip num = inr items ->
  Forall (fun it => match it with GGlyph g => P g | GNewline => True end) items.
Proof.
  intros Hg Hs. revert skip num items.
  induction text as [|c text IH]; intros skip num items; cbn; [by intros [= <-]|].
  repeat case_match; intros Hr; ebind_inv; simplify_eq; eauto; constructor; eauto.
  all: match goal with
       | Hd : dict_get _ _ = inr ?g |- _ =>
           apply dict_get_elem in Hd; exact (proj1 (Forall_forall _ _) Hs _ Hd)
       | Hl : me_glyphs _ !! _ = Some ?g |- _ => exact (Hg _ _ Hl)
       | |- True => exact I
       end.
Qed.

Lemma glyph_scan_ok fo pos text skip num items :
  font_ok fo -> glyph_scan fo pos text skip num = inr items -> Forall item_ok items.
Proof.
  intros [Hg Hs] Hr. eapply Forall_impl; [exact (glyph_scan_Forall img_ok fo pos text skip num items Hg Hs Hr)|].
  by intros [].
Qed.

Lemma split_lines_ok items cur h :
  Forall item_ok items -> (0 <= h)%Z -> Forall (fun g => 0 <= img_w g /\ img_h g <= h)%Z cur ->
  Forall line_ok (split_lines items cur h).
Proof.
  revert cur h. induction items as [|[g|] items IH]; intros cur h Hit Hh Hcur; cbn.
  - constructor; [by split | done].
  - apply Forall_cons in Hit as [[Hw Hgh] Hit]. rewrite gtb_max. apply IH; [done | lia |].
    apply Forall_app. split; [|constructor; [lia | done]].
    eapply Forall_impl; [done|]. cbn. lia.
  - apply Forall_cons in Hit as [_ Hit]. constructor; [by split|]. apply IH; auto. lia.
Qed.

Lemma line_width_acc l a : fold_left (fun i g => (i + img_w g)%Z) l a = (a + line_width l)%Z.
Proof.
  unfold line_width. revert a. induction l as [|g l IH]; intros a; cbn; [lia|].
  rewrite IH, (IH (0 + img_w g)%Z). lia.
Qed.

Lemma line_width_cons g l : line_width (g :: l) = (img_w g + line_width l)%Z.
Proof. unfold line_width at 1. cbn [fold_left]. rewrite line_width_acc. lia. Qed.

Lemma line_width_nonneg l : Forall (fun g => 0 <= img_w g)%Z l -> (0 <= line_width l)%Z.
Proof. induction 1; [done|]. rewrite line_width_cons. lia. Qed.

Lemma line_width_place x y ind l : line_width (place_line x y ind l) = line_width l.
Proof.
  revert ind. induction l as [|g l IH]; intros ind; [done|]. cbn [place_line].
  rewrite !line_width_cons, IH. done.
Qed.

Lemma place_line_sizes (P : Z -> Z -> Prop) x y ind l :
  Forall (fun g => P (img_w g) (img_h g)) l -> Forall (fun g => P (img_w g) (img_h g)) (place_line x y ind l).
Proof. intros Hl. revert ind. induction Hl; intros ind; constructor; auto. Qed.

(** A line is laid out left to right from [x + ind]. *)
Lemma place_line_bounds x y ind l :
  Forall (fun g => 0 <= img_w g)%Z l ->
  Forall (fun g => snd (img_pos g) = y /\ x + ind <= fst (img_pos g) /\
                   fst (img_pos g) + img_w g <= x + ind + line_width l)%Z (place_line x y ind l) /\
  ForallOrdPairs (fun a b => fst (img_pos a) + img_w a <= fst (img_pos b))%Z (place_line x y ind l).
Proof.
  revert ind. induction l as [|g l IH]; intros ind Hl; cbn [place_line]; [split; constructor|].
  apply Forall_cons in Hl as [Hg Hl]. destruct (IH (ind + img_w g)%Z Hl) as [Hb Hp].
  pose proof (line_width_nonneg l Hl). rewrite line_width_cons.
  split; constructor; cbn.
  - lia.
  - eapply Forall_impl; [exact Hb|]. intros g' (? & ? & ?); repeat split; lia.
  - eapply Forall_impl; [exact Hb|]. intros g' (? & ? & ?); repeat split; lia.
  - done.
Qed.

Lemma width_step_ge w l : (w <= width_step w l)%Z.
Proof. unfold width_step. rewrite gtb_max. lia. Qed.

Lemma lines_width_ge ls a : (a <= fold_left width_step ls a)%Z.
Proof.
  revert a. induction ls as [|l ls IH]; intros a; cbn; [lia|].
  etransitivity; [apply width_step_ge | apply IH].
Qed.

Lemma lines_width_head l ls a : (line_width l.1 <= fold_left width_step ls (width_step a l))%Z.
Proof. etransitivity; [|apply lines_width_ge]. unfold width_step. rewrite gtb_max. lia. Qed.

Lemma lines_height_acc ls a : fold_left (fun d l => (d + l.2)%Z) ls a = (a + lines_height ls)%Z.
Proof.
  unfold lines_height. revert a. induction ls as [|l ls IH]; intros a; cbn; [lia|].
  rewrite IH, (IH (0 + l.2)%Z). lia.
Qed.

Lemma lines_height_cons l ls : lines_height (l :: ls) = (l.2 + lines_height ls)%Z.
Proof. unfold lines_height at 1. cbn [fold_left]. rewrite lines_height_acc. lia. Qed.

Lemma lines_height_nonneg ls : Forall (fun l => 0 <= l.2)%Z ls -> (0 <= lines_height ls)%Z.
Proof. induction 1; [done|]. rewrite lines_height_cons. lia. Qed.

Lemma place_lines_heights pos d ls : Forall line_ok ls -> Forall (fun l => 0 <= l.2)%Z (place_lines pos d ls).
Proof.
  revert d. induction ls as [|[l h] ls IH]; intros d Hls; [constructor|].
  apply Forall_cons in Hls as [[Hh _] Hls]. constructor; [done | auto].
Qed.

(** The lines are laid out top to bottom from [pos.2 + d], each glyph
    inside the width and height the getters report, and no two glyphs
    overlap. *)
Lemma place_lines_layout pos d ls :
  Forall line_ok ls ->
  ForallOrdPairs (fun a b => rect_disjoint (img_rect a) (img_rect b))
                 (concat (map fst (place_lines pos d ls))) /\
  forall a, Forall (fun g => pos.1 <= fst (img_pos g) /\
                             fst (img_pos g) + img_w g <= pos.1 + fold_left width_step (place_lines pos d ls) a /\
                             pos.2 + d <= snd (img_pos g) /\
                             snd (img_pos g) + img_h g <= pos.2 + d + lines_height (place_lines pos d ls))%Z
                   (concat (map fst (place_lines pos d ls))).
Proof.
  revert d. induction ls as [|[l h] ls IH]; intros d Hls; [split; [constructor | intros; constructor]|].
  apply Forall_cons in Hls as [[Hh Hl] Hls]. cbn [fst snd] in Hh, Hl. cbn [place_lines map fst concat].
  pose proof (place_line_bounds pos.1 (pos.2 + d)%Z 0 l (Forall_impl _ _ _ Hl (fun g H => proj1 H))) as [Hb Hp].
  pose proof (place_line_sizes (fun w gh => 0 <= w /\ gh <= h)%Z pos.1 (pos.2 + d)%Z 0 l Hl) as Hs.
  destruct (IH (d + h)%Z Hls) as [Hd Hr].
  pose proof (lines_height_nonneg _ (place_lines_heights pos (d + h)%Z ls Hls)) as Hrh.
  rewrite lines_height_cons. cbn [snd]. split.
  - apply ForallOrdPairs_app; [| done |].
    + eapply ForallOrdPairs_impl; [|exact Hp]. intros a b H. left. cbn in H |- *. lia.
    + intros a b Ha Hb'. rewrite Forall_forall in Hb, Hs. specialize (Hr 0%Z).
      rewrite Forall_forall in Hr. destruct (Hb a Ha) as (Ha1 & _), (Hr b Hb') as (_ & _ & Hb2 & _).
      destruct (Hs a Ha) as (? & ?). unfold rect_disjoint. cbn. lia.
  - intros a. apply Forall_app. split.
    + rewrite Forall_forall in Hb, Hs |- *. intros g Hg.
      destruct (Hb g Hg) as (? & ? & ?), (Hs g Hg) as (? & ?).
      pose proof (lines_width_head (place_line pos.1 (pos.2 + d)%Z 0 l, h) (place_lines pos (d + h)%Z ls) a).
      cbn [fst fold_left] in *. rewrite line_width_place in *. lia.
    + eapply Forall_impl; [exact (Hr (width_step a (place_line pos.1 (pos.2 + d)%Z 0 l, h)))|].
      intros g (? & ? & ? & ?). cbn [fold_left]. lia.
Qed.

(** *** What the glyphs carry *)

Lemma split_lines_Forall (P : Img -> Prop) items cur h :
  Forall (fun it => match it with GGlyph g => P g | GNewline => True end) items ->
  Forall P cur -> Forall (fun l => Forall P l.1) (split_lines items cur h).
Proof.
  revert cur h. induction items as [|[g|] items IH]; intros cur h Hit Hcur; cbn.
  - by constructor.
  - apply Forall_cons in Hit as [Hg Hit]. apply IH; [done|]. apply Forall_app. by split; [|constructor].
  - apply Forall_cons in Hit as [_ Hit]. constructor; [done|]. by apply IH.
Qed.

Lemma place_lines_Forall (P : Img -> Prop) pos d ls :
  (forall p g, P g -> P (set_img_pos p g)) -> Forall (fun l => Forall P l.1) ls ->
  Forall P (concat (map fst (place_lines pos d ls))).
Proof.
  intros HP Hls. revert d. induction Hls as [|[l h] ls Hl _ IH]; intros d; cbn; [constructor|].
  apply Forall_app. split; [|apply IH]. cbn in Hl. clear IH.
  generalize 0%Z. induction Hl; intros ind; cbn; constructor; auto.
Qed.

(** The glyph table of [_load_font]. *)
Lemma load_glyphs_lookup f c :
  load_glyphs f !! c = if decide (c ∈ acceptable_chars) then Some (glyph_image f c) else None.
Proof.
  unfold load_glyphs.
  assert (forall l (m : gmap ascii Img),
            fold_left (fun L i => <[i := glyph_image f i]> L) l m !! c =
            if decide (c ∈ l) then Some (glyph_image f c) else m !! c) as Hl.
  { induction l as [|i l IH]; intros m; cbn; [by rewrite decide_False by set_solver|].
    rewrite IH. destruct (decide (c ∈ l)) as [Hc|Hc], (decide (c ∈ i :: l)) as [Hc'|Hc'];
      [done | set_solver | | by rewrite lookup_insert_ne by set_solver].
    apply elem_of_cons in Hc' as [->|]; [by rewrite lookup_insert_eq | done]. }
  rewrite Hl, lookup_empty. repeat case_decide; done.
Qed.

(** Without smileys the loop is a map over the characters: a line
    break for a newline, the character's glyph otherwise, [KeyError] for
    the first character that has none. *)
Lemma glyph_scan_no_smileys fo text num :
  glyph_scan fo ∅ text 0 num =
  emap (fun c => if decide (c = nl) then inr GNewline
                 else match me_glyphs fo !! c with Some g => inr (GGlyph g) | None => inl KeyError end)
       text.
Proof.
  revert num. induction text as [|c text IH]; intros num; [done|]. cbn [glyph_scan emap].
  rewrite decide_False by lia. rewrite lookup_empty.
  case_decide; [|destruct (me_glyphs fo !! c)]; cbn; rewrite ?IH; done.
Qed.

(** A smiley with an empty name stops the search for good. *)
Lemma smiley_positions_empty (sm : list (pystr * Img)) text img acc :
  ([], img) ∈ sm ->
  fold_left (fun acc (s : pystr * Img) => acc ≫= scan_smiley (S (length text)) s.1 text 0) sm acc = None.
Proof.
  revert acc. induction sm as [|s sm IH]; intros acc Hin; [by apply not_elem_of_nil in Hin|].
  apply elem_of_cons in Hin as [<-|Hin]; cbn [fold_left]; [|by apply IH].
  replace (acc ≫= scan_smiley (S (length text)) ([], img).1 text 0) with (@None (gmap nat pystr)).
  - apply smiley_positions_None.
  - destruct acc as [g|]; [|done]. symmetry. exact (scan_smiley_empty (S (length text)) text 0 g (Nat.le_0_l _)).
Qed.

(** The images of [new_mefont] are white and have the size pygame gives. *)
Lemma load_glyphs_Forall (P : Img -> Prop) f :
  (forall c, P (glyph_image f c)) -> map_Forall (fun _ g => P g) (load_glyphs f).
Proof.
  intros HP c g. rewrite load_glyphs_lookup. case_decide; [intros [= <-]; apply HP | done].
Qed.

(** ** Claims *)

(** C34. [MEFontImage.set_text] and [compile_glyphs] (font.py lines
    107-137): for a font whose images have non-negative sizes, the
    glyphs of the text are laid out without overlapping one another, and
    each lies inside [get_rect()], the rectangle at [pos] of size
    [(get_width(), get_height())]. *)
Theorem set_text_layout t text t' :
  font_ok (fontobj t) -> set_text t text = Some (inr t') ->
  ForallOrdPairs (fun a b => rect_disjoint (img_rect a) (img_rect b)) (_comp_glyphs t') /\
  Forall (fun g => rect_inside (img_rect g) (get_rect t')) (_comp_glyphs t').
Proof.
  intros Hfo. unfold set_text, make_list_of_glyphs_and_smileys.
  destruct (smiley_positions _ _) as [pos|]; [|done]. cbn.
  destruct (glyph_scan _ _ _ _ _) as [e|items] eqn:Hg; [done|]. cbn. intros [= <-].
  apply glyph_scan_ok in Hg; [|done].
  pose proof (split_lines_ok items [] 0 Hg (Z.le_refl 0) (Forall_nil_2 _)) as Hl.
  destruct (place_lines_layout (_pos t) 0 _ Hl) as [Hd Hb]. split; [done|].
  eapply Forall_impl; [exact (Hb 0%Z)|]. intros g (? & ? & ? & ?).
  unfold rect_inside, get_rect, get_width, get_height, lines_width.
  cbn [compile_glyphs with_glyphs _pos glyphs img_rect rect_x rect_y rect_w rect_h]. lia.
Qed.

(** The smiley search of [make_list_of_glyphs_and_smileys] (lines
    157-165) terminates for every non-empty smiley name: [S (length
    text)] rounds of the [while 1] loop are enough, and more rounds give
    the same positions. *)
Theorem smiley_scan_terminates s text pos :
  s <> [] -> exists r, forall k, scan_smiley (S (length text) + k) s text 0 pos = Some r.
Proof.
  intros Hs. destruct (scan_smiley_some (S (length text)) s text 0 pos Hs) as [r Hr]; [lia | lia |].
  exists r. intros k. by apply scan_smiley_mono.
Qed.

(** C35. A smiley registered under the empty name (lines 159-165) makes
    the search loop forever: [text.find("", last)] returns [last] and
    [last = n + len("")] does not move, so no fuel is enough and
    [MEFont.make_text_image] never returns, whatever the text. *)
Theorem empty_smiley_hangs fo text c img :
  ([], img) ∈ smileys fo ->
  (forall fuel pos, scan_smiley fuel [] text 0 pos = None) /\ me_make_text_image fo text c = None.
Proof.
  intros Hin. split; [intros; apply scan_smiley_empty; lia|].
  unfold me_make_text_image, new_me_image, set_text, make_list_of_glyphs_and_smileys, smiley_positions.
  cbn [fontobj]. by rewrite (smiley_positions_empty _ _ img).
Qed.

(** [MEFont.make_text_image(text, color)] (lines 275-279, with
    [MEFontImage.__init__], lines 86-103) stores [color] in [_colorize]
    before the glyphs exist, and [set_text] copies the glyphs from the
    font's table: every glyph of the text keeps the table's white, so
    the text is drawn white whatever colour is asked for. *)
Theorem make_text_image_color_ignored f text c t :
  me_make_text_image (new_mefont f) text c = Some (inr t) ->
  _colorize t = c /\ Forall (fun g => img_col g = white) (_comp_glyphs t).
Proof.
  unfold me_make_text_image, new_me_image, set_text, make_list_of_glyphs_and_smileys.
  cbn [fontobj smileys new_mefont smiley_positions fold_left mbind option_bind set_pos set_col compile_glyphs with_glyphs].
  destruct (glyph_scan (new_mefont f) ∅ text 0 0) as [e|items] eqn:Hg; cbn; [done|]. intros [= <-].
  split; [done|]. apply (place_lines_Forall (fun g => img_col g = white)); [done|].
  apply split_lines_Forall; [|done].
  apply (glyph_scan_Forall _ (new_mefont f) _ _ _ _ _ (load_glyphs_Forall _ f (fun _ => eq_refl)) (Forall_nil_2 _) Hg).
Qed.

(** C36. With the fresh [MEFont] (no smileys), a text raises [KeyError]
    exactly when it holds a character that is neither a newline nor one
    of [MEFont.acceptable] (line 251), and a text of newlines and
    acceptable characters gives an image: the loop of lines 167-179
    maps each character to its glyph. *)
Theorem text_key_error f text c :
  (me_make_text_image (new_mefont f) text c = Some (inl KeyError) <->
   Exists (fun ch => ch <> nl /\ ch ∉ acceptable_chars) text) /\
  (Forall (fun ch => ch = nl \/ ch ∈ acceptable_chars) text ->
   exists t, me_make_text_image (new_mefont f) text c = Some (inr t)).
Proof.
  unfold me_make_text_image, new_me_image, set_text, make_list_of_glyphs_and_smileys.
  cbn [fontobj smileys new_mefont smiley_positions fold_left mbind option_bind set_pos set_col compile_glyphs with_glyphs me_glyphs].
  rewrite glyph_scan_no_smileys. change (me_glyphs (new_mefont f)) with (load_glyphs f).
  match goal with |- context [emap ?g text] => set (G := g) end.
  assert (Hk : forall ch e, G ch = inl e -> e = KeyError).
  { intros ch e. unfold G. case_decide; [done|]. destruct (load_glyphs f !! ch); congruence. }
  assert (Hg : forall ch, (exists e, G ch = inl e) <-> ch <> nl /\ ch ∉ acceptable_chars).
  { intros ch. unfold G. case_decide; [split; [by intros [? ?] | tauto]|].
    rewrite load_glyphs_lookup. case_decide; split; [by intros [? ?] | tauto | intros _; tauto | intros _; by eexists]. }
  destruct (emap G text) as [e|items] eqn:He; cbn.
  - pose proof (emap_inl _ _ _ He) as Hex.
    assert (e = KeyError) as -> by (apply Exists_exists in Hex as (ch & _ & Hch); by eapply Hk).
    split; [split; [intros _ | done] |].
    + eapply Exists_impl; [exact Hex|]. intros ch Hch. apply Hg. by exists KeyError.
    + intros Hall. apply Exists_exists in Hex as (ch & Hin & Hch). rewrite Forall_forall in Hall.
      destruct (proj1 (Hg ch) (ex_intro _ _ Hch)) as [Hn Ha]. destruct (Hall ch Hin); tauto.
  - split; [split; [done|] | by eexists].
    intros Hex. destruct (emap_Exists G text) as [e He'].
    + eapply Exists_impl; [exact Hex|]. intros ch Hch. by apply Hg.
    + congruence.
Qed.

(** The lines [glyphs] and the drawing list [_comp_glyphs] hold
    the same image objects in the same order after every operation of
    [MEFontImage] (lines 86-151): [set_pos] and [set_text] rebuild both,
    [set_col] recolours both. *)
Theorem comp_glyphs_shared t :
  (forall p, comp_consistent (set_pos t p)) /\
  (comp_consistent t -> forall c, comp_consistent (set_col t c)) /\
  (forall text t', set_text t text = Some (inr t') -> comp_consistent t') /\
  (forall fo text c t', me_make_text_image fo text c = Some (inr t') -> comp_consistent t').
Proof.
  assert (Hset : forall t text t', set_text t text = Some (inr t') -> comp_consistent t').
  { intros t0 text t'. unfold set_text.
    destruct (make_list_of_glyphs_and_smileys _ _) as [[e|items]|]; cbn; [done | | done].
    intros [= <-]. done. }
  split_and!; [done | | apply Hset | intros fo text c t'; apply Hset].
  intros Hc c. unfold comp_consistent in *. cbn. by rewrite Hc, concat_map, !map_map.
Qed.

(** ** Witnesses *)

Lemma set_text_layout_witness :
  exists t', set_text (blank_image (new_mefont mono_font)) two_lines = Some (inr t') /\
    ForallOrdPairs (fun a b => rect_disjoint (img_rect a) (img_rect b)) (_comp_glyphs t') /\
    Forall (fun g => rect_inside (img_rect g) (get_rect t')) (_comp_glyphs t').
Proof.
  set (t' := ok_or (blank_image (new_mefont mono_font)) (set_text (blank_image (new_mefont mono_font)) two_lines)).
  assert (Hs : set_text (blank_image (new_mefont mono_font)) two_lines = Some (inr t')) by vm_refl.
  exists t'. split; [exact Hs|]. apply (set_text_layout (blank_image (new_mefont mono_font)) two_lines t'); [|exact Hs].
  split; [|constructor]. apply load_glyphs_Forall. intros ch. unfold img_ok. cbn. lia.
Defined.

Lemma smiley_scan_terminates_witness :
  exists r, forall k, scan_smiley (S (length two_lines) + k) smile two_lines 0 ∅ = Some r.
Proof. apply smiley_scan_terminates. discriminate. Defined.

Lemma empty_smiley_hangs_witness :
  (forall fuel pos, scan_smiley fuel [] two_lines 0 pos = None) /\
  me_make_text_image (add_smiley (new_mefont mono_font) [] (mkImg 8 8 (0, 0)%Z white)) two_lines red_color = None.
Proof. apply (empty_smiley_hangs _ _ _ (mkImg 8 8 (0, 0)%Z white)). cbn. left. Defined.

Lemma make_text_image_color_ignored_witness :
  exists t, me_make_text_image (new_mefont mono_font) smile red_color = Some (inr t) /\
    _colorize t = red_color /\ Forall (fun g => img_col g = white) (_comp_glyphs t).
Proof.
  set (t := ok_or (blank_image (new_mefont mono_font)) (me_make_text_image (new_mefont mono_font) smile red_color)).
  assert (Hm : me_make_text_image (new_mefont mono_font) smile red_color = Some (inr t)) by vm_refl.
  exists t. split; [exact Hm|]. exact (make_text_image_color_ignored mono_font smile red_color t Hm).
Defined.

Lemma text_key_error_witness :
  exists t, me_make_text_image (new_mefont mono_font) two_lines red_color = Some (inr t).
Proof.
  apply (proj2 (text_key_error mono_font two_lines red_color)).
  apply (bool_decide_unpack _). vm_compute. reflexivity.
Defined.

Lemma comp_glyphs_shared_witness :
  comp_consistent (blank_image (new_mefont mono_font)) /\
  comp_consistent (set_col (blank_image (new_mefont mono_font)) red_color).
Proof.
  split; [reflexivity|].
  apply (proj1 (proj2 (comp_glyphs_shared (blank_image (new_mefont mono_font))))). reflexivity.
Defined.

(** ** Texts of acceptable characters *)

(** With the fresh [MEFont], a text of acceptable characters is laid
    out without error, and the image keeps its font. *)
Lemma new_mefont_set_text t f text :
  fontobj t = new_mefont f -> Forall (fun ch => ch ∈ acceptable_chars) text ->
  exists t', set_text t text = Some (inr t') /\ fontobj t' = new_mefont f /\ _text t' = text.
Proof.
  intros Hf Htext. unfold set_text, make_list_of_glyphs_and_smileys. rewrite Hf.
  cbn [smileys new_mefont smiley_positions fold_left mbind option_bind].
  rewrite glyph_scan_no_smileys. change (me_glyphs (new_mefont f)) with (load_glyphs f).
  destruct (emap _ text) as [e|items] eqn:He; cbn.
  - apply emap_inl in He. rewrite Exists_exists in He. destruct He as (ch & Hch & Hmap).
    rewrite Forall_forall in Htext. specialize (Htext ch Hch). revert Hmap. case_decide; [done|].
    rewrite load_glyphs_lookup, decide_True by done. done.
  - by eexists.
Qed.
