(* ===== verification/Gui.v ===== *)
(** * Gui: the widget toolkit of [src/trunk/pyggel/gui.py]

    An [App] holds a list of widgets, topmost first; every widget is
    created against an [App] or a [Frame] (a widget that is itself an
    [App]) and announces itself by firing ["new-widget"] on its
    container's dispatcher.  Widgets, containers and dispatchers are
    Python objects that refer to one another, so the model keeps them in
    one store, [objs], under handles ([nat]), and every method reads and
    writes that store: a [Radio]'s checkboxes are both in the [Radio]'s
    [checks] and in the container's [widgets], and a click on one reaches
    the [Radio] only through the checkbox's dispatcher.

    The store, the event log of user callbacks, the mouse position that
    [view.screen.get_mouse_pos()] reports, the window sizes and the list
    of draws and clips are the record [GuiWorld]; methods run in the
    monad [GM] of results that may raise ([PyExc]) or not return at all
    ([None]: making a text image with an empty smiley name, Font.v).
    [event.Dispatcher], [image.Animation] and the clip stack of the view
    are not among the sources: a dispatcher is the list of its bindings
    in order, and [fire] calls those bound to the name in that order; the
    blinking text cursor is its width; [push_clip]/[pop_clip] are
    entries of the draw list.  No modelled callback creates widgets, so
    a loop over [self.widgets] sees the list it started with. *)

From stdpp Require Import base list gmap strings.
From Stdlib Require Import ZArith QArith Lia Ascii.
From Stdlib Require String.
From S2P Require Import Prelude GL Font.

Local Open Scope Z_scope.

(** pygame's key codes (SDL 1.2). *)
Definition K_BACKSPACE : Z := 8.
Definition K_RETURN : Z := 13.
Definition K_DELETE : Z := 127.
Definition K_RIGHT : Z := 275.
Definition K_LEFT : Z := 276.
Definition K_HOME : Z := 278.
Definition K_END : Z := 279.

(** The names the event handler gives mouse buttons; only ["left"] is
    tested by the widgets. *)
Inductive MouseName := MLeft | MOtherButton.

Inductive EvName := EvNewWidget | EvClick | EvCheck | EvUncheck | EvSubmit.

#[export] Instance EvName_eq_dec : EqDecision EvName.
Proof. solve_decision. Defined.

(** The bound methods the code passes to [Dispatcher.bind]:
    [App.new_widget] / [Frame.new_widget], [Radio.handle_check] (or
    [MultiChoiceRadio.handle_check]), [MultiChoiceRadio.handle_uncheck],
    and callbacks of the application, which are recorded in the event
    log. *)
Inductive Callback :=
| CbNewWidget (container : nat)
| CbHandleCheck (radio : nat)
| CbHandleUncheck (radio : nat)
| CbUser (tag : nat).

Inductive EvArg := ANone | AObj (o : nat) | AText (t : pystr).

Definition Dispatcher := list (EvName * Callback).

(** [Widget.__init__]: the container, the widget's own dispatcher and
    [visible]. *)
Record WBase := mkWBase { w_app : nat; w_dispatch : Dispatcher; w_visible : bool }.

(** The attributes of an [Input] (lines 435-460); [cursor_w] and
    [cursor_pos] are the width and position of [working_image], and
    [key_hold_lengths] maps a key to the time it was last repeated. *)
Record InputSt := mkInput {
  in_text : pystr;
  in_image : MEFontImage;
  in_pos : Z * Z;
  in_width : Z;
  in_height : Z;
  working : Z;
  cursor_w : Z;
  xwidth : Z;
  cursor_pos : Z * Z;
  key_hold_lengths : gmap Z Q;
  active : bool;
  in_mdown : bool;
}.

Inductive GObj :=
(** [App]: dispatcher, widgets (topmost first), [next_pos], fonts *)
| GApp (dispatch : Dispatcher) (widgets : list nat) (next_pos : Z * Z * Z)
       (mefont : MEFont) (regfont : PgFont) (visible : bool)
(** [Frame]: a widget and a container; [size] bounds its layout *)
| GFrame (b : WBase) (widgets : list nat) (pos size : Z * Z) (next_pos : Z * Z * Z)
         (mefont : MEFont) (regfont : PgFont)
| GLabel (b : WBase) (text : pystr) (text_image : MEFontImage) (pos : Z * Z)
(** [Button]: [use_click] tells which of the two images [use_image] is *)
| GButton (b : WBase) (text : pystr) (text_image text_image_click : MEFontImage)
          (use_click mdown : bool) (pos : Z * Z)
| GCheckbox (b : WBase) (off on : Img) (pos : Z * Z) (state clicked : bool)
(** [Radio]: [r_option] is its [option]; [states] is [Some] for a
    [MultiChoiceRadio] *)
| GRadio (b : WBase) (r_option : nat) (checks labels : list nat) (pos : Z * Z)
         (states : option (list bool))
| GInput (b : WBase) (st : InputSt).

(** What a frame draws: a text image or an image where it is at the
    moment of the call, and the clip stack of the view. *)
Inductive Draw :=
| DrawText (t : MEFontImage)
| DrawImg (g : Img)
| DrawCursor (p : Z * Z)
| PushClip (c : Z * Z * Z * Z)
| PopClip.

Record GuiWorld := mkGW {
  objs : gmap nat GObj;
  fresh : nat;
  ev_log : list (nat * EvName * EvArg);
  mouse : Z * Z;
  screen_size : Z * Z;
  screen_size_2d : Z * Z;
  draws : list Draw;
  clock : Q;
}.

(** ** The monad of GUI methods *)

Definition GM (A : Type) : Type := GuiWorld -> option (PyExc + (A * GuiWorld)).

Definition gret {A} (a : A) : GM A := fun w => Some (inr (a, w)).
Definition gbind {A B} (m : GM A) (k : A -> GM B) : GM B :=
  fun w => match m w with
           | Some (inr (a, w')) => k a w'
           | Some (inl e) => Some (inl e)
           | None => None
           end.
Definition graise {A} (e : PyExc) : GM A := fun _ => Some (inl e).
Definition gworld : GM GuiWorld := fun w => Some (inr (w, w)).
Definition gmodify (f : GuiWorld -> GuiWorld) : GM unit := fun w => Some (inr (tt, f w)).

Declare Scope gui_scope.
Delimit Scope gui_scope with gui.
Notation "x <~ c ;; k" := (gbind c (fun x => k))
  (at level 100, c at next level, right associativity) : gui_scope.
Notation "c ;;~ k" := (gbind c (fun _ => k))
  (at level 100, right associativity) : gui_scope.
Local Open Scope gui_scope.

(** Code that raises, and code that may also not return. *)
Definition gpy {A} (r : PyExc + A) : GM A :=
  fun w => match r with inl e => Some (inl e) | inr a => Some (inr (a, w)) end.
Definition gdiv {A} (r : option (PyExc + A)) : GM A :=
  fun w => match r with
           | None => None
           | Some (inl e) => Some (inl e)
           | Some (inr a) => Some (inr (a, w))
           end.

Fixpoint gfor {A} (l : list A) (body : A -> GM unit) : GM unit :=
  match l with [] => gret tt | x :: l' => body x ;;~ gfor l' body end.

(** ** The store *)

Definition set_objs (w : GuiWorld) (m : gmap nat GObj) : GuiWorld :=
  mkGW m (fresh w) (ev_log w) (mouse w) (screen_size w) (screen_size_2d w) (draws w) (clock w).

(** A handle that names no object is not a Python reference; reading
    one is [AttributeError]. *)
Definition lookup_obj (o : nat) : GM GObj :=
  fun w => match objs w !! o with Some x => Some (inr (x, w)) | None => Some (inl AttributeError) end.

Definition put_obj (o : nat) (x : GObj) : GM unit :=
  gmodify (fun w => set_objs w (<[o := x]> (objs w))).

(** A new Python object. *)
Definition alloc : GM nat :=
  fun w => Some (inr (fresh w, mkGW (objs w) (S (fresh w)) (ev_log w) (mouse w) (screen_size w)
                                    (screen_size_2d w) (draws w) (clock w))).

Definition log_event (e : nat * EvName * EvArg) : GM unit :=
  gmodify (fun w => mkGW (objs w) (fresh w) (ev_log w ++ [e]) (mouse w) (screen_size w)
                         (screen_size_2d w) (draws w) (clock w)).

Definition draw (d : Draw) : GM unit :=
  gmodify (fun w => mkGW (objs w) (fresh w) (ev_log w) (mouse w) (screen_size w)
                         (screen_size_2d w) (draws w ++ [d]) (clock w)).

(** ** Objects as containers and as widgets *)

Definition obj_visible (x : GObj) : bool :=
  match x with
  | GApp _ _ _ _ _ v => v
  | GFrame b _ _ _ _ _ _ | GLabel b _ _ _ | GButton b _ _ _ _ _ _ | GCheckbox b _ _ _ _ _
  | GRadio b _ _ _ _ _ | GInput b _ => w_visible b
  end.

Definition widgets_of (x : GObj) : PyExc + list nat :=
  match x with GApp _ ws _ _ _ _ | GFrame _ ws _ _ _ _ _ => inr ws | _ => inl AttributeError end.

Definition set_widgets (ws : list nat) (x : GObj) : GObj :=
  match x with
  | GApp d _ np mf rf v => GApp d ws np mf rf v
  | GFrame b _ p sz np mf rf => GFrame b ws p sz np mf rf
  | _ => x
  end.

Definition dispatch_of (x : GObj) : Dispatcher :=
  match x with
  | GApp d _ _ _ _ _ => d
  | GFrame b _ _ _ _ _ _ | GLabel b _ _ _ | GButton b _ _ _ _ _ _ | GCheckbox b _ _ _ _ _
  | GRadio b _ _ _ _ _ | GInput b _ => w_dispatch b
  end.

(** [self.app.mefont], [self.app.regfont] *)
Definition fonts_of (x : GObj) : PyExc + (MEFont * PgFont) :=
  match x with
  | GApp _ _ _ mf rf _ | GFrame _ _ _ _ _ mf rf => inr (mf, rf)
  | _ => inl AttributeError
  end.

(** [Dispatcher.bind]: a binding is added after those of the name. *)
Definition bind (d : Dispatcher) (name : EvName) (cb : Callback) : Dispatcher := d ++ [(name, cb)].

Definition set_dispatch (d : Dispatcher) (b : WBase) : WBase := mkWBase (w_app b) d (w_visible b).

(** ** [App.new_widget] and the callbacks the code binds *)

(** [App.new_widget] (lines 38-41), which [Frame] inherits. *)
Definition new_widget (c wdg : nat) : GM unit :=
  x <~ lookup_obj c ;; ws <~ gpy (widgets_of x) ;;
  if decide (wdg ∈ ws) then gret tt else put_obj c (set_widgets (wdg :: ws) x).

(** [i.state = 0] on a checkbox of a radio. *)
Definition set_check_state (i : nat) (st : bool) : GM unit :=
  x <~ lookup_obj i ;;
  match x with
  | GCheckbox b off on pos _ cl => put_obj i (GCheckbox b off on pos st cl)
  | _ => graise AttributeError
  end.

(** [Radio.handle_check] (lines 397-402) and
    [MultiChoiceRadio.handle_check] / [handle_uncheck] (lines 425-431). *)
Definition radio_handle_check (r c : nat) : GM unit :=
  x <~ lookup_obj r ;;
  match x with
  | GRadio b _ checks labels pos None =>
      gfor checks (fun i => if decide (i = c) then gret tt else set_check_state i false) ;;~
      k <~ gpy (py_list_index c checks) ;;
      x' <~ lookup_obj r ;;
      match x' with
      | GRadio b' _ checks' labels' pos' st' => put_obj r (GRadio b' k checks' labels' pos' st')
      | _ => graise AttributeError
      end
  | GRadio b opt checks labels pos (Some states) =>
      k <~ gpy (py_list_index c checks) ;; states' <~ gpy (py_setitem states k true) ;;
      put_obj r (GRadio b opt checks labels pos (Some states'))
  | _ => graise AttributeError
  end.

Definition radio_handle_uncheck (r c : nat) : GM unit :=
  x <~ lookup_obj r ;;
  match x with
  | GRadio b opt checks labels pos (Some states) =>
      k <~ gpy (py_list_index c checks) ;; states' <~ gpy (py_setitem states k false) ;;
      put_obj r (GRadio b opt checks labels pos (Some states'))
  | _ => graise AttributeError
  end.

Definition run_callback (name : EvName) (arg : EvArg) (cb : Callback) : GM unit :=
  match cb, arg with
  | CbNewWidget c, AObj o => new_widget c o
  | CbHandleCheck r, AObj o => radio_handle_check r o
  | CbHandleUncheck r, AObj o => radio_handle_uncheck r o
  | CbUser tag, _ => log_event (tag, name, arg)
  | _, _ => graise TypeError
  end.

(** [Dispatcher.fire]: the functions bound to [name], in binding order. *)
Definition fire (d : Dispatcher) (name : EvName) (arg : EvArg) : GM unit :=
  gfor d (fun bd => if decide (bd.1 = name) then run_callback name arg bd.2 else gret tt).

(** ** Layout *)

(** [App.get_next_position] (lines 127-134), bounded by the window's 2d
    width, and [Frame.get_next_position] (lines 687-694), bounded by
    the frame's width. *)
Definition next_position (np : Z * Z * Z) (bound : Z) (size : Z * Z) : Z * Z :=
  let '(x, y, nh) := np in
  if Z.gtb (x + size.1) bound then (0, nh + 1)%Z else (x, y).

Definition get_next_position (c : nat) (size : Z * Z) : GM (Z * Z) :=
  x <~ lookup_obj c ;; w <~ gworld ;;
  match x with
  | GApp _ _ np _ _ _ => gret (next_position np (screen_size_2d w).1 size)
  | GFrame _ _ _ sz np _ _ => gret (next_position np sz.1 size)
  | _ => graise AttributeError
  end.

(** [App.set_next_position] (lines 136-144). *)
Definition next_pos_after (np : Z * Z * Z) (pos size : Z * Z) : Z * Z * Z :=
  let x := (pos.1 + size.1 + 1)%Z in
  let y := pos.2 in
  let nh := if Z.gtb (y + size.2) np.2 then (y + size.2)%Z else np.2 in
  (x, y, nh).

(** [App.newline] (lines 146-149). *)
Definition newline_pos (np : Z * Z * Z) (height : Z) : Z * Z * Z :=
  let nh := (np.2 + height)%Z in (0, nh + 1, nh)%Z.

Definition update_next_pos (c : nat) (f : Z * Z * Z -> Z * Z * Z) : GM unit :=
  x <~ lookup_obj c ;;
  match x with
  | GApp d ws np mf rf v => put_obj c (GApp d ws (f np) mf rf v)
  | GFrame b ws p sz np mf rf => put_obj c (GFrame b ws p sz (f np) mf rf)
  | _ => graise AttributeError
  end.

Definition set_next_position (c : nat) (pos size : Z * Z) : GM unit :=
  update_next_pos c (fun np => next_pos_after np pos size).

Definition newline (c : nat) (height : Z) : GM unit :=
  update_next_pos c (fun np => newline_pos np height).

(** [App.set_top_widget] (lines 114-118). *)
Definition set_top_widget (c widg : nat) : GM unit :=
  x <~ lookup_obj c ;; ws <~ gpy (widgets_of x) ;;
  let ws' := if decide (widg ∈ ws) then default ws (py_remove widg ws) else ws in
  put_obj c (set_widgets (widg :: ws') x).

(** [App.next_widget] (lines 108-112): the [while] loop rotates until a
    visible widget is on top; [S (length ws)] rounds are enough when one
    is visible, and none are when none is. *)
Fixpoint rotate_until_visible (fuel : nat) (ws : list nat) : GM (list nat) :=
  match fuel with
  | O => fun _ => None
  | S f =>
      match ws with
      | [] => graise IndexError
      | i :: r => x <~ lookup_obj i ;; if obj_visible x then gret ws else rotate_until_visible f (r ++ [i])
      end
  end.

Definition next_widget (c : nat) : GM unit :=
  x <~ lookup_obj c ;; ws <~ gpy (widgets_of x) ;;
  match ws with
  | [] => graise IndexError
  | i :: r =>
      ws' <~ rotate_until_visible (S (length ws)) (r ++ [i]) ;;
      x' <~ lookup_obj c ;; put_obj c (set_widgets ws' x')
  end.

(** [App.get_mouse_pos] (lines 34-36) and [Frame.get_mouse_pos]
    (lines 650-655): the window's mouse position, less the positions of
    the enclosing frames.  The chain of containers is shorter than the
    number of objects; a longer one would be Python's recursion limit. *)
Fixpoint mouse_pos_in (fuel : nat) (c : nat) : GM (Z * Z) :=
  match fuel with
  | O => graise RuntimeError
  | S f =>
      x <~ lookup_obj c ;;
      match x with
      | GApp _ _ _ _ _ _ => w <~ gworld ;; gret (mouse w)
      | GFrame b _ pos _ _ _ _ => p <~ mouse_pos_in f (w_app b) ;; gret (p.1 - pos.1, p.2 - pos.2)%Z
      | _ => graise AttributeError
      end
  end.

Definition get_mouse_pos (c : nat) : GM (Z * Z) := w <~ gworld ;; mouse_pos_in (fresh w) c.

(** ** Widget handlers *)

Definition modify_obj (o : nat) (f : GObj -> GObj) : GM unit := x <~ lookup_obj o ;; put_obj o (f x).

(** [r.collidepoint(self.app.get_mouse_pos())] *)
Definition mouse_in (c : nat) (r : Rect) : GM bool := m <~ get_mouse_pos c ;; gret (collidepoint r m).

(** [self.use_image] of a button. *)
Definition use_image (use_click : bool) (img click : MEFontImage) : MEFontImage :=
  if use_click then click else img.

Definition button_set_use (u : bool) (x : GObj) : GObj :=
  match x with GButton b t img click _ md pos => GButton b t img click u md pos | _ => x end.

(** [Button.handle_mousedown] (lines 248-254). *)
Definition button_mousedown (i : nat) (name : MouseName) : GM bool :=
  x <~ lookup_obj i ;;
  match x with
  | GButton b t img click use md pos =>
      match name with
      | MLeft =>
          hit <~ mouse_in (w_app b) (get_rect (use_image use img click)) ;;
          if hit then put_obj i (GButton b t img click true true pos) ;;~ gret true else gret false
      | MOtherButton => gret false
      end
  | _ => graise AttributeError
  end.

(** [Button.handle_mousehold] (lines 256-262). *)
Definition button_mousehold (i : nat) (name : MouseName) : GM bool :=
  x <~ lookup_obj i ;;
  match x with
  | GButton b t img click use md pos =>
      match name with
      | MLeft =>
          hit <~ (if md then mouse_in (w_app b) (get_rect (use_image use img click)) else gret false) ;;
          if hit then put_obj i (GButton b t img click true md pos) ;;~ gret true
          else put_obj i (GButton b t img click false md pos) ;;~ gret false
      | MOtherButton => gret false
      end
  | _ => graise AttributeError
  end.

(** [Button.handle_mouseup] (lines 264-273): a release over the button
    after a press on it is a click. *)
Definition button_mouseup (i : nat) (name : MouseName) : GM bool :=
  x <~ lookup_obj i ;;
  match x with
  | GButton b t img click use md pos =>
      match name with
      | MLeft =>
          hit <~ (if md then mouse_in (w_app b) (get_rect (use_image use img click)) else gret false) ;;
          put_obj i (GButton b t img click use false pos) ;;~
          if hit then fire (w_dispatch b) EvClick ANone ;;~ modify_obj i (button_set_use false) ;;~ gret true
          else gret false
      | MOtherButton => gret false
      end
  | _ => graise AttributeError
  end.

(** [Checkbox.handle_mousedown] (lines 309-314). *)
Definition checkbox_mousedown (i : nat) (name : MouseName) : GM bool :=
  x <~ lookup_obj i ;;
  match x with
  | GCheckbox b off on pos st cl =>
      match name with
      | MLeft =>
          hit <~ mouse_in (w_app b) (img_rect off) ;;
          if hit then put_obj i (GCheckbox b off on pos st true) ;;~ gret true else gret false
      | MOtherButton => gret false
      end
  | _ => graise AttributeError
  end.

(** [Checkbox.handle_mouseup] (lines 315-326): a click flips [state] and
    fires ["check"] or ["uncheck"] with the checkbox. *)
Definition checkbox_mouseup (i : nat) (name : MouseName) : GM bool :=
  x <~ lookup_obj i ;;
  match x with
  | GCheckbox b off on pos st cl =>
      match name with
      | MLeft =>
          hit <~ (if cl then mouse_in (w_app b) (img_rect off) else gret false) ;;
          if hit then
            put_obj i (GCheckbox b off on pos (negb st) false) ;;~
            (if negb st then fire (w_dispatch b) EvCheck (AObj i)
             else fire (w_dispatch b) EvUncheck (AObj i)) ;;~
            gret true
          else put_obj i (GCheckbox b off on pos st false) ;;~ gret false
      | MOtherButton => gret false
      end
  | _ => graise AttributeError
  end.

(** *** [Input] *)

Definition with_text (st : InputSt) (t : pystr) (img : MEFontImage) : InputSt :=
  mkInput t img (in_pos st) (in_width st) (in_height st) (working st) (cursor_w st) (xwidth st)
          (cursor_pos st) (key_hold_lengths st) (active st) (in_mdown st).

Definition with_working (st : InputSt) (k : Z) : InputSt :=
  mkInput (in_text st) (in_image st) (in_pos st) (in_width st) (in_height st) k (cursor_w st)
          (xwidth st) (cursor_pos st) (key_hold_lengths st) (active st) (in_mdown st).

Definition with_holds (st : InputSt) (h : gmap Z Q) : InputSt :=
  mkInput (in_text st) (in_image st) (in_pos st) (in_width st) (in_height st) (working st)
          (cursor_w st) (xwidth st) (cursor_pos st) h (active st) (in_mdown st).

Definition with_mouse (st : InputSt) (act md : bool) : InputSt :=
  mkInput (in_text st) (in_image st) (in_pos st) (in_width st) (in_height st) (working st)
          (cursor_w st) (xwidth st) (cursor_pos st) (key_hold_lengths st) act md.

Definition with_cursor_pos (st : InputSt) (p : Z * Z) : InputSt :=
  mkInput (in_text st) (in_image st) (in_pos st) (in_width st) (in_height st) (working st)
          (cursor_w st) (xwidth st) p (key_hold_lengths st) (active st) (in_mdown st).

(** [Input.move_working] (lines 505-512); [working_image.reset()]
    restarts the cursor's blinking, which is not modelled. *)
Definition move_working (st : InputSt) (dx : Z) : InputSt :=
  let k := (working st + dx)%Z in
  let k := if (k <? 0)%Z then 0%Z else k in
  let k := if (Z.of_nat (length (in_text st)) <? k)%Z then Z.of_nat (length (in_text st)) else k in
  with_working st k.

(** [string in self.app.mefont.acceptable]: a substring test. *)
Definition str_in (s acc : pystr) : bool := if py_find s acc 0%nat is Some _ then true else false.

(** [Input.can_use] (lines 514-521). *)
Definition can_use (acc : pystr) (key : Z) (s : pystr) : bool :=
  (bool_decide (s <> []) && str_in s acc) ||
  bool_decide (key ∈ [K_LEFT; K_RIGHT; K_END; K_HOME; K_DELETE; K_BACKSPACE; K_RETURN]).

(** [self.text = t; self.text_image.text = self.text] *)
Definition input_set_text (st : InputSt) (t : pystr) : GM InputSt :=
  img <~ gdiv (set_text (in_image st) t) ;; gret (with_text st t img).

(** [Input.submit_text] (lines 523-528) on the stored input [i]. *)
Definition submit_text (i : nat) : GM unit :=
  x <~ lookup_obj i ;;
  match x with
  | GInput b st =>
      if bool_decide (in_text st <> []) then
        fire (w_dispatch b) EvSubmit (AText (in_text st)) ;;~
        x' <~ lookup_obj i ;;
        match x' with
        | GInput b' st' => st'' <~ input_set_text st' [] ;; put_obj i (GInput b' (with_working st'' 0))
        | _ => graise AttributeError
        end
      else gret tt
  | _ => graise AttributeError
  end.

(** The edits of [Input.handle_keydown] (lines 534-554) before
    [K_RETURN]. *)
Definition input_edit (acc : pystr) (st : InputSt) (key : Z) (s : pystr) : GM InputSt :=
  st <~ (if bool_decide (s <> []) && str_in s acc then
           st' <~ input_set_text st (py_slice (in_text st) 0 (working st) ++ s ++
                                     py_slice_from (in_text st) (working st)) ;;
           gret (with_working st' (working st' + 1))
         else gret st) ;;
  let st := if bool_decide (key = K_LEFT) then move_working st (-1) else st in
  let st := if bool_decide (key = K_RIGHT) then move_working st 1 else st in
  st <~ (if bool_decide (key = K_DELETE) then
           input_set_text st (py_slice (in_text st) 0 (working st) ++
                              py_slice_from (in_text st) (working st + 1))
         else gret st) ;;
  st <~ (if bool_decide (key = K_BACKSPACE) then
           if bool_decide (working st <> 0) then
             let t := py_slice (in_text st) 0 (working st - 1) ++ py_slice_from (in_text st) (working st) in
             let st := move_working (with_text st t (in_image st)) (-1) in
             input_set_text st t
           else gret st
         else gret st) ;;
  let st := if bool_decide (key = K_HOME) then with_working st 0 else st in
  let st := if bool_decide (key = K_END) then with_working st (Z.of_nat (length (in_text st))) else st in
  gret st.

Definition app_fonts (c : nat) : GM (MEFont * PgFont) := x <~ lookup_obj c ;; gpy (fonts_of x).

(** [Input.handle_keydown] (lines 530-558). *)
Definition input_keydown (i : nat) (key : Z) (s : pystr) : GM bool :=
  x <~ lookup_obj i ;;
  match x with
  | GInput b st =>
      fo <~ app_fonts (w_app b) ;;
      let acc := acceptable fo.1 in
      if negb (can_use acc key s) then gret false
      else if negb (active st) then gret false
      else
        st' <~ input_edit acc st key s ;;
        put_obj i (GInput b st') ;;~
        (if bool_decide (key = K_RETURN) then submit_text i else gret tt) ;;~
        gret true
  | _ => graise AttributeError
  end.

(** [Input.handle_keyhold] (lines 560-573): a held key repeats once
    [key_hold_length] (100 ms) has passed since its last repeat;
    [time.time()] is the world's [clock]. *)
Definition input_keyhold (i : nat) (key : Z) (s : pystr) : GM bool :=
  x <~ lookup_obj i ;;
  match x with
  | GInput b st =>
      fo <~ app_fonts (w_app b) ;;
      if negb (can_use (acceptable fo.1) key s) then gret false
      else if negb (active st) then gret false
      else
        w <~ gworld ;;
        match key_hold_lengths st !! key with
        | Some t0 =>
            if Qle_bool (100 * (1 # 1000)) (clock w - t0) then
              input_keydown i key s ;;~
              x' <~ lookup_obj i ;;
              match x' with
              | GInput b' st' => put_obj i (GInput b' (with_holds st' (<[key := clock w]> (key_hold_lengths st'))))
              | _ => graise AttributeError
              end ;;~ gret true
            else gret true
        | None => put_obj i (GInput b (with_holds st (<[key := clock w]> (key_hold_lengths st)))) ;;~ gret true
        end
  | _ => graise AttributeError
  end.

(** [Input.handle_keyup] (lines 575-583). *)
Definition input_keyup (i : nat) (key : Z) (s : pystr) : GM bool :=
  x <~ lookup_obj i ;;
  match x with
  | GInput b st =>
      fo <~ app_fonts (w_app b) ;;
      if negb (can_use (acceptable fo.1) key s) then gret false
      else if negb (active st) then gret false
      else put_obj i (GInput b (with_holds st (delete key (key_hold_lengths st)))) ;;~ gret true
  | _ => graise AttributeError
  end.

(** [pygame.Rect(self.pos, (self.width, self.height))] *)
Definition input_rect (st : InputSt) : Rect :=
  mkRect (in_pos st).1 (in_pos st).2 (in_width st) (in_height st).

(** [Input.handle_mousedown] (lines 585-593): a press outside the box
    deactivates it. *)
Definition input_mousedown (i : nat) (name : MouseName) : GM bool :=
  x <~ lookup_obj i ;;
  match x with
  | GInput b st =>
      match name with
      | MLeft =>
          hit <~ mouse_in (w_app b) (input_rect st) ;;
          if hit then put_obj i (GInput b (with_mouse st (active st) true)) ;;~ gret true
          else put_obj i (GInput b (with_mouse st false (in_mdown st))) ;;~ gret false
      | MOtherButton => gret false
      end
  | _ => graise AttributeError
  end.

(** [Input.handle_mouseup] (lines 595-603): a click on the box
    activates it. *)
Definition input_mouseup (i : nat) (name : MouseName) : GM bool :=
  x <~ lookup_obj i ;;
  match x with
  | GInput b st =>
      match name with
      | MLeft =>
          let m := in_mdown st in
          put_obj i (GInput b (with_mouse st (active st) false)) ;;~
          hit <~ (if m then mouse_in (w_app b) (input_rect st) else gret false) ;;
          if hit then put_obj i (GInput b (with_mouse st true false)) ;;~ gret true else gret false
      | MOtherButton => gret false
      end
  | _ => graise AttributeError
  end.

(** ** Event dispatch *)

(** What the event handler passes to [App]: mouse presses, releases
    and holds, keys with their text, mouse drags, and other events
    ([EUncaught motion ldown]: a mouse motion with the left button down
    or not, or another event). *)
Inductive GEvent :=
| EMouseDown (n : MouseName) | EMouseUp (n : MouseName) | EMouseHold (n : MouseName)
| EKeyDown (key : Z) (s : pystr) | EKeyUp (key : Z) (s : pystr) | EKeyHold (key : Z) (s : pystr)
| EDrag | EUncaught (motion ldown : bool).

(** The loops of [App.handle_*] (lines 43-106) and of [Radio]: the
    first widget of the list whose handler returns a true value ends
    the loop with [True]; with [all] the invisible widgets are asked
    too ([App.handle_drag], [Radio]). *)
Fixpoint first_true (ws : list nat) (all : bool) (h : nat -> GM bool) : GM bool :=
  match ws with
  | [] => gret false
  | i :: r =>
      x <~ lookup_obj i ;;
      if all || obj_visible x then (hit <~ h i ;; if hit then gret true else first_true r all h)
      else first_true r all h
  end.

(** A widget's handler for an event, by its class; [Label] and the
    handlers a class does not define are [Widget]'s, which return
    [False] (lines 164-190).  A [Frame] runs [App]'s loops over its own
    widgets, except [handle_uncaught_event] (lines 667-673). *)
Fixpoint widget_handle (fuel : nat) (ev : GEvent) (i : nat) : GM bool :=
  match fuel with
  | O => graise RuntimeError
  | S f =>
      x <~ lookup_obj i ;;
      match x, ev with
      | GFrame _ ws _ _ _ _ _, EDrag => first_true ws true (widget_handle f ev)
      | GFrame _ ws _ _ _ _ _, _ => first_true ws false (widget_handle f ev)
      | GButton _ _ _ _ _ _ _, EMouseDown n => button_mousedown i n
      | GButton _ _ _ _ _ _ _, EMouseHold n => button_mousehold i n
      | GButton _ _ _ _ _ _ _, EMouseUp n => button_mouseup i n
      | GCheckbox _ _ _ _ _ _, EMouseDown n => checkbox_mousedown i n
      | GCheckbox _ _ _ _ _ _, EMouseUp n => checkbox_mouseup i n
      (** [Radio.handle_mousedown] / [handle_mouseup] (lines 385-396) *)
      | GRadio _ _ checks _ _ _, EMouseDown n => first_true checks true (fun c => checkbox_mousedown c n)
      | GRadio _ _ checks _ _ _, EMouseUp n => first_true checks true (fun c => checkbox_mouseup c n)
      | GInput _ _, EKeyDown k s => input_keydown i k s
      | GInput _ _, EKeyHold k s => input_keyhold i k s
      | GInput _ _, EKeyUp k s => input_keyup i k s
      | GInput _ _, EMouseDown n => input_mousedown i n
      | GInput _ _, EMouseUp n => input_mouseup i n
      | _, _ => gret false
      end
  end.

(** [App.handle_mousedown] ... [App.handle_keyhold] (lines 43-106) of
    the application's [App] [a]: a mouse motion with the left button
    down is a drag, which every widget is asked about. *)
Definition app_handle (a : nat) (ev : GEvent) : GM bool :=
  x <~ lookup_obj a ;; ws <~ gpy (widgets_of x) ;; w <~ gworld ;;
  match ev with
  | EUncaught true ldown =>
      if ldown then first_true ws true (widget_handle (fresh w) EDrag) else gret false
  | EDrag => first_true ws true (widget_handle (fresh w) EDrag)
  | _ => first_true ws false (widget_handle (fresh w) ev)
  end.

(** ** Construction *)

(** [App.__init__] (lines 15-33) with the two fonts it makes,
    [font.MEFont()] and [font.Font()] (their pygame fonts [mf], [rf]);
    the back reference [event_handler.gui = self] is not modelled. *)
Definition new_app (mf rf : PgFont) : GM nat :=
  a <~ alloc ;;
  put_obj a (GApp (bind [] EvNewWidget (CbNewWidget a)) [] (0, 0, 0) (new_mefont mf) rf true) ;;~
  gret a.

(** [Widget.__init__] (lines 154-162): a new object that announces
    itself to its container. *)
Definition widget_init (app : nat) : GM (nat * WBase) :=
  i <~ alloc ;; x <~ lookup_obj app ;;
  fire (dispatch_of x) EvNewWidget (AObj i) ;;~ gret (i, mkWBase app [] true).

(** The automatic placement of the constructors: the next free position
    of the container, which then moves past [size]. *)
Definition place (app : nat) (pos : option (Z * Z)) (size : Z * Z) : GM (Z * Z) :=
  match pos with
  | None => p <~ get_next_position app size ;; set_next_position app p size ;;~ gret p
  | Some p => gret p
  end.

(** [Label.__init__] (lines 198-216). *)
Definition new_label (app : nat) (text : pystr) (pos : option (Z * Z)) : GM nat :=
  ib <~ widget_init app ;;
  fo <~ app_fonts app ;;
  img <~ gdiv (me_make_text_image fo.1 text white) ;;
  p <~ place app pos (get_width img, get_height img) ;;
  put_obj ib.1 (GLabel ib.2 text (set_pos img p) p) ;;~ gret ib.1.

(** [Button.__init__] (lines 229-246): the pressed image is a red copy;
    the callbacks are bound to ["click"]. *)
Definition new_button (app : nat) (text : pystr) (pos : option (Z * Z)) (callbacks : list nat) : GM nat :=
  i <~ new_label app text pos ;; x <~ lookup_obj i ;;
  match x with
  | GLabel b t img p =>
      click <~ gdiv (copy img) ;;
      let click := set_col click (RGBA 1 0 0 1) in
      let d := fold_left (fun d cb => bind d EvClick (CbUser cb)) callbacks (w_dispatch b) in
      put_obj i (GButton (set_dispatch d b) t img click false false p) ;;~ gret i
  | _ => graise AttributeError
  end.

(** [Checkbox.__init__] (lines 286-307): the images of ["O"] and
    ["X"] in the container's regular font. *)
Definition new_checkbox (app : nat) (pos : option (Z * Z)) : GM nat :=
  ib <~ widget_init app ;;
  fo <~ app_fonts app ;;
  let off := FontOps.make_text_image fo.2 ["O"%char] white in
  let on := FontOps.make_text_image fo.2 ["X"%char] white in
  p <~ place app pos (img_w off, img_h off) ;;
  put_obj ib.1 (GCheckbox ib.2 (set_img_pos p off) (set_img_pos p on) p false false) ;;~ gret ib.1.

Definition bind_obj (name : EvName) (cb : Callback) (x : GObj) : GObj :=
  match x with
  | GCheckbox b off on p st cl => GCheckbox (set_dispatch (bind (w_dispatch b) name cb) b) off on p st cl
  | _ => x
  end.

Definition checkbox_off (x : GObj) : PyExc + Img :=
  match x with GCheckbox _ off _ _ _ _ => inr off | _ => inl AttributeError end.

Definition label_image (x : GObj) : PyExc + MEFontImage :=
  match x with GLabel _ _ img _ => inr img | _ => inl AttributeError end.

(** The loop over [options] of [Radio.__init__] (lines 357-366): a
    checkbox at [(0, height)] bound to the radio's [handle_check] and a
    label right of it at [int(1.25 * width of the checkbox)]. *)
Fixpoint radio_options (r app : nat) (options : list pystr) (height width : Z)
    (checks labels : list nat) : GM (list nat * list nat * Z * Z) :=
  match options with
  | [] => gret (checks, labels, height, width)
  | o :: rest =>
      c <~ new_checkbox app (Some (0, height)) ;;
      modify_obj c (bind_obj EvCheck (CbHandleCheck r)) ;;~
      xc <~ lookup_obj c ;; off <~ gpy (checkbox_off xc) ;;
      n <~ new_label app o (Some (py_int (inject_Z (img_w off) * (5 # 4)), height)) ;;
      xn <~ lookup_obj n ;; img <~ gpy (label_image xn) ;;
      let height' := (height + Z.max (img_h off) (get_height img))%Z in
      let wd := (img_w off + get_width img + 1)%Z in
      let width' := if (width <? wd)%Z then wd else width in
      radio_options r app rest height' width' (checks ++ [c]) (labels ++ [n])
  end.

(** [i.pos = (a + x, b + y)]: only the widget's [pos] moves. *)
Definition shift_check (xy : Z * Z) (x : GObj) : GObj :=
  match x with
  | GCheckbox b off on p st cl => GCheckbox b off on (p.1 + xy.1, p.2 + xy.2) st cl
  | _ => x
  end.

(** [a, b = i.text_image.pos; i.pos = (a + x, b + y)] *)
Definition shift_label (xy : Z * Z) (x : GObj) : GObj :=
  match x with
  | GLabel b t img p => GLabel b t img ((_pos img).1 + xy.1, (_pos img).2 + xy.2)
  | _ => x
  end.

(** [Radio.__init__] (lines 343-383). *)
Definition new_radio (app : nat) (options : list pystr) (pos : option (Z * Z)) : GM nat :=
  ib <~ widget_init app ;;
  let r := ib.1 in
  put_obj r (GRadio ib.2 0 [] [] (0, 0) None) ;;~
  res <~ radio_options r app options 0 0 [] [] ;;
  let '(checks, labels, height, width) := res in
  xy <~ place app pos (width, height) ;;
  gfor checks (fun c => modify_obj c (shift_check xy)) ;;~
  gfor labels (fun l => modify_obj l (shift_label xy)) ;;~
  x <~ lookup_obj r ;;
  match x with
  | GRadio b opt _ _ _ st => put_obj r (GRadio b opt checks labels xy st) ;;~ gret r
  | _ => graise AttributeError
  end.

(** [MultiChoiceRadio.__init__] (lines 411-423). *)
Definition new_multi_choice_radio (app : nat) (options : list pystr) (pos : option (Z * Z)) : GM nat :=
  r <~ new_radio app options pos ;; x <~ lookup_obj r ;;
  match x with
  | GRadio b opt checks labels xy _ =>
      put_obj r (GRadio b opt checks labels xy (Some (map (fun _ => false) checks))) ;;~
      gfor checks (fun c => modify_obj c (bind_obj EvUncheck (CbHandleUncheck r))) ;;~ gret r
  | _ => graise AttributeError
  end.

(** [Input.__init__] (lines 435-460): a label that also reserves its
    box; [working_image] blinks between two images of ["|"], whose width
    is that of the first. *)
Definition new_input (app : nat) (start_text : pystr) (width : Z) (pos : option (Z * Z)) : GM nat :=
  i <~ new_label app start_text pos ;; x <~ lookup_obj i ;;
  match x with
  | GLabel b t img p =>
      fo <~ app_fonts app ;;
      let height := pf_height (me_font fo.1) in
      (match pos with None => set_next_position app p (width, height) | Some _ => gret tt end) ;;~
      let cw := img_w (FontOps.make_text_image fo.2 ["|"%char] white) in
      put_obj i (GInput b (mkInput t img p width height (Z.of_nat (length t)) cw (width - cw)
                                   (0, 0) ∅ false false)) ;;~ gret i
  | _ => graise AttributeError
  end.

(** [Frame.__init__] (lines 627-648). *)
Definition new_frame (app : nat) (pos : option (Z * Z)) (size : Z * Z) : GM nat :=
  ib <~ widget_init app ;;
  p <~ place app pos size ;;
  fo <~ app_fonts app ;;
  let b := set_dispatch (bind (w_dispatch ib.2) EvNewWidget (CbNewWidget ib.1)) ib.2 in
  put_obj ib.1 (GFrame b [] p size (0, 0, 0) fo.1 fo.2) ;;~ gret ib.1.

(** ** Rendering *)

(** [Input.get_clip] (lines 462-471) and [Frame.get_clip] (lines
    657-665): the box in framebuffer pixels, [y] counted from the
    bottom. *)
Definition get_clip (pos size : Z * Z) : GM (Z * Z * Z * Z) :=
  w <~ gworld ;;
  let '(sw, sh) := screen_size w in
  let '(s2w, s2h) := screen_size_2d w in
  if (s2w =? 0)%Z then graise ZeroDivisionError
  else if (s2h =? 0)%Z then graise ZeroDivisionError
  else
    let rx := (inject_Z sw / inject_Z s2w)%Q in
    let ry := (inject_Z sh / inject_Z s2h)%Q in
    gret (py_int (inject_Z pos.1 * rx), sh - py_int (inject_Z pos.2 * ry) - py_int (inject_Z size.2 * ry),
          py_int (inject_Z size.1 * rx), py_int (inject_Z size.2 * ry))%Z.

(** The [while] loop of [calc_working_pos] (lines 495-500): the cursor
    and the text move right by whole glyphs of the first line until the
    cursor is inside the box; running out of glyphs is [IndexError]. *)
Fixpoint cursor_scan (gs : list Img) (x0 wx px : Z) : PyExc + (Z * Z) :=
  if (wx <? x0)%Z then
    match gs with
    | [] => inl IndexError
    | g :: r => cursor_scan r x0 (wx + img_w g) (px + img_w g)
    end
  else inr (wx, px).

(** [self.text_image.glyphs[0][0]] *)
Definition first_line (t : MEFontImage) : PyExc + list Img :=
  match glyphs t with (l, _) :: _ => inr l | [] => inl IndexError end.

(** [Input.calc_working_pos] (lines 473-503): the cursor position, the
    text position, and the input after it (the cursor may be moved). *)
Definition calc_working_pos (st : InputSt) : PyExc + ((Z * Z) * (Z * Z) * InputSt) :=
  let img := in_image st in
  let '(x0, y0) := in_pos st in
  let half := (cursor_w st / 2)%Z in
  if bool_decide (in_text st <> []) && (0 <? working st)%Z then
    line <-? first_line img ;;
    let width := line_width (py_slice line 0 (working st)) in
    let over := (xwidth st <? get_width img)%Z in
    let x := if over then (x0 - (get_width img - xwidth st) + width)%Z else width in
    let wx := (x - half)%Z in
    let '(px, py, st') :=
      if over then
        let x := (x0 - (get_width img - xwidth st))%Z in
        let y := (_pos img).2 in
        if ((cursor_pos st).1 <? 0)%Z
        then ((x - (cursor_pos st).1)%Z, y, with_cursor_pos st (5, (cursor_pos st).2)%Z)
        else (x, y, st)
      else (x0, y0, st) in
    r <-? cursor_scan line x0 wx px ;;
    inr ((r.1, y0), (r.2, py), st')
  else inr (((x0 - half)%Z, y0), (x0, y0), st).

(** [Label.render] (lines 218-225) and [Button.render] (lines 275-282):
    the image moves by [offset], is drawn, and moves back to [pos]. *)
Definition render_text (img : MEFontImage) (pos offset : Z * Z) : GM MEFontImage :=
  let img := set_pos img (pos.1 + offset.1, pos.2 + offset.2)%Z in
  draw (DrawText img) ;;~ gret (set_pos img pos).

Definition render_img (g : Img) (pos offset : Z * Z) : GM Img :=
  let g := set_img_pos (pos.1 + offset.1, pos.2 + offset.2)%Z g in
  draw (DrawImg g) ;;~ gret (set_img_pos pos g).

(** [Input.render] (lines 605-622): [Label.render(self)] is called
    without the offset and puts the text back at [self.pos]. *)
Definition input_render (i : nat) (b : WBase) (st : InputSt) (offset : Z * Z) : GM unit :=
  r <~ gpy (calc_working_pos st) ;;
  let '(wpos, tpos, st) := r in
  let img := set_pos (in_image st) (tpos.1 + offset.1, tpos.2 + offset.2)%Z in
  clip <~ get_clip (in_pos st) (in_width st, in_height st) ;;
  draw (PushClip clip) ;;~
  img <~ render_text img (in_pos st) (0, 0) ;;
  let img := set_pos img tpos in
  st <~ (if active st then
           draw (DrawCursor (wpos.1 + offset.1, wpos.2 + offset.2)%Z) ;;~ gret (with_cursor_pos st wpos)
         else gret st) ;;
  draw PopClip ;;~
  put_obj i (GInput b (with_text st (in_text st) img)).

(** [Widget.render] of each class; a [Radio] renders its checkboxes and
    labels (lines 404-407), a [Frame] its visible widgets, bottom first,
    inside its clip (lines 675-685). *)
Fixpoint widget_render (fuel : nat) (i : nat) (offset : Z * Z) : GM unit :=
  match fuel with
  | O => graise RuntimeError
  | S f =>
      x <~ lookup_obj i ;;
      match x with
      | GLabel b t img p => img' <~ render_text img p offset ;; put_obj i (GLabel b t img' p)
      | GButton b t img click use md p =>
          img' <~ render_text (use_image use img click) p offset ;;
          put_obj i (if use then GButton b t img img' use md p else GButton b t img' click use md p)
      | GCheckbox b off on p st cl =>
          off' <~ render_img off p offset ;;
          on' <~ (if st then render_img on p offset else gret on) ;;
          put_obj i (GCheckbox b off' on' p st cl)
      | GRadio _ _ checks labels _ _ => gfor (checks ++ labels) (fun c => widget_render f c offset)
      | GInput b st => input_render i b st offset
      | GFrame _ ws p sz _ _ _ =>
          let xy := (p.1 + offset.1, p.2 + offset.2)%Z in
          clip <~ get_clip p sz ;;
          draw (PushClip clip) ;;~
          gfor (rev ws) (fun c => y <~ lookup_obj c ;; if obj_visible y then widget_render f c xy else gret tt) ;;~
          draw PopClip
      | GApp _ _ _ _ _ _ => gret tt
      end
  end.

(** [App.render] (lines 120-125): the visible widgets, bottom first. *)
Definition app_render (a : nat) : GM unit :=
  x <~ lookup_obj a ;; ws <~ gpy (widgets_of x) ;; w <~ gworld ;;
  gfor (rev ws) (fun i => y <~ lookup_obj i ;; if obj_visible y then widget_render (fresh w) i (0, 0) else gret tt).
