(* ===== verification/GuiProps.v ===== *)
(** * GuiProps: what the widget toolkit of gui.py does

    [App.next_widget] returns exactly when a widget is visible; an
    [Input] edits and submits its text; a click on a [Radio]'s option
    reaches the radio through the checkbox's dispatcher; the automatic
    layout never overlaps the boxes it hands out, but a [Radio]
    registers a box narrower than its labels; [Input.render] raises
    [IndexError] for a box right of its text. *)

From stdpp Require Import base list gmap strings.
From Stdlib Require Import ZArith QArith Lia Ascii.
From Stdlib Require String.
From S2P Require Import Prelude GL Font Gui.

Local Open Scope gui_scope.
Local Open Scope nat_scope.

(** Visible and invisible stored widgets. *)
Definition vis (w : GuiWorld) (i : nat) : Prop := exists x, objs w !! i = Some x /\ obj_visible x = true.
Definition invis (w : GuiWorld) (i : nat) : Prop := exists x, objs w !! i = Some x /\ obj_visible x = false.

(** ** Layout drivers

    The constructors place a widget with [get_next_position] followed
    by [set_next_position] ([place], Gui.v); [newline] moves to a new
    row.  [layout] runs a sequence of both from a container's
    [next_pos] and lists the boxes handed out. *)
Inductive LayoutOp := LPlace (size : Z * Z) | LNewline (height : Z).

Definition layout_op_ok (op : LayoutOp) : Prop :=
  match op with LPlace sz => (0 <= sz.1)%Z | LNewline h => (0 <= h)%Z end.

Fixpoint layout (bound : Z) (np : Z * Z * Z) (ops : list LayoutOp) : list Rect :=
  match ops with
  | [] => []
  | LPlace sz :: r =>
      let p := next_position np bound sz in
      mkRect p.1 p.2 sz.1 sz.2 :: layout bound (next_pos_after np p sz) r
  | LNewline h :: r => layout bound (newline_pos np h) r
  end.

(** The [state] of a stored checkbox. *)
Definition checkbox_state (w : GuiWorld) (i : nat) : option bool :=
  match objs w !! i with Some (GCheckbox _ _ _ _ st _) => Some st | _ => None end.

(** [i.state = 0] *)
Definition uncheck (x : GObj) : GObj :=
  match x with GCheckbox b off on p _ cl => GCheckbox b off on p false cl | _ => x end.

Definition is_checkbox (w : GuiWorld) (i : nat) : Prop :=
  exists b off on p st cl, objs w !! i = Some (GCheckbox b off on p st cl).

(** ** Typing into an [Input]

    The event handler passes a key's code and its text; for the
    printable characters pygame's key code is the character's code. *)
Definition ascii_key (ch : ascii) : Z := Z.of_nat (nat_of_ascii ch).

Fixpoint type_keys (i : nat) (cs : pystr) : GM unit :=
  match cs with
  | [] => gret tt
  | ch :: r => input_keydown i (ascii_key ch) [ch] ;;~ type_keys i r
  end.

(** The application callbacks bound to [name], in order. *)
Definition tags_for (name : EvName) (d : Dispatcher) : list nat :=
  omap (fun bd : EvName * Callback =>
          if decide (bd.1 = name) then (if bd.2 is CbUser t then Some t else None) else None) d.

Definition with_log (w : GuiWorld) (l : list (nat * EvName * EvArg)) : GuiWorld :=
  mkGW (objs w) (fresh w) (ev_log w ++ l) (mouse w) (screen_size w) (screen_size_2d w) (draws w) (clock w).

(** The furthest [x] the cursor of [calc_working_pos] reaches when the
    text fits its box: it starts at the width of the glyphs before it,
    less half its own width, measured from 0, and can move right by the
    whole first line [l]. *)
Definition cursor_reach (l : list Img) (st : InputSt) : Z :=
  (line_width (py_slice l 0 (working st)) - cursor_w st / 2 + line_width l)%Z.

(** ** Applications for the witnesses

    Short programs against the toolkit, run from a window of 640 by 480
    with no objects: what an application does between events
    ([widget.visible = False], [dispatch.bind], moving the mouse) is
    written out. *)
Definition empty_world : GuiWorld := mkGW ∅ 0 [] (0, 0)%Z (640, 480)%Z (640, 480)%Z [] 0%Q.

Definition run_world {A} (m : GM A) (w : GuiWorld) : GuiWorld :=
  match m w with Some (inr (_, w')) => w' | _ => w end.

Definition at_mouse (p : Z * Z) : GM unit :=
  gmodify (fun w => mkGW (objs w) (fresh w) (ev_log w) p (screen_size w) (screen_size_2d w) (draws w) (clock w)).

Definition hide_label (x : GObj) : GObj :=
  match x with GLabel b t img p => GLabel (mkWBase (w_app b) (w_dispatch b) false) t img p | _ => x end.

Definition bind_input (name : EvName) (cb : Callback) (x : GObj) : GObj :=
  match x with GInput b st => GInput (set_dispatch (bind (w_dispatch b) name cb) b) st | _ => x end.

(** Three labels, the middle one hidden: widgets [[3; 2; 1]]. *)
Definition three_labels : GuiWorld :=
  run_world (a <~ new_app mono_font mono_font ;;
             _ <~ new_label a ["a"%char] None ;; l <~ new_label a ["b"%char] None ;;
             _ <~ new_label a ["c"%char] None ;; modify_obj l hide_label) empty_world.

(** A radio with options ["a"] and ["b"] (checkboxes 2 and 4), the
    mouse pressed over the first checkbox. *)
Definition radio_pressed : GuiWorld :=
  run_world (a <~ new_app mono_font mono_font ;; _ <~ new_radio a [["a"%char]; ["b"%char]] None ;;
             at_mouse (5, 5)%Z ;;~ checkbox_mousedown 2 MLeft) empty_world.

(** An empty [Input] with a ["submit"] callback, activated by a click. *)
Definition input_clicked : GuiWorld :=
  run_world (a <~ new_app mono_font mono_font ;; i <~ new_input a [] 100 None ;;
             modify_obj i (bind_input EvSubmit (CbUser 7)) ;;~ at_mouse (1, 1)%Z ;;~
             input_mousedown i MLeft ;;~ input_mouseup i MLeft) empty_world.

(** An [Input] holding ["hello"] placed at [x = 200]. *)
Definition input_right : GuiWorld :=
  run_world (a <~ new_app mono_font mono_font ;;
             new_input a (String.list_ascii_of_string "hello") 100 (Some (200, 0))%Z) empty_world.

(** A pygame font whose ["O"] is 20 pixels wide. *)
Definition wide_o_font : PgFont :=
  mkPgFont (fun t => if decide (t = ["O"%char]) then (20, 12)%Z else (Z.of_nat (length t) * 10, 12)%Z) 12.

(** A radio with one option, then a label placed automatically. *)
Definition radio_then_label : GM unit :=
  a <~ new_app wide_o_font wide_o_font ;; _ <~ new_radio a [["a"%char]] None ;;
  _ <~ new_label a ["b"%char] None ;; gret tt.

(** The box [Rect(pos, text_image.get_size())] of a stored label. *)
Definition label_rect (x : GObj) : option Rect :=
  match x with GLabel _ _ img p => Some (mkRect p.1 p.2 (get_width img) (get_height img)) | _ => None end.

(** The fields of a stored [Input], [Checkbox] or [App], with
    placeholders for another object: the witnesses name the objects of a
    concrete world through them. *)
Definition no_obj : GObj := GApp [] [] (0, 0, 0)%Z (new_mefont mono_font) mono_font false.
Definition no_base : WBase := mkWBase 0 [] false.
Definition no_img : Img := mkImg 0 0 (0, 0)%Z white.
Definition no_input : InputSt :=
  mkInput [] (blank_image (new_mefont mono_font)) (0, 0)%Z 0 0 0 0 0 (0, 0)%Z ∅ false false.

Definition input_fields (o : option GObj) : WBase * InputSt :=
  match o with Some (GInput b st) => (b, st) | _ => (no_base, no_input) end.

Definition checkbox_fields (o : option GObj) : WBase * Img * Img * (Z * Z) :=
  match o with Some (GCheckbox b off on p _ _) => (b, off, on, p) | _ => (no_base, no_img, no_img, (0, 0)%Z) end.

Definition app_fields (o : option GObj) : Dispatcher * list nat * (Z * Z * Z) * MEFont * PgFont :=
  match o with
  | Some (GApp d ws np mf rf _) => (d, ws, np, mf, rf)
  | _ => ([], [], (0, 0, 0)%Z, new_mefont mono_font, mono_font)
  end.

(** ** The monad *)

Lemma vis_intro w i :
  (if objs w !! i is Some x then obj_visible x else false) = true -> vis w i.
Proof. destruct (objs w !! i) as [x|] eqn:E; [by exists x | done]. Qed.

Lemma invis_intro w i :
  (if objs w !! i is Some x then obj_visible x else true) = false -> invis w i.
Proof. destruct (objs w !! i) as [x|] eqn:E; [by exists x | done]. Qed.

Lemma is_checkbox_intro w i :
  (if objs w !! i is Some (GCheckbox _ _ _ _ _ _) then true else false) = true -> is_checkbox w i.
Proof. destruct (objs w !! i) as [[]|] eqn:E; try done. intros _. by repeat eexists. Qed.

Lemma lookup_obj_Some o x w : objs w !! o = Some x -> lookup_obj o w = Some (inr (x, w)).
Proof. intros Ho. unfold lookup_obj. by rewrite Ho. Qed.

Lemma gbind_inr {A B} (m : GM A) (k : A -> GM B) w a w' :
  m w = Some (inr (a, w')) -> gbind m k w = k a w'.
Proof. intros Hm. unfold gbind. by rewrite Hm. Qed.

Lemma gbind_assoc {A B C} (m : GM A) (k : A -> GM B) (h : B -> GM C) w :
  gbind (gbind m k) h w = gbind m (fun a => gbind (k a) h) w.
Proof. unfold gbind. destruct (m w) as [[e|[a w']]|]; done. Qed.

Lemma gbind_None {A B} (m : GM A) (k : A -> GM B) w : m w = None -> gbind m k w = None.
Proof. intros Hm. unfold gbind. by rewrite Hm. Qed.

Lemma gbind_Some_inv {A B} (m : GM A) (k : A -> GM B) w b w' :
  gbind m k w = Some (inr (b, w')) -> exists a w1, m w = Some (inr (a, w1)) /\ k a w1 = Some (inr (b, w')).
Proof. unfold gbind. destruct (m w) as [[e|[a w1]]|]; [done | by eexists _, _ | done]. Qed.

(** A successful [x <~ m ;; k] in a hypothesis, split at [m]. *)
Ltac gbind_inv H :=
  let a := fresh "a" in let w1 := fresh "w" in let Hm := fresh "Hm" in
  apply gbind_Some_inv in H as (a & w1 & Hm & H).

(** ** [App.next_widget] *)

Lemma rotate_until_visible_found fuel l w k i :
  l !! k = Some i -> vis w i -> (forall j, j < k -> exists i', l !! j = Some i' /\ invis w i') ->
  k < fuel -> rotate_until_visible fuel l w = Some (inr (drop k l ++ take k l, w)).
Proof.
  revert l fuel. induction k as [|k IH]; intros l fuel Hk Hv Hinv Hf.
  - destruct fuel as [|f]; [lia|]. destruct l as [|a r]; [done|]. injection Hk as ->.
    destruct Hv as (x & Hx & Hvx). cbn. rewrite (gbind_inr _ _ _ x w (lookup_obj_Some _ _ _ Hx)), Hvx.
    by rewrite app_nil_r.
  - destruct fuel as [|f]; [lia|]. destruct l as [|a r]; [done|].
    destruct (Hinv 0 ltac:(lia)) as (a' & [= <-] & x & Hx & Hvx). cbn.
    rewrite (gbind_inr _ _ _ x w (lookup_obj_Some _ _ _ Hx)), Hvx.
    cbn in Hk. assert (k < length r) as Hkr by (by eapply lookup_lt_Some).
    rewrite (IH (r ++ [a]) f); [| by rewrite lookup_app_l | done | | lia].
    + rewrite drop_app_le, take_app_le by lia. cbn. by rewrite <- app_assoc.
    + intros j Hj. destruct (Hinv (S j) ltac:(lia)) as (i' & Hi' & Hv'). exists i'.
      rewrite lookup_app_l by lia. done.
Qed.

(** With no visible widget the loop never stops. *)
Lemma rotate_until_visible_none fuel l w :
  l <> [] -> Forall (invis w) l -> rotate_until_visible fuel l w = None.
Proof.
  revert l. induction fuel as [|f IH]; intros l Hne Hl; [done|].
  destruct l as [|a r]; [done|]. apply Forall_cons in Hl as [(x & Hx & Hvx) Hr]. cbn.
  rewrite (gbind_inr _ _ _ x w (lookup_obj_Some _ _ _ Hx)), Hvx.
  apply IH; [by destruct r | apply Forall_app; by split; [|constructor; [exists x|]]].
Qed.

(** One call of [App.next_widget] when the [k]-th widget after the top
    is the first visible one: the widgets are rotated left by [k]. *)
Lemma next_widget_rotate c x w ws k i :
  objs w !! c = Some x -> widgets_of x = inr ws ->
  1 <= k <= length ws -> (ws ++ ws) !! k = Some i -> vis w i ->
  (forall j, 1 <= j < k -> exists i', ws !! j = Some i' /\ invis w i') ->
  next_widget c w = Some (inr (tt, set_objs w (<[c := set_widgets (drop k ws ++ take k ws) x]> (objs w)))).
Proof.
  intros Hc Hws Hk Hki Hv Hinv. unfold next_widget.
  rewrite (gbind_inr _ _ _ x w (lookup_obj_Some _ _ _ Hc)), Hws. cbn [gbind gpy].
  destruct ws as [|a r]; [cbn in Hk; lia|].
  destruct k as [|k]; [lia|]. cbn in Hk. change ((r ++ a :: r) !! k = Some i) in Hki.
  rewrite (gbind_inr _ _ _ (drop k (r ++ [a]) ++ take k (r ++ [a])) w).
  + rewrite (gbind_inr _ _ _ x w (lookup_obj_Some _ _ _ Hc)).
    rewrite drop_app_le, take_app_le by lia. cbn [drop take]. by rewrite <- app_assoc.
  + apply rotate_until_visible_found with i; [| done | | cbn; lia].
    * destruct (decide (k < length r)).
      -- rewrite lookup_app_l in Hki |- * by done. done.
      -- assert (k = length r) as -> by lia. rewrite lookup_app_r, Nat.sub_diag by lia.
         rewrite lookup_app_r, Nat.sub_diag in Hki by lia. done.
    * intros j Hj. destruct (Hinv (S j) ltac:(lia)) as (i' & Hi' & Hv'). exists i'.
      cbn in Hi'. rewrite lookup_app_l by (apply lookup_lt_Some in Hi'; lia). done.
Qed.

(** C13. [App.next_widget] (gui.py lines 108-112) on a container [c]
    with widgets [ws]: with no widget it raises [IndexError]; with
    widgets none of which is visible its [while] loop never ends; and
    when the [k]-th widget after the top ([1 <= k <= len(ws)]) is the
    first visible one, it returns, having rotated [ws] left by [k]. *)
Theorem next_widget_spec c x w ws :
  objs w !! c = Some x -> widgets_of x = inr ws ->
  (ws = [] -> next_widget c w = Some (inl IndexError)) /\
  (ws <> [] -> Forall (invis w) ws -> next_widget c w = None) /\
  (forall k i, 1 <= k <= length ws -> (ws ++ ws) !! k = Some i -> vis w i ->
     (forall j, 1 <= j < k -> exists i', ws !! j = Some i' /\ invis w i') ->
     next_widget c w = Some (inr (tt, set_objs w (<[c := set_widgets (drop k ws ++ take k ws) x]> (objs w))))).
Proof.
  intros Hc Hws. split_and!; [| | intros k i ????; by apply (next_widget_rotate c x w ws k i)].
  all: unfold next_widget; rewrite (gbind_inr _ _ _ x w (lookup_obj_Some _ _ _ Hc)), Hws; cbn [gbind gpy].
  - by intros ->.
  - intros Hne Hinv. destruct ws as [|i r]; [done|]. apply gbind_None.
    apply rotate_until_visible_none; [by destruct r|].
    apply Forall_cons in Hinv as [Hi Hr]. apply Forall_app. by split; [|constructor].
Qed.

(** ** Layout *)

(** Every box placed from [np] on lies in [np]'s row at or right of
    [np]'s [x], or below every box placed before. *)
Lemma layout_from bound np ops :
  Forall layout_op_ok ops ->
  Forall (fun r => (rect_y r = np.1.2 /\ np.1.1 <= rect_x r) \/ np.2 + 1 <= rect_y r)%Z (layout bound np ops).
Proof.
  revert np. induction ops as [|[sz|h] ops IH]; intros [[x y] nh] Hops; cbn [layout]; [constructor| |].
  - apply Forall_cons in Hops as [Hsz Hops]. cbn in Hsz. unfold next_position.
    destruct (Z.gtb_spec (x + sz.1) bound) as [Hw|Hw]; constructor; cbn; [lia| |lia|].
    + eapply Forall_impl; [apply IH, Hops|]. unfold next_pos_after. cbn. intros r. rewrite gtb_max. lia.
    + eapply Forall_impl; [apply IH, Hops|]. unfold next_pos_after. cbn. intros r. rewrite gtb_max. lia.
  - apply Forall_cons in Hops as [Hh Hops]. cbn in Hh.
    eapply Forall_impl; [apply IH, Hops|]. cbn. intros r. lia.
Qed.

(** The automatic placement of [App.get_next_position] and
    [Frame.get_next_position] (gui.py lines 127-134, 687-694) with
    [set_next_position] (lines 136-144) and [newline] (lines 146-149):
    for widths and newline heights that are not negative, the boxes it
    hands out, in a row until the next one would pass the bound and
    then below everything placed so far, never overlap. *)
Theorem layout_disjoint bound np ops :
  Forall layout_op_ok ops -> ForallOrdPairs rect_disjoint (layout bound np ops).
Proof.
  revert np. induction ops as [|[sz|h] ops IH]; intros [[x y] nh] Hops; cbn [layout]; [constructor| |].
  - apply Forall_cons in Hops as [Hsz Hops]. constructor; [|apply IH, Hops].
    eapply Forall_impl; [apply (layout_from bound _ _ Hops)|].
    intros r Hr. unfold rect_disjoint. unfold next_pos_after in Hr. cbn in *.
    rewrite gtb_max in Hr. lia.
  - apply Forall_cons in Hops as [_ Hops]. apply IH, Hops.
Qed.

(** ** [Input.render] *)

Lemma cursor_scan_error gs x0 wx px :
  Forall (fun g => 0 <= img_w g)%Z gs ->
  (cursor_scan gs x0 wx px = inl IndexError <-> (wx + line_width gs < x0)%Z) /\
  (forall e, cursor_scan gs x0 wx px = inl e -> e = IndexError).
Proof.
  intros Hgs. revert wx px. induction Hgs as [|g gs Hg Hgs IH]; intros wx px; cbn [cursor_scan].
  - unfold line_width. cbn. destruct (Z.ltb_spec wx x0).
    + split; [split; [lia | done] | by intros e [= ->]].
    + split; [split; [done | lia] | done].
  - pose proof (line_width_nonneg gs Hgs). rewrite line_width_cons.
    destruct (Z.ltb_spec wx x0).
    + destruct (IH (wx + img_w g)%Z (px + img_w g)%Z) as [IH1 IH2]. rewrite IH1. split; [lia | done].
    + split; [split; [done | lia] | done].
Qed.

(** C15. [Input.calc_working_pos] (gui.py lines 473-503), which
    [Input.render] (lines 605-622) calls first: when the text fits the
    box, the cursor starts at the width of the text before it, measured
    from 0 and not from the box's [x], and the [while] loop moves it
    right glyph by glyph of the first line until it reaches the box;
    rendering raises [IndexError] exactly when the whole first line is
    not enough, that is when the box lies right of that width plus the
    line's width. *)
Theorem input_render_index_error st l h rest :
  glyphs (in_image st) = (l, h) :: rest -> in_text st <> [] -> (0 < working st)%Z ->
  (get_width (in_image st) <= xwidth st)%Z -> Forall (fun g => 0 <= img_w g)%Z l ->
  (calc_working_pos st = inl IndexError <-> (cursor_reach l st < (in_pos st).1)%Z) /\
  ((cursor_reach l st < (in_pos st).1)%Z -> forall i b offset w, input_render i b st offset w = Some (inl IndexError)).
Proof.
  intros Hg Ht Hw Hx Hl.
  assert (calc_working_pos st =
          (r <-? cursor_scan l (in_pos st).1 (line_width (py_slice l 0 (working st)) - cursor_w st / 2)
                             (in_pos st).1 ;;
           inr ((r.1, (in_pos st).2), (r.2, (in_pos st).2), st))) as Hcalc.
  { unfold calc_working_pos. destruct (in_pos st) as [x0 y0]. cbn [fst snd].
    rewrite (bool_decide_eq_true_2 _ Ht), (proj2 (Z.ltb_lt _ _) Hw). cbn [andb].
    unfold first_line. rewrite Hg. cbn [ebind].
    rewrite (proj2 (Z.ltb_ge _ _) Hx). done. }
  destruct (cursor_scan_error l (in_pos st).1 (line_width (py_slice l 0 (working st)) - cursor_w st / 2)
              (in_pos st).1 Hl) as [He1 He2].
  unfold cursor_reach. split.
  - rewrite Hcalc, <- He1. destruct (cursor_scan _ _ _ _) as [e|r]; cbn; split; intros H; congruence.
  - intros Hc i b offset w. apply He1 in Hc. unfold input_render, gbind, gpy. rewrite Hcalc, Hc. done.
Qed.

(** ** [Radio] *)

Lemma set_objs_set_objs w m1 m2 : set_objs (set_objs w m1) m2 = set_objs w m2.
Proof. by destruct w. Qed.

Lemma objs_set_objs w m : objs (set_objs w m) = m.
Proof. by destruct w. Qed.

Lemma get_mouse_pos_app a d ws np mf rf v w :
  objs w !! a = Some (GApp d ws np mf rf v) -> 0 < fresh w ->
  get_mouse_pos a w = Some (inr (mouse w, w)).
Proof.
  intros Ha Hf. unfold get_mouse_pos. rewrite (gbind_inr _ _ w w w) by done.
  destruct (fresh w) as [|f]; [lia|]. cbn [mouse_pos_in].
  rewrite (gbind_inr _ _ _ _ _ (lookup_obj_Some _ _ _ Ha)). done.
Qed.

Lemma set_objs_objs w : set_objs w (objs w) = w.
Proof. by destruct w. Qed.

Lemma set_check_state_spec i w b off on p st cl :
  objs w !! i = Some (GCheckbox b off on p st cl) ->
  set_check_state i false w = Some (inr (tt, set_objs w (<[i := GCheckbox b off on p false cl]> (objs w)))).
Proof. intros Hi. unfold set_check_state. by rewrite (gbind_inr _ _ _ _ _ (lookup_obj_Some _ _ _ Hi)). Qed.

Lemma uncheck_idem x : uncheck (uncheck x) = uncheck x.
Proof. by destruct x. Qed.

(** The loop of [Radio.handle_check] that clears the other boxes. *)
Lemma uncheck_others_spec (cs : list nat) (c : nat) w :
  Forall (is_checkbox w) cs ->
  exists m, gfor cs (fun i => if decide (i = c) then gret tt else set_check_state i false) w =
            Some (inr (tt, set_objs w m)) /\
    forall o, m !! o = if decide (o ∈ cs /\ o <> c) then uncheck <$> objs w !! o else objs w !! o.
Proof.
  revert w. induction cs as [|i cs IH]; intros w Hcs.
  - exists (objs w). rewrite set_objs_objs. split; [done|]. intros o. rewrite decide_False; [done|]. set_solver.
  - apply Forall_cons in Hcs as [(b & off & on & p & st & cl & Hi) Hcs]. cbn [gfor].
    destruct (decide (i = c)) as [->|Hne].
    + destruct (IH w Hcs) as (m & Hrun & Hm). exists m. split; [by rewrite (gbind_inr _ _ w tt w)|].
      intros o. rewrite Hm. destruct (decide (o ∈ cs /\ o <> c)), (decide (o ∈ c :: cs /\ o <> c)); set_solver.
    + set (w1 := set_objs w (<[i := GCheckbox b off on p false cl]> (objs w))).
      assert (Forall (is_checkbox w1) cs) as Hcs1.
      { eapply Forall_impl; [exact Hcs|]. intros o (b' & off' & on' & p' & st' & cl' & Ho).
        unfold is_checkbox, w1. rewrite objs_set_objs. destruct (decide (o = i)) as [->|Hoi].
        - rewrite lookup_insert_eq. eauto 10.
        - rewrite lookup_insert_ne by done. eauto 10. }
      destruct (IH w1 Hcs1) as (m & Hrun & Hm). exists m.
      rewrite (gbind_inr _ _ _ tt w1 (set_check_state_spec _ _ _ _ _ _ _ _ Hi)), Hrun.
      unfold w1. rewrite set_objs_set_objs. split; [done|]. intros o. rewrite Hm. unfold w1.
      rewrite objs_set_objs. destruct (decide (o = i)) as [->|Hoi].
      * rewrite lookup_insert_eq, Hi. cbn. rewrite (decide_True _ _ (conj (proj2 (elem_of_cons cs i i) (or_introl eq_refl)) Hne)).
        by case_decide.
      * rewrite lookup_insert_ne by done.
        destruct (decide (o ∈ cs /\ o <> c)), (decide (o ∈ i :: cs /\ o <> c)); set_solver.
Qed.

Lemma mouse_in_app a d ws np mf rf v w rc :
  objs w !! a = Some (GApp d ws np mf rf v) -> 0 < fresh w ->
  mouse_in a rc w = Some (inr (collidepoint rc (mouse w), w)).
Proof. intros Ha Hf. unfold mouse_in. by rewrite (gbind_inr _ _ _ _ _ (get_mouse_pos_app _ _ _ _ _ _ _ _ Ha Hf)). Qed.

Lemma put_obj_spec o x w : put_obj o x w = Some (inr (tt, set_objs w (<[o := x]> (objs w)))).
Proof. done. Qed.

(** C9. A click on option [k] of a [Radio] (gui.py lines 343-402): the
    release over the checkbox (Checkbox.handle_mouseup, lines 315-326)
    flips its [state] and fires ["check"] on the checkbox's dispatcher,
    which calls [Radio.handle_check] on the radio.  When the box was
    off, it is now the only box on and [option] is [k]; when it was
    already on, it is turned off, ["uncheck"] reaches no one, and the
    radio keeps [option = k] with no box on. *)
Theorem radio_click c bc off on p st r br opt cs lbs rp k d ws np mf rf v w :
  objs w !! c = Some (GCheckbox bc off on p st true) ->
  objs w !! w_app bc = Some (GApp d ws np mf rf v) -> 0 < fresh w ->
  collidepoint (img_rect off) (mouse w) = true ->
  w_dispatch bc = [(EvCheck, CbHandleCheck r)] ->
  objs w !! r = Some (GRadio br opt cs lbs rp None) -> NoDup cs -> cs !! k = Some c ->
  Forall (is_checkbox w) cs ->
  exists w', checkbox_mouseup c MLeft w = Some (inr (true, w')) /\
    (st = false -> objs w' !! r = Some (GRadio br k cs lbs rp None) /\
       forall j i, cs !! j = Some i -> checkbox_state w' i = Some (bool_decide (i = c))) /\
    (st = true -> objs w' !! r = Some (GRadio br opt cs lbs rp None) /\
       checkbox_state w' c = Some false /\
       forall i, i ∈ cs -> i <> c -> checkbox_state w' i = checkbox_state w i).
Proof.
  intros Hc Ha Hf Hcol Hd Hr Hnd Hk Hcs.
  assert (r <> c) as Hrc by congruence.
  assert (r ∉ cs) as Hrcs.
  { intros Hin. rewrite Forall_forall in Hcs. destruct (Hcs r Hin) as (? & ? & ? & ? & ? & ? & Hr').
    congruence. }
  unfold checkbox_mouseup. rewrite (gbind_inr _ _ _ _ _ (lookup_obj_Some _ _ _ Hc)). cbn iota.
  rewrite (gbind_inr _ _ _ _ _ (mouse_in_app _ _ _ _ _ _ _ _ _ Ha Hf)), Hcol. cbn iota beta.
  rewrite (gbind_inr _ _ _ _ _ (put_obj_spec _ _ _)), Hd.
  set (w1 := set_objs w (<[c := GCheckbox bc off on p (negb st) false]> (objs w))).
  assert (objs w1 !! r = Some (GRadio br opt cs lbs rp None)) as Hr1.
  { unfold w1. rewrite objs_set_objs, lookup_insert_ne by done. done. }
  destruct st; cbn [negb].
  - (* already on: ["uncheck"] has no binding *)
    exists w1. split; [done|]. split; [done|]. intros _. split; [done|].
    unfold checkbox_state, w1. rewrite objs_set_objs, lookup_insert_eq. split; [done|].
    intros i _ Hic. by rewrite lookup_insert_ne by done.
  - assert (Forall (is_checkbox w1) cs) as Hcs1.
    { eapply Forall_impl; [exact Hcs|]. intros o (b' & off' & on' & p' & st' & cl' & Ho).
      unfold is_checkbox, w1. rewrite objs_set_objs. destruct (decide (o = c)) as [->|Hoc].
      - rewrite lookup_insert_eq. eauto 10.
      - rewrite lookup_insert_ne by done. eauto 10. }
    destruct (uncheck_others_spec cs c w1 Hcs1) as (m & Hrun & Hm).
    assert (m !! r = Some (GRadio br opt cs lbs rp None)) as Hmr.
    { rewrite Hm, decide_False by tauto. done. }
    set (w2 := set_objs (set_objs w1 m) (<[r := GRadio br k cs lbs rp None]> (objs (set_objs w1 m)))).
    assert (radio_handle_check r c w1 = Some (inr (tt, w2))) as Hrh.
    { unfold radio_handle_check. rewrite (gbind_inr _ _ _ _ _ (lookup_obj_Some _ _ _ Hr1)). cbn iota.
      rewrite (gbind_inr _ _ _ _ _ Hrun), (py_list_index_lookup cs k c Hnd Hk). cbn [gpy].
      rewrite (gbind_inr _ _ _ k (set_objs w1 m)) by done.
      rewrite (gbind_inr _ _ _ _ _ (lookup_obj_Some _ _ (set_objs w1 m) ltac:(by rewrite objs_set_objs))).
      reflexivity. }
    exists w2. split.
    + unfold fire. cbn [gfor fst snd]. rewrite decide_True by done. cbn [run_callback].
      rewrite gbind_assoc, (gbind_inr _ _ _ _ _ Hrh). done.
    + split; [|done]. intros _. unfold w2. rewrite !objs_set_objs, lookup_insert_eq. split; [done|].
      intros j i Hji. unfold checkbox_state. rewrite !objs_set_objs.
      assert (i <> r) by (intros ->; apply Hrcs; by eapply list_elem_of_lookup_2).
      rewrite lookup_insert_ne by done. rewrite Hm.
      assert (i ∈ cs) as Hi by (by eapply list_elem_of_lookup_2).
      destruct (decide (i = c)) as [->|Hic].
      * rewrite decide_False by tauto. unfold w1. rewrite objs_set_objs, lookup_insert_eq.
        by rewrite bool_decide_eq_true_2.
      * rewrite decide_True by tauto. rewrite Forall_forall in Hcs1.
        destruct (Hcs1 i Hi) as (b' & off' & on' & p' & st' & cl' & Ho). rewrite Ho. cbn.
        by rewrite bool_decide_eq_false_2.
Qed.

(** ** [Input] *)

Lemma find_from_elem x l i : x ∈ l -> is_Some (find_from [x] l i).
Proof.
  revert i. induction l as [|y l IH]; intros i Hx; [by apply not_elem_of_nil in Hx|]. cbn.
  destruct (decide (x = y)) as [->|Hne].
  - rewrite bool_decide_eq_true_2 by done. by eexists.
  - rewrite bool_decide_eq_false_2 by done. cbn. apply IH. apply elem_of_cons in Hx as [|]; [contradiction | done].
Qed.

Lemma str_in_elem ch acc : ch ∈ acc -> str_in [ch] acc = true.
Proof.
  intros Hch. unfold str_in, py_find. rewrite decide_True by lia. rewrite drop_0.
  by destruct (find_from_elem ch acc 0 Hch) as [n ->].
Qed.

(** The acceptable characters are printable: no key code of theirs is
    one of the editing keys. *)
Lemma acceptable_key ch : ch ∈ acceptable_chars -> (32 <= ascii_key ch < 127)%Z.
Proof.
  intros Hch. assert (Forall (fun c => 32 <= ascii_key c < 127)%Z acceptable_chars) as Hall.
  { apply (bool_decide_eq_true_1 _). vm_compute. reflexivity. }
  rewrite Forall_forall in Hall. by apply Hall.
Qed.

Lemma set_objs_insert_insert w i x y :
  set_objs (set_objs w (<[i := x]> (objs w))) (<[i := y]> (objs (set_objs w (<[i := x]> (objs w))))) =
  set_objs w (<[i := y]> (objs w)).
Proof. rewrite objs_set_objs, set_objs_set_objs, insert_insert_eq. done. Qed.

Lemma app_fonts_spec a xa mf rf w :
  objs w !! a = Some xa -> fonts_of xa = inr (mf, rf) -> app_fonts a w = Some (inr ((mf, rf), w)).
Proof. intros Ha Hf. unfold app_fonts. rewrite (gbind_inr _ _ _ _ _ (lookup_obj_Some _ _ _ Ha)). cbn. by rewrite Hf. Qed.

(** One printable character typed at the end of the text of an active
    [Input] is appended, and the cursor moves past it. *)
Lemma type_key_spec i b st w f rf xa ch :
  objs w !! i = Some (GInput b st) -> objs w !! w_app b = Some xa -> fonts_of xa = inr (new_mefont f, rf) ->
  fontobj (in_image st) = new_mefont f -> active st = true ->
  working st = Z.of_nat (length (in_text st)) ->
  Forall (fun c => c ∈ acceptable_chars) (in_text st) -> ch ∈ acceptable_chars ->
  exists st', input_keydown i (ascii_key ch) [ch] w =
              Some (inr (true, set_objs w (<[i := GInput b st']> (objs w)))) /\
    in_text st' = in_text st ++ [ch] /\ working st' = Z.of_nat (length (in_text st')) /\
    fontobj (in_image st') = new_mefont f /\ active st' = true.
Proof.
  intros Hi Ha Hfo Hf Hact Hwk Htext Hch.
  destruct (new_mefont_set_text (in_image st) f (in_text st ++ [ch]) Hf) as (img & Himg & Hfimg & _).
  { apply Forall_app. split; [done|]. by constructor. }
  pose proof (acceptable_key ch Hch) as Hkey.
  set (st' := with_working (with_text st (in_text st ++ [ch]) img) (working st + 1)).
  assert (input_edit acceptable_chars st (ascii_key ch) [ch] w = Some (inr (st', w))) as Hedit.
  { unfold input_edit, input_set_text, gdiv.
    rewrite (str_in_elem ch acceptable_chars Hch), (bool_decide_eq_true_2 ([ch] <> [])) by done.
    rewrite Hwk, py_slice_all, py_slice_from_end, app_nil_r, Himg.
    rewrite !(bool_decide_eq_false_2 (ascii_key ch = _))
      by (unfold K_LEFT, K_RIGHT, K_DELETE, K_BACKSPACE, K_HOME, K_END; lia).
    reflexivity. }
  exists st'. split_and!; [| done | | done | done].
  - unfold input_keydown. rewrite (gbind_inr _ _ _ _ _ (lookup_obj_Some _ _ _ Hi)). cbn iota.
    rewrite (gbind_inr _ _ _ _ _ (app_fonts_spec _ _ _ _ _ Ha Hfo)). cbn [fst acceptable new_mefont].
    unfold can_use. rewrite (str_in_elem ch acceptable_chars Hch), (bool_decide_eq_true_2 ([ch] <> [])) by done.
    rewrite Hact. cbn [andb orb negb].
    rewrite (gbind_inr _ _ _ _ _ Hedit), (gbind_inr _ _ _ _ _ (put_obj_spec _ _ _)).
    rewrite (bool_decide_eq_false_2 (ascii_key ch = K_RETURN)) by (unfold K_RETURN; lia).
    reflexivity.
  - unfold st'. cbn. rewrite Hwk, length_app. cbn. lia.
Qed.

Lemma type_keys_spec i b st w f rf xa cs :
  objs w !! i = Some (GInput b st) -> objs w !! w_app b = Some xa -> fonts_of xa = inr (new_mefont f, rf) ->
  i <> w_app b -> fontobj (in_image st) = new_mefont f -> active st = true ->
  working st = Z.of_nat (length (in_text st)) ->
  Forall (fun c => c ∈ acceptable_chars) (in_text st) -> Forall (fun c => c ∈ acceptable_chars) cs ->
  exists st', type_keys i cs w = Some (inr (tt, set_objs w (<[i := GInput b st']> (objs w)))) /\
    in_text st' = in_text st ++ cs /\ working st' = Z.of_nat (length (in_text st')) /\
    fontobj (in_image st') = new_mefont f /\ active st' = true.
Proof.
  revert st w. induction cs as [|ch cs IH]; intros st w Hi Ha Hfo Hia Hf Hact Hwk Htext Hcs.
  - exists st. cbn. rewrite insert_id, set_objs_objs by done. rewrite app_nil_r. done.
  - apply Forall_cons in Hcs as [Hch Hcs].
    destruct (type_key_spec i b st w f rf xa ch Hi Ha Hfo Hf Hact Hwk Htext Hch)
      as (st1 & Hrun1 & Ht1 & Hw1 & Hf1 & Hact1).
    set (w1 := set_objs w (<[i := GInput b st1]> (objs w))).
    destruct (IH st1 w1) as (st2 & Hrun2 & Ht2 & Hw2 & Hf2 & Hact2); try done.
    + unfold w1. by rewrite objs_set_objs, lookup_insert_eq.
    + unfold w1. by rewrite objs_set_objs, lookup_insert_ne.
    + rewrite Ht1. apply Forall_app. by split; [|constructor].
    + exists st2. cbn [type_keys]. rewrite (gbind_inr _ _ _ _ _ Hrun1). fold w1. rewrite Hrun2. unfold w1.
      rewrite set_objs_insert_insert. split_and!; [done | by rewrite Ht2, Ht1, <- app_assoc | done..].
Qed.

Lemma with_log_nil w : with_log w [] = w.
Proof. destruct w. unfold with_log. cbn. by rewrite app_nil_r. Qed.

Lemma with_log_app w l1 l2 : with_log (with_log w l1) l2 = with_log w (l1 ++ l2).
Proof. destruct w. unfold with_log. cbn. by rewrite app_assoc. Qed.

Lemma objs_with_log w l : objs (with_log w l) = objs w.
Proof. done. Qed.

Lemma lookup_obj_with_log o x w l :
  objs w !! o = Some x -> lookup_obj o (with_log w l) = Some (inr (x, with_log w l)).
Proof. intros Ho. unfold lookup_obj. cbn. by rewrite Ho. Qed.

Lemma with_log_set_objs w m l : with_log (set_objs w m) l = set_objs (with_log w l) m.
Proof. done. Qed.

(** A dispatcher whose bindings are all application callbacks only logs. *)
Lemma fire_user d name arg w :
  Forall (fun bd => exists t, bd.2 = CbUser t) d ->
  fire d name arg w = Some (inr (tt, with_log w (map (fun t => (t, name, arg)) (tags_for name d)))).
Proof.
  intros Hd. revert w. induction Hd as [|[n cb] d [t Ht] _ IH]; intros w; cbn in *.
  - by rewrite with_log_nil.
  - subst cb. unfold fire in IH |- *. cbn [gfor fst snd]. destruct (decide (n = name)) as [->|Hne].
    + cbn [run_callback]. rewrite (gbind_inr _ _ _ tt (with_log w [(t, name, arg)])) by done.
      rewrite IH, with_log_app. unfold tags_for. cbn [omap list_omap fst snd].
      rewrite ?decide_True by done. reflexivity.
    + rewrite (gbind_inr _ _ _ tt w) by done. rewrite IH. unfold tags_for. cbn [omap list_omap fst snd].
      rewrite ?decide_False by done. reflexivity.
Qed.

(** [K_RETURN] on an active [Input] with a text submits it. *)
Lemma return_submit_spec i b st w f rf xa :
  objs w !! i = Some (GInput b st) -> objs w !! w_app b = Some xa -> fonts_of xa = inr (new_mefont f, rf) ->
  fontobj (in_image st) = new_mefont f -> active st = true -> in_text st <> [] ->
  Forall (fun bd => exists t, bd.2 = CbUser t) (w_dispatch b) ->
  exists st', input_keydown i K_RETURN [] w =
    Some (inr (true, set_objs (with_log w (map (fun t => (t, EvSubmit, AText (in_text st)))
                                               (tags_for EvSubmit (w_dispatch b))))
                              (<[i := GInput b st']> (objs w)))) /\
    in_text st' = [] /\ working st' = 0%Z.
Proof.
  intros Hi Ha Hfo Hf Hact Hne Hd.
  destruct (new_mefont_set_text (in_image st) f [] Hf (Forall_nil_2 _)) as (img & Himg & _ & _).
  exists (with_working (with_text st [] img) 0). split; [|done].
  unfold input_keydown. rewrite (gbind_inr _ _ _ _ _ (lookup_obj_Some _ _ _ Hi)). cbn iota.
  rewrite (gbind_inr _ _ _ _ _ (app_fonts_spec _ _ _ _ _ Ha Hfo)). rewrite Hact.
  assert (input_edit (acceptable (new_mefont f, rf).1) st K_RETURN [] w = Some (inr (st, w))) as Hedit
    by reflexivity.
  change (can_use (acceptable (new_mefont f, rf).1) K_RETURN []) with true. cbn [negb].
  rewrite (gbind_inr _ _ _ _ _ Hedit), (gbind_inr _ _ _ _ _ (put_obj_spec _ _ _)).
  rewrite insert_id, set_objs_objs by done. rewrite bool_decide_eq_true_2 by done.
  unfold submit_text. rewrite gbind_assoc, (gbind_inr _ _ _ _ _ (lookup_obj_Some _ _ _ Hi)). cbn iota.
  rewrite bool_decide_eq_true_2 by done.
  rewrite gbind_assoc, (gbind_inr _ _ _ _ _ (fire_user _ _ _ _ Hd)).
  rewrite gbind_assoc, (gbind_inr _ _ _ _ _ (lookup_obj_with_log _ _ _ _ Hi)).
  cbn iota. unfold input_set_text, gdiv. rewrite Himg. reflexivity.
Qed.

(** C10. Typing a non-empty text of printable characters into an empty,
    active [Input] and pressing return: each key appends its character
    and moves the cursor past it, and return passes the text to every
    ["submit"] callback of the widget, in the order they were bound,
    then empties the box and puts the cursor back at 0. *)
Theorem input_type_submit i b st w f rf xa cs :
  objs w !! i = Some (GInput b st) -> objs w !! w_app b = Some xa -> fonts_of xa = inr (new_mefont f, rf) ->
  i <> w_app b -> fontobj (in_image st) = new_mefont f -> active st = true ->
  in_text st = [] -> working st = 0%Z ->
  Forall (fun c => c ∈ acceptable_chars) cs -> cs <> [] ->
  Forall (fun bd => exists t, bd.2 = CbUser t) (w_dispatch b) ->
  exists w1 st1 w2 st2,
    type_keys i cs w = Some (inr (tt, w1)) /\ objs w1 !! i = Some (GInput b st1) /\
    in_text st1 = cs /\ working st1 = Z.of_nat (length cs) /\
    input_keydown i K_RETURN [] w1 = Some (inr (true, w2)) /\ objs w2 !! i = Some (GInput b st2) /\
    in_text st2 = [] /\ working st2 = 0%Z /\
    ev_log w2 = ev_log w ++ map (fun t => (t, EvSubmit, AText cs)) (tags_for EvSubmit (w_dispatch b)).
Proof.
  intros Hi Ha Hfo Hia Hf Hact Ht0 Hw0 Hcs Hne Hd.
  destruct (type_keys_spec i b st w f rf xa cs Hi Ha Hfo Hia Hf Hact) as (st1 & Hrun & Ht1 & Hw1 & Hf1 & Hact1);
    [by rewrite Hw0, Ht0 | by rewrite Ht0 | done |].
  rewrite Ht0 in Ht1. cbn in Ht1.
  set (w1 := set_objs w (<[i := GInput b st1]> (objs w))).
  assert (objs w1 !! i = Some (GInput b st1)) as Hi1 by (unfold w1; by rewrite objs_set_objs, lookup_insert_eq).
  assert (objs w1 !! w_app b = Some xa) as Ha1 by (unfold w1; by rewrite objs_set_objs, lookup_insert_ne).
  destruct (return_submit_spec i b st1 w1 f rf xa Hi1 Ha1 Hfo Hf1 Hact1) as (st2 & Hret & Ht2 & Hw2);
    [by rewrite Ht1 | done |].
  eexists w1, st1, _, st2. split_and!; [done | done | done | by rewrite Hw1, Ht1 | exact Hret | | done | done |].
  - by rewrite objs_set_objs, lookup_insert_eq.
  - cbn. by rewrite Ht1.
Qed.

(** A [Radio] registers the box [(ow + tw + 1, height)] for its
    options (gui.py lines 355-369, [ow] the width of a checkbox, [tw]
    of the widest label) but places each label at [int(1.25 * ow)]
    (line 360): with a font whose ["O"] is 20 pixels wide the label of
    the option overlaps the next widget placed automatically. *)
Example radio_label_overlap :
  exists w r1 r2, radio_then_label empty_world = Some (inr (tt, w)) /\
    mbind label_rect (objs w !! 3) = Some r1 /\ mbind label_rect (objs w !! 4) = Some r2 /\
    ~ rect_disjoint r1 r2.
Proof.
  exists (run_world radio_then_label empty_world), (mkRect 25 0 10 12), (mkRect 32 0 10 12).
  split_and!; [vm_refl .. |]. unfold rect_disjoint. cbn. lia.
Qed.

(** ** Witnesses *)

Lemma next_widget_spec_witness :
  exists x, objs three_labels !! 0 = Some x /\
    next_widget 0 three_labels = Some (inr (tt, set_objs three_labels (<[0 := set_widgets [1; 3; 2] x]> (objs three_labels)))).
Proof.
  set (x := default no_obj (objs three_labels !! 0)).
  assert (Ha : objs three_labels !! 0 = Some x) by vm_refl. exists x. split; [exact Ha|].
  destruct (next_widget_spec 0 x three_labels [3; 2; 1] Ha ltac:(vm_refl)) as (_ & _ & H).
  apply (H 2 1); [cbn; lia | reflexivity | apply vis_intro; vm_refl |].
  intros j Hj. assert (j = 1) as -> by lia. exists 2. split; [reflexivity|].
  apply invis_intro. vm_refl.
Defined.

Lemma layout_disjoint_witness :
  ForallOrdPairs rect_disjoint (layout 100 (0, 0, 0)%Z [LPlace (60, 10)%Z; LPlace (50, 20)%Z; LNewline 5%Z; LPlace (10, 10)%Z]).
Proof. apply layout_disjoint. repeat constructor; cbn; lia. Defined.

Lemma input_render_index_error_witness :
  exists b st, objs input_right !! 1 = Some (GInput b st) /\ calc_working_pos st = inl IndexError /\
    input_render 1 b st (0, 0)%Z input_right = Some (inl IndexError).
Proof.
  set (x := input_fields (objs input_right !! 1)).
  assert (Hi : objs input_right !! 1 = Some (GInput x.1 x.2)) by vm_refl.
  exists x.1, x.2. split; [exact Hi|].
  destruct (input_render_index_error x.2
              [mkImg 10 12 (200, 0)%Z white; mkImg 10 12 (210, 0)%Z white; mkImg 10 12 (220, 0)%Z white;
               mkImg 10 12 (230, 0)%Z white; mkImg 10 12 (240, 0)%Z white] 12 []
              ltac:(vm_refl) ltac:(vm_compute; discriminate) ltac:(vm_compute; reflexivity)
              ltac:(vm_compute; discriminate) ltac:(apply (bool_decide_eq_true_1 _); vm_refl)) as [H1 H2].
  split; [apply H1 | apply H2]; vm_compute; reflexivity.
Defined.

Lemma radio_click_witness :
  exists w', checkbox_mouseup 2 MLeft radio_pressed = Some (inr (true, w')) /\
    objs w' !! 1 = Some (GRadio (mkWBase 0 [] true) 0 [2; 4] [3; 5] (0, 0)%Z None) /\
    checkbox_state w' 2 = Some true /\ checkbox_state w' 4 = Some false.
Proof.
  set (c := checkbox_fields (objs radio_pressed !! 2)). set (a := app_fields (objs radio_pressed !! 0)).
  assert (Hc : objs radio_pressed !! 2 = Some (GCheckbox c.1.1.1 c.1.1.2 c.1.2 c.2 false true)) by vm_refl.
  assert (Ha : objs radio_pressed !! w_app c.1.1.1 = Some (GApp a.1.1.1.1 a.1.1.1.2 a.1.1.2 a.1.2 a.2 true))
    by vm_refl.
  destruct (radio_click 2 _ _ _ _ false 1 (mkWBase 0 [] true) 0 [2; 4] [3; 5] (0, 0)%Z 0 _ _ _ _ _ _ radio_pressed
              Hc Ha ltac:(vm_compute; lia) ltac:(vm_refl) ltac:(vm_refl) ltac:(vm_refl)
              ltac:(apply (bool_decide_eq_true_1 _); vm_refl) eq_refl
              ltac:(repeat constructor; apply is_checkbox_intro; vm_refl))
    as (w' & Hrun & Hoff & _).
  exists w'. destruct (Hoff eq_refl) as [Hr' Hst].
  split_and!; [exact Hrun | exact Hr' | exact (Hst 0 2 eq_refl) | exact (Hst 1 4 eq_refl)].
Defined.

Lemma input_type_submit_witness :
  exists w1 w2, type_keys 1 ["h"%char; "i"%char] input_clicked = Some (inr (tt, w1)) /\
    input_keydown 1 K_RETURN [] w1 = Some (inr (true, w2)) /\
    ev_log w2 = [(7, EvSubmit, AText ["h"%char; "i"%char])].
Proof.
  set (x := input_fields (objs input_clicked !! 1)).
  assert (Hi : objs input_clicked !! 1 = Some (GInput x.1 x.2)) by vm_refl.
  assert (Ha : objs input_clicked !! w_app x.1 = Some (default no_obj (objs input_clicked !! 0))) by vm_refl.
  destruct (input_type_submit 1 x.1 x.2 input_clicked mono_font mono_font _ ["h"%char; "i"%char] Hi Ha
              ltac:(vm_refl) ltac:(vm_compute; discriminate) ltac:(vm_refl) ltac:(vm_refl) ltac:(vm_refl)
              ltac:(vm_refl)
              ltac:(repeat constructor; apply (bool_decide_eq_true_1 _); vm_refl)
              ltac:(discriminate) ltac:(vm_compute; repeat constructor; eexists; reflexivity))
    as (w1 & st1 & w2 & st2 & Hrun & _ & _ & _ & Hret & _ & _ & _ & Hlog).
  exists w1, w2. split_and!; [exact Hrun | exact Hret | rewrite Hlog; vm_refl].
Defined.
