(* ===== verification/InputEdit.v ===== *)
(** * InputEdit: the text editing of [Input] against an abstract editor

    [Input.handle_keydown] (gui.py lines 530-558) edits [self.text] with
    Python slices at the integer cursor [self.working], moves the cursor
    with [move_working] (lines 505-512), re-renders the text through
    [self.text_image.text] and, on return, submits the text.  The
    specification is an editor [Editor] of a text and a natural-number
    cursor, with one pure operation per key on [take]/[drop]; the
    handler refines it: on an active [Input] whose state satisfies
    [input_inv], every key with at most one character of text returns,
    keeps the invariant, and leaves the abstract state the editor
    computes, submitting exactly when the editor does. *)

From stdpp Require Import base list gmap strings.
From Stdlib Require Import ZArith QArith Lia Ascii.
From Stdlib Require String.
From S2P Require Import Prelude GL Font Gui GuiProps.

Local Open Scope gui_scope.
Local Open Scope nat_scope.

(** ** The abstract editor *)

Record Editor := mkEditor { ed_text : pystr; ed_cur : nat }.

Module EditorSpec.

Definition ed_insert (s : pystr) (e : Editor) : Editor :=
  mkEditor (take (ed_cur e) (ed_text e) ++ s ++ drop (ed_cur e) (ed_text e)) (ed_cur e + length s).
Definition ed_left (e : Editor) : Editor := mkEditor (ed_text e) (pred (ed_cur e)).
Definition ed_right (e : Editor) : Editor := mkEditor (ed_text e) (Nat.min (S (ed_cur e)) (length (ed_text e))).
Definition ed_delete (e : Editor) : Editor :=
  mkEditor (take (ed_cur e) (ed_text e) ++ drop (S (ed_cur e)) (ed_text e)) (ed_cur e).
Definition ed_backspace (e : Editor) : Editor :=
  match ed_cur e with
  | 0 => e
  | S c => mkEditor (take c (ed_text e) ++ drop (S c) (ed_text e)) c
  end.
Definition ed_home (e : Editor) : Editor := mkEditor (ed_text e) 0.
Definition ed_end (e : Editor) : Editor := mkEditor (ed_text e) (length (ed_text e)).

(** A key with its text: an acceptable character is inserted, then the
    editing keys act in the order the handler tests them. *)
Definition ed_char (s : pystr) (e : Editor) : Editor :=
  if s is [c] then (if decide (c ∈ acceptable_chars) then ed_insert s e else e) else e.

Definition ed_keys (e : Editor) (key : Z) : Editor :=
  let e := if decide (key = K_LEFT) then ed_left e else e in
  let e := if decide (key = K_RIGHT) then ed_right e else e in
  let e := if decide (key = K_DELETE) then ed_delete e else e in
  let e := if decide (key = K_BACKSPACE) then ed_backspace e else e in
  let e := if decide (key = K_HOME) then ed_home e else e in
  if decide (key = K_END) then ed_end e else e.

Definition ed_edit (e : Editor) (key : Z) (s : pystr) : Editor := ed_keys (ed_char s e) key.

(** Return submits a non-empty text and empties the editor. *)
Definition ed_submitted (e : Editor) (key : Z) (s : pystr) : option pystr :=
  let e' := ed_edit e key s in
  if decide (key = K_RETURN) then (if ed_text e' is [] then None else Some (ed_text e')) else None.

Definition ed_key (e : Editor) (key : Z) (s : pystr) : Editor :=
  if ed_submitted e key s is Some _ then mkEditor [] 0 else ed_edit e key s.

Definition ed_ok (e : Editor) : Prop := ed_cur e <= length (ed_text e).

End EditorSpec.
Import EditorSpec.

(** ** Abstraction and invariant of an [Input] *)

Definition abs_input (st : InputSt) : Editor := mkEditor (in_text st) (Z.to_nat (working st)).

(** The cursor is inside the text, the text is made of acceptable
    characters, and the text image is an image of the text in the
    application's [MEFont] for the pygame font [f]. *)
Definition input_inv (f : PgFont) (st : InputSt) : Prop :=
  (0 <= working st <= Z.of_nat (length (in_text st)))%Z /\
  Forall (fun c => c ∈ acceptable_chars) (in_text st) /\
  fontobj (in_image st) = new_mefont f /\ _text (in_image st) = in_text st.

(** What the handler keeps besides text, cursor and image. *)
Definition same_input (st st' : InputSt) : Prop :=
  in_pos st' = in_pos st /\ in_width st' = in_width st /\ active st' = active st.

(** The handler's result for a key: a state with the invariant, the
    abstract state [E], and the other fields kept. *)
Definition edits_to (f : PgFont) (st0 st : InputSt) (E : Editor) : Prop :=
  input_inv f st /\ abs_input st = E /\ same_input st0 st.

(** The [submit] entries [Dispatcher.fire] logs for a submitted text. *)
Definition submit_log (b : WBase) (o : option pystr) : list (nat * EvName * EvArg) :=
  if o is Some t then map (fun g => (g, EvSubmit, AText t)) (tags_for EvSubmit (w_dispatch b)) else [].

(** ** One character of text *)

Lemma find_from_single x l i : is_Some (find_from [x] l i) -> x ∈ l.
Proof.
  revert i. induction l as [|y l IH]; intros i; cbn; [by intros []|].
  case_bool_decide as Hxy; cbn; [intros _; subst; by left|].
  intros H. right. by apply (IH (S i)).
Qed.

(** [string in acceptable] for a one-character string is membership. *)
Lemma str_in_single c acc : str_in [c] acc = bool_decide (c ∈ acc).
Proof.
  case_bool_decide as Hc; [by apply str_in_elem|].
  unfold str_in, py_find. rewrite decide_True by lia. rewrite drop_0.
  destruct (find_from [c] acc 0) eqn:E; [|done].
  exfalso. apply Hc, (find_from_single c acc 0). by rewrite E.
Qed.

(** ** The stages of [handle_keydown] *)

Lemma input_set_text_spec f st t w :
  fontobj (in_image st) = new_mefont f -> Forall (fun c => c ∈ acceptable_chars) t ->
  exists img, input_set_text st t w = Some (inr (with_text st t img, w)) /\
    fontobj img = new_mefont f /\ _text img = t.
Proof.
  intros Hf Ht. destruct (new_mefont_set_text (in_image st) f t Hf Ht) as (img & Hs & Hfi & Hti).
  exists img. unfold input_set_text, gdiv, gbind. by rewrite Hs.
Qed.

(** A text put in place of the old one, with the cursor at [k]. *)
Lemma edits_to_set_text f st0 st t k img :
  edits_to f st0 st (abs_input st) -> Forall (fun c => c ∈ acceptable_chars) t ->
  (0 <= k <= Z.of_nat (length t))%Z -> fontobj img = new_mefont f -> _text img = t ->
  edits_to f st0 (with_working (with_text st t img) k) (mkEditor t (Z.to_nat k)).
Proof. intros (_ & _ & Hsame) Ht Hk Hf Hti. split_and!; done. Qed.

Lemma edits_to_cursor f st0 st k :
  edits_to f st0 st (abs_input st) -> (0 <= k <= Z.of_nat (length (in_text st)))%Z ->
  edits_to f st0 (with_working st k) (mkEditor (in_text st) (Z.to_nat k)).
Proof. intros ((_ & Ht & Hf & Hti) & _ & Hsame) Hk. split_and!; done. Qed.

Lemma edits_to_abs f st0 st E : edits_to f st0 st E -> E = abs_input st.
Proof. by intros (_ & <- & _). Qed.

Lemma edits_to_range f st0 st E :
  edits_to f st0 st E -> (0 <= working st <= Z.of_nat (length (in_text st)))%Z.
Proof. by intros ((? & _) & _). Qed.

(** [move_working] clamps the cursor to the text. *)
Lemma move_working_clamp st dx :
  move_working st dx = with_working st (Z.min (Z.max 0 (working st + dx)) (Z.of_nat (length (in_text st)))).
Proof.
  unfold move_working. cbn zeta. f_equal.
  pose proof (Z.max_spec 0 (working st + dx)).
  pose proof (Z.min_spec (Z.max 0 (working st + dx)) (Z.of_nat (length (in_text st)))).
  destruct (Z.ltb_spec (working st + dx) 0);
    match goal with |- context [Z.ltb ?a ?b] => destruct (Z.ltb_spec a b) end; lia.
Qed.

Lemma move_working_spec f st0 st dx :
  edits_to f st0 st (abs_input st) ->
  edits_to f st0 (move_working st dx)
    (mkEditor (in_text st) (Z.to_nat (Z.min (Z.max 0 (working st + dx)) (Z.of_nat (length (in_text st)))))).
Proof.
  intros H. pose proof (edits_to_range _ _ _ _ H). rewrite move_working_clamp.
  apply edits_to_cursor; [done | lia].
Qed.

(** A stage of the handler that runs when the key is [P]. *)
Lemma stage_pure f st0 st E (P : Prop) `{Decision P} (g : InputSt -> InputSt) (op : Editor -> Editor) :
  (edits_to f st0 st E -> edits_to f st0 (g st) (op E)) -> edits_to f st0 st E ->
  edits_to f st0 (if bool_decide P then g st else st) (if decide P then op E else E).
Proof. intros Hg HE. case_bool_decide; [rewrite decide_True | rewrite decide_False]; auto. Qed.

Lemma stage_gm f st0 st E (P : Prop) `{Decision P} (m : GM InputSt) (op : Editor -> Editor) w :
  (P -> exists st', m w = Some (inr (st', w)) /\ edits_to f st0 st' (op E)) -> edits_to f st0 st E ->
  exists st', (if bool_decide P then m else gret st) w = Some (inr (st', w)) /\
    edits_to f st0 st' (if decide P then op E else E).
Proof.
  intros Hm HE. case_bool_decide as HP; [rewrite decide_True by done | rewrite decide_False by done].
  - by apply Hm.
  - by exists st.
Qed.

Lemma edits_to_cursor_nat f st0 st E :
  edits_to f st0 st E -> E = abs_input st /\
    (0 <= working st)%Z /\ Z.to_nat (working st) <= length (in_text st).
Proof. intros H. pose proof (edits_to_range _ _ _ _ H). rewrite (edits_to_abs _ _ _ _ H). split_and!; [done | lia..]. Qed.

(** ** Each key *)

Lemma left_spec f st0 st E : edits_to f st0 st E -> edits_to f st0 (move_working st (-1)) (ed_left E).
Proof.
  intros H. destruct (edits_to_cursor_nat _ _ _ _ H) as (-> & ? & ?).
  pose proof (move_working_spec _ _ _ (-1) H) as H'. unfold ed_left, abs_input. cbn [ed_text ed_cur].
  replace (pred (Z.to_nat (working st))) with (Z.to_nat (Z.min (Z.max 0 (working st + -1)) (Z.of_nat (length (in_text st))))) by lia.
  done.
Qed.

Lemma right_spec f st0 st E : edits_to f st0 st E -> edits_to f st0 (move_working st 1) (ed_right E).
Proof.
  intros H. destruct (edits_to_cursor_nat _ _ _ _ H) as (-> & ? & ?).
  pose proof (move_working_spec _ _ _ 1 H) as H'. unfold ed_right, abs_input. cbn [ed_text ed_cur].
  replace (Nat.min (S (Z.to_nat (working st))) (length (in_text st)))
    with (Z.to_nat (Z.min (Z.max 0 (working st + 1)) (Z.of_nat (length (in_text st))))) by lia.
  done.
Qed.

Lemma home_spec f st0 st E : edits_to f st0 st E -> edits_to f st0 (with_working st 0) (ed_home E).
Proof.
  intros H. destruct (edits_to_cursor_nat _ _ _ _ H) as (-> & ? & ?).
  apply (edits_to_cursor _ _ _ 0 H). lia.
Qed.

Lemma end_spec f st0 st E :
  edits_to f st0 st E -> edits_to f st0 (with_working st (Z.of_nat (length (in_text st)))) (ed_end E).
Proof.
  intros H. destruct (edits_to_cursor_nat _ _ _ _ H) as (-> & ? & ?).
  pose proof (edits_to_cursor _ _ _ (Z.of_nat (length (in_text st))) H) as H'.
  unfold ed_end, abs_input. cbn [ed_text ed_cur]. rewrite Nat2Z.id in H'. apply H'. lia.
Qed.

Lemma Forall_take_drop_app {A} (P : A -> Prop) (l s : list A) n m :
  Forall P l -> Forall P s -> Forall P (take n l ++ s ++ drop m l).
Proof. intros Hl Hs. apply Forall_app. split; [by apply Forall_take|]. apply Forall_app. split; [done|]. by apply Forall_drop. Qed.

(** An acceptable character is inserted at the cursor, which moves past it. *)
Lemma insert_spec f st0 st E s w :
  edits_to f st0 st E -> length s <= 1 ->
  exists st',
    (if bool_decide (s <> []) && str_in s acceptable_chars then
       st' <~ input_set_text st (py_slice (in_text st) 0 (working st) ++ s ++ py_slice_from (in_text st) (working st)) ;;
       gret (with_working st' (working st' + 1))
     else gret st) w = Some (inr (st', w)) /\
    edits_to f st0 st' (if s is [c] then (if decide (c ∈ acceptable_chars) then ed_insert s E else E) else E).
Proof.
  intros H Hs. destruct (edits_to_cursor_nat _ _ _ _ H) as (-> & Hw & Hn).
  destruct s as [|c [|]]; cbn in Hs; [by exists st | | lia].
  rewrite str_in_single, (bool_decide_eq_true_2 ([c] <> [])) by done.
  case_bool_decide as Hc; cbn [andb]; [rewrite decide_True by done | rewrite decide_False by done].
  2: by exists st.
  pose proof H as ((_ & Ht & Hf & _) & _ & Hsame).
  rewrite py_slice_0, py_slice_from_drop by lia.
  set (t := take (Z.to_nat (working st)) (in_text st) ++ [c] ++ drop (Z.to_nat (working st)) (in_text st)).
  assert (Forall (fun c => c ∈ acceptable_chars) t) as Hta by (apply Forall_take_drop_app; [done | by constructor]).
  destruct (input_set_text_spec f st t w Hf Hta) as (img & Hset & Hfi & Hti).
  exists (with_working (with_text st t img) (working st + 1)). rewrite (gbind_inr _ _ _ _ _ Hset). split; [done|].
  assert (length t = S (length (in_text st))) as Hlen.
  { unfold t. rewrite !length_app, length_take, length_drop. cbn. lia. }
  replace (ed_insert [c] (abs_input st)) with (mkEditor t (Z.to_nat (working st + 1))).
  - apply edits_to_set_text; [exact H | done | rewrite Hlen; lia | done | done].
  - unfold ed_insert, abs_input. cbn [ed_text ed_cur length]. f_equal. lia.
Qed.

(** [K_DELETE] removes the character after the cursor, if any. *)
Lemma delete_spec f st0 st E w :
  edits_to f st0 st E ->
  exists st',
    input_set_text st (py_slice (in_text st) 0 (working st) ++ py_slice_from (in_text st) (working st + 1)) w =
      Some (inr (st', w)) /\ edits_to f st0 st' (ed_delete E).
Proof.
  intros H. destruct (edits_to_cursor_nat _ _ _ _ H) as (-> & Hw & Hn).
  pose proof H as ((_ & Ht & Hf & _) & _ & Hsame).
  rewrite py_slice_0, py_slice_from_drop by lia.
  set (n := Z.to_nat (working st)). replace (Z.to_nat (working st + 1)) with (S n) by lia.
  set (t := take n (in_text st) ++ [] ++ drop (S n) (in_text st)).
  assert (Forall (fun c => c ∈ acceptable_chars) t) as Hta by (apply Forall_take_drop_app; done).
  destruct (input_set_text_spec f st t w Hf Hta) as (img & Hset & Hfi & Hti).
  exists (with_working (with_text st t img) (working st)). split; [exact Hset|].
  assert (n <= length t) as Hlen by (unfold t; rewrite !length_app, length_take; lia).
  replace (ed_delete (abs_input st)) with (mkEditor t (Z.to_nat (working st))) by done.
  apply edits_to_set_text; [exact H | done | lia | done | done].
Qed.

(** [K_BACKSPACE] removes the character before the cursor, which moves
    back over it. *)
Lemma backspace_spec f st0 st E w :
  edits_to f st0 st E ->
  exists st',
    (if bool_decide (working st <> 0%Z) then
       let t := py_slice (in_text st) 0 (working st - 1) ++ py_slice_from (in_text st) (working st) in
       let st := move_working (with_text st t (in_image st)) (-1) in
       input_set_text st t
     else gret st) w = Some (inr (st', w)) /\ edits_to f st0 st' (ed_backspace E).
Proof.
  intros H. destruct (edits_to_cursor_nat _ _ _ _ H) as (-> & Hw & Hn).
  case_bool_decide as H0.
  2: { exists st. split; [done|]. replace (ed_backspace (abs_input st)) with (abs_input st); [done|].
       unfold ed_backspace, abs_input. cbn [ed_cur]. by replace (Z.to_nat (working st)) with 0 by lia. }
  pose proof H as ((_ & Ht & Hf & _) & _ & Hsame). cbn zeta.
  rewrite py_slice_0, py_slice_from_drop by lia.
  set (n := Z.to_nat (working st)). replace (Z.to_nat (working st - 1)) with (pred n) by lia.
  set (t := take (pred n) (in_text st) ++ drop n (in_text st)).
  assert (Forall (fun c => c ∈ acceptable_chars) t) as Hta.
  { apply Forall_app. split; [by apply Forall_take | by apply Forall_drop]. }
  assert (length t = pred (length (in_text st))) as Hlen by (unfold t; rewrite length_app, length_take, length_drop; lia).
  rewrite move_working_clamp. cbn [working with_text in_text].
  replace (Z.min (Z.max 0 (working st + -1)) (Z.of_nat (length t))) with (working st - 1)%Z by lia.
  destruct (input_set_text_spec f (with_working (with_text st t (in_image st)) (working st - 1)) t w Hf Hta)
    as (img & Hset & Hfi & Hti).
  exists (with_working (with_text st t img) (working st - 1)). split; [exact Hset|].
  replace (ed_backspace (abs_input st)) with (mkEditor t (Z.to_nat (working st - 1))).
  - apply edits_to_set_text; [exact H | done | lia | done | done].
  - unfold ed_backspace, abs_input. cbn [ed_cur ed_text]. fold n. destruct n as [|m] eqn:En; [lia|].
    unfold t. cbn [pred]. f_equal. lia.
Qed.

Lemma edits_to_refl f st : input_inv f st -> edits_to f st st (abs_input st).
Proof. intros H. by split_and!. Qed.

Lemma edits_to_trans f st0 st1 st2 E1 E2 :
  edits_to f st0 st1 E1 -> edits_to f st1 st2 E2 -> edits_to f st0 st2 E2.
Proof.
  unfold edits_to, same_input. intros (_ & _ & Hp1 & Hw1 & Ha1) (Hinv & HE & Hp2 & Hw2 & Ha2).
  split_and!; congruence.
Qed.

(** ** The edits of [handle_keydown] refine [ed_edit] *)

(** After the insertion, the editing keys of [handle_keydown] refine
    [ed_keys]. *)
Lemma input_edit_keys f st key s w st1 E1 :
  (if bool_decide (s <> []) && str_in s acceptable_chars then
     st' <~ input_set_text st (py_slice (in_text st) 0 (working st) ++ s ++ py_slice_from (in_text st) (working st)) ;;
     gret (with_working st' (working st' + 1))
   else gret st) w = Some (inr (st1, w)) ->
  edits_to f st st1 E1 ->
  exists st', input_edit acceptable_chars st key s w = Some (inr (st', w)) /\ edits_to f st st' (ed_keys E1 key).
Proof.
  intros H1 E1'. unfold input_edit. rewrite (gbind_inr _ _ _ _ _ H1). cbv zeta.
  pose proof (stage_pure _ _ _ _ (key = K_LEFT) (fun st => move_working st (-1)) ed_left
                (left_spec _ _ _ _) E1') as E2; cbv beta in E2.
  pose proof (stage_pure _ _ _ _ (key = K_RIGHT) (fun st => move_working st 1) ed_right
                (right_spec _ _ _ _) E2) as E3; cbv beta in E3.
  destruct (stage_gm _ _ _ _ (key = K_DELETE) _ ed_delete w (fun _ => delete_spec _ _ _ _ w E3) E3)
    as (st4 & H4 & E4).
  rewrite (gbind_inr _ _ _ _ _ H4).
  destruct (stage_gm _ _ _ _ (key = K_BACKSPACE) _ ed_backspace w (fun _ => backspace_spec _ _ _ _ w E4) E4)
    as (st5 & H5 & E5).
  rewrite (gbind_inr _ _ _ _ _ H5).
  pose proof (stage_pure _ _ _ _ (key = K_HOME) (fun st => with_working st 0) ed_home
                (home_spec _ _ _ _) E5) as E6; cbv beta in E6.
  pose proof (stage_pure _ _ _ _ (key = K_END) (fun st => with_working st (Z.of_nat (length (in_text st))))
                ed_end (end_spec _ _ _ _) E6) as E7; cbv beta in E7.
  eexists. split; [reflexivity | exact E7].
Qed.

(** The edits of [handle_keydown] refine [ed_edit]. *)
Lemma input_edit_spec f st key s w :
  input_inv f st -> length s <= 1 ->
  exists st', input_edit acceptable_chars st key s w = Some (inr (st', w)) /\
    edits_to f st st' (ed_edit (abs_input st) key s).
Proof.
  intros Hinv Hs. destruct (insert_spec f st st _ s w (edits_to_refl f st Hinv) Hs) as (st1 & H1 & E1).
  exact (input_edit_keys f st key s w st1 _ H1 E1).
Qed.

(** [Input.submit_text]: a non-empty text goes to the [submit]
    callbacks and the input is emptied; an empty one is kept. *)
Lemma submit_text_spec i b st w f :
  objs w !! i = Some (GInput b st) -> input_inv f st ->
  Forall (fun bd => exists t, bd.2 = CbUser t) (w_dispatch b) ->
  exists st', submit_text i w =
    Some (inr (tt, set_objs (with_log w (submit_log b (if in_text st is [] then None else Some (in_text st))))
                            (<[i := GInput b st']> (objs w)))) /\
    edits_to f st st' (if in_text st is [] then abs_input st else mkEditor [] 0).
Proof.
  intros Hi Hinv Hd. pose proof (edits_to_refl f st Hinv) as E0.
  unfold submit_text. rewrite (gbind_inr _ _ _ _ _ (lookup_obj_Some _ _ _ Hi)). cbn iota.
  destruct (in_text st) as [|c t] eqn:Ht.
  - exists st. split; [|done]. rewrite bool_decide_eq_false_2 by (by intros []).
    cbn. by rewrite with_log_nil, insert_id, set_objs_objs.
  - rewrite bool_decide_eq_true_2 by done.
    rewrite (gbind_inr _ _ _ _ _ (fire_user _ _ _ _ Hd)).
    rewrite (gbind_inr _ _ _ _ _ (lookup_obj_with_log _ _ _ _ Hi)). cbn iota.
    destruct Hinv as (_ & _ & Hf & _).
    destruct (input_set_text_spec f st [] (with_log w (map (fun t0 => (t0, EvSubmit, AText (c :: t)))
                                             (tags_for EvSubmit (w_dispatch b)))) Hf (Forall_nil_2 _))
      as (img & Hset & Hfi & Hti).
    rewrite (gbind_inr _ _ _ _ _ Hset), put_obj_spec.
    exists (with_working (with_text st [] img) 0). split; [done|].
    apply (edits_to_set_text f st st [] 0 img); [done | constructor | cbn; lia | done | done].
Qed.

Lemma with_log_put w i x y L :
  set_objs (with_log (set_objs w (<[i := x]> (objs w))) L) (<[i := y]> (objs (set_objs w (<[i := x]> (objs w))))) =
  set_objs (with_log w L) (<[i := y]> (objs w)).
Proof. rewrite with_log_set_objs, objs_set_objs, set_objs_set_objs, insert_insert_eq. done. Qed.

Lemma unchanged_world w i b st :
  objs w !! i = Some (GInput b st) -> w = set_objs (with_log w []) (<[i := GInput b st]> (objs w)).
Proof. intros Hi. by rewrite with_log_nil, insert_id, set_objs_objs. Qed.

(** C11. [Input.handle_keydown] (gui.py lines 530-558) refines the
    abstract editor: on an [Input] whose cursor lies in its text of
    acceptable characters and whose image shows that text, a key with at
    most one character of text returns [can_use(key, string) and
    active]; when that is true the text and cursor become what
    [ed_key] computes from the old ones (insertion at the cursor, cursor
    moves clamped to the text, deletion after or before the cursor, home,
    end, and return submitting a non-empty text and emptying the box),
    the [submit] callbacks receive the text exactly when [ed_submitted]
    says so, and the invariant holds again; otherwise nothing changes. *)
Theorem input_keydown_refines i b st w f rf xa key s :
  objs w !! i = Some (GInput b st) -> objs w !! w_app b = Some xa -> fonts_of xa = inr (new_mefont f, rf) ->
  input_inv f st -> length s <= 1 -> Forall (fun bd => exists t, bd.2 = CbUser t) (w_dispatch b) ->
  exists st',
    input_keydown i key s w =
      Some (inr (can_use acceptable_chars key s && active st,
                 set_objs (with_log w (if can_use acceptable_chars key s && active st
                                       then submit_log b (ed_submitted (abs_input st) key s) else []))
                          (<[i := GInput b st']> (objs w)))) /\
    input_inv f st' /\ same_input st st' /\
    abs_input st' = (if can_use acceptable_chars key s && active st then ed_key (abs_input st) key s
                     else abs_input st).
Proof.
  intros Hi Ha Hfo Hinv Hs Hd. pose proof (edits_to_refl f st Hinv) as E0.
  unfold input_keydown. rewrite (gbind_inr _ _ _ _ _ (lookup_obj_Some _ _ _ Hi)). cbn iota.
  rewrite (gbind_inr _ _ _ _ _ (app_fonts_spec _ _ _ _ _ Ha Hfo)).
  change (acceptable (new_mefont f, rf).1) with acceptable_chars.
  destruct (can_use acceptable_chars key s), (active st) eqn:Hact; cbn [negb andb];
    try (exists st; split; [by rewrite <- unchanged_world | by destruct E0 as (? & ? & ?)]).
  destruct (input_edit_spec f st key s w Hinv Hs) as (st1 & He & E1).
  rewrite (gbind_inr _ _ _ _ _ He), (gbind_inr _ _ _ _ _ (put_obj_spec _ _ _)).
  assert (objs (set_objs w (<[i := GInput b st1]> (objs w))) !! i = Some (GInput b st1)) as Hi1
    by (by rewrite objs_set_objs, lookup_insert_eq).
  pose proof (edits_to_abs _ _ _ _ E1) as HE1.
  unfold ed_key, ed_submitted. rewrite HE1.
  case_bool_decide as Hret; [rewrite decide_True by done | rewrite decide_False by done].
  - pose proof E1 as (Hinv1 & _ & _).
    destruct (submit_text_spec i b st1 _ f Hi1 Hinv1 Hd) as (st2 & Hsub & E2).
    destruct (edits_to_trans _ _ _ _ _ _ E1 E2) as (Hinv2 & HE2 & Hsame2).
    rewrite (gbind_inr _ _ _ _ _ Hsub), with_log_put.
    exists st2. split_and!; [| done | done |].
    + reflexivity.
    + rewrite HE2. change (ed_text (abs_input st1)) with (in_text st1). by destruct (in_text st1).
  - exists st1. rewrite <- with_log_nil at 1. split; [done|]. by destruct E1 as (? & ? & ?).
Qed.

Lemma input_keydown_refines_witness :
  exists w' st', input_keydown 1 (ascii_key "a"%char) ["a"%char] input_clicked = Some (inr (true, w')) /\
    objs w' !! 1 = Some (GInput (mkWBase 0 [(EvSubmit, CbUser 7)] true) st') /\
    abs_input st' = mkEditor ["a"%char] 1.
Proof.
  set (x := input_fields (objs input_clicked !! 1)).
  assert (Hi : objs input_clicked !! 1 = Some (GInput x.1 x.2)) by vm_refl.
  assert (Ha : objs input_clicked !! w_app x.1 = Some (default no_obj (objs input_clicked !! 0))) by vm_refl.
  destruct (input_keydown_refines 1 x.1 x.2 input_clicked mono_font mono_font _ (ascii_key "a"%char) ["a"%char]
              Hi Ha ltac:(vm_refl)
              ltac:(split_and!; first [vm_refl | apply Forall_nil_2 | vm_compute; discriminate])
              ltac:(cbn; lia) ltac:(vm_compute; repeat constructor; eexists; reflexivity))
    as (st' & Hrun & _ & _ & Habs).
  assert (x.1 = mkWBase 0 [(EvSubmit, CbUser 7)] true) as Hb by vm_refl.
  eexists _, st'. rewrite <- Hb. split_and!; [exact Hrun | by rewrite objs_set_objs, lookup_insert_eq |].
  rewrite Habs. vm_refl.
Defined.

(** ** Every method of [Input] keeps [input_inv] *)

Lemma is_prefix_Forall (s t : pystr) : is_prefix s t = true -> Forall (fun c => c ∈ t) s.
Proof.
  revert t. induction s as [|a s IH]; intros [|b t]; cbn; try done.
  intros [Hab Hst]%andb_prop. apply bool_decide_eq_true_1 in Hab. subst b.
  constructor; [by left|]. eapply Forall_impl; [apply IH, Hst|]. intros c Hc. by right.
Qed.

Lemma find_from_Forall s l i n : find_from s l i = Some n -> Forall (fun c => c ∈ l) s.
Proof.
  revert i. induction l as [|x l IH]; intros i; cbn;
    destruct (is_prefix s _) eqn:E; try (intros _; by apply is_prefix_Forall); [done|].
  intros H. eapply Forall_impl; [apply (IH _ H)|]. intros c Hc. by right.
Qed.

(** A string [in] the acceptable characters is made of them. *)
Lemma str_in_Forall s acc : str_in s acc = true -> Forall (fun c => c ∈ acc) s.
Proof.
  unfold str_in, py_find. rewrite decide_True by lia. rewrite drop_0.
  destruct (find_from s acc 0) eqn:E; [intros _; by eapply find_from_Forall | done].
Qed.

(** Any text that passes the test is inserted at the cursor; the cursor
    moves by one whatever its length. *)
Lemma insert_any f st0 st E s w :
  edits_to f st0 st E ->
  exists st' E',
    (if bool_decide (s <> []) && str_in s acceptable_chars then
       st' <~ input_set_text st (py_slice (in_text st) 0 (working st) ++ s ++ py_slice_from (in_text st) (working st)) ;;
       gret (with_working st' (working st' + 1))
     else gret st) w = Some (inr (st', w)) /\ edits_to f st0 st' E'.
Proof.
  intros H. destruct (edits_to_cursor_nat _ _ _ _ H) as (-> & Hw & Hn).
  destruct (bool_decide (s <> []) && str_in s acceptable_chars) eqn:Hc; [|by exists st, (abs_input st)].
  apply andb_prop in Hc as [Hne Hs]. apply bool_decide_eq_true_1 in Hne. apply str_in_Forall in Hs.
  pose proof H as ((_ & Ht & Hf & _) & _ & _).
  rewrite py_slice_0, py_slice_from_drop by lia.
  set (t := take (Z.to_nat (working st)) (in_text st) ++ s ++ drop (Z.to_nat (working st)) (in_text st)).
  assert (Forall (fun c => c ∈ acceptable_chars) t) as Hta by (by apply Forall_take_drop_app).
  destruct (input_set_text_spec f st t w Hf Hta) as (img & Hset & Hfi & Hti).
  exists (with_working (with_text st t img) (working st + 1)), (mkEditor t (Z.to_nat (working st + 1))).
  rewrite (gbind_inr _ _ _ _ _ Hset). split; [done|].
  assert (length s <> 0) by (destruct s; [done | cbn; lia]).
  apply edits_to_set_text; [exact H | done | | done | done].
  unfold t. rewrite !length_app, length_take, length_drop. lia.
Qed.

Lemma input_edit_any f st key s w :
  input_inv f st ->
  exists st' E, input_edit acceptable_chars st key s w = Some (inr (st', w)) /\ edits_to f st st' E.
Proof.
  intros Hinv. destruct (insert_any f st st _ s w (edits_to_refl f st Hinv)) as (st1 & E1 & H1 & HE1).
  destruct (input_edit_keys f st key s w st1 E1 H1 HE1) as (st' & H & E'). by exists st', (ed_keys E1 key).
Qed.

(** Firing an event with a text only logs: a callback that is not the
    application's raises [TypeError] on a text. *)
Lemma fire_text_objs d name t w u w' :
  fire d name (AText t) w = Some (inr (u, w')) -> objs w' = objs w.
Proof.
  unfold fire. revert w. induction d as [|[n cb] d IH]; intros w H; cbn [gfor] in H.
  - by injection H as <- <-.
  - apply gbind_Some_inv in H as (u1 & w1 & Hm & H). rewrite (IH _ H). cbn [fst snd] in Hm.
    destruct (decide (n = name)); [|by injection Hm as <- <-].
    destruct cb; cbn [run_callback] in Hm; try done. by injection Hm as <- <-.
Qed.

(** The result of a method of the [Input] [i]: only [i] changed, and it
    satisfies the invariant. *)
Definition input_step (f : PgFont) (w w' : GuiWorld) (i : nat) (b : WBase) : Prop :=
  exists st', objs w' = <[i := GInput b st']> (objs w) /\ input_inv f st'.

Lemma input_step_same f w i b st : objs w !! i = Some (GInput b st) -> input_inv f st -> input_step f w w i b.
Proof. intros Hi Hinv. exists st. by rewrite insert_id. Qed.

Lemma input_step_put f w i b st' : input_inv f st' -> input_step f w (set_objs w (<[i := GInput b st']> (objs w))) i b.
Proof. intros Hinv. by exists st'. Qed.

Lemma input_step_trans f w1 w2 w3 i b :
  input_step f w1 w2 i b -> input_step f w2 w3 i b -> input_step f w1 w3 i b.
Proof.
  intros (st2 & H2 & _) (st3 & H3 & Hinv3). exists st3. split; [|done].
  by rewrite H3, H2, insert_insert_eq.
Qed.

Lemma input_step_lookup f w w' i b :
  input_step f w w' i b -> exists st', objs w' !! i = Some (GInput b st') /\ input_inv f st'.
Proof. intros (st' & -> & Hinv). exists st'. by rewrite lookup_insert_eq. Qed.

Lemma submit_text_inv i b st w f u w' :
  objs w !! i = Some (GInput b st) -> input_inv f st -> submit_text i w = Some (inr (u, w')) ->
  input_step f w w' i b.
Proof.
  intros Hi Hinv H. unfold submit_text in H. rewrite (gbind_inr _ _ _ _ _ (lookup_obj_Some _ _ _ Hi)) in H.
  cbn iota in H. case_bool_decide; [|injection H as <- <-; by eapply input_step_same].
  apply gbind_Some_inv in H as (u1 & w1 & Hfire & H). apply fire_text_objs in Hfire.
  rewrite (gbind_inr _ _ _ _ _ (lookup_obj_Some i _ w1 ltac:(by rewrite Hfire))) in H. cbn iota in H.
  pose proof Hinv as (_ & _ & Hf & _).
  destruct (input_set_text_spec f st [] w1 Hf (Forall_nil_2 _)) as (img & Hset & Hfi & Hti).
  rewrite (gbind_inr _ _ _ _ _ Hset), put_obj_spec in H. injection H as <- <-.
  exists (with_working (with_text st [] img) 0). rewrite objs_set_objs, Hfire. split; [done|].
  split_and!; cbn; try done; lia.
Qed.

(** Asking where the mouse is changes nothing. *)
Lemma mouse_pos_in_world fuel c w p w' : mouse_pos_in fuel c w = Some (inr (p, w')) -> w' = w.
Proof.
  revert c w p w'. induction fuel as [|n IH]; intros c w p w' H; cbn [mouse_pos_in] in H; [discriminate|].
  apply gbind_Some_inv in H as (x & w1 & Hx & H). unfold lookup_obj in Hx.
  destruct (objs w !! c) as [o|]; [injection Hx as <- <- | discriminate].
  destruct o; try discriminate.
  - apply gbind_Some_inv in H as (w2 & w3 & Hw & H). injection Hw as <- <-. by injection H as <- <-.
  - apply gbind_Some_inv in H as (q & w2 & Hq & H). apply IH in Hq as ->. by injection H as <- <-.
Qed.

Lemma mouse_in_world c r w h w' : mouse_in c r w = Some (inr (h, w')) -> w' = w.
Proof.
  unfold mouse_in, get_mouse_pos. intros H.
  apply gbind_Some_inv in H as (p & w1 & Hp & H). apply gbind_Some_inv in Hp as (w2 & w3 & Hw & Hp).
  injection Hw as <- <-. apply mouse_pos_in_world in Hp as ->. by injection H as <- <-.
Qed.

(** ** Rendering an [Input] *)

Lemma draw_objs d w u w' : draw d w = Some (inr (u, w')) -> objs w' = objs w.
Proof. unfold draw, gmodify. by intros [= <- <-]. Qed.

Lemma get_clip_world p sz w c w' : get_clip p sz w = Some (inr (c, w')) -> w' = w.
Proof.
  unfold get_clip. intros H. apply gbind_Some_inv in H as (w1 & w2 & Hw & H). injection Hw as <- <-.
  destruct (screen_size w), (screen_size_2d w). repeat case_match; try discriminate; by injection H as <- <-.
Qed.

Lemma render_text_spec img p o w img' w' :
  render_text img p o w = Some (inr (img', w')) ->
  objs w' = objs w /\ fontobj img' = fontobj img /\ _text img' = _text img.
Proof.
  unfold render_text. intros H. apply gbind_Some_inv in H as (u & w1 & Hd & H).
  apply draw_objs in Hd. by injection H as <- <-.
Qed.

(** [calc_working_pos] only moves the cursor image. *)
Lemma calc_working_pos_state st r :
  calc_working_pos st = inr r -> r.2 = st \/ exists p, r.2 = with_cursor_pos st p.
Proof.
  unfold calc_working_pos. destruct (in_pos st) as [x0 y0].
  destruct (bool_decide _ && _); [|intros [= <-]; by left].
  destruct (first_line _) as [e|line]; cbn [ebind]; [done|].
  destruct (xwidth st <? get_width (in_image st))%Z; [destruct ((cursor_pos st).1 <? 0)%Z|]; cbn;
    (destruct (cursor_scan _ _ _ _); cbn; [done | intros [= <-]; cbn; eauto]).
Qed.

Section InputMethods.

Context (f : PgFont) (i : nat) (b : WBase) (st : InputSt) (w : GuiWorld) (xa : GObj) (mf : MEFont) (rf : PgFont).
Hypothesis Hi : objs w !! i = Some (GInput b st).
Hypothesis Ha : objs w !! w_app b = Some xa.
Hypothesis Hfo : fonts_of xa = inr (mf, rf).
Hypothesis Hacc : acceptable mf = acceptable_chars.
Hypothesis Hinv : input_inv f st.

Lemma keydown_inv key s r w' : input_keydown i key s w = Some (inr (r, w')) -> input_step f w w' i b.
Proof.
  intros H. unfold input_keydown in H. rewrite (gbind_inr _ _ _ _ _ (lookup_obj_Some _ _ _ Hi)) in H.
  cbn iota in H. rewrite (gbind_inr _ _ _ _ _ (app_fonts_spec _ _ _ _ _ Ha Hfo)) in H. cbn [fst] in H.
  rewrite Hacc in H.
  destruct (negb (can_use _ _ _)); [injection H as <- <-; by eapply input_step_same|].
  destruct (negb (active st)); [injection H as <- <-; by eapply input_step_same|].
  destruct (input_edit_any f st key s w Hinv) as (st1 & E1 & He & (Hinv1 & _)).
  rewrite (gbind_inr _ _ _ _ _ He), (gbind_inr _ _ _ _ _ (put_obj_spec _ _ _)) in H.
  pose proof (input_step_put f w i b st1 Hinv1) as S1.
  case_bool_decide.
  - apply gbind_Some_inv in H as (u & w2 & Hsub & H). injection H as <- <-.
    apply (input_step_trans _ _ _ _ _ _ S1). eapply submit_text_inv; [| exact Hinv1 | exact Hsub].
    by rewrite objs_set_objs, lookup_insert_eq.
  - by injection H as <- <-.
Qed.

Lemma keyhold_inv key s r w' : input_keyhold i key s w = Some (inr (r, w')) -> input_step f w w' i b.
Proof.
  intros H. unfold input_keyhold in H. rewrite (gbind_inr _ _ _ _ _ (lookup_obj_Some _ _ _ Hi)) in H.
  cbn iota in H. rewrite (gbind_inr _ _ _ _ _ (app_fonts_spec _ _ _ _ _ Ha Hfo)) in H. cbn [fst] in H.
  destruct (negb (can_use _ _ _)); [injection H as <- <-; by eapply input_step_same|].
  destruct (negb (active st)); [injection H as <- <-; by eapply input_step_same|].
  rewrite (gbind_inr _ _ _ w w) in H by done.
  destruct (key_hold_lengths st !! key) as [t0|].
  - destruct (Qle_bool _ _); [|injection H as <- <-; by eapply input_step_same].
    apply gbind_Some_inv in H as (u & w1 & Hk & H). pose proof (keydown_inv _ _ _ _ Hk) as S1.
    destruct (input_step_lookup _ _ _ _ _ S1) as (st1 & Hi1 & Hinv1).
    rewrite (gbind_inr _ _ _ _ _ (lookup_obj_Some _ _ _ Hi1)) in H. cbn iota in H.
    rewrite (gbind_inr _ _ _ _ _ (put_obj_spec _ _ _)) in H. injection H as <- <-.
    apply (input_step_trans _ _ _ _ _ _ S1). by apply input_step_put.
  - rewrite (gbind_inr _ _ _ _ _ (put_obj_spec _ _ _)) in H. injection H as <- <-. by apply input_step_put.
Qed.

Lemma keyup_inv key s r w' : input_keyup i key s w = Some (inr (r, w')) -> input_step f w w' i b.
Proof.
  intros H. unfold input_keyup in H. rewrite (gbind_inr _ _ _ _ _ (lookup_obj_Some _ _ _ Hi)) in H.
  cbn iota in H. rewrite (gbind_inr _ _ _ _ _ (app_fonts_spec _ _ _ _ _ Ha Hfo)) in H. cbn [fst] in H.
  destruct (negb (can_use _ _ _)); [injection H as <- <-; by eapply input_step_same|].
  destruct (negb (active st)); [injection H as <- <-; by eapply input_step_same|].
  rewrite (gbind_inr _ _ _ _ _ (put_obj_spec _ _ _)) in H. injection H as <- <-. by apply input_step_put.
Qed.

Lemma mousedown_inv n r w' : input_mousedown i n w = Some (inr (r, w')) -> input_step f w w' i b.
Proof.
  intros H. unfold input_mousedown in H. rewrite (gbind_inr _ _ _ _ _ (lookup_obj_Some _ _ _ Hi)) in H.
  cbn iota in H. destruct n; [|injection H as <- <-; by eapply input_step_same].
  apply gbind_Some_inv in H as (h & w1 & Hm & H). apply mouse_in_world in Hm as ->.
  destruct h; rewrite (gbind_inr _ _ _ _ _ (put_obj_spec _ _ _)) in H; injection H as <- <-;
    by apply input_step_put.
Qed.

Lemma mouseup_inv n r w' : input_mouseup i n w = Some (inr (r, w')) -> input_step f w w' i b.
Proof.
  intros H. unfold input_mouseup in H. rewrite (gbind_inr _ _ _ _ _ (lookup_obj_Some _ _ _ Hi)) in H.
  cbn iota in H. destruct n; [|injection H as <- <-; by eapply input_step_same].
  rewrite (gbind_inr _ _ _ _ _ (put_obj_spec _ _ _)) in H.
  assert (S1 : input_step f w (set_objs w (<[i := GInput b (with_mouse st (active st) false)]> (objs w))) i b)
    by (by apply input_step_put).
  apply gbind_Some_inv in H as (h & w1 & Hm & H).
  assert (w1 = set_objs w (<[i := GInput b (with_mouse st (active st) false)]> (objs w))) as ->
    by (destruct (in_mdown st); [by apply mouse_in_world in Hm | by injection Hm as <- <-]).
  destruct h; [|by injection H as <- <-].
  rewrite (gbind_inr _ _ _ _ _ (put_obj_spec _ _ _)) in H. injection H as <- <-.
  apply (input_step_trans _ _ _ _ _ _ S1). by apply input_step_put.
Qed.

Lemma render_inv offset u w' : input_render i b st offset w = Some (inr (u, w')) -> input_step f w w' i b.
Proof.
  intros H. unfold input_render in H.
  destruct (calc_working_pos st) as [e|[[wp tp] st1]] eqn:Hc; [discriminate|].
  rewrite (gbind_inr _ _ _ _ w) in H by done. cbn iota in H.
  assert (input_inv f st1) as Hinv1.
  { destruct (calc_working_pos_state st _ Hc) as [Hs | [p Hs]]; cbn in Hs; by subst st1. }
  apply gbind_Some_inv in H as (clip & w1 & Hclip & H). apply get_clip_world in Hclip as ->.
  apply gbind_Some_inv in H as (u1 & w2 & Hd & H). apply draw_objs in Hd.
  apply gbind_Some_inv in H as (img & w3 & Hr & H). apply render_text_spec in Hr as (Ho3 & Hf3 & Ht3).
  apply gbind_Some_inv in H as (st2 & w4 & Hs & H).
  assert (objs w4 = objs w3 /\ input_inv f st2 /\ in_text st2 = in_text st1) as (Ho4 & Hinv2 & Ht2).
  { destruct (active st1).
    - apply gbind_Some_inv in Hs as (u3 & w5 & Hd5 & Hs). apply draw_objs in Hd5. by injection Hs as <- <-.
    - by injection Hs as <- <-. }
  apply gbind_Some_inv in H as (u2 & w5 & Hpop & H). apply draw_objs in Hpop.
  injection H as <- <-. eexists. split.
  - by rewrite objs_set_objs, Hpop, Ho4, Ho3, Hd.
  - destruct Hinv2 as (? & ? & Hf2 & Ht2'). destruct Hinv1 as (_ & _ & Hf1 & Ht1).
    split_and!; try done; cbn; rewrite ?Hf3, ?Ht3; cbn; first [congruence | lia].
Qed.

End InputMethods.

(** An [Input] [i] with the invariant, in a container whose [MEFont]
    has the acceptable characters. *)
Definition input_ok (f : PgFont) (w : GuiWorld) (i : nat) : Prop :=
  exists b st xa mf rf, objs w !! i = Some (GInput b st) /\ input_inv f st /\
    objs w !! w_app b = Some xa /\ fonts_of xa = inr (mf, rf) /\ acceptable mf = acceptable_chars.

Lemma input_ok_step f w w' i b st xa mf rf :
  objs w !! i = Some (GInput b st) -> objs w !! w_app b = Some xa -> fonts_of xa = inr (mf, rf) ->
  acceptable mf = acceptable_chars -> input_step f w w' i b -> input_ok f w' i.
Proof.
  intros Hi Ha Hfo Hacc (st' & Ho & Hinv'). exists b, st', xa, mf, rf.
  assert (i <> w_app b) as Hne by (intros Heq; rewrite <- Heq, Hi in Ha; by injection Ha as <-).
  rewrite Ho. split_and!; [by rewrite lookup_insert_eq | done | by rewrite lookup_insert_ne | done | done].
Qed.

(** The invariant after a step of the [Input], and every other object
    of the store unchanged. *)
Lemma input_ok_frame f w w' i b st xa mf rf :
  objs w !! i = Some (GInput b st) -> objs w !! w_app b = Some xa -> fonts_of xa = inr (mf, rf) ->
  acceptable mf = acceptable_chars -> input_step f w w' i b ->
  input_ok f w' i /\ forall j, j <> i -> objs w' !! j = objs w !! j.
Proof.
  intros Hi Ha Hfo Hacc Hs. split; [by eapply input_ok_step|].
  destruct Hs as (st' & Ho & _). intros j Hj. rewrite Ho. by apply lookup_insert_ne.
Qed.

(** C12. The methods of [Input] (gui.py lines 433-622) keep its
    invariant: when the cursor lies in a text of acceptable characters
    that the text image shows, every event the widget is given
    ([handle_keydown], [handle_keyhold] with its repeat, [handle_keyup],
    [handle_mousedown], [handle_mouseup], and those it ignores) and
    [render] that return leave the same [Input] with the invariant, for
    any key and any string (one of several characters included), and
    every other object of the store is left as it was. *)
Theorem input_inv_preserved f w w' i fuel :
  input_ok f w i ->
  (forall ev r, widget_handle fuel ev i w = Some (inr (r, w')) ->
     input_ok f w' i /\ forall j, j <> i -> objs w' !! j = objs w !! j) /\
  (forall offset u, widget_render fuel i offset w = Some (inr (u, w')) ->
     input_ok f w' i /\ forall j, j <> i -> objs w' !! j = objs w !! j).
Proof.
  intros (b & st & xa & mf & rf & Hi & Hinv & Ha & Hfo & Hacc).
  split; [intros ev r H | intros offset u H]; (destruct fuel as [|n]; [discriminate|]);
    cbn [widget_handle widget_render] in H;
    rewrite (gbind_inr _ _ _ _ _ (lookup_obj_Some _ _ _ Hi)) in H; cbn iota in H;
    eapply input_ok_frame; try eassumption.
  - destruct ev; try (injection H as <- <-; by eapply input_step_same);
      [eapply mousedown_inv | eapply mouseup_inv | eapply keydown_inv | eapply keyup_inv | eapply keyhold_inv];
      eassumption.
  - by eapply render_inv.
Qed.

Lemma input_inv_preserved_witness :
  input_ok mono_font (run_world (widget_handle 10 (EKeyDown (ascii_key "a"%char) ["a"%char]) 1) input_clicked) 1 /\
  forall j, j <> 1%nat ->
    objs (run_world (widget_handle 10 (EKeyDown (ascii_key "a"%char) ["a"%char]) 1) input_clicked) !! j =
    objs input_clicked !! j.
Proof.
  set (x := input_fields (objs input_clicked !! 1)). set (a := default no_obj (objs input_clicked !! 0)).
  assert (Hok : input_ok mono_font input_clicked 1).
  { exists x.1, x.2, a, (new_mefont mono_font), mono_font.
    unfold input_inv. split_and!; first [vm_refl | apply Forall_nil_2 | vm_compute; discriminate]. }
  apply (proj1 (input_inv_preserved mono_font input_clicked _ 1 10 Hok) (EKeyDown (ascii_key "a"%char) ["a"%char]) true).
  vm_refl.
Defined.
