(* ===== verification/View.v ===== *)
(** * View: the window and GL settings of [src/pyggel/view.py]

    [View] is the record built by [View.__init__]; each method is a
    function of the record and of the GL state ([GLState], see GL.v),
    returning the updated pieces, or an exception where the Python code
    raises one.  The pygame window calls ([build_screen], [build_icon],
    [build_title], [refresh_screen]) are I/O and are not modelled. *)

From stdpp Require Import base countable gmap sets list.
From Stdlib Require Import QArith ZArith Lia.
From S2P Require Import Prelude GL.

Record View := mkView {
  screen_size : Z * Z;
  screen_size_2d : Z * Z;
  fullscreen : bool;
  hwrender : bool;
  decorated : bool;
  lighting : bool;
  fog : bool;
  fog_color : Color;
  view_angle : Q;
  close_view : Q;
  far_view : Q;
  clear_color : Color;
  clips : list (Z * Z * Z * Z);
  have_init : bool;
  (** [self.background_color] is read by [build_background_color] but no
      method of [View] assigns it: [None] is the missing attribute. *)
  background_color : option (list Q);
}.

Module ViewOps.
(** [View.__init__]: a missing 2d size defaults to the window size. *)
Definition new_view (screen_size : Z * Z) (screen_size_2d : option (Z * Z))
    (fullscreen hwrender decorated lighting fog : bool) (fog_color : Color)
    (view_angle close_view far_view : Q) (clear_color : Color) : View :=
  let s2d := match screen_size_2d with Some s => s | None => screen_size end in
  mkView screen_size s2d fullscreen hwrender decorated lighting fog fog_color
         view_angle close_view far_view clear_color
         [(0, 0, fst screen_size, snd screen_size)]%Z false None.

(** The keyword defaults of [View.__init__]. *)
Definition default_view : View :=
  new_view (640, 480)%Z (Some (640, 480)%Z) false true true true true
           (RGBA (1#2) (1#2) (1#2) (1#2)) 45 (1#10) 100 (RGBA 0 0 0 0).

(** pygame's display flags (SDL 1.2 values). *)
Definition HWSURFACE : Z := 1.
Definition OPENGL : Z := 2.
Definition NOFRAME : Z := 32.
Definition DOUBLEBUF : Z := 1073741824.
Definition FULLSCREEN : Z := 2147483648.

Definition get_screen_params (v : View) : Z :=
  let params := Z.lor OPENGL DOUBLEBUF in
  let params := if fullscreen v then Z.lor params FULLSCREEN else params in
  let params := if hwrender v then Z.lor params HWSURFACE else params in
  let params := if negb (decorated v) then Z.lor params NOFRAME else params in
  params.

Definition set_lighting (b : bool) (v : View) : View :=
  mkView (screen_size v) (screen_size_2d v) (fullscreen v) (hwrender v) (decorated v)
         b (fog v) (fog_color v) (view_angle v) (close_view v) (far_view v)
         (clear_color v) (clips v) (have_init v) (background_color v).

Definition set_fog (b : bool) (v : View) : View :=
  mkView (screen_size v) (screen_size_2d v) (fullscreen v) (hwrender v) (decorated v)
         (lighting v) b (fog_color v) (view_angle v) (close_view v) (far_view v)
         (clear_color v) (clips v) (have_init v) (background_color v).

Definition set_have_init (b : bool) (v : View) : View :=
  mkView (screen_size v) (screen_size_2d v) (fullscreen v) (hwrender v) (decorated v)
         (lighting v) (fog v) (fog_color v) (view_angle v) (close_view v) (far_view v)
         (clear_color v) (clips v) b (background_color v).

Definition build_lighting (v : View) (s : GLState) : GLState :=
  if lighting v then glEnable GL_LIGHTING s else glDisable GL_LIGHTING s.

Definition toggle_lighting (v : View) (s : GLState) : View * GLState :=
  let v' := set_lighting (negb (lighting v)) v in (v', build_lighting v' s).

Definition build_fog (v : View) (s : GLState) : GLState :=
  if fog v then glEnable GL_FOG s else glDisable GL_FOG s.

Definition toggle_fog (v : View) (s : GLState) : View * GLState :=
  let v' := set_fog (negb (fog v)) v in (v', build_fog v' s).

(** [build_background_color]: a 3-tuple is completed with alpha 1 and
    passed to [glClearColor]; the clear colour is the one [clear_screen]
    uses, so it is returned as a [Color].  Reading the unset attribute
    raises [AttributeError]; a tuple that is neither 3 nor 4 long makes
    [glClearColor] fail with a [TypeError]. *)
Definition build_background_color (v : View) : PyExc + Color :=
  match background_color v with
  | None => inl AttributeError
  | Some [r; g; b] => inr (RGBA r g b 1)
  | Some [r; g; b; a] => inr (RGBA r g b a)
  | Some _ => inl TypeError
  end.

(** [set2d]: orthographic projection over the window, no depth test. *)
Definition set2d (v : View) (s : GLState) : GLState :=
  glDisable GL_DEPTH_TEST (set_proj (Ortho (fst (screen_size v)) (snd (screen_size v))) s).

(** [set3d]: the aspect ratio [1.0*w/h] raises [ZeroDivisionError]
    when the window height is 0. *)
Definition set3d (v : View) (s : GLState) : PyExc + GLState :=
  let '(w, h) := screen_size v in
  if Z.eqb h 0 then inl ZeroDivisionError
  else inr (glEnable GL_DEPTH_TEST
              (set_proj (Perspective (view_angle v) w h (close_view v) (far_view v)) s)).

(** [clear_screen] with the clear colour last installed by
    [glClearColor]. *)
Definition clear_screen (clear : Color) (s : GLState) : GLState :=
  glEnable GL_SCISSOR_TEST (glClear clear (glDisable GL_SCISSOR_TEST s)).

(** [build_gl]: the capabilities it enables, in order; it stops at the
    first [build_background_color] when that raises. *)
Definition build_gl (v : View) (s : GLState) : PyExc + (View * GLState * Color) :=
  let s := glEnable GL_TEXTURE_2D s in
  let s := glEnable GL_COLOR_MATERIAL s in
  let s := build_lighting v s in
  let s := glEnable GL_NORMALIZE s in
  let s := glEnable GL_DEPTH_TEST s in
  let s := glEnable GL_SCISSOR_TEST s in
  let s := glEnable GL_BLEND s in
  match build_background_color v with
  | inl e => inl e
  | inr _ =>
      let s := build_fog v s in
      match build_background_color v with
      | inl e => inl e
      | inr c =>
          let s := glEnable GL_CULL_FACE s in
          inr (set_have_init true v, s, c)
      end
  end.

(** The overlay scale of [Scene.render] (and [gui.Input.get_clip]):
    framebuffer size over logical 2d size, per axis. *)
Definition scale_2d (v : View) : PyExc + (Q * Q) :=
  let '(w, h) := screen_size v in
  let '(w2, h2) := screen_size_2d v in
  if Z.eqb w2 0 || Z.eqb h2 0 then inl ZeroDivisionError
  else inr (inject_Z w / inject_Z w2, inject_Z h / inject_Z h2)%Q.
End ViewOps.
Export ViewOps.

(** ** What the view promises *)

(** The settings a pygame flags word encodes: [FULLSCREEN] (bit 31),
    [HWSURFACE] (bit 0) and the absence of [NOFRAME] (bit 5). *)
Definition decode_screen_params (p : Z) : bool * bool * bool :=
  (Z.testbit p 31, Z.testbit p 0, negb (Z.testbit p 5)).

(** Where the overlay pass draws the logical point [(x, y)]: scaled by
    [glScalef(rx, ry, 1)]. *)
Definition overlay_point (v : View) (x y : Q) : PyExc + (Q * Q) :=
  match scale_2d v with
  | inl e => inl e
  | inr (rx, ry) => inr (rx * x, ry * y)%Q
  end.

(** ** Theorems *)

(** [View.get_screen_params] (lines 63-72) encodes each window
    setting in its own bit of an unsigned 32-bit word, always with
    [OPENGL] and [DOUBLEBUF]: decoding the word gives back the
    settings. *)
Theorem screen_params_roundtrip v :
  decode_screen_params (get_screen_params v) = (fullscreen v, hwrender v, decorated v) /\
  Z.testbit (get_screen_params v) 1 = true /\ Z.testbit (get_screen_params v) 30 = true /\
  (0 <= get_screen_params v < 2 ^ 32)%Z.
Proof.
  unfold get_screen_params, decode_screen_params.
  destruct (fullscreen v), (hwrender v), (decorated v); vm_compute; repeat split; discriminate.
Qed.

(** C32. [View.build_gl] (lines 98-141) reads [self.background_color],
    which no method of [View] sets: on a freshly constructed view it
    raises [AttributeError] after enabling the first capabilities, and
    never reaches [GL_CULL_FACE] or [have_init = True]. *)
Theorem build_gl_fresh_view_fails ss ss2 fs hw dec li fo fc va cv fv cc s :
  build_gl (new_view ss ss2 fs hw dec li fo fc va cv fv cc) s = inl AttributeError.
Proof. reflexivity. Qed.

(** The overlay scale of [Scene.render] (lines 113-115): with a
    non-zero logical size the factors are framebuffer size over logical
    size, so the logical corner lands on the framebuffer corner; the
    spec's example, logical (640, 480) in a (1280, 960) framebuffer,
    draws logical (10, 10) at (20, 20).  A zero logical side is a
    [ZeroDivisionError]. *)
Theorem overlay_scale v :
  (snd (screen_size_2d v) <> 0%Z -> fst (screen_size_2d v) <> 0%Z ->
   exists rx ry, scale_2d v = inr (rx, ry) /\
     (rx * inject_Z (fst (screen_size_2d v)) == inject_Z (fst (screen_size v)))%Q /\
     (ry * inject_Z (snd (screen_size_2d v)) == inject_Z (snd (screen_size v)))%Q) /\
  ((snd (screen_size_2d v) = 0%Z \/ fst (screen_size_2d v) = 0%Z) ->
   scale_2d v = inl ZeroDivisionError).
Proof.
  unfold scale_2d. destruct (screen_size v) as [w h], (screen_size_2d v) as [w2 h2]. cbn.
  split.
  - intros Hh Hw. rewrite (proj2 (Z.eqb_neq _ _) Hw), (proj2 (Z.eqb_neq _ _) Hh). cbn.
    eexists _, _. split; [reflexivity|].
    split; field; intros E; [apply Hw | apply Hh]; by apply inject_Z_injective.
  - intros [->| ->]; [by rewrite orb_true_r | done].
Qed.

Example overlay_scale_spec :
  match overlay_point (new_view (1280, 960)%Z (Some (640, 480)%Z) false true true true true
                         (RGBA 0 0 0 0) 45 (1#10) 100 (RGBA 0 0 0 0)) 10 10 with
  | inr (x, y) => (x == 20 /\ y == 20)%Q
  | inl _ => False
  end.
Proof. vm_compute. split; reflexivity. Qed.

Lemma overlay_scale_witness :
  let v := new_view (1280, 960)%Z (Some (640, 480)%Z) false true true true true
                    (RGBA 0 0 0 0) 45 (1#10) 100 (RGBA 0 0 0 0) in
  exists rx ry, scale_2d v = inr (rx, ry) /\
    (rx * inject_Z (fst (screen_size_2d v)) == inject_Z (fst (screen_size v)))%Q /\
    (ry * inject_Z (snd (screen_size_2d v)) == inject_Z (snd (screen_size v)))%Q.
Proof. intros v. apply (overlay_scale v); discriminate. Defined.
