(* ===== verification/Interfaces.v ===== *)
(** * Interfaces: the collaborators [scene.py] calls

    [scene.py] imports [camera] and [light] and calls methods of the
    objects stored in its graph.  Neither [camera.py] nor [light.py] is
    among the sources, so [Camera] and [Light] below are modelled from
    the contract in the specification (sections 3, 4.1 and 4.4): a camera
    pushes and pops one modelview matrix and [set_skybox_data] only
    rotates; a light enables and disables the GL light unit stored in its
    [gl_light] attribute, and [all_lights] is the pool of the eight units
    [GL_LIGHT0 .. GL_LIGHT7].  The renderable capability
    [{visible, render(camera)}] is the typeclass [Renderable]; the
    rasteriser that decides which pixels a display list covers is the
    typeclass [Raster]. *)

From stdpp Require Import base countable gmap sets list.
From Stdlib Require Import QArith ZArith Lia.
From S2P Require Import Prelude GL View.

Record Camera := mkCamera {
  posx : Q; posy : Q; posz : Q;
  rotx : Q; roty : Q; rotz : Q;
}.

Module CameraOps.
(** [camera.push()]: [glPushMatrix] then rotations and translation. *)
Definition cam_push (c : Camera) (s : GLState) : GLState := glPushMatrix s.
(** [camera.pop()]: [glPopMatrix]. *)
Definition cam_pop (c : Camera) (s : GLState) : GLState := glPopMatrix s.
(** [camera.set_skybox_data()]: the rotations only, on the current matrix. *)
Definition cam_set_skybox_data (c : Camera) (s : GLState) : GLState := s.
End CameraOps.
Export CameraOps.

Record Light := mkLight {
  light_pos : Q * Q * Q;
  directional : bool;
  gl_light : option nat;   (** [GL_LIGHT<n>] assigned by [Scene.render] *)
}.

Module LightOps.
(** [light.all_lights]: the GL light units, [GL_LIGHT0] first. *)
Definition all_lights : list nat := seq 0 8.

Definition set_gl_light (n : nat) (l : Light) : Light :=
  mkLight (light_pos l) (directional l) (Some n).

(** [Light.shine()]: [glEnable(self.gl_light)] (after its glLightfv
    parameters); with no unit assigned the GL call gets [None], a
    [TypeError]. *)
Definition shine (l : Light) (s : GLState) : PyExc + GLState :=
  match gl_light l with
  | Some n => inr (glEnable (GL_LIGHT n) s)
  | None => inl TypeError
  end.

(** [Light.hide()]: [glDisable(self.gl_light)]. *)
Definition hide (l : Light) (s : GLState) : PyExc + GLState :=
  match gl_light l with
  | Some n => inr (glDisable (GL_LIGHT n) s)
  | None => inl TypeError
  end.
End LightOps.
Export LightOps.

(** The renderable capability: [visible] and [render(camera)], which
    only acts on the GL state (it reads [view.screen]). *)
Class Renderable (O : Type) := {
  visible : O -> bool;
  render : O -> View -> option Camera -> GLState -> PyExc + GLState;
}.

(** The rasteriser: the fragments the object's display list produces at
    each pixel in the current frame (camera and transforms included). *)
Class Raster (O : Type) := raster : O -> Z -> Z -> option Frag.

(** The contract of an ordinary renderable (mesh, cube, quad, sphere):
    its [render] pushes a matrix, draws its display list under the
    current GL state and pops the matrix again. *)
Class PlainRender (O : Type) `{Renderable O} `{Raster O} := {
  plain : O -> bool;
  render_plain : forall o v cam s, plain o = true ->
    render o v cam s = inr (gl_draw (raster o) s);
}.

Lemma caps_cam_push c s : caps (cam_push c s) = caps s.
Proof. reflexivity. Qed.
Lemma caps_cam_pop c s : caps (cam_pop c s) = caps s.
Proof. reflexivity. Qed.

#[export] Hint Rewrite caps_cam_push caps_cam_pop : gl_caps.
