(* ===== verification/Geometry.v ===== *)
(** * Geometry: the shapes of [src/pyggel/geometry.py] and [BasicMesh]

    [Cube], [Quad], [Skybox], [Sphere], [Skyball] (geometry.py) and
    [BasicMesh] (trunk/pyggel/mesh.py) are the renderables the scene
    draws.  Each is a record of its attributes; [Shape] is the tagged
    union of them, and [shape_renderable] makes it an instance of the
    [Renderable] interface.  The display lists they compile are drawn by
    the rasteriser ([Raster]); matrix transforms and colours only shape
    what the rasteriser produces.  The face tables of the cube and the
    skybox are kept as in the source. *)

From stdpp Require Import base countable gmap sets list.
From Stdlib Require Import QArith ZArith Lia.
From Stdlib Require String.
From S2P Require Import Prelude GL View Interfaces.

(** A 7-tuple row of [Cube.sides]: four corner indices, the texture
    index, the split-coordinate index and the normal index. *)
Record Side := mkSide { s_corners : list nat; s_tex : nat; s_split : nat; s_normal : nat }.

(** A texture argument: an [image.Texture] (bound by its GL name) or a
    list of them, indexed by a side's texture index. *)
Inductive Texture :=
| ImageTexture (gl_tex : nat)
| TextureList (texs : list nat).

(** The commands a display list records ([glNewList] ... [glEndList]). *)
Inductive GLCmd :=
| CBind (gl_tex : nat)                    (** [texture.bind()] *)
| CBegin                                  (** [glBegin(GL_QUADS)] *)
| CNormal (n : Z * Z * Z)                 (** [glNormal3f] *)
| CTexCoord (u v : Q)                     (** [glTexCoord2fv] *)
| CVertex (x y z : Q)                     (** [glVertex3f] *)
| CEnd                                    (** [glEnd()] *)
| CSphere (radius : Q) (slices stacks : nat). (** [gluSphere] *)

Record Cube := mkCube {
  cube_size : Q;
  cube_pos : Q * Q * Q;
  cube_rotation : Q * Q * Q;
  cube_texture : Texture;
  cube_colorize : Color;
  cube_sides : list Side;
  cube_dlist : list GLCmd;       (** what [_compile] recorded in [gl_list] *)
  cube_scale : Q;
  cube_gl_list : nat;
  cube_visible : bool;
}.

Record Sphere := mkSphere {
  sphere_size : Q;
  sphere_pos : Q * Q * Q;
  sphere_colorize : Color;
  sphere_texture : Texture;
  sphere_detail : nat;
  sphere_dlist : list GLCmd;
  sphere_scale : Q;
  sphere_gl_list : nat;
  sphere_visible : bool;
}.

Record BasicMesh := mkMesh {
  mesh_display_list : nat;
  mesh_pos : Q * Q * Q;
  mesh_rotation : Q * Q * Q;
  mesh_verts : list (Q * Q * Q);
  mesh_scale : Q;
  mesh_colorize : Color;
  mesh_visible : bool;
}.

(** [Quad]'s [facing] argument: a side name or an index. *)
Inductive Facing := FName (name : String.string) | FIndex (k : Z).

Inductive Shape :=
| SCube (c : Cube)
| SQuad (c : Cube) (facing : Z)
| SSkybox (c : Cube)
| SSphere (s : Sphere)
| SSkyball (s : Sphere)
| SMesh (m : BasicMesh).

Module GeometryOps.
Local Open Scope Z_scope.

(** [Cube.corners]. *)
Definition corners : list (Z * Z * Z) :=
  [(-1, -1, 1); (1, -1, 1); (1, 1, 1); (-1, 1, 1);
   (-1, -1, -1); (1, -1, -1); (1, 1, -1); (-1, 1, -1)].

(** [Cube.sides] (left, right, top, bottom, front, back). *)
Definition cube_sides_table : list Side :=
  [mkSide [7; 4; 0; 3] 2 2 5; mkSide [6; 5; 1; 2] 3 4 4;
   mkSide [6; 2; 3; 7] 5 0 2; mkSide [1; 5; 4; 0] 4 5 3;
   mkSide [3; 0; 1; 2] 0 1 0; mkSide [7; 4; 5; 6] 1 3 1]%nat.

(** [Skybox.sides], which replaces the cube's table. *)
Definition skybox_sides_table : list Side :=
  [mkSide [3; 0; 4; 7] 2 2 5; mkSide [6; 5; 1; 2] 3 4 4;
   mkSide [3; 7; 6; 2] 5 0 2; mkSide [4; 0; 1; 5] 4 5 3;
   mkSide [2; 1; 0; 3] 0 1 0; mkSide [7; 4; 5; 6] 1 3 1]%nat.

(** [Cube.normals] (front, back, top, bottom, right, left). *)
Definition normals : list (Z * Z * Z) :=
  [(0, 0, 1); (0, 0, -1); (0, 1, 0); (0, -1, 0); (1, 0, 0); (-1, 0, 0)].

(** [Quad.xnorms]: swaps each pair of opposite normals. *)
Definition xnorms : list nat := [1; 0; 3; 2; 5; 4]%nat.

(** [Cube.split_coords]: the cell of each side in a 4 x 3 texture atlas. *)
Definition split_coords : list (nat * nat) :=
  [(2, 0); (0, 1); (1, 1); (2, 1); (3, 1); (2, 2)]%nat.

(** [if not texture: texture = blank_texture]: [None] and the empty
    list are false, and [blank_texture] is a name that neither
    geometry.py nor include.py defines, so the default is a
    [NameError]. *)
Definition texture_or_blank (t : option Texture) : PyExc + Texture :=
  match t with
  | Some (ImageTexture n) => inr (ImageTexture n)
  | Some (TextureList (x :: l)) => inr (TextureList (x :: l))
  | _ => inl NameError
  end.

(** [texture.bind()]: a list has no [bind] attribute. *)
Definition bind_texture (t : Texture) : PyExc + list GLCmd :=
  match t with
  | ImageTexture n => inr [CBind n]
  | TextureList _ => inl AttributeError
  end.

(** [glVertex3f] of [corners[x]] scaled by 1.1. *)
Definition vertex (c : Z * Z * Z) : GLCmd :=
  let '(a, b, d) := c in
  CVertex ((11 # 10) * inject_Z a) ((11 # 10) * inject_Z b) ((11 # 10) * inject_Z d).

(** The loop [for x in i[:4]]: a texture coordinate, then a vertex. *)
Definition emit_quad (coords : list (Q * Q)) (cs : list nat) : PyExc + list GLCmd :=
  vs <-? emap (fun p : nat * nat =>
                 uv <-? py_get coords (fst p) ;;
                 v <-? py_get corners (snd p) ;;
                 inr [CTexCoord (fst uv) (snd uv); vertex v])
              (zip (seq 0 4) (take 4 cs)) ;;
  inr (concat vs).

Definition unit_coords : list (Q * Q) := [(0, 0); (0, 1); (1, 1); (1, 0)]%Q.

(** The atlas cell [(x * .25, y * .33)] of a side. *)
Definition atlas_coords (xy : nat * nat) : list (Q * Q) :=
  let x := (inject_Z (Z.of_nat (fst xy)) * (1 # 4))%Q in
  let y := (inject_Z (Z.of_nat (snd xy)) * (33 # 100))%Q in
  [(x, y); (x, y + (33 # 100)); (x + (1 # 4), y + (33 # 100)); (x + (1 # 4), y)]%Q.

(** One iteration of the loop of [Cube._compile] (lines 74-97). *)
Definition compile_side (tex : Texture) (sd : Side) : PyExc + list GLCmd :=
  xy <-? py_get split_coords (s_split sd) ;;
  pre <-? (match tex with
           | ImageTexture _ => inr []
           | TextureList ts => t <-? py_get ts (s_tex sd) ;; inr [CBind t]
           end) ;;
  let coords := match tex with ImageTexture _ => atlas_coords xy | _ => unit_coords end in
  n <-? py_get normals (s_normal sd) ;;
  vs <-? emit_quad coords (s_corners sd) ;;
  inr (pre ++ [CBegin; CNormal n] ++ vs ++ [CEnd]).

(** [Cube._compile] (lines 64-98): an image texture is bound once
    and mapped as an atlas; a texture list binds one texture per side. *)
Definition cube_compile (tex : Texture) (sides : list Side) : PyExc + list GLCmd :=
  ds <-? emap (compile_side tex) sides ;;
  inr (match tex with ImageTexture t => [CBind t] | _ => [] end ++ concat ds).

(** [Cube.__init__] (lines 17-62); [gl_list] is what [glGenLists]
    returned. *)
Definition new_cube (size : Q) (pos rotation : Q * Q * Q) (colorize : Color)
    (texture : option Texture) (gl_list : nat) : PyExc + Cube :=
  tex <-? texture_or_blank texture ;;
  d <-? cube_compile tex cube_sides_table ;;
  inr (mkCube size pos rotation tex colorize cube_sides_table d 1%Q gl_list true).

(** [Quad._compile] (lines 138-164): one side, [sides[facing]], with
    the swapped normal. *)
Definition quad_compile (tex : Texture) (sides : list Side) (facing : Z)
    : PyExc + list GLCmd :=
  b <-? bind_texture tex ;;
  sd <-? py_index sides facing ;;
  _ <-? py_get split_coords (s_split sd) ;;
  k <-? py_get xnorms (s_normal sd) ;;
  n <-? py_get normals k ;;
  vs <-? emit_quad unit_coords (s_corners sd) ;;
  inr (b ++ [CBegin; CNormal n] ++ vs ++ [CEnd]).

End GeometryOps.
Export GeometryOps.

Module FacingNames.
Import String.
(** The side names of [Quad.__init__]; another name is a [KeyError]. *)
Definition facing_index (f : Facing) : PyExc + Z :=
  match f with
  | FIndex k => inr k
  | FName s =>
      if String.eqb s "left"%string then inr 0%Z else if String.eqb s "right"%string then inr 1%Z
      else if String.eqb s "top"%string then inr 2%Z else if String.eqb s "bottom"%string then inr 3%Z
      else if String.eqb s "front"%string then inr 4%Z else if String.eqb s "back"%string then inr 5%Z
      else inl KeyError
  end.
End FacingNames.
Export FacingNames.

Module ShapeOps.
Local Open Scope Z_scope.


(** [Quad.__init__] (lines 121-136): [Cube.__init__] runs the
    overriding [Quad._compile]. *)
Definition new_quad (size : Q) (pos rotation : Q * Q * Q) (colorize : Color)
    (texture : option Texture) (facing : Facing) (gl_list : nat) : PyExc + (Cube * Z) :=
  f <-? facing_index facing ;;
  tex <-? texture_or_blank texture ;;
  d <-? quad_compile tex cube_sides_table f ;;
  inr (mkCube size pos rotation tex colorize cube_sides_table d 1%Q gl_list true, f).

(** [Skybox.__init__] (lines 174-182): a unit cube compiled once with
    the cube's table, then recompiled with the skybox table. *)
Definition new_skybox (texture : option Texture) (colorize : Color) (gl_list : nat)
    : PyExc + Cube :=
  c <-? new_cube 1 (0, 0, 0)%Q (0, 0, 0)%Q colorize texture gl_list ;;
  d <-? cube_compile (cube_texture c) skybox_sides_table ;;
  inr (mkCube (cube_size c) (cube_pos c) (cube_rotation c) (cube_texture c)
              (cube_colorize c) skybox_sides_table d (cube_scale c) (cube_gl_list c)
              (cube_visible c)).

(** [Sphere._compile] (lines 219-225). *)
Definition sphere_compile (tex : Texture) (detail : nat) : PyExc + list GLCmd :=
  b <-? bind_texture tex ;;
  inr (b ++ [CSphere 1 detail detail]).

(** [Sphere.__init__] (lines 203-217). *)
Definition new_sphere (size : Q) (pos : Q * Q * Q) (colorize : Color)
    (texture : option Texture) (detail gl_list : nat) : PyExc + Sphere :=
  tex <-? texture_or_blank texture ;;
  d <-? sphere_compile tex detail ;;
  inr (mkSphere size pos colorize tex detail d 1%Q gl_list true).

(** [Skyball.__init__] (lines 245-247). *)
Definition new_skyball (texture : option Texture) (colorize : Color) (detail gl_list : nat)
    : PyExc + Sphere :=
  new_sphere 1 (0, 0, 0)%Q colorize texture detail gl_list.

(** [Cube.copy] (lines 113-118) reads [self.color], which a cube does
    not have. *)
Definition cube_copy (c : Cube) : PyExc + Cube := inl AttributeError.

(** [Quad.copy], [Skybox.copy], [Sphere.copy], [Skyball.copy]: a new
    object is built, then [glDeleteLists(n.gl_list)] is called with one
    argument where the GL binding takes two, a [TypeError]. *)
Definition quad_copy (c : Cube) (facing : Z) (gl_list : nat) : PyExc + (Cube * Z) :=
  _ <-? new_quad (cube_size c) (cube_pos c) (cube_rotation c) (cube_colorize c)
                 (Some (cube_texture c)) (FIndex facing) gl_list ;;
  inl TypeError.

Definition skybox_copy (c : Cube) (gl_list : nat) : PyExc + Cube :=
  _ <-? new_skybox (Some (cube_texture c)) (cube_colorize c) gl_list ;;
  inl TypeError.

Definition sphere_copy (s : Sphere) (gl_list : nat) : PyExc + Sphere :=
  _ <-? new_sphere (sphere_size s) (sphere_pos s) (sphere_colorize s)
                   (Some (sphere_texture s)) (sphere_detail s) gl_list ;;
  inl TypeError.

(** [Cube.render]: push, transform, colour, [glCallList], pop. *)
Definition cube_render (cov : Z -> Z -> option Frag) (s : GLState) : GLState :=
  glPopMatrix (gl_draw cov (glPushMatrix s)).

(** [Sphere.render] has the same shape as [Cube.render]. *)
Definition sphere_render (cov : Z -> Z -> option Frag) (s : GLState) : GLState :=
  glPopMatrix (gl_draw cov (glPushMatrix s)).

(** [BasicMesh.render]: push, transform, colour, display list, pop. *)
Definition mesh_render (cov : Z -> Z -> option Frag) (s : GLState) : GLState :=
  glPopMatrix (gl_draw cov (glPushMatrix s)).

(** [Skybox.render(camera)]: no lighting, no depth writes, camera
    rotation only; lighting is restored from [view.screen.lighting].
    [camera.set_skybox_data()] on [None] is an [AttributeError]. *)
Definition skybox_render (cov : Z -> Z -> option Frag) (v : View)
    (cam : option Camera) (s : GLState) : PyExc + GLState :=
  let s := glDisable GL_LIGHTING s in
  let s := glDepthMask false s in
  let s := glPushMatrix s in
  match cam with
  | None => inl AttributeError
  | Some c =>
      let s := cam_set_skybox_data c s in
      let s := cube_render cov s in
      let s := glPopMatrix s in
      let s := glDepthMask true s in
      inr (if lighting v then glEnable GL_LIGHTING s else s)
  end.

(** [Skyball.render(camera)]: no depth writes; lighting is left as is. *)
Definition skyball_render (cov : Z -> Z -> option Frag)
    (cam : option Camera) (s : GLState) : PyExc + GLState :=
  let s := glDepthMask false s in
  let s := glPushMatrix s in
  match cam with
  | None => inl AttributeError
  | Some c =>
      let s := cam_set_skybox_data c s in
      let s := sphere_render cov s in
      let s := glPopMatrix s in
      inr (glDepthMask true s)
  end.

Definition shape_visible (o : Shape) : bool :=
  match o with
  | SCube c | SQuad c _ | SSkybox c => cube_visible c
  | SSphere s | SSkyball s => sphere_visible s
  | SMesh m => mesh_visible m
  end.

Definition shape_render `{Raster Shape} (o : Shape) (v : View)
    (cam : option Camera) (s : GLState) : PyExc + GLState :=
  match o with
  | SCube _ | SQuad _ _ => inr (cube_render (raster o) s)
  | SSkybox _ => skybox_render (raster o) v cam s
  | SSphere _ => inr (sphere_render (raster o) s)
  | SSkyball _ => skyball_render (raster o) cam s
  | SMesh _ => inr (mesh_render (raster o) s)
  end.

Definition shape_plain (o : Shape) : bool :=
  match o with SSkybox _ | SSkyball _ => false | _ => true end.
End ShapeOps.
Export ShapeOps.

#[export] Instance shape_renderable `{Raster Shape} : Renderable Shape :=
  {| visible := shape_visible; render := shape_render |}.

#[export] Instance shape_plain_render `{Raster Shape} : PlainRender Shape.
Proof.
  refine {| plain := shape_plain |}.
  intros o v cam st Hp; destruct o; simpl in *; try discriminate;
    unfold cube_render, sphere_render, mesh_render; by rewrite gl_draw_push_pop.
Defined.

(** ** What the face tables and the display lists mean *)

Module Faces.
Local Open Scope Z_scope.

Definition vsub (a b : Z * Z * Z) : Z * Z * Z :=
  let '(a1, a2, a3) := a in let '(b1, b2, b3) := b in (a1 - b1, a2 - b2, a3 - b3).
Definition cross (a b : Z * Z * Z) : Z * Z * Z :=
  let '(a1, a2, a3) := a in let '(b1, b2, b3) := b in
  (a2 * b3 - a3 * b2, a3 * b1 - a1 * b3, a1 * b2 - a2 * b1).
Definition dot (a b : Z * Z * Z) : Z :=
  let '(a1, a2, a3) := a in let '(b1, b2, b3) := b in a1 * b1 + a2 * b2 + a3 * b3.

(** The corners of a side, as [Cube._compile] reads them. *)
Definition side_points (sd : Side) : list (Z * Z * Z) :=
  omap (fun i => corners !! i) (take 4 (s_corners sd)).

(** The side lies in the face of the cube its normal points out of:
    every corner [c] has [n . c = 1]. *)
Definition on_face (sd : Side) : bool :=
  match normals !! s_normal sd with
  | Some n => forallb (fun c => dot n c =? 1) (side_points sd) &&
              (length (side_points sd) =? 4)%nat
  | None => false
  end.

(** The side is wound counter-clockwise seen from outside the cube
    (from the side its normal points to), which is the front face for
    [glFrontFace(GL_CCW)] in [View.build_gl]. *)
Definition outward (sd : Side) : bool :=
  match side_points sd, normals !! s_normal sd with
  | p0 :: p1 :: p2 :: _, Some n => 0 <? dot (cross (vsub p1 p0) (vsub p2 p1)) n
  | _, _ => false
  end.
End Faces.

(** The textures a display list binds, in order. *)
Definition binds (d : list GLCmd) : list nat :=
  omap (fun c => match c with CBind t => Some t | _ => None end) d.

(** The GL state a skybox or skyball leaves at a pixel: its depth. *)
Definition depth_at (s : GLState) (x y : Z) : Q := px_depth (fb s x y).

Local Open Scope nat_scope.

(** ** Theorems *)

(** Every side of [Cube.sides] and [Skybox.sides] lies in the face
    of the cube its normal names, but only the left and front sides of
    the cube are wound counter-clockwise seen from outside: with
    [glFrontFace(GL_CCW)], [glCullFace(GL_BACK)] and [GL_CULL_FACE]
    enabled by [View.build_gl], the right, top, bottom and back sides
    of a [Cube] are culled when seen from outside, and shown when seen
    through the cube.  The skybox table is wound inward on every side,
    as a box seen from inside must be. *)
Theorem cube_side_winding :
  forallb Faces.on_face cube_sides_table = true /\
  forallb Faces.on_face skybox_sides_table = true /\
  map Faces.outward cube_sides_table = [true; false; false; false; true; false] /\
  map Faces.outward skybox_sides_table = [false; false; false; false; false; false].
Proof. split_and!; vm_compute; reflexivity. Qed.

(** Textures of a cube ([Cube._compile], lines 66-83): an image
    texture is bound once, before the six sides; a list of at least six
    textures binds each of its first six once, one per side; a shorter
    non-empty list raises [IndexError]. *)
Theorem cube_compile_binds ts t :
  (exists d, cube_compile (ImageTexture t) cube_sides_table = inr d /\ binds d = [t]) /\
  (6 <= length ts -> exists d, cube_compile (TextureList ts) cube_sides_table = inr d /\
                              binds d ≡ₚ take 6 ts) /\
  (0 < length ts < 6 -> cube_compile (TextureList ts) cube_sides_table = inl IndexError).
Proof.
  split_and!.
  - eexists. split; [reflexivity|]. vm_compute. reflexivity.
  - intros Hl. do 6 (destruct ts as [|? ts]; [cbn in Hl; lia|]).
    eexists. split; [reflexivity|]. cbn. solve_Permutation.
  - intros Hl. do 6 (destruct ts as [|? ts]; [cbn in Hl; try lia; reflexivity|]).
    cbn in Hl. lia.
Qed.

(** C33. [blank_texture], the default of [Cube], [Quad], [Skybox],
    [Sphere] and [Skyball] when no texture is given, is not defined in
    the package: each constructor raises [NameError] without a texture
    (the documentation of include.py says it creates one). *)
Theorem shapes_need_texture size pos rot col facing detail gl :
  new_cube size pos rot col None gl = inl NameError /\
  (forall k, facing_index facing = inr k -> new_quad size pos rot col None facing gl = inl NameError) /\
  new_skybox None col gl = inl NameError /\
  new_sphere size pos col None detail gl = inl NameError /\
  new_skyball None col detail gl = inl NameError.
Proof.
  split_and!; try reflexivity.
  intros k Hk. unfold new_quad. by rewrite Hk.
Qed.

Lemma gl_draw_depth cov s x y :
  depth_mask s = false -> px_depth (fb (gl_draw cov s) x y) = px_depth (fb s x y).
Proof. intros Hm. unfold gl_draw. cbn. apply draw_pixel_depth_kept. by left. Qed.

(** Unfolds [depth_at] through the GL calls around a draw. *)
Ltac depth_through :=
  unfold depth_at, cube_render, sphere_render;
  cbn [fb glEnable glDisable glDepthMask glPopMatrix glPushMatrix cam_set_skybox_data
       GLOps.set_caps];
  rewrite ?gl_draw_depth by done; cbn [fb glDepthMask glPushMatrix cam_set_skybox_data
       glDisable GLOps.set_caps].

(** C30. The skybox pass never writes depth ([Skybox.render], lines
    184-193, [Skyball.render], lines 249-256): given a camera, both
    draw with depth writes off and return with the depth buffer as they
    found it and depth writes on.  [Skybox.render] disables lighting
    and re-enables it from [view.screen.lighting]; [Skyball.render]
    leaves the enabled capabilities, lighting included, as they were,
    so a skyball is drawn lit. *)
Theorem sky_no_depth_write cov v c s :
  (exists s', skybox_render cov v (Some c) s = inr s' /\
     (forall x y, depth_at s' x y = depth_at s x y) /\ depth_mask s' = true /\
     (GL_LIGHTING ∈ caps s' <-> lighting v = true) /\
     (forall cap, cap <> GL_LIGHTING -> cap ∈ caps s' <-> cap ∈ caps s)) /\
  (exists s', skyball_render cov (Some c) s = inr s' /\
     (forall x y, depth_at s' x y = depth_at s x y) /\ depth_mask s' = true /\
     caps s' = caps s).
Proof.
  split; eexists; (split; [reflexivity|]).
  - split_and!.
    + intros x y. destruct (lighting v); depth_through; reflexivity.
    + by destruct (lighting v).
    + destruct (lighting v); cbn; set_solver.
    + intros cap Hc. destruct (lighting v); cbn; set_solver.
  - split_and!; [|done|done].
    intros x y. depth_through. reflexivity.
Qed.

Lemma cube_compile_binds_witness :
  exists d, cube_compile (TextureList [10; 11; 12; 13; 14; 15]) cube_sides_table = inr d /\
            binds d ≡ₚ take 6 [10; 11; 12; 13; 14; 15].
Proof. apply (cube_compile_binds [10; 11; 12; 13; 14; 15] 0). cbn. lia. Defined.

Lemma shapes_need_texture_witness :
  new_quad 1 (0, 0, 0)%Q (0, 0, 0)%Q (RGBA 1 1 1 1) None (FIndex 4) 0 = inl NameError.
Proof.
  apply (proj1 (proj2 (shapes_need_texture 1 (0, 0, 0)%Q (0, 0, 0)%Q (RGBA 1 1 1 1)
                         (FIndex 4) 30 0)) 4%Z).
  reflexivity.
Defined.
