(* ===== verification/Scene.v ===== *)
(** * Scene: the scene graph and render loop of [src/trunk/pyggel/scene.py]

    [Tree] holds the five ordered pass lists, the optional skybox and
    shader and the lights; [Scene] adds the [render2d]/[render3d]/[pick]
    switches.  Objects and lights are Python objects shared with the
    caller, so the tree stores handles ([nat]) into a [World]: the
    object store (each object with its [scene] attribute, which [add_2d]
    writes), the light store (each light with its [gl_light] attribute,
    which [render] writes), the GL state, and the log of [render] calls
    made on objects.  [Scene.render] is [render] below, one definition
    per pass, in the state and exception monad of the prelude.  The
    scene is generic in the object type: everything here is stated
    against the [Renderable] interface. *)

From stdpp Require Import base countable gmap sets list relations.
From Stdlib Require Import QArith ZArith Lia.
From S2P Require Import Prelude GL View Interfaces.

Local Open Scope nat_scope.

Record Tree := mkTree {
  render_3d : list nat;
  render_3d_shader : list nat;
  render_3d_blend : list nat;
  render_2d : list nat;
  render_3d_always : list nat;
  skybox : option nat;
  lights : list nat;
  shader : option nat;          (** the GLSL program the shader runs *)
}.

(** [Tree.__init__] *)
Definition new_tree : Tree := mkTree [] [] [] [] [] None [] None.

Record Scene := mkScene {
  scene_id : nat;               (** the identity [add_2d] stores in [i.scene] *)
  graph : Tree;
  render2d : bool;
  render3d : bool;
  pick : bool;
}.

(** [Scene.__init__] *)
Definition new_scene (sid : nat) : Scene := mkScene sid new_tree true true false.

(** The argument of [add_*]: one object, or anything with [__iter__]. *)
Inductive Elem := One (o : nat) | Many (os : list nat).

Definition elems (e : Elem) : list nat :=
  match e with One o => [o] | Many os => os end.

(** The five pass lists, by name. *)
Inductive Pass := P3d | P3dShader | P3dBlend | P2d | P3dAlways.

#[export] Instance Pass_eq_dec : EqDecision Pass.
Proof. solve_decision. Defined.

Module TreeOps.
Definition pass_list (p : Pass) (t : Tree) : list nat :=
  match p with
  | P3d => render_3d t | P3dShader => render_3d_shader t
  | P3dBlend => render_3d_blend t | P2d => render_2d t
  | P3dAlways => render_3d_always t
  end.

Definition set_pass (p : Pass) (l : list nat) (t : Tree) : Tree :=
  match p with
  | P3d => mkTree l (render_3d_shader t) (render_3d_blend t) (render_2d t)
                  (render_3d_always t) (skybox t) (lights t) (shader t)
  | P3dShader => mkTree (render_3d t) l (render_3d_blend t) (render_2d t)
                  (render_3d_always t) (skybox t) (lights t) (shader t)
  | P3dBlend => mkTree (render_3d t) (render_3d_shader t) l (render_2d t)
                  (render_3d_always t) (skybox t) (lights t) (shader t)
  | P2d => mkTree (render_3d t) (render_3d_shader t) (render_3d_blend t) l
                  (render_3d_always t) (skybox t) (lights t) (shader t)
  | P3dAlways => mkTree (render_3d t) (render_3d_shader t) (render_3d_blend t)
                  (render_2d t) l (skybox t) (lights t) (shader t)
  end.

Definition set_skybox (b : option nat) (t : Tree) : Tree :=
  mkTree (render_3d t) (render_3d_shader t) (render_3d_blend t) (render_2d t)
         (render_3d_always t) b (lights t) (shader t).

Definition set_lights (ls : list nat) (t : Tree) : Tree :=
  mkTree (render_3d t) (render_3d_shader t) (render_3d_blend t) (render_2d t)
         (render_3d_always t) (skybox t) ls (shader t).

Definition set_shader_field (p : option nat) (t : Tree) : Tree :=
  mkTree (render_3d t) (render_3d_shader t) (render_3d_blend t) (render_2d t)
         (render_3d_always t) (skybox t) (lights t) p.

Definition set_graph (t : Tree) (sc : Scene) : Scene :=
  mkScene (scene_id sc) t (render2d sc) (render3d sc) (pick sc).

(** The body shared by [add_3d], [add_3d_shader], [add_3d_blend] and
    [add_3d_always]: wrap a single object, then append each element. *)
Definition add_pass (p : Pass) (e : Elem) (sc : Scene) : Scene :=
  let t := graph sc in
  set_graph (set_pass p (pass_list p t ++ elems e) t) sc.

Definition add_3d := add_pass P3d.
Definition add_3d_shader := add_pass P3dShader.
Definition add_3d_blend := add_pass P3dBlend.
Definition add_3d_always := add_pass P3dAlways.

(** The body of the five [remove_*]: [list.remove], which raises
    [ValueError] when the object is not in the list. *)
Definition remove_pass (p : Pass) (o : nat) (sc : Scene) : PyExc + Scene :=
  let t := graph sc in
  match py_remove o (pass_list p t) with
  | Some l => inr (set_graph (set_pass p l t) sc)
  | None => inl ValueError
  end.

Definition remove_2d := remove_pass P2d.
Definition remove_3d := remove_pass P3d.
Definition remove_3d_shader := remove_pass P3dShader.
Definition remove_3d_blend := remove_pass P3dBlend.
Definition remove_3d_always := remove_pass P3dAlways.

(** [add_skybox(ele=None)]: a single slot, overwritten. *)
Definition add_skybox (b : option nat) (sc : Scene) : Scene :=
  set_graph (set_skybox b (graph sc)) sc.

(** [add_light]: at most 8 lights, else [ValueError("Too many Lights")]. *)
Definition add_light (l : nat) (sc : Scene) : PyExc + Scene :=
  if bool_decide (length (lights (graph sc)) < 8) then
    inr (set_graph (set_lights (lights (graph sc) ++ [l]) (graph sc)) sc)
  else inl ValueError.

(** [remove_light]: removes the first occurrence, if any. *)
Definition remove_light (l : nat) (sc : Scene) : Scene :=
  if bool_decide (l ∈ lights (graph sc)) then
    match py_remove l (lights (graph sc)) with
    | Some ls => set_graph (set_lights ls (graph sc)) sc
    | None => sc
    end
  else sc.

Definition set_shader (p : nat) (sc : Scene) : Scene :=
  set_graph (set_shader_field (Some p) (graph sc)) sc.

Definition remove_shader (sc : Scene) : Scene :=
  set_graph (set_shader_field None (graph sc)) sc.
End TreeOps.
Export TreeOps.

(** ** The public operations as a step relation

    Between frames a client calls the graph operations and assigns the
    [render2d], [render3d] and [pick] attributes; [scene_op] relates a
    scene to the scene after one such call that returns normally
    ([add_2d] changes the graph as [add_pass P2d] does). *)
Inductive scene_op : Scene -> Scene -> Prop :=
| op_add p e sc : scene_op sc (add_pass p e sc)
| op_remove p o sc sc' : remove_pass p o sc = inr sc' -> scene_op sc sc'
| op_add_skybox b sc : scene_op sc (add_skybox b sc)
| op_add_light l sc sc' : add_light l sc = inr sc' -> scene_op sc sc'
| op_remove_light l sc : scene_op sc (remove_light l sc)
| op_set_shader p sc : scene_op sc (set_shader p sc)
| op_remove_shader sc : scene_op sc (remove_shader sc)
| op_flags r2 r3 pk sc : scene_op sc (mkScene (scene_id sc) (graph sc) r2 r3 pk).


(** ** Facts on the graph operations *)

Lemma pass_list_set_pass p l t : pass_list p (set_pass p l t) = l.
Proof. by destruct p. Qed.

Lemma pass_list_set_pass_ne p q l t : p <> q -> pass_list q (set_pass p l t) = pass_list q t.
Proof. destruct p, q; naive_solver. Qed.

Lemma set_pass_pass_list p t : set_pass p (pass_list p t) t = t.
Proof. by destruct p, t. Qed.

Lemma skybox_set_pass p l t : skybox (set_pass p l t) = skybox t.
Proof. by destruct p. Qed.


(** [list.remove] of the element just appended, when it was absent. *)
Lemma py_remove_snoc_absent `{EqDecision A} (x : A) l :
  x ∉ l -> py_remove x (l ++ [x]) = Some l.
Proof.
  intros Hx. apply py_remove_Some. exists l, []. by rewrite app_nil_r.
Qed.

Lemma set_pass_set_pass p l l' t : set_pass p l (set_pass p l' t) = set_pass p l t.
Proof. by destruct p. Qed.

Lemma add_pass_snoc p i l sc :
  add_pass p (Many l) (add_pass p (One i) sc) = add_pass p (Many (i :: l)) sc.
Proof.
  unfold add_pass, set_graph. cbn. by rewrite pass_list_set_pass, set_pass_set_pass, <- app_assoc.
Qed.

Lemma add_pass_nil p sc : add_pass p (Many []) sc = sc.
Proof. unfold add_pass, set_graph. rewrite app_nil_r, set_pass_pass_list. by destruct sc. Qed.

(** The graph after a successful removal: the list [p] loses its first
    [o], the others are unchanged. *)
Lemma remove_pass_graph p o sc sc' :
  remove_pass p o sc = inr sc' ->
  exists l', py_remove o (pass_list p (graph sc)) = Some l' /\
    pass_list p (graph sc') = l' /\
    (forall q, q <> p -> pass_list q (graph sc') = pass_list q (graph sc)) /\
    skybox (graph sc') = skybox (graph sc) /\
    render2d sc' = render2d sc /\ render3d sc' = render3d sc.
Proof.
  unfold remove_pass. destruct (py_remove o _) as [l'|] eqn:E; [|done]. intros [= <-].
  exists l'. cbn. rewrite pass_list_set_pass, skybox_set_pass.
  split_and!; try done. intros q Hq. by apply pass_list_set_pass_ne.
Qed.

Lemma lights_add_pass p e sc : lights (graph (add_pass p e sc)) = lights (graph sc).
Proof. by destruct p. Qed.

Lemma lights_remove_pass p o sc sc' :
  remove_pass p o sc = inr sc' -> lights (graph sc') = lights (graph sc).
Proof.
  unfold remove_pass. destruct (py_remove _ _); [|done]. intros [= <-]. by destruct p.
Qed.

(** One public operation keeps the number of lights at most 8. *)
Lemma scene_op_lights sc sc' :
  scene_op sc sc' -> length (lights (graph sc)) <= 8 -> length (lights (graph sc')) <= 8.
Proof.
  destruct 1 as [p e sc|p o sc sc' Hr|b sc|l sc sc' Ha|l sc|p sc|sc|r2 r3 pk sc]; intros Hle;
    try done.
  - by rewrite lights_add_pass.
  - by rewrite (lights_remove_pass _ _ _ _ Hr).
  - unfold add_light in Ha. case_bool_decide; [|done]. injection Ha as <-.
    simpl. rewrite length_app. simpl. lia.
  - unfold remove_light. case_bool_decide; [|done].
    destruct (py_remove l _) as [ls|] eqn:E; [|done].
    apply py_remove_length in E. simpl. lia.
Qed.

(** C5. Invariant: every scene reachable from [Scene()] through the public
    operations holds at most eight lights. *)
Theorem reachable_lights_bounded sid sc :
  rtc scene_op (new_scene sid) sc -> length (lights (graph sc)) <= 8.
Proof.
  revert sc. apply (rtc_ind_r (fun y => length (lights (graph y)) <= 8)); [simpl; lia|].
  intros y z _ Hyz IH. by eapply scene_op_lights.
Qed.

(** Two lights added to a fresh scene. *)
Lemma reachable_lights_bounded_witness :
  length (lights (graph (mkScene 0 (mkTree [] [] [] [] [] None [5; 6] None) true true false))) <= 8.
Proof.
  apply (reachable_lights_bounded 0).
  eapply rtc_l; [by eapply op_add_light with (l := 5)|].
  eapply rtc_l; [by eapply op_add_light with (l := 6)|].
  apply rtc_refl.
Defined.


(** Round trip: appending an object that is not in a pass list and
    removing it again gives back the scene. *)
Theorem add_remove_roundtrip p o sc :
  o ∉ pass_list p (graph sc) -> remove_pass p o (add_pass p (One o) sc) = inr sc.
Proof.
  intros Ho. unfold remove_pass, add_pass, set_graph. cbn.
  rewrite pass_list_set_pass, py_remove_snoc_absent by done.
  by rewrite set_pass_set_pass, set_pass_pass_list; destruct sc.
Qed.

Lemma add_remove_roundtrip_witness :
  remove_pass P3d 2 (add_pass P3d (One 2) (new_scene 0)) = inr (new_scene 0).
Proof. apply add_remove_roundtrip. cbn. set_solver. Defined.

(** C31. [remove_2d], [remove_3d], ... call [list.remove]: they raise
    [ValueError] exactly when the object is not in the list. *)
Theorem remove_pass_value_error p o sc :
  remove_pass p o sc = inl ValueError <-> o ∉ pass_list p (graph sc).
Proof.
  unfold remove_pass. rewrite <- py_remove_None.
  destruct (py_remove o _); split; congruence.
Qed.
