(* ===== verification/Render.v ===== *)
(** * Render: the shared store and [Scene.render] (scene.py, lines 36-131)

    The objects and lights of a scene are Python objects shared with
    the caller; [World] is the store they live in, with the GL state and
    the log of [render] calls.  [scene_render] is [Scene.render], one
    definition per pass, in the state and exception monad of the
    prelude; [add_2d] is [Scene.add_2d], which writes the objects'
    [scene] attribute. *)

From stdpp Require Import base countable gmap sets list.
From Stdlib Require Import QArith ZArith Lia.
From S2P Require Import Prelude GL View Interfaces Scene.

Local Open Scope nat_scope.

(** ** The shared store and the render loop *)

Section Render.
Context {O : Type} `{Renderable O}.

(** A Python object of the graph with the [scene] attribute [add_2d]
    sets on it. *)
Record Cell := mkCell { obj : O; obj_scene : option nat }.

Record World := mkWorld {
  w_gl : GLState;
  w_objs : gmap nat Cell;
  w_lights : gmap nat Light;
  w_log : list nat;           (** handles whose [render] was called, in order *)
}.

Definition M := PyM World.

Definition gl_update (f : GLState -> GLState) : M unit :=
  pmodify (fun w => mkWorld (f (w_gl w)) (w_objs w) (w_lights w) (w_log w)).

Definition gl_try (f : GLState -> PyExc + GLState) : M unit :=
  fun w => match f (w_gl w) with
           | inl e => inl e
           | inr s => inr (tt, mkWorld s (w_objs w) (w_lights w) (w_log w))
           end.

Definition gl_read {A} (f : GLState -> A) : M A := fun w => inr (f (w_gl w), w).

(** Dereferencing a handle.  Python references cannot dangle; the
    well-formedness of a world ([handles_ok] below) rules this case out. *)
Definition get_obj (i : nat) : M O :=
  fun w => match w_objs w !! i with
           | Some c => inr (obj c, w)
           | None => inl AttributeError
           end.

Definition get_light (i : nat) : M Light :=
  fun w => match w_lights w !! i with
           | Some l => inr (l, w)
           | None => inl AttributeError
           end.

Definition put_light (i : nat) (l : Light) : M unit :=
  pmodify (fun w => mkWorld (w_gl w) (w_objs w) (<[i := l]> (w_lights w)) (w_log w)).

(** [i.render(camera)], recorded in the log. *)
Definition render_obj (v : View) (cam : option Camera) (i : nat) : M unit :=
  o <- get_obj i ;;
  pmodify (fun w => mkWorld (w_gl w) (w_objs w) (w_lights w) (w_log w ++ [i])) ;;;
  gl_try (render o v cam).

(** [i.scene = self] (line 131). *)
Definition set_obj_scene (i sid : nat) : M unit :=
  fun w => match w_objs w !! i with
           | Some c => inr (tt, mkWorld (w_gl w) (<[i := mkCell (obj c) (Some sid)]> (w_objs w))
                                      (w_lights w) (w_log w))
           | None => inl AttributeError
           end.

(** The loop of [Scene.add_2d] (lines 129-131): append [i] to
    [render_2d], then set [i.scene]. *)
Fixpoint add_2d_loop (l : list nat) (sc : Scene) : M Scene :=
  match l with
  | [] => pret sc
  | i :: l' =>
      let sc' := add_pass P2d (One i) sc in
      set_obj_scene i (scene_id sc) ;;;
      add_2d_loop l' sc'
  end.

(** [Scene.add_2d] (lines 125-131). *)
Definition add_2d (e : Elem) (sc : Scene) : M Scene := add_2d_loop (elems e) sc.

(** The loop the four 3d passes share: for each handle, render the
    object if it is visible, then run the pass's read-back step. *)
Fixpoint pass_loop {A} (v : View) (cam : option Camera) (l : list nat)
    (after : nat -> A -> M A) (st : A) : M A :=
  match l with
  | [] => pret st
  | i :: l' =>
      o <- get_obj i ;;
      st' <- (if visible o then render_obj v cam i ;;; after i st else pret st) ;;
      pass_loop v cam l' after st'
  end.

(** Lines 57-64 (and 68-75 for the shader list): when picking, read
    the depth at the cursor and keep the object if the depth went
    strictly below the running minimum. *)
Definition depth_after (pk : bool) (mx my : Z) (i : nat) (st : option nat * Q)
    : M (option nat * Q) :=
  if pk then
    dep <- gl_read (read_depth mx my) ;;
    pret (if Qltb dep (snd st) then (Some i, dep) else st)
  else pret st.

Definition depth_pass (v : View) (cam : option Camera) (pk : bool) (mx my : Z)
    (l : list nat) (st : option nat * Q) : M (option nat * Q) :=
  pass_loop v cam l (depth_after pk mx my) st.

(** Lines 83-91: blended objects; the pick follows a change of the
    colour at the cursor. *)
Definition color_after (pk : bool) (mx my : Z) (i : nat) (st : option nat * Color)
    : M (option nat * Color) :=
  if pk then
    col <- gl_read (read_color mx my) ;;
    pret (if negb (color_eqb col (snd st)) then (Some i, col) else st)
  else pret st.

Definition blend_pass (v : View) (cam : option Camera) (pk : bool) (mx my : Z)
    (l : list nat) (st : option nat * Color) : M (option nat * Color) :=
  pass_loop v cam l (color_after pk mx my) st.

(** Lines 94-102: as the blend pass, but the read-back names
    [GL_GBA], which no GL module defines: when picking, the first
    visible object raises [NameError] right after its [render]. *)
Definition always_after (pk : bool) (i : nat) (st : option nat * Color)
    : M (option nat * Color) :=
  if pk then praise NameError else pret st.

Definition always_pass (v : View) (cam : option Camera) (pk : bool) (mx my : Z)
    (l : list nat) (st : option nat * Color) : M (option nat * Color) :=
  pass_loop v cam l (always_after pk) st.

(** Lines 53-55: each light takes the last unit left in [my_lights]
    and shines. *)
Fixpoint claim_lights (ls : list nat) (my_lights : list nat) : M (list nat) :=
  match ls with
  | [] => pret my_lights
  | i :: ls' =>
      match py_pop my_lights with
      | None => praise IndexError
      | Some (n, rest) =>
          l <- get_light i ;;
          put_light i (set_gl_light n l) ;;;
          l <- get_light i ;;
          gl_try (shine l) ;;;
          claim_lights ls' rest
      end
  end.

(** Lines 105-106. *)
Definition release_lights (ls : list nat) : M unit :=
  pfor ls (fun i => l <- get_light i ;; gl_try (hide l)).

Definition when_cam (cam : option Camera) (f : Camera -> GLState -> GLState) : M unit :=
  match cam with Some c => gl_update (f c) | None => pret tt end.

(** Lines 50-108: the 3d passes, returning the pick. *)
Definition render_3d_passes (sc : Scene) (v : View) (cam : option Camera) (mx my : Z)
    : M (option nat) :=
  let t := graph sc in
  when_cam cam cam_push ;;;
  _ <- claim_lights (lights t) all_lights ;;
  gl_update (glEnable GL_ALPHA_TEST) ;;;
  st <- depth_pass v cam (pick sc) mx my (render_3d t) (None, 1%Q) ;;
  (match shader t with Some p => gl_update (glUseProgram p) | None => pret tt end) ;;;
  st <- depth_pass v cam (pick sc) mx my (render_3d_shader t) st ;;
  (match shader t with Some _ => gl_update (glUseProgram 0) | None => pret tt end) ;;;
  gl_update (glDisable GL_ALPHA_TEST) ;;;
  col <- gl_read (read_color mx my) ;;
  gl_update (glDepthMask false) ;;;
  st <- blend_pass v cam (pick sc) mx my (render_3d_blend t) (fst st, col) ;;
  gl_update (glDepthMask true) ;;;
  gl_update (glDisable GL_DEPTH_TEST) ;;;
  st <- always_pass v cam (pick sc) mx my (render_3d_always t) st ;;
  gl_update (glEnable GL_DEPTH_TEST) ;;;
  release_lights (lights t) ;;;
  when_cam cam cam_pop ;;;
  pret (fst st).

(** Lines 110-121: the 2d overlay. *)
Definition render_2d_pass (sc : Scene) (v : View) : M unit :=
  gl_update (set2d v) ;;;
  gl_update glPushMatrix ;;;
  (fun w => match scale_2d v with
            | inl e => inl e
            | inr r => inr (r, w)
            end) ;;;
  gl_update (glDisable GL_LIGHTING) ;;;
  pfor (render_2d (graph sc)) (fun i =>
    o <- get_obj i ;; pwhen (visible o) (render_obj v None i)) ;;;
  pwhen (lighting v) (gl_update (glEnable GL_LIGHTING)) ;;;
  gl_update glPopMatrix.

(** [Scene.render(camera)], lines 36-123.  [mouse] is
    [view.screen.get_mouse_pos()]; the read-back row is flipped. *)
Definition scene_render (sc : Scene) (v : View) (mouse : Z * Z) (cam : option Camera)
    : M (option nat) :=
  gl_try (set3d v) ;;;
  let mx := fst mouse in
  let my := (snd (screen_size v) - snd mouse)%Z in
  (match skybox (graph sc), cam with
   | Some b, Some _ => render_obj v cam b
   | _, _ => pret tt
   end) ;;;
  pk <- (if render3d sc then render_3d_passes sc v cam mx my else pret None) ;;
  (if render2d sc then render_2d_pass sc v else pret tt) ;;;
  pret pk.
End Render.

Arguments World O : clear implicits.
Arguments Cell O : clear implicits.


(** ** [add_2d] *)

Section Add2d.
Context {O : Type} `{Renderable O}.

Lemma add_2d_loop_run l sc (w : World O) :
  Forall (fun i => is_Some (w_objs w !! i)) l ->
  exists w', add_2d_loop l sc w = inr (add_pass P2d (Many l) sc, w') /\
    w_gl w' = w_gl w /\ w_lights w' = w_lights w /\ w_log w' = w_log w /\
    forall i, w_objs w' !! i =
      if decide (i ∈ l) then (fun c => mkCell (obj c) (Some (scene_id sc))) <$> w_objs w !! i
      else w_objs w !! i.
Proof.
  revert sc w. induction l as [|j l IH]; intros sc w Hl.
  - exists w. rewrite add_pass_nil. by split_and!.
  - apply Forall_cons in Hl as [[c Hc] Hl]. cbn [add_2d_loop].
    unfold pbind at 1, set_obj_scene at 1. rewrite Hc.
    set (w1 := mkWorld _ _ _ _).
    destruct (IH (add_pass P2d (One j) sc) w1) as (w' & Hrun & Hg & Hli & Hlo & Ho).
    { eapply Forall_impl; [exact Hl|]. intros i [d Hd]. subst w1. cbn.
      destruct (decide (i = j)) as [->|Hne]; [by rewrite lookup_insert_eq|].
      rewrite lookup_insert_ne by congruence. by eexists. }
    exists w'. rewrite Hrun, add_pass_snoc. split_and!; try done.
    intros i. rewrite Ho. subst w1. cbn. destruct (decide (i = j)) as [->|Hne].
    + rewrite (decide_True (P := j ∈ j :: l)) by set_solver.
      rewrite lookup_insert_eq, Hc. by destruct (decide (j ∈ l)).
    + rewrite lookup_insert_ne by congruence.
      destruct (decide (i ∈ l)), (decide (i ∈ j :: l)); set_solver.
Qed.
End Add2d.

Section Add2dTheorem.
Context {O : Type} `{Renderable O}.

(** [Scene.add_2d] (lines 125-131): on objects of the store, it
    appends them to [render_2d] in order, sets each one's [scene]
    attribute to the scene, and changes nothing else. *)
Theorem add_2d_sets_scene e sc (w : World O) :
  Forall (fun i => is_Some (w_objs w !! i)) (elems e) ->
  exists w', add_2d e sc w = inr (add_pass P2d e sc, w') /\
    w_gl w' = w_gl w /\ w_lights w' = w_lights w /\ w_log w' = w_log w /\
    forall i, w_objs w' !! i =
      if decide (i ∈ elems e) then (fun c => mkCell (obj c) (Some (scene_id sc))) <$> w_objs w !! i
      else w_objs w !! i.
Proof.
  intros Hl. destruct (add_2d_loop_run (elems e) sc w Hl) as (w' & Hrun & Hrest).
  exists w'. split; [|done]. unfold add_2d. rewrite Hrun. by destruct e.
Qed.
End Add2dTheorem.

(** Two objects of a store of unit objects. *)
Lemma add_2d_sets_scene_witness :
  let w := mkWorld (mkGL ∅ true 0 NoProj 0 (fun _ _ => {| px_depth := 1; px_color := RGBA 0 0 0 1 |}))
             (<[1 := mkCell tt None]> (<[2 := mkCell tt None]> ∅)) ∅ [] in
  exists w', add_2d (Many [1; 2]) (new_scene 7) w =
               inr (add_pass P2d (Many [1; 2]) (new_scene 7), w') /\
    w_gl w' = w_gl w /\ w_lights w' = w_lights w /\ w_log w' = w_log w /\
    forall i, w_objs w' !! i =
      if decide (i ∈ elems (Many [1; 2])) then
        (fun c => mkCell (obj c) (Some (scene_id (new_scene 7)))) <$> w_objs w !! i
      else w_objs w !! i.
Proof.
  intros w. apply add_2d_sets_scene.
  repeat (apply Forall_cons_2; [eexists; reflexivity|]); apply Forall_nil_2.
Defined.
