(* ===== verification/Demo.v ===== *)
(** * Demo: concrete scenes the witnesses run

    A rasteriser for [Shape] and a few objects, lights and worlds, used
    to evaluate the render loop on concrete inputs.  The rasteriser
    gives each display list a fragment everywhere: list 1 is an opaque
    red surface at depth 0.3, list 2 a half-transparent blue sprite at
    depth 0.1, list 3 an opaque green surface at depth 0.6, list 4 a
    blue surface at depth 0.9; other lists cover nothing. *)

From stdpp Require Import base countable gmap sets list.
From Stdlib Require Import QArith ZArith Lia.
From S2P Require Import Prelude GL View Interfaces Geometry Scene Render.

Local Open Scope nat_scope.

Definition red : Color := RGBA 1 0 0 1.
Definition green : Color := RGBA 0 1 0 1.
Definition blue : Color := RGBA 0 0 1 1.
Definition blue_half : Color := RGBA 0 0 1 (1 # 2).
Definition black : Color := RGBA 0 0 0 1.

Definition demo_frag (gl_list : nat) : option Frag :=
  match gl_list with
  | 1 => Some {| frag_depth := 3 # 10; frag_color := red |}
  | 2 => Some {| frag_depth := 1 # 10; frag_color := blue_half |}
  | 3 => Some {| frag_depth := 6 # 10; frag_color := green |}
  | 4 => Some {| frag_depth := 9 # 10; frag_color := blue |}
  | _ => None
  end.

Definition demo_raster : Raster Shape := fun o _ _ =>
  match o with
  | SCube c | SQuad c _ | SSkybox c => demo_frag (cube_gl_list c)
  | SSphere s | SSkyball s => demo_frag (sphere_gl_list s)
  | SMesh m => demo_frag (mesh_display_list m)
  end.

Definition demo_cube (gl_list : nat) : Shape :=
  SCube (mkCube 1 (0, 0, 0)%Q (0, 0, 0)%Q (ImageTexture 0) red cube_sides_table [] 1 gl_list true).

Definition demo_camera : Camera := mkCamera 0 0 0 0 0 0.

(** A GL state after [build_gl] and [clear_screen]: blending and depth
    test on, depth mask on, every pixel at depth 1 and black. *)
Definition demo_gl : GLState :=
  mkGL (list_to_set [GL_BLEND; GL_DEPTH_TEST; GL_LIGHTING]) true 0 NoProj 0
       (fun _ _ => {| px_depth := 1; px_color := black |}).

Definition demo_light : Light := mkLight (0, 100, 0)%Q true None.

(** Objects 1..4 are cubes drawing display lists 1..4; light 10. *)
Definition demo_world : World Shape :=
  mkWorld demo_gl
    (list_to_map [(1, mkCell (demo_cube 1) None); (2, mkCell (demo_cube 2) None);
                  (3, mkCell (demo_cube 3) None); (4, mkCell (demo_cube 4) None)])
    (list_to_map [(10, demo_light)]) [].

Definition with_pick (b : bool) (sc : Scene) : Scene :=
  mkScene (scene_id sc) (graph sc) (render2d sc) (render3d sc) b.

(** A scene with opaque list [r3], blended list [r3b], always-on-top
    list [r3a], the lights [ls] and picking [pk]. *)
Definition demo_scene (r3 r3b r3a ls : list nat) (pk : bool) : Scene :=
  mkScene 0 (mkTree r3 [] r3b [] r3a None ls None) true true pk.

(** A scene drawing cube 1 with the lights [ls] registered. *)
Definition lit_scene (ls : list nat) : Scene := demo_scene [1] [] [] ls false.

(** [plain_handles] and the presence of the lights in a concrete store. *)
Ltac solve_plain :=
  cbn; repeat (apply Forall_cons_2; [eexists; split; reflexivity|]); apply Forall_nil_2.
Ltac solve_present :=
  cbn; repeat (apply Forall_cons_2; [eexists; reflexivity|]); apply Forall_nil_2.

#[local] Existing Instance demo_raster.

(** The scenario of the pass-order property: an opaque red cube at
    depth 0.3 and, drawn after it at the same pixel, a blended sprite
    at depth 0.1 that changes the colour there; a frame of
    [Scene.render] with picking returns the sprite, not the cube. *)
Example blended_sprite_picked :
  match scene_render (demo_scene [1] [2] [] [] true) default_view (5, 5)%Z (Some demo_camera)
          demo_world with
  | inr (p, _) => p = Some 2
  | inl _ => False
  end.
Proof. vm_compute. reflexivity. Qed.
