(* ===== verification/ScenePasses.v ===== *)
(** * ScenePasses: each render pass runs to completion on ordinary objects

    For handles that name ordinary renderables ([PlainRender]), every
    pass of [scene_render] returns: the GL state is the fold of the
    draws ([draw_all]), the log grows by the visible handles, and the
    stores are unchanged.  These lemmas carry the picking, light and
    totality theorems of the following files. *)

From stdpp Require Import base countable gmap sets list.
From Stdlib Require Import QArith ZArith Lia.
From S2P Require Import Prelude GL View Interfaces Geometry Scene Render Demo.

Local Open Scope nat_scope.

(** ** What the passes do, for ordinary renderables *)

Section Passes.
Context {O : Type} `{Renderable O} `{Raster O} `{!PlainRender O}.

Implicit Types (objs : gmap nat (Cell O)) (w : World O) (l : list nat).

(** Every handle of [l] names an ordinary renderable of the store. *)
Definition plain_handles objs l : Prop :=
  Forall (fun i => exists c, objs !! i = Some c /\ plain (obj c) = true) l.

Definition is_visible objs (i : nat) : bool :=
  match objs !! i with Some c => visible (obj c) | None => false end.

Definition visible_handles objs l : list nat := filter (fun i => is_visible objs i = true) l.

(** The GL effect of drawing the visible objects of [l] in order. *)
Definition draw_one objs (s : GLState) (i : nat) : GLState :=
  match objs !! i with
  | Some c => if visible (obj c) then gl_draw (raster (obj c)) s else s
  | None => s
  end.

Definition draw_all objs l (s : GLState) : GLState := foldl (draw_one objs) s l.

Definition with_gl_log w (s : GLState) (log : list nat) : World O :=
  mkWorld s (w_objs w) (w_lights w) log.

(** The pure counterpart of [pass_loop]: [g] is the read-back step as
    a function of the GL state after the draw. *)
Fixpoint pass_fold {A} (g : nat -> A -> GLState -> A) objs l (st : A) (s : GLState) : A :=
  match l with
  | [] => st
  | i :: l' =>
      let s' := draw_one objs s i in
      pass_fold g objs l' (if is_visible objs i then g i st s' else st) s'
  end.

(** The read-back steps of the passes, as functions of the GL state. *)
Definition depth_g (pk : bool) (mx my : Z) (i : nat) (st : option nat * Q)
    (s : GLState) : option nat * Q :=
  if pk then
    let dep := read_depth mx my s in
    if Qltb dep (snd st) then (Some i, dep) else st
  else st.

Definition color_g (pk : bool) (mx my : Z) (i : nat) (st : option nat * Color)
    (s : GLState) : option nat * Color :=
  if pk then
    let col := read_color mx my s in
    if negb (color_eqb col (snd st)) then (Some i, col) else st
  else st.

(** The light units [claim_lights] hands out: the pool is popped from
    its end, one unit per registered light. *)
Definition claimed_units (ls my : list nat) : list nat := take (length ls) (rev my).

(** The light store after the loop of lines 53-55: each light's
    [gl_light] is overwritten with the unit it popped. *)
Definition claim_fold (lts : gmap nat Light) (ps : list (nat * nat)) : gmap nat Light :=
  foldl (fun m p => alter (set_gl_light (snd p)) (fst p) m) lts ps.

Definition claim_store (ls my : list nat) (lts : gmap nat Light) : gmap nat Light :=
  claim_fold lts (zip ls (rev my)).

(** The units [release_lights] disables: each light's [gl_light] at
    the time of the loop of lines 105-106. *)
Definition light_units (ls : list nat) (lts : gmap nat Light) : list nat :=
  omap (fun i => lts !! i ≫= gl_light) ls.

(** Lines 51-55: the camera push and the light units enabled. *)
Definition enter_stage (sc : Scene) (cam : option Camera) (s0 : GLState) : GLState :=
  let s1 := match cam with Some c => cam_push c s0 | None => s0 end in
  GLOps.set_caps (list_to_set (map GL_LIGHT (claimed_units (lights (graph sc)) all_lights))
                  ∪ caps s1) s1.

(** Lines 56-79: the opaque and shader passes, from the state
    [enter_stage] leaves; the depth pick and the GL state after them. *)
Definition opaque_stage (sc : Scene) objs (mx my : Z) (s2 : GLState)
    : (option nat * Q) * GLState :=
  let t := graph sc in
  let pk := pick sc in
  let s3 := glEnable GL_ALPHA_TEST s2 in
  let st1 := pass_fold (depth_g pk mx my) objs (render_3d t) (None, 1%Q) s3 in
  let s4 := draw_all objs (render_3d t) s3 in
  let s5 := match shader t with Some p => glUseProgram p s4 | None => s4 end in
  let st2 := pass_fold (depth_g pk mx my) objs (render_3d_shader t) st1 s5 in
  let s6 := draw_all objs (render_3d_shader t) s5 in
  let s7 := match shader t with Some _ => glUseProgram 0 s6 | None => s6 end in
  (st2, glDisable GL_ALPHA_TEST s7).

(** The 3d passes as a pure pipeline over GL states (lines 50-108
    with every object an ordinary renderable): the pick, the final GL
    state and the light store. *)
Definition pipeline_3d (sc : Scene) objs (lts : gmap nat Light) (cam : option Camera)
    (mx my : Z) (s0 : GLState) : option nat * GLState * gmap nat Light :=
  let t := graph sc in
  let pk := pick sc in
  let s2 := enter_stage sc cam s0 in
  let lts' := claim_store (lights t) all_lights lts in
  let st2 := fst (opaque_stage sc objs mx my s2) in
  let s8 := snd (opaque_stage sc objs mx my s2) in
  let s9 := glDepthMask false s8 in
  let st3 := pass_fold (color_g pk mx my) objs (render_3d_blend t)
                       (fst st2, read_color mx my s8) s9 in
  let s10 := draw_all objs (render_3d_blend t) s9 in
  let s12 := glDisable GL_DEPTH_TEST (glDepthMask true s10) in
  let s13 := draw_all objs (render_3d_always t) s12 in
  let s14 := glEnable GL_DEPTH_TEST s13 in
  let s15 := GLOps.set_caps (caps s14 ∖
               list_to_set (map GL_LIGHT (light_units (lights t) lts'))) s14 in
  let s16 := match cam with Some c => cam_pop c s15 | None => s15 end in
  (fst st3, s16, lts').

(** The 2d pass as a function of the GL state (lines 110-121). *)
Definition pipeline_2d (sc : Scene) objs (v : View) (s0 : GLState) : GLState :=
  let s1 := glDisable GL_LIGHTING (glPushMatrix (set2d v s0)) in
  let s2 := draw_all objs (render_2d (graph sc)) s1 in
  glPopMatrix (if lighting v then glEnable GL_LIGHTING s2 else s2).

(** The skybox of the graph, when it is drawn, renders without error. *)
Definition sky_ok (sc : Scene) (v : View) (cam : option Camera) objs : Prop :=
  match skybox (graph sc), cam with
  | Some b, Some _ =>
      exists c, objs !! b = Some c /\ forall s, exists s', render (obj c) v cam s = inr s'
  | _, _ => True
  end.

(** The conditions under which the 3d passes of a frame run through:
    ordinary objects, at most 8 registered lights, all in the store,
    and no visible always-on-top object when picking. *)
Definition frame_3d_ok (sc : Scene) objs (lts : gmap nat Light) : Prop :=
  plain_handles objs (render_3d (graph sc) ++ render_3d_shader (graph sc) ++
                      render_3d_blend (graph sc) ++ render_3d_always (graph sc)) /\
  length (lights (graph sc)) <= 8 /\
  Forall (fun i => is_Some (lts !! i)) (lights (graph sc)) /\
  (pick sc = false \/ visible_handles objs (render_3d_always (graph sc)) = []).

Definition frame_2d_ok (sc : Scene) objs (v : View) : Prop :=
  plain_handles objs (render_2d (graph sc)) /\ exists r, scale_2d v = inr r.

(** The handles whose [render] a frame calls, in order. *)
Definition frame_log (sc : Scene) objs (cam : option Camera) : list nat :=
  (match skybox (graph sc), cam with Some b, Some _ => [b] | _, _ => [] end) ++
  (if render3d sc then
     visible_handles objs (render_3d (graph sc) ++ render_3d_shader (graph sc) ++
                           render_3d_blend (graph sc) ++ render_3d_always (graph sc))
   else []) ++
  (if render2d sc then visible_handles objs (render_2d (graph sc)) else []).

(** The handles of the four 3d lists, in drawing order. *)
Definition handles_3d (t : Tree) : list nat :=
  render_3d t ++ render_3d_shader t ++ render_3d_blend t ++ render_3d_always t.

End Passes.

(** Discharges [frame_3d_ok] on a concrete scene and store. *)
Ltac solve_frame_ok :=
  unfold frame_3d_ok; cbn;
  split_and!; [solve_plain | lia | solve_present | first [by left | by right]].

Section Draw.
Context {O : Type} `{Renderable O} `{Raster O}.

Implicit Types (objs : gmap nat (Cell O)) (l : list nat).

Lemma draw_all_cons objs i l s :
  draw_all objs (i :: l) s = draw_all objs l (draw_one objs s i).
Proof. reflexivity. Qed.

(** Drawing changes the framebuffer and nothing else of the GL state. *)
Lemma draw_one_set_fb objs s i : draw_one objs s i = GLOps.set_fb (fb (draw_one objs s i)) s.
Proof.
  unfold draw_one. destruct (objs !! i) as [c|]; [destruct (visible (obj c))|]; [done|by destruct s..].
Qed.

Lemma draw_all_set_fb objs l s : draw_all objs l s = GLOps.set_fb (fb (draw_all objs l s)) s.
Proof.
  revert s. induction l as [|i l IH]; intros s; [by destruct s|].
  rewrite draw_all_cons, IH, draw_one_set_fb. done.
Qed.

Lemma draw_all_program objs l s : program (draw_all objs l s) = program s.
Proof. by rewrite draw_all_set_fb. Qed.

Lemma draw_all_mv_depth objs l s : mv_depth (draw_all objs l s) = mv_depth s.
Proof. by rewrite draw_all_set_fb. Qed.

Lemma draw_all_proj objs l s : proj (draw_all objs l s) = proj s.
Proof. by rewrite draw_all_set_fb. Qed.

Lemma draw_one_caps objs s i : caps (draw_one objs s i) = caps s.
Proof. unfold draw_one. by destruct (objs !! i) as [c|]; [destruct (visible (obj c))|]. Qed.

Lemma draw_one_depth_mask objs s i : depth_mask (draw_one objs s i) = depth_mask s.
Proof. unfold draw_one. by destruct (objs !! i) as [c|]; [destruct (visible (obj c))|]. Qed.

Lemma draw_one_enabled objs s i c : enabled c (draw_one objs s i) = enabled c s.
Proof. unfold enabled. by rewrite draw_one_caps. Qed.

Lemma draw_all_caps objs l s : caps (draw_all objs l s) = caps s.
Proof.
  revert s. induction l as [|i l IH]; intros s; [done|].
  rewrite draw_all_cons, IH. apply draw_one_caps.
Qed.

Lemma draw_all_depth_mask objs l s : depth_mask (draw_all objs l s) = depth_mask s.
Proof.
  revert s. induction l as [|i l IH]; intros s; [done|].
  rewrite draw_all_cons, IH. apply draw_one_depth_mask.
Qed.

Lemma draw_all_enabled objs l s c : enabled c (draw_all objs l s) = enabled c s.
Proof. unfold enabled. by rewrite draw_all_caps. Qed.

End Draw.

#[export] Hint Rewrite @draw_all_caps : gl_caps.

(** Reduces the fields of a GL state built by draws and GL calls. *)
Ltac gl_fields :=
  repeat progress (rewrite ?draw_all_caps, ?draw_all_depth_mask, ?draw_all_program,
                     ?draw_all_mv_depth, ?draw_all_proj;
                   cbn [caps depth_mask program mv_depth proj glDepthMask glDisable
                        glUseProgram glEnable GLOps.set_caps glPushMatrix glPopMatrix
                        cam_push cam_pop]).

Section PassFacts.
Context {O : Type} `{Renderable O} `{Raster O} `{!PlainRender O}.

Implicit Types (objs : gmap nat (Cell O)) (w : World O) (l : list nat).

Lemma pbind_gl_update {A} (f : GLState -> GLState) (k : unit -> M A) w :
  pbind (gl_update f) k w = k tt (mkWorld (f (w_gl w)) (w_objs w) (w_lights w) (w_log w)).
Proof. reflexivity. Qed.

Lemma pbind_gl_read {A B} (f : GLState -> A) (k : A -> M B) w :
  pbind (gl_read f) k w = k (f (w_gl w)) w.
Proof. reflexivity. Qed.

Lemma render_obj_plain v cam i w c :
  w_objs w !! i = Some c -> plain (obj c) = true ->
  render_obj v cam i w =
    inr (tt, with_gl_log w (gl_draw (raster (obj c)) (w_gl w)) (w_log w ++ [i])).
Proof.
  intros Hi Hp. unfold render_obj, pbind, get_obj, pmodify, gl_try. rewrite Hi. simpl.
  by rewrite render_plain.
Qed.

Lemma plain_handles_cons objs i l :
  plain_handles objs (i :: l) <->
  (exists c, objs !! i = Some c /\ plain (obj c) = true) /\ plain_handles objs l.
Proof. unfold plain_handles. by rewrite Forall_cons. Qed.

Lemma visible_handles_cons objs i l :
  visible_handles objs (i :: l) =
  (if is_visible objs i then [i] else []) ++ visible_handles objs l.
Proof. unfold visible_handles. rewrite filter_cons. by destruct (is_visible objs i). Qed.

Lemma with_gl_log_objs w s log : w_objs (with_gl_log w s log) = w_objs w.
Proof. reflexivity. Qed.

(** The shared loop returns when the read-back step does, having
    drawn the visible objects in order. *)
Lemma pass_loop_run {A} v cam l (after : nat -> A -> M A) (g : nat -> A -> GLState -> A)
    (st : A) w :
  plain_handles (w_objs w) l ->
  (forall i st w', i ∈ l -> is_visible (w_objs w) i = true -> w_objs w' = w_objs w ->
     after i st w' = inr (g i st (w_gl w'), w')) ->
  pass_loop v cam l after st w =
    inr (pass_fold g (w_objs w) l st (w_gl w),
         with_gl_log w (draw_all (w_objs w) l (w_gl w))
                       (w_log w ++ visible_handles (w_objs w) l)).
Proof.
  revert st w. induction l as [|i l IH]; intros st w Hl Hafter.
  - simpl. rewrite app_nil_r. by destruct w.
  - apply plain_handles_cons in Hl as [(c & Hi & Hp) Hl].
    rewrite draw_all_cons, visible_handles_cons. simpl pass_fold.
    unfold draw_one, is_visible. rewrite Hi.
    simpl pass_loop. unfold pbind at 1, get_obj. rewrite Hi.
    destruct (visible (obj c)) eqn:Hv.
    + rewrite pbind_assoc. erewrite pbind_inr by (eapply render_obj_plain; eauto).
      erewrite pbind_inr
        by (apply Hafter; [left | unfold is_visible; by rewrite Hi, Hv | reflexivity]).
      rewrite IH; [|exact Hl|intros; apply Hafter; [by right|done|done]].
      cbn. by rewrite <- app_assoc.
    + rewrite pbind_ret, IH; [done|exact Hl|intros; apply Hafter; [by right|done|done]].
Qed.

Lemma depth_pass_run v cam pk mx my l st w :
  plain_handles (w_objs w) l ->
  depth_pass v cam pk mx my l st w =
    inr (pass_fold (depth_g pk mx my) (w_objs w) l st (w_gl w),
         with_gl_log w (draw_all (w_objs w) l (w_gl w))
                       (w_log w ++ visible_handles (w_objs w) l)).
Proof.
  intros Hl. apply pass_loop_run; [done|]. intros i st' w' _ _ _.
  unfold depth_after, depth_g. by destruct pk.
Qed.

Lemma blend_pass_run v cam pk mx my l st w :
  plain_handles (w_objs w) l ->
  blend_pass v cam pk mx my l st w =
    inr (pass_fold (color_g pk mx my) (w_objs w) l st (w_gl w),
         with_gl_log w (draw_all (w_objs w) l (w_gl w))
                       (w_log w ++ visible_handles (w_objs w) l)).
Proof.
  intros Hl. apply pass_loop_run; [done|]. intros i st' w' _ _ _.
  unfold color_after, color_g. by destruct pk.
Qed.

(** Without picking, or with no visible object, the always-on-top
    pass returns its input pick. *)
Lemma always_pass_run v cam pk mx my l st w :
  plain_handles (w_objs w) l ->
  (pk = false \/ visible_handles (w_objs w) l = []) ->
  always_pass v cam pk mx my l st w =
    inr (st, with_gl_log w (draw_all (w_objs w) l (w_gl w))
                           (w_log w ++ visible_handles (w_objs w) l)).
Proof.
  intros Hl Hpk. unfold always_pass.
  rewrite (pass_loop_run _ _ _ _ (fun _ st _ => st)); [|done|].
  - f_equal. f_equal. generalize (w_gl w) st. clear.
    induction l as [|i l IH]; intros s st; simpl; [done|].
    destruct (is_visible _ i); apply IH.
  - intros i st' w' Hin Hvis _. destruct Hpk as [-> | Hnil]; [done|].
    exfalso. assert (Hv : i ∈ visible_handles (w_objs w) l).
    { unfold visible_handles. apply list_elem_of_filter. done. }
    rewrite Hnil in Hv. by apply not_elem_of_nil in Hv.
Qed.

(** When picking, the always-on-top pass raises [NameError] as soon
    as it reaches a visible object. *)
Lemma always_pass_name_error v cam mx my l st w :
  plain_handles (w_objs w) l -> visible_handles (w_objs w) l <> [] ->
  always_pass v cam true mx my l st w = inl NameError.
Proof.
  unfold always_pass. revert st w. induction l as [|i l IH]; intros st w Hl Hvis; [done|].
  apply plain_handles_cons in Hl as [(c & Hi & Hp) Hl].
  rewrite visible_handles_cons in Hvis. unfold is_visible in Hvis. rewrite Hi in Hvis.
  simpl pass_loop. unfold pbind at 1, get_obj. rewrite Hi.
  destruct (visible (obj c)) eqn:Hv.
  - rewrite pbind_assoc. erewrite pbind_inr by (eapply render_obj_plain; eauto). done.
  - rewrite pbind_ret. by apply IH.
Qed.

Lemma claimed_units_cons i ls n r :
  claimed_units (i :: ls) (rev (n :: r)) = n :: claimed_units ls (rev r).
Proof.
  unfold claimed_units. simpl. rewrite rev_app_distr, !rev_involutive. done.
Qed.

(** The light loop of lines 53-55 returns when the pool is large
    enough and every light is in the store. *)
Lemma claim_lights_run ls my w :
  length ls <= length my -> Forall (fun i => is_Some (w_lights w !! i)) ls ->
  claim_lights ls my w =
    inr (rev (drop (length ls) (rev my)),
         mkWorld (GLOps.set_caps (list_to_set (map GL_LIGHT (claimed_units ls my)) ∪ caps (w_gl w))
                                 (w_gl w))
                 (w_objs w) (claim_store ls my (w_lights w)) (w_log w)).
Proof.
  revert my w. induction ls as [|i ls IH]; intros my w Hlen Hin.
  - cbn [claim_lights length]. rewrite drop_0, rev_involutive.
    destruct w as [[] ? ? ?]. unfold claimed_units, claim_store, claim_fold, pret, GLOps.set_caps. simpl.
    repeat f_equal. set_solver.
  - apply Forall_cons in Hin as [[l Hl] Hin].
    rewrite <- (rev_involutive my) in Hlen |- *. destruct (rev my) as [|n r] eqn:Er.
    { simpl in Hlen. lia. }
    rewrite claimed_units_cons. simpl claim_lights.
    rewrite py_pop_app_last, rev_involutive.
    unfold pbind at 1, get_light at 1. rewrite Hl.
    unfold pbind at 1, put_light, pmodify. simpl.
    unfold pbind at 1, get_light at 1. simpl. rewrite lookup_insert_eq.
    unfold pbind at 1, gl_try. simpl.
    rewrite IH.
    + unfold claim_store, claim_fold. rewrite rev_unit, rev_involutive. simpl.
      rewrite (insert_alter_lookup _ _ _ (set_gl_light n) Hl).
      assert (Hu : forall A B C : gset Cap, A ∪ (B ∪ C) = B ∪ A ∪ C) by set_solver.
      destruct w as [[] ? ? ?]. unfold glEnable, GLOps.set_caps. simpl. by rewrite Hu.
    + rewrite length_rev. simpl in Hlen. rewrite length_app, length_rev in Hlen. simpl in Hlen. lia.
    + simpl. eapply Forall_impl; [exact Hin|]. intros j [lj Hj]. simpl.
      destruct (decide (i = j)) as [->|Hne]; [rewrite lookup_insert_eq; by eexists|].
      rewrite lookup_insert_ne by done. by exists lj.
Qed.

(** The loop of lines 105-106 returns when every light has a unit. *)
Lemma release_lights_run ls w :
  Forall (fun i => exists lt n, w_lights w !! i = Some lt /\ gl_light lt = Some n) ls ->
  release_lights ls w =
    inr (tt, mkWorld (GLOps.set_caps (caps (w_gl w) ∖
                                      list_to_set (map GL_LIGHT (light_units ls (w_lights w))))
                                     (w_gl w))
                     (w_objs w) (w_lights w) (w_log w)).
Proof.
  unfold release_lights. revert w. induction ls as [|i ls IH]; intros w Hin.
  - destruct w as [[] ? ? ?]. unfold pret, GLOps.set_caps. simpl.
    by rewrite difference_empty_L.
  - apply Forall_cons in Hin as [(lt & n & Hl & Hn) Hin].
    simpl pfor. unfold pbind at 1. unfold pbind at 1, get_light. rewrite Hl.
    unfold gl_try, hide. rewrite Hn. rewrite IH by exact Hin.
    unfold light_units. simpl. rewrite Hl. simpl. rewrite Hn.
    assert (Hd : forall A B C : gset Cap, A ∖ B ∖ C = A ∖ (B ∪ C)) by set_solver.
    destruct w as [[] ? ? ?]. unfold glDisable, GLOps.set_caps. simpl. by rewrite Hd.
Qed.

Lemma claim_fold_notin ls u lts j :
  j ∉ ls -> claim_fold lts (zip ls u) !! j = lts !! j.
Proof.
  unfold claim_fold. revert u lts. induction ls as [|i ls IH]; intros u lts Hj; [done|].
  destruct u as [|n u]; [done|]. simpl. apply not_elem_of_cons in Hj as [Hij Hj].
  rewrite IH by done. by rewrite lookup_alter_ne.
Qed.

Lemma claim_fold_some ls u lts j :
  is_Some (lts !! j) -> is_Some (claim_fold lts (zip ls u) !! j).
Proof.
  unfold claim_fold. revert u lts. induction ls as [|i ls IH]; intros u lts Hj; [done|].
  destruct u as [|n u]; [done|]. simpl. apply IH. by apply lookup_alter_is_Some.
Qed.

(** After the claim loop every registered light holds a unit. *)
Lemma claim_fold_unit ls u lts j :
  length ls <= length u -> j ∈ ls -> is_Some (lts !! j) ->
  exists lt n, claim_fold lts (zip ls u) !! j = Some lt /\ gl_light lt = Some n.
Proof.
  revert u lts. induction ls as [|i ls IH]; intros u lts Hlen Hj Hs.
  { by apply not_elem_of_nil in Hj. }
  destruct u as [|n u]; [simpl in Hlen; lia|]. simpl in Hlen.
  destruct (decide (j ∈ ls)) as [Hin|Hnin].
  - apply (IH u); [lia|done|]. by apply lookup_alter_is_Some.
  - apply elem_of_cons in Hj as [->|]; [|done].
    destruct Hs as [lt Hlt]. exists (set_gl_light n lt), n.
    unfold claim_fold. simpl. fold (claim_fold (alter (set_gl_light n) i lts) (zip ls u)).
    rewrite claim_fold_notin by done. by rewrite lookup_alter_eq, Hlt.
Qed.

Lemma plain_handles_app objs l1 l2 :
  plain_handles objs (l1 ++ l2) <-> plain_handles objs l1 /\ plain_handles objs l2.
Proof. unfold plain_handles. apply Forall_app. Qed.

Lemma visible_handles_app objs l1 l2 :
  visible_handles objs (l1 ++ l2) = visible_handles objs l1 ++ visible_handles objs l2.
Proof. apply filter_app. Qed.

Lemma claim_store_units ls my lts :
  length ls <= length my -> Forall (fun i => is_Some (lts !! i)) ls ->
  Forall (fun i => exists lt n, claim_store ls my lts !! i = Some lt /\ gl_light lt = Some n) ls.
Proof.
  intros Hlen Hin. apply Forall_forall. intros j Hj. apply claim_fold_unit.
  - by rewrite length_rev.
  - done.
  - by apply (proj1 (Forall_forall _ _) Hin).
Qed.

(** The steps of lines 50-93 (up to the always-on-top pass), shared by
    the run lemma and the error lemma of the 3d passes. *)
Ltac step_3d_prefix cam sc Hlen Hls H1 H2 H3 :=
  destruct cam as [?c|]; destruct (shader (graph sc)) as [?p|]; cbn [when_cam];
  rewrite ?pbind_gl_update, ?pbind_ret;
  erewrite pbind_inr by (apply claim_lights_run; [exact Hlen|exact Hls]);
  cbn [w_gl w_objs w_lights w_log];
  rewrite pbind_gl_update;
  erewrite pbind_inr by (apply depth_pass_run; exact H1);
  cbn [w_gl w_objs w_lights w_log with_gl_log];
  first [rewrite pbind_gl_update | rewrite pbind_ret];
  erewrite pbind_inr by (apply depth_pass_run; exact H2);
  cbn [w_gl w_objs w_lights w_log with_gl_log];
  first [rewrite pbind_gl_update | rewrite pbind_ret];
  rewrite pbind_gl_update, pbind_gl_read, pbind_gl_update;
  erewrite pbind_inr by (apply blend_pass_run; exact H3);
  cbn [w_gl w_objs w_lights w_log with_gl_log];
  rewrite pbind_gl_update, pbind_gl_update.

(** Refinement: on ordinary objects, the 3d passes of [Scene.render]
    compute [pipeline_3d] and log the visible handles of the four
    lists in order. *)
Lemma render_3d_passes_run sc v cam mx my w :
  plain_handles (w_objs w) (handles_3d (graph sc)) ->
  length (lights (graph sc)) <= 8 ->
  Forall (fun i => is_Some (w_lights w !! i)) (lights (graph sc)) ->
  (pick sc = false \/ visible_handles (w_objs w) (render_3d_always (graph sc)) = []) ->
  render_3d_passes sc v cam mx my w =
    let '(p, s, lts) := pipeline_3d sc (w_objs w) (w_lights w) cam mx my (w_gl w) in
    inr (p, mkWorld s (w_objs w) lts
                    (w_log w ++ visible_handles (w_objs w) (handles_3d (graph sc)))).
Proof.
  intros Hpl Hlen Hls Hpk.
  unfold handles_3d in *. rewrite !plain_handles_app in Hpl.
  destruct Hpl as (H1 & H2 & H3 & H4).
  assert (Hlen' : length (lights (graph sc)) <= length all_lights)
    by (unfold all_lights; rewrite length_seq; lia).
  unfold render_3d_passes, pipeline_3d, opaque_stage, enter_stage.
  step_3d_prefix cam sc Hlen' Hls H1 H2 H3.
  all: erewrite pbind_inr by (apply always_pass_run; [exact H4|exact Hpk]).
  all: cbn [w_gl w_objs w_lights w_log with_gl_log].
  all: rewrite pbind_gl_update.
  all: erewrite pbind_inr by (apply release_lights_run, claim_store_units; assumption).
  all: cbn [w_gl w_objs w_lights w_log with_gl_log].
  all: first [rewrite pbind_gl_update | rewrite pbind_ret].
  all: unfold pret; cbn [w_gl w_objs w_lights w_log with_gl_log fst snd].
  all: rewrite !visible_handles_app, !app_assoc.
  all: reflexivity.
Qed.

(** With picking on, a visible always-on-top object makes the 3d
    passes raise [NameError] (the read-back at line 98 names
    [GL_GBA]). *)
Lemma render_3d_passes_name_error sc v cam mx my w :
  plain_handles (w_objs w) (handles_3d (graph sc)) ->
  length (lights (graph sc)) <= 8 ->
  Forall (fun i => is_Some (w_lights w !! i)) (lights (graph sc)) ->
  pick sc = true -> visible_handles (w_objs w) (render_3d_always (graph sc)) <> [] ->
  render_3d_passes sc v cam mx my w = inl NameError.
Proof.
  intros Hpl Hlen Hls Hpk Hvis.
  unfold handles_3d in *. rewrite !plain_handles_app in Hpl.
  destruct Hpl as (H1 & H2 & H3 & H4).
  assert (Hlen' : length (lights (graph sc)) <= length all_lights)
    by (unfold all_lights; rewrite length_seq; lia).
  unfold render_3d_passes. rewrite Hpk.
  step_3d_prefix cam sc Hlen' Hls H1 H2 H3.
  all: apply pbind_inl, always_pass_name_error; done.
Qed.

(** The overlay pass returns when the 2d size has no zero side. *)
Lemma render_2d_pass_run sc v w r :
  plain_handles (w_objs w) (render_2d (graph sc)) -> scale_2d v = inr r ->
  render_2d_pass sc v w =
    inr (tt, mkWorld (pipeline_2d sc (w_objs w) v (w_gl w)) (w_objs w) (w_lights w)
                     (w_log w ++ visible_handles (w_objs w) (render_2d (graph sc)))).
Proof.
  intros Hl Hs. unfold render_2d_pass, pipeline_2d.
  rewrite !pbind_gl_update. unfold pbind at 1. rewrite Hs. rewrite pbind_gl_update.
  cbn [w_gl w_objs w_lights w_log].
  set (s1 := glDisable GL_LIGHTING _).
  assert (Hloop : forall w0, w_objs w0 = w_objs w -> plain_handles (w_objs w) (render_2d (graph sc)) ->
    pfor (render_2d (graph sc))
         (fun i => o <- get_obj i ;; pwhen (visible o) (render_obj v None i)) w0 =
    inr (tt, mkWorld (draw_all (w_objs w) (render_2d (graph sc)) (w_gl w0)) (w_objs w)
                     (w_lights w0)
                     (w_log w0 ++ visible_handles (w_objs w) (render_2d (graph sc))))).
  { clear Hs. generalize (render_2d (graph sc)). intros l.
    induction l as [|i l IH]; intros w0 Hw0 Hpl.
    - simpl. rewrite app_nil_r. destruct w0; simpl in *; by subst.
    - apply plain_handles_cons in Hpl as [(c & Hi & Hp) Hpl].
      rewrite draw_all_cons, visible_handles_cons. unfold draw_one, is_visible. rewrite Hi.
      simpl pfor. unfold pbind at 1. unfold pbind at 1, get_obj. rewrite Hw0, Hi.
      destruct (visible (obj c)); simpl pwhen.
      + erewrite render_obj_plain by (rewrite ?Hw0; eauto).
        rewrite IH by done. cbn. by rewrite <- app_assoc.
      + unfold pret at 1. rewrite IH by done. done. }
  rewrite pbind_inr with (a := tt) (s' := mkWorld _ _ _ _) by (apply Hloop; done).
  cbn [w_gl w_objs w_lights w_log].
  destruct (lighting v); simpl pwhen; rewrite ?pbind_gl_update, ?pbind_ret; reflexivity.
Qed.

Lemma render_obj_ok v cam i w c s' :
  w_objs w !! i = Some c -> render (obj c) v cam (w_gl w) = inr s' ->
  render_obj v cam i w = inr (tt, with_gl_log w s' (w_log w ++ [i])).
Proof.
  intros Hi Hr. unfold render_obj, pbind, get_obj, pmodify, gl_try. rewrite Hi. simpl.
  by rewrite Hr.
Qed.

Lemma set3d_ok v s : snd (screen_size v) <> 0%Z -> exists s', set3d v s = inr s'.
Proof.
  unfold set3d. destruct (screen_size v) as [wd h]. simpl. intros Hh.
  destruct (Z.eqb_spec h 0); [done|]. by eexists.
Qed.

(** The first steps of a frame: [view.set3d()] and the skybox. *)
Lemma scene_render_prefix sc v mouse cam w :
  snd (screen_size v) <> 0%Z -> sky_ok sc v cam (w_objs w) ->
  exists w2,
    scene_render sc v mouse cam w =
      pbind (if render3d sc then
               render_3d_passes sc v cam (fst mouse) (snd (screen_size v) - snd mouse)%Z
             else pret None)
            (fun pk => (if render2d sc then render_2d_pass sc v else pret tt) ;;; pret pk) w2 /\
    w_objs w2 = w_objs w /\ w_lights w2 = w_lights w /\
    w_log w2 = w_log w ++ match skybox (graph sc), cam with
                          | Some b, Some _ => [b] | _, _ => [] end.
Proof.
  intros Hh Hsky. destruct (set3d_ok v (w_gl w) Hh) as [s1 Hs1].
  unfold scene_render. unfold pbind at 1, gl_try at 1. rewrite Hs1.
  set (w1 := mkWorld s1 (w_objs w) (w_lights w) (w_log w)).
  unfold sky_ok in Hsky. destruct (skybox (graph sc)) as [b|], cam as [c|];
    try (exists w1; rewrite app_nil_r; split; [by rewrite pbind_ret|done]).
  destruct Hsky as (cl & Hb & Hr). destruct (Hr s1) as [s2 Hs2].
  eexists. split; [erewrite pbind_inr by (by eapply render_obj_ok); reflexivity|].
  split_and!; reflexivity.
Qed.

Lemma pipeline_3d_store sc objs lts cam mx my s0 :
  snd (pipeline_3d sc objs lts cam mx my s0) = claim_store (lights (graph sc)) all_lights lts.
Proof. unfold pipeline_3d. by destruct cam. Qed.

(** A frame runs to completion, and calls [render] on the skybox, the
    visible 3d objects and the visible overlay objects, in this order. *)
Lemma scene_render_run sc v mouse cam w :
  snd (screen_size v) <> 0%Z ->
  sky_ok sc v cam (w_objs w) ->
  (render3d sc = true -> frame_3d_ok sc (w_objs w) (w_lights w)) ->
  (render2d sc = true -> frame_2d_ok sc (w_objs w) v) ->
  exists p w', scene_render sc v mouse cam w = inr (p, w') /\
    w_objs w' = w_objs w /\ w_log w' = w_log w ++ frame_log sc (w_objs w) cam /\
    (forall i, is_Some (w_lights w !! i) -> is_Some (w_lights w' !! i)).
Proof.
  intros Hh Hsky H3 H2.
  destruct (scene_render_prefix sc v mouse cam w Hh Hsky) as (w2 & -> & Ho2 & Hl2 & Hg2).
  unfold frame_log.
  assert (H3' : exists p w3, (if render3d sc then
                               render_3d_passes sc v cam (fst mouse)
                                 (snd (screen_size v) - snd mouse)%Z
                             else pret None) w2 = inr (p, w3) /\
                w_objs w3 = w_objs w /\
                w_log w3 = w_log w2 ++ (if render3d sc then
                  visible_handles (w_objs w) (handles_3d (graph sc)) else []) /\
                (forall i, is_Some (w_lights w !! i) -> is_Some (w_lights w3 !! i))).
  { destruct (render3d sc); [|exists None, w2; rewrite app_nil_r, Hl2; by split_and!].
    destruct (H3 eq_refl) as (Hp & Hlen & Hls & Hpk). rewrite <- Ho2, <- Hl2 in *.
    rewrite render_3d_passes_run by done.
    pose proof (pipeline_3d_store sc (w_objs w2) (w_lights w2) cam (fst mouse)
                  (snd (screen_size v) - snd mouse)%Z (w_gl w2)) as Es.
    destruct (pipeline_3d _ _ _ _ _ _ _) as [[p s] lts]. eexists _, _.
    split_and!; [reflexivity..|]. cbn in Es |- *. subst lts. intros i Hi.
    by apply claim_fold_some. }
  destruct H3' as (p & w3 & Hw3 & Ho3 & Hg3 & Hl3).
  rewrite (pbind_inr _ _ _ _ _ Hw3).
  destruct (render2d sc) eqn:E2.
  - destruct (H2 eq_refl) as [Hp [r Hr]]. rewrite <- Ho3 in Hp.
    rewrite (pbind_inr _ _ _ _ _ (render_2d_pass_run sc v w3 r Hp Hr)).
    eexists _, _. split; [reflexivity|]. simpl. rewrite Ho3. split_and!; [done| |done].
    rewrite Hg3, Hg2. unfold handles_3d. by rewrite <- !app_assoc.
  - eexists _, _. split; [reflexivity|]. split_and!; [done| |done].
    rewrite Hg3, Hg2. unfold handles_3d. by rewrite <- !app_assoc, app_nil_r.
Qed.

End PassFacts.


(** ** What a frame draws *)

Lemma visible_handles_sub {O} `{Renderable O} (objs : gmap nat (Cell O)) l o :
  o ∈ visible_handles objs l -> o ∈ l.
Proof. unfold visible_handles. rewrite list_elem_of_filter. naive_solver. Qed.

(** The handles a frame draws are drawn from the five lists and the skybox. *)
Lemma frame_log_subseteq {O} `{Renderable O} sc (objs : gmap nat (Cell O)) cam o :
  o ∈ frame_log sc objs cam ->
  skybox (graph sc) = Some o \/ exists q, o ∈ pass_list q (graph sc).
Proof.
  unfold frame_log. rewrite !elem_of_app. intros [Hs|[H3|H2]].
  - left. destruct (skybox (graph sc)), cam; try by apply not_elem_of_nil in Hs.
    by apply list_elem_of_singleton in Hs as ->.
  - destruct (render3d sc); [|by apply not_elem_of_nil in H3].
    apply visible_handles_sub in H3. rewrite !elem_of_app in H3. right.
    destruct H3 as [?|[?|[?|?]]]; [exists P3d|exists P3dShader|exists P3dBlend|exists P3dAlways]; done.
  - destruct (render2d sc); [|by apply not_elem_of_nil in H2].
    apply visible_handles_sub in H2. right. by exists P2d.
Qed.

Section Removal.
Context {O : Type} `{Renderable O} `{Raster O} `{!PlainRender O}.

(** C6. An object removed from the one list that holds it (once) is
    not rendered by any later frame of the scene: the frame runs and
    its log is [frame_log], which does not contain the object. *)
Theorem remove_excludes_render p o sc sc' v mouse cam (w : World O) :
  remove_pass p o sc = inr sc' ->
  NoDup (pass_list p (graph sc)) ->
  (forall q, q <> p -> o ∉ pass_list q (graph sc)) -> skybox (graph sc) <> Some o ->
  snd (screen_size v) <> 0%Z -> sky_ok sc' v cam (w_objs w) ->
  (render3d sc' = true -> frame_3d_ok sc' (w_objs w) (w_lights w)) ->
  (render2d sc' = true -> frame_2d_ok sc' (w_objs w) v) ->
  exists pk w', scene_render sc' v mouse cam w = inr (pk, w') /\
    w_log w' = w_log w ++ frame_log sc' (w_objs w) cam /\
    o ∉ frame_log sc' (w_objs w) cam.
Proof.
  intros Hr Hnd Hq Hsky Hh Hs H3 H2.
  destruct (scene_render_run sc' v mouse cam w Hh Hs H3 H2) as (pk & w' & Hrun & _ & Hlog & _).
  exists pk, w'. split_and!; [done..|].
  destruct (remove_pass_graph _ _ _ _ Hr) as (l' & Hl' & Hp & Hne & Hsk & _).
  intros [Hb|[q Hin]]%frame_log_subseteq; [congruence|].
  destruct (decide (q = p)) as [->|Hqp].
  - rewrite Hp in Hin. by apply (py_remove_not_elem _ _ _ Hl' Hnd).
  - rewrite Hne in Hin by done. by apply (Hq q).
Qed.
End Removal.



(** The GL state the 3d pipeline leaves, field by field. *)
Lemma pipeline_3d_gl {O} `{Renderable O} `{Raster O} `{!PlainRender O}
    sc (objs : gmap nat (Cell O)) lts cam mx my s0 :
  let s := snd (fst (pipeline_3d sc objs lts cam mx my s0)) in
  depth_mask s = true /\ GL_ALPHA_TEST ∉ caps s /\ GL_DEPTH_TEST ∈ caps s /\
  mv_depth s = mv_depth s0 /\ proj s = proj s0 /\
  program s = match shader (graph sc) with Some _ => 0 | None => program s0 end.
Proof.
  unfold pipeline_3d, opaque_stage, enter_stage.
  destruct cam, (shader (graph sc)); cbn zeta; cbn [fst snd]; gl_fields;
    (split_and!; [done| | |done..]);
    repeat first [rewrite elem_of_difference | rewrite elem_of_union
                 | rewrite elem_of_singleton | rewrite elem_of_list_to_set
                 | rewrite list_elem_of_fmap];
    naive_solver.
Qed.

Section GLRestore.
Context {O : Type} `{Renderable O} `{Raster O} `{!PlainRender O}.

(** The 3d passes leave the GL state as the 2d pass and the next
    frame expect: depth writes back on, alpha test off, depth test on,
    the matrix stack and projection as they were, and the shader
    program reset to 0 when the graph has one. *)
Theorem gl_state_restored sc v cam mx my (w : World O) :
  frame_3d_ok sc (w_objs w) (w_lights w) ->
  exists p w', render_3d_passes sc v cam mx my w = inr (p, w') /\
    depth_mask (w_gl w') = true /\ GL_ALPHA_TEST ∉ caps (w_gl w') /\
    GL_DEPTH_TEST ∈ caps (w_gl w') /\ mv_depth (w_gl w') = mv_depth (w_gl w) /\
    proj (w_gl w') = proj (w_gl w) /\
    program (w_gl w') = match shader (graph sc) with Some _ => 0 | None => program (w_gl w) end.
Proof.
  intros Hok. pose proof Hok as (Hpl & Hlen & Hls & Hpk).
  rewrite render_3d_passes_run by done.
  pose proof (pipeline_3d_gl sc (w_objs w) (w_lights w) cam mx my (w_gl w)) as Hg.
  destruct (pipeline_3d _ _ _ _ _ _ _) as [[p s] lts]. by eexists _, _.
Qed.
End GLRestore.

Section Determinism.
Context {O : Type} `{Renderable O} `{Raster O} `{!PlainRender O}.

Lemma frame_3d_ok_lights sc (objs : gmap nat (Cell O)) lts lts' :
  frame_3d_ok sc objs lts -> (forall i, is_Some (lts !! i) -> is_Some (lts' !! i)) ->
  frame_3d_ok sc objs lts'.
Proof.
  intros (Hp & Hlen & Hls & Hpk) Hi. split_and!; [done|done| |done].
  eapply Forall_impl; [exact Hls|]. exact Hi.
Qed.

(** Determinism for a static graph: two consecutive frames of the
    same scene, with no graph change between them, both run through
    and call [render] on the same objects in the same order. *)
Theorem frames_deterministic sc v mouse cam (w : World O) :
  snd (screen_size v) <> 0%Z -> sky_ok sc v cam (w_objs w) ->
  (render3d sc = true -> frame_3d_ok sc (w_objs w) (w_lights w)) ->
  (render2d sc = true -> frame_2d_ok sc (w_objs w) v) ->
  exists p1 w1 p2 w2,
    scene_render sc v mouse cam w = inr (p1, w1) /\
    scene_render sc v mouse cam w1 = inr (p2, w2) /\
    w_log w1 = w_log w ++ frame_log sc (w_objs w) cam /\
    w_log w2 = w_log w1 ++ frame_log sc (w_objs w) cam.
Proof.
  intros Hh Hs H3 H2.
  destruct (scene_render_run sc v mouse cam w Hh Hs H3 H2) as (p1 & w1 & R1 & O1 & L1 & S1).
  rewrite <- O1 in Hs, H2. 
  assert (H3' : render3d sc = true -> frame_3d_ok sc (w_objs w1) (w_lights w1)).
  { intros E. rewrite O1. eapply frame_3d_ok_lights; [by apply H3|exact S1]. }
  destruct (scene_render_run sc v mouse cam w1 Hh Hs H3' H2) as (p2 & w2 & R2 & _ & L2 & _).
  exists p1, w1, p2, w2. rewrite O1 in L2. by split_and!.
Qed.
End Determinism.

#[local] Existing Instance demo_raster.

Lemma remove_excludes_render_witness :
  exists pk w', scene_render (demo_scene [1] [] [] [10] false) default_view (5, 5)%Z
                  (Some demo_camera) demo_world = inr (pk, w') /\
    w_log w' = w_log demo_world ++ frame_log (demo_scene [1] [] [] [10] false)
                                     (w_objs demo_world) (Some demo_camera) /\
    3 ∉ frame_log (demo_scene [1] [] [] [10] false) (w_objs demo_world) (Some demo_camera).
Proof.
  apply (remove_excludes_render P3d 3 (demo_scene [1; 3] [] [] [10] false)).
  - reflexivity.
  - apply (bool_decide_unpack _). vm_compute. reflexivity.
  - intros [] Hq; cbn; set_solver.
  - done.
  - cbn. lia.
  - exact I.
  - intros _. solve_frame_ok.
  - intros _. split; [solve_plain | eexists; reflexivity].
Defined.

Section Duplicates.
Context {O : Type} `{Renderable O}.

(** The lists of the graph may hold an object twice ([add_*] does
    not check): after adding a visible object twice and removing it
    once, the next frame of a rendering scene still draws it. *)
Theorem double_add_remove_drawn p o sc (objs : gmap nat (Cell O)) cam :
  is_visible objs o = true -> render3d sc = true -> render2d sc = true ->
  exists sc', remove_pass p o (add_pass p (One o) (add_pass p (One o) sc)) = inr sc' /\
    o ∈ frame_log sc' objs cam.
Proof.
  intros Hv H3 H2. unfold remove_pass. cbn. rewrite !pass_list_set_pass, <- app_assoc.
  set (L := pass_list p (graph sc)).
  rewrite (app_assoc L), py_remove_app_l by set_solver.
  destruct (py_remove o (L ++ [o])) as [l'|] eqn:E.
  2: { apply py_remove_None in E. set_solver. }
  eexists. split; [reflexivity|].
  unfold frame_log. cbn. rewrite H3, H2, !elem_of_app. right.
  unfold visible_handles. destruct p; cbn; rewrite ?pass_list_set_pass;
    [left | left | left | right | left];
    rewrite list_elem_of_filter, ?elem_of_app; split; try done; cbn; set_solver.
Qed.
End Duplicates.

Lemma double_add_remove_drawn_witness :
  exists sc', remove_pass P3d 1 (add_pass P3d (One 1) (add_pass P3d (One 1) (lit_scene [])))
                = inr sc' /\ 1 ∈ frame_log sc' (w_objs demo_world) (Some demo_camera).
Proof. by apply double_add_remove_drawn. Defined.

Section AlwaysPick.
Context {O : Type} `{Renderable O} `{Raster O} `{!PlainRender O}.

(** C7. The always-on-top pass cannot pick ([Scene.render], line 98
    reads back with [GL_GBA], a name no GL module defines): a frame
    with picking on and a visible always-on-top object raises
    [NameError], although every other step succeeds. *)
Theorem scene_render_always_pick_error sc v mouse cam w :
  snd (screen_size v) <> 0%Z -> sky_ok sc v cam (w_objs w) ->
  render3d sc = true -> pick sc = true ->
  plain_handles (w_objs w) (handles_3d (graph sc)) ->
  length (lights (graph sc)) <= 8 ->
  Forall (fun i => is_Some (w_lights w !! i)) (lights (graph sc)) ->
  visible_handles (w_objs w) (render_3d_always (graph sc)) <> [] ->
  scene_render sc v mouse cam w = inl NameError.
Proof.
  intros Hh Hsky H3 Hpk Hpl Hlen Hls Hvis.
  destruct (scene_render_prefix sc v mouse cam w Hh Hsky) as (w2 & -> & Ho2 & Hl2 & _).
  rewrite H3. apply pbind_inl, render_3d_passes_name_error; rewrite ?Ho2, ?Hl2; done.
Qed.
End AlwaysPick.

Lemma scene_render_always_pick_error_witness :
  scene_render (demo_scene [1] [] [4] [10] true) default_view (5, 5)%Z (Some demo_camera)
    demo_world = inl NameError.
Proof.
  apply scene_render_always_pick_error; try reflexivity; try done.
  - solve_plain.
  - cbn. lia.
  - solve_present.
Defined.

Lemma frames_deterministic_witness :
  exists p1 w1 p2 w2,
    scene_render (demo_scene [1] [] [] [10] false) default_view (5, 5)%Z (Some demo_camera)
      demo_world = inr (p1, w1) /\
    scene_render (demo_scene [1] [] [] [10] false) default_view (5, 5)%Z (Some demo_camera)
      w1 = inr (p2, w2) /\
    w_log w1 = w_log demo_world ++ frame_log (demo_scene [1] [] [] [10] false)
                                    (w_objs demo_world) (Some demo_camera) /\
    w_log w2 = w_log w1 ++ frame_log (demo_scene [1] [] [] [10] false)
                             (w_objs demo_world) (Some demo_camera).
Proof.
  apply frames_deterministic.
  - cbn. lia.
  - exact I.
  - intros _. solve_frame_ok.
  - intros _. split; [solve_plain | eexists; reflexivity].
Defined.

Lemma gl_state_restored_witness :
  exists p w', render_3d_passes (lit_scene [10]) default_view (Some demo_camera) 0 0 demo_world
                 = inr (p, w') /\
    depth_mask (w_gl w') = true /\ GL_ALPHA_TEST ∉ caps (w_gl w') /\
    GL_DEPTH_TEST ∈ caps (w_gl w') /\ mv_depth (w_gl w') = mv_depth (w_gl demo_world) /\
    proj (w_gl w') = proj (w_gl demo_world) /\
    program (w_gl w') = match shader (graph (lit_scene [10])) with
                        | Some _ => 0 | None => program (w_gl demo_world) end.
Proof. apply gl_state_restored. solve_frame_ok. Defined.
