(* ===== verification/ScenePick.v ===== *)
(** * ScenePick: what [Scene.render] returns when picking

    Depth picking (opaque and shader passes, lines 57-75) returns the
    first of the nearest fragments under the cursor; colour picking
    (blend pass, lines 83-91) returns the last object whose draw changed
    the colour under the cursor; the always-on-top pass (lines 94-102)
    cannot pick at all, because its read-back names an undefined
    constant.  The first two are proved against the abstract
    specifications [first_nearest] and [color_changers] of Scene.v. *)

From stdpp Require Import base countable gmap sets list.
From Stdlib Require Import QArith ZArith Lia Lqa.
From S2P Require Import Prelude GL View Interfaces Geometry Scene Render Demo ScenePasses.

Local Open Scope nat_scope.

(** ** Abstract specifications of the picks *)

Section PickSpec.
Context {O : Type} `{Renderable O} `{Raster O}.

Implicit Types (objs : gmap nat (Cell O)) (l : list nat).

(** The fragment the cursor pixel receives from handle [i], if the
    object is visible. *)
Definition frag_at objs (mx my : Z) (i : nat) : option Frag :=
  match objs !! i with
  | Some c => if visible (obj c) then raster (obj c) mx my else None
  | None => None
  end.

(** The alpha test of [view.build_gl], when it is enabled. *)
Definition alpha_ok (alpha_on : bool) (f : Frag) : bool :=
  negb (alpha_on && Qltb (ca (frag_color f)) (1 # 2)%Q).

(** Abstract depth pick: the first visible object whose fragment at
    the cursor survives the alpha test and is strictly nearer than
    everything before it (and than the start value). *)
Definition depth_pick_step (alpha_on : bool) objs (mx my : Z)
    (st : option nat * Q) (i : nat) : option nat * Q :=
  match frag_at objs mx my i with
  | Some f => if alpha_ok alpha_on f && Qltb (frag_depth f) (snd st)
              then (Some i, frag_depth f) else st
  | None => st
  end.

Definition depth_pick_spec (alpha_on : bool) objs (mx my : Z) l
    (st : option nat * Q) : option nat * Q :=
  foldl (depth_pick_step alpha_on objs mx my) st l.

(** The result of a depth pick started from [(None, d0)]: nothing
    nearer than [d0], or the first of the nearest fragments that pass
    the alpha test. *)
Definition first_nearest (alpha_on : bool) objs (mx my : Z) l (d0 : Q)
    (r : option nat * Q) : Prop :=
  (r = (None, d0) /\
   forall j f, j ∈ l -> frag_at objs mx my j = Some f -> alpha_ok alpha_on f = true ->
     (d0 <= frag_depth f)%Q) \/
  (exists l1 i l2 f, l = l1 ++ i :: l2 /\ frag_at objs mx my i = Some f /\
     alpha_ok alpha_on f = true /\ r = (Some i, frag_depth f) /\ (frag_depth f < d0)%Q /\
     (forall j g, j ∈ l1 -> frag_at objs mx my j = Some g -> alpha_ok alpha_on g = true ->
        (frag_depth f < frag_depth g)%Q) /\
     (forall j g, j ∈ l2 -> frag_at objs mx my j = Some g -> alpha_ok alpha_on g = true ->
        (frag_depth f <= frag_depth g)%Q)).

(** The handles whose draw changes the colour at the cursor, drawing
    the visible objects of [l] in order from [s]. *)
Fixpoint color_changers objs (mx my : Z) l (s : GLState) : list nat :=
  match l with
  | [] => []
  | i :: l' =>
      let s' := draw_one objs s i in
      (if color_eqb (read_color mx my s') (read_color mx my s) then [] else [i])
        ++ color_changers objs mx my l' s'
  end.
End PickSpec.

Lemma Qltb_eq_false (a b : Q) : (a == b)%Q -> Qltb a b = false.
Proof. intros H. apply Qltb_false. lra. Qed.

Section Pick.
Context {O : Type} `{Renderable O} `{Raster O} `{!PlainRender O}.

Implicit Types (objs : gmap nat (Cell O)) (w : World O) (l : list nat).



(** One object of a depth pass: the read-back step agrees with the
    abstract step, and the depth under the cursor stays equal to the
    running minimum. *)
Lemma depth_step objs mx my i st s :
  enabled GL_DEPTH_TEST s = true -> depth_mask s = true ->
  (read_depth mx my s == snd st)%Q ->
  (if is_visible objs i then depth_g true mx my i st (draw_one objs s i) else st) =
    depth_pick_step (enabled GL_ALPHA_TEST s) objs mx my st i /\
  (read_depth mx my (draw_one objs s i) ==
     snd (depth_pick_step (enabled GL_ALPHA_TEST s) objs mx my st i))%Q.
Proof.
  intros Hd Hm Hr. unfold draw_one, is_visible, depth_pick_step, frag_at.
  destruct (objs !! i) as [c|]; [|by split].
  destruct (visible (obj c)); [|by split].
  unfold depth_g, gl_draw, read_depth in *. cbn [fb GLOps.set_fb]. unfold draw_pixel.
  rewrite Hd, Hm. simpl.
  destruct (raster (obj c) mx my) as [fr|]; simpl; [|by rewrite Qltb_eq_false].
  unfold alpha_ok. destruct (enabled GL_ALPHA_TEST s && _) eqn:Ea; simpl.
  - by rewrite Qltb_eq_false.
  - destruct (Qle_bool (frag_depth fr) (px_depth (fb s mx my))) eqn:Ed; simpl.
    + destruct (Qltb (frag_depth fr) (snd st)) eqn:El; simpl; [done|].
      split; [done|]. apply Qle_bool_iff in Ed. apply Qltb_false in El. simpl. lra.
    + assert (Hn : ~ (frag_depth fr <= px_depth (fb s mx my))%Q).
      { intros Hle. apply Qle_bool_iff in Hle. congruence. }
      rewrite Qltb_eq_false by done. rewrite (proj2 (Qltb_false _ _)) by lra. by split.
Qed.
(** A depth pass over a list computes the abstract depth pick. *)
Lemma depth_fold_spec objs mx my l st s :
  enabled GL_DEPTH_TEST s = true -> depth_mask s = true ->
  (read_depth mx my s == snd st)%Q ->
  pass_fold (depth_g true mx my) objs l st s =
    depth_pick_spec (enabled GL_ALPHA_TEST s) objs mx my l st /\
  (read_depth mx my (draw_all objs l s) ==
     snd (depth_pick_spec (enabled GL_ALPHA_TEST s) objs mx my l st))%Q.
Proof.
  revert st s. induction l as [|i l IH]; intros st s Hd Hm Hr; [done|].
  destruct (depth_step objs mx my i st s Hd Hm Hr) as [Hs Hr'].
  cbn [pass_fold]. rewrite Hs, draw_all_cons. unfold depth_pick_spec. cbn [foldl].
  rewrite <- (draw_one_enabled objs s i GL_ALPHA_TEST).
  apply IH.
  - by rewrite draw_one_enabled.
  - by rewrite draw_one_depth_mask.
  - by rewrite draw_one_enabled.
Qed.

Lemma first_nearest_snoc a objs mx my l x d0 r :
  first_nearest a objs mx my l d0 r ->
  first_nearest a objs mx my (l ++ [x]) d0 (depth_pick_step a objs mx my r x).
Proof.
  unfold depth_pick_step.
  intros [[-> Hnone] | (l1 & i & l2 & f & -> & Hf & Ha & -> & Hlt & H1 & H2)].
  - destruct (frag_at objs mx my x) as [g|] eqn:Hg;
      [destruct (alpha_ok a g && Qltb (frag_depth g) (snd (None, d0))) eqn:Ec|].
    + apply andb_true_iff in Ec as [Hag Hlt]. apply Qltb_spec in Hlt.
      right. exists l, x, [], g. split_and!; try done.
      * intros j h Hj Hh Hah. specialize (Hnone j h Hj Hh Hah). simpl in *. lra.
      * intros j h Hj. by apply not_elem_of_nil in Hj.
    + left. split; [done|]. intros j h Hj Hh Hah.
      apply elem_of_app in Hj as [Hj|Hj]; [by apply (Hnone j)|].
      apply list_elem_of_singleton in Hj as ->. rewrite Hg in Hh. injection Hh as ->.
      rewrite Hah in Ec. simpl in Ec. apply Qltb_false in Ec. done.
    + left. split; [done|]. intros j h Hj Hh Hah.
      apply elem_of_app in Hj as [Hj|Hj]; [by apply (Hnone j)|].
      apply list_elem_of_singleton in Hj as ->. congruence.
  - right. simpl. destruct (frag_at objs mx my x) as [g|] eqn:Hg;
      [destruct (alpha_ok a g && Qltb (frag_depth g) (frag_depth f)) eqn:Ec|].
    + apply andb_true_iff in Ec as [Hag Hlt']. apply Qltb_spec in Hlt'.
      exists (l1 ++ i :: l2), x, [], g. split_and!; try done.
      * lra.
      * intros j h Hj Hh Hah. apply elem_of_app in Hj as [Hj|Hj].
        { specialize (H1 j h Hj Hh Hah). lra. }
        apply elem_of_cons in Hj as [->|Hj].
        { rewrite Hf in Hh. injection Hh as <-. done. }
        specialize (H2 j h Hj Hh Hah). lra.
      * intros j h Hj. by apply not_elem_of_nil in Hj.
    + exists l1, i, (l2 ++ [x]), f. rewrite <- app_assoc. split_and!; try done.
      intros j h Hj Hh Hah. apply elem_of_app in Hj as [Hj|Hj]; [by apply (H2 j)|].
      apply list_elem_of_singleton in Hj as ->. rewrite Hg in Hh. injection Hh as ->.
      rewrite Hah in Ec. simpl in Ec. by apply Qltb_false in Ec.
    + exists l1, i, (l2 ++ [x]), f. rewrite <- app_assoc. split_and!; try done.
      intros j h Hj Hh Hah. apply elem_of_app in Hj as [Hj|Hj]; [by apply (H2 j)|].
      apply list_elem_of_singleton in Hj as ->. congruence.
Qed.

(** The abstract depth pick is the first of the nearest fragments. *)
Lemma depth_pick_spec_first_nearest a objs mx my l d0 :
  first_nearest a objs mx my l d0 (depth_pick_spec a objs mx my l (None, d0)).
Proof.
  induction l as [|x l IH] using rev_ind.
  - left. split; [done|]. intros j f Hj. by apply not_elem_of_nil in Hj.
  - unfold depth_pick_spec. rewrite foldl_app. simpl. by apply first_nearest_snoc.
Qed.



Lemma pass_fold_invisible {A} (g : nat -> A -> GLState -> A) objs l st s :
  visible_handles objs l = [] -> pass_fold g objs l st s = st.
Proof.
  revert s. induction l as [|i l IH]; intros s Hv; [done|].
  rewrite visible_handles_cons in Hv. cbn [pass_fold].
  destruct (is_visible objs i); [done|]. by apply IH.
Qed.



(** The camera push and the light units leave the depth buffer, the
    depth test and the depth mask as they were. *)
Lemma enter_stage_depth sc cam s :
  enabled GL_DEPTH_TEST (enter_stage sc cam s) = enabled GL_DEPTH_TEST s /\
  depth_mask (enter_stage sc cam s) = depth_mask s /\
  (forall mx my, read_depth mx my (enter_stage sc cam s) = read_depth mx my s) /\
  (forall mx my, read_color mx my (enter_stage sc cam s) = read_color mx my s).
Proof.
  unfold enter_stage, enabled. destruct cam; cbn; split_and!; try done;
    apply bool_decide_ext; set_solver.
Qed.

(** Depth picking over the opaque and shader passes (lines 56-79):
    from a depth buffer cleared to 1 under the cursor, with the depth
    test and depth writes on, the pick is the first of the nearest
    fragments that pass the alpha test. *)
Lemma opaque_stage_pick sc objs mx my s2 :
  pick sc = true -> enabled GL_DEPTH_TEST s2 = true -> depth_mask s2 = true ->
  (read_depth mx my s2 == 1)%Q ->
  first_nearest true objs mx my (render_3d (graph sc) ++ render_3d_shader (graph sc)) 1
    (fst (opaque_stage sc objs mx my s2)).
Proof.
  intros Hpk Hd Hm Hr. unfold opaque_stage. cbn zeta. rewrite Hpk.
  set (s3 := glEnable GL_ALPHA_TEST s2).
  assert (Ha3 : enabled GL_ALPHA_TEST s3 = true)
    by (unfold enabled; apply bool_decide_eq_true; cbn; set_solver).
  assert (Hd3 : enabled GL_DEPTH_TEST s3 = true)
    by (revert Hd; unfold enabled; rewrite !bool_decide_eq_true; cbn; set_solver).
  destruct (depth_fold_spec objs mx my (render_3d (graph sc)) (None, 1%Q) s3 Hd3 Hm Hr)
    as [E1 R1].
  rewrite E1, Ha3. rewrite Ha3 in R1.
  set (s5 := match shader (graph sc) with Some p => _ | None => _ end).
  assert (Hs5 : forall c, enabled c s5 = enabled c s3 /\ depth_mask s5 = depth_mask s2 /\
                  read_depth mx my s5 = read_depth mx my (draw_all objs (render_3d (graph sc)) s3)).
  { intros c. subst s5. split_and!.
    - rewrite <- (draw_all_enabled objs (render_3d (graph sc)) s3 c).
      by destruct (shader (graph sc)).
    - transitivity (depth_mask s3); [|done].
      rewrite <- (draw_all_depth_mask objs (render_3d (graph sc)) s3).
      by destruct (shader (graph sc)).
    - by destruct (shader (graph sc)). }
  destruct (Hs5 GL_DEPTH_TEST) as (Hd5 & Hm5 & Hr5). destruct (Hs5 GL_ALPHA_TEST) as (Ha5 & _).
  rewrite Hd3 in Hd5. rewrite Hm in Hm5. rewrite <- Hr5 in R1. rewrite Ha3 in Ha5.
  destruct (depth_fold_spec objs mx my (render_3d_shader (graph sc)) _ s5 Hd5 Hm5 R1) as [E2 _].
  cbn [fst]. rewrite E2, Ha5. unfold depth_pick_spec. rewrite <- foldl_app.
  apply depth_pick_spec_first_nearest.
Qed.




Lemma draw_one_invisible objs s i : is_visible objs i = false -> draw_one objs s i = s.
Proof.
  unfold draw_one, is_visible. destruct (objs !! i) as [c|]; [|done].
  by destruct (visible (obj c)).
Qed.

(** A colour pass over a list picks the last object whose draw changed
    the colour under the cursor, or keeps the incoming pick. *)
Lemma color_fold_spec objs mx my l st s :
  color_eqb (read_color mx my s) (snd st) = true ->
  fst (pass_fold (color_g true mx my) objs l st s) =
    match last (color_changers objs mx my l s) with Some i => Some i | None => fst st end.
Proof.
  revert st s. induction l as [|i l IH]; intros st s Hc; [done|].
  cbn [pass_fold color_changers]. rewrite last_app.
  destruct (is_visible objs i) eqn:Hv.
  - assert (Hg : forall j st0 s0, color_g true mx my j st0 s0 =
             if negb (color_eqb (read_color mx my s0) (snd st0))
             then (Some j, read_color mx my s0) else st0) by reflexivity.
    rewrite Hg, (color_eqb_compat _ _ _ Hc).
    destruct (color_eqb (read_color mx my (draw_one objs s i)) (snd st)) eqn:Ech; simpl.
    + rewrite IH by done. by destruct (last _).
    + rewrite IH by apply color_eqb_refl. by destruct (last _).
  - rewrite draw_one_invisible by done. rewrite color_eqb_refl. simpl.
    rewrite IH by done. by destruct (last _).
Qed.

(** C1. Pass order of the pick ([Scene.render], lines 57-102): with
    picking on and nothing visible on top, from a depth buffer cleared
    to 1 under the cursor with depth test and writes on, the 3d passes
    return the last blended object whose draw changes the colour under
    the cursor, and when there is none the depth pick of the opaque and
    shader passes, which is the first of their nearest fragments.  A
    blended sprite drawn over the nearest opaque object and changing
    the colour wins, whatever the depths. *)
Theorem pick_pass_order sc v cam mx my w :
  frame_3d_ok sc (w_objs w) (w_lights w) -> pick sc = true ->
  visible_handles (w_objs w) (render_3d_always (graph sc)) = [] ->
  enabled GL_DEPTH_TEST (w_gl w) = true -> depth_mask (w_gl w) = true ->
  (read_depth mx my (w_gl w) == 1)%Q ->
  let o := opaque_stage sc (w_objs w) mx my (enter_stage sc cam (w_gl w)) in
  first_nearest true (w_objs w) mx my
    (render_3d (graph sc) ++ render_3d_shader (graph sc)) 1 (fst o) /\
  exists w', render_3d_passes sc v cam mx my w =
    inr (match last (color_changers (w_objs w) mx my (render_3d_blend (graph sc))
                       (glDepthMask false (snd o))) with
         | Some i => Some i
         | None => fst (fst o)
         end, w').
Proof.
  intros Hok Hpk Hva Hd Hm Hr o.
  destruct (enter_stage_depth sc cam (w_gl w)) as (Ed & Em & Er & _).
  split; [apply opaque_stage_pick; [done|congruence|congruence|by rewrite Er]|].
  pose proof Hok as (Hpl & Hlen & Hls & _).
  rewrite render_3d_passes_run by first [done | right; done].
  unfold pipeline_3d. cbn zeta. rewrite Hpk. fold o.
  rewrite color_fold_spec by apply color_eqb_refl. by eexists.
Qed.

(** C2. Colour picking ([Scene.render], lines 83-91): entered with the
    colour read under the cursor, the blend pass returns the last
    object whose draw changed that colour, and otherwise the pick of
    the depth passes.  The test is colour inequality, so a draw that
    leaves the same colour is not a hit. *)
Theorem blend_pass_last_change v cam mx my l st w :
  plain_handles (w_objs w) l ->
  color_eqb (read_color mx my (w_gl w)) (snd st) = true ->
  exists c w', blend_pass v cam true mx my l st w =
    inr ((match last (color_changers (w_objs w) mx my l (w_gl w)) with
          | Some i => Some i | None => fst st end, c), w').
Proof.
  intros Hl Hc. rewrite blend_pass_run by done.
  rewrite <- (color_fold_spec (w_objs w) mx my l st (w_gl w) Hc).
  eexists _, _. by rewrite <- surjective_pairing.
Qed.



End Pick.


(** ** Witnesses on the demo scenes *)

#[local] Existing Instance demo_raster.

(** Cube 1 (red, opaque, depth 0.3) then the blended sprite cube 2
    (depth 0.1): the sprite changes the colour and is picked. *)
Lemma pick_pass_order_witness :
  let sc := demo_scene [3; 1] [2] [] [10] true in
  let o := opaque_stage sc (w_objs demo_world) 5 5
             (enter_stage sc (Some demo_camera) (w_gl demo_world)) in
  first_nearest true (w_objs demo_world) 5 5 [3; 1] 1 (fst o) /\
  exists w', render_3d_passes sc default_view (Some demo_camera) 5 5 demo_world =
    inr (match last (color_changers (w_objs demo_world) 5 5 [2] (glDepthMask false (snd o))) with
         | Some i => Some i
         | None => fst (fst o)
         end, w').
Proof.
  apply (pick_pass_order (demo_scene [3; 1] [2] [] [10] true)); try reflexivity.
  solve_frame_ok.
Defined.

(** Cube 2 (a half-transparent blue sprite) over a black pixel: the
    colour changes and the pick is the sprite. *)
Lemma blend_pass_last_change_witness :
  exists c w', blend_pass default_view None true 5 5 [2] (None, black) demo_world =
    inr ((match last (color_changers (w_objs demo_world) 5 5 [2] (w_gl demo_world)) with
          | Some i => Some i | None => None end, c), w').
Proof.
  apply (blend_pass_last_change default_view None 5 5 [2] (None, black) demo_world);
    [solve_plain | reflexivity].
Defined.

