(* ===== verification/SceneLights.v ===== *)
(** * SceneLights: the light slots of [Scene.add_light] and [Scene.render]

    [add_light] refuses a ninth light, so every scene a client can build
    holds at most eight lights, which is the size of the unit pool
    [all_lights]: the claim loop of [render] never pops an empty pool.
    With distinct registered lights, the k-th light gets [GL_LIGHT(7-k)]
    and every claimed unit is disabled again at the end of the 3d
    passes; a light registered twice leaves a unit enabled. *)

From stdpp Require Import base countable gmap sets list relations.
From Stdlib Require Import QArith ZArith Lia.
From S2P Require Import Prelude GL View Interfaces Geometry Scene Render Demo ScenePasses ScenePick.

Local Open Scope nat_scope.

(** ** What a frame promises about the light units *)

(** The units a frame claims for the registered lights [ls]:
    [GL_LIGHT7], [GL_LIGHT6], ..., one per light, in order. *)
Definition frame_units (ls : list nat) : list nat := map (fun k => 7 - k) (seq 0 (length ls)).

(** The unit of light [i]: the one its first position in [ls] claims. *)
Definition slot_of (ls : list nat) (i : nat) : option nat :=
  (fun p => 7 - fst p) <$> list_find (fun j => j = i) ls.

(** The light store after a frame: every registered light holds its
    unit in [gl_light], every other light is unchanged. *)
Definition expected_store (ls : list nat) (lts : gmap nat Light) : gmap nat Light :=
  map_imap (fun i lt => Some (match slot_of ls i with
                              | Some n => set_gl_light n lt
                              | None => lt
                              end)) lts.


(** [rev all_lights] lists the units from [GL_LIGHT7] down. *)
Lemma rev_all_lights_lookup k : k < 8 -> rev all_lights !! k = Some (7 - k).
Proof. intros Hk. do 8 (destruct k as [|k]; [reflexivity|]). lia. Qed.

Lemma elem_of_light_set n l :
  GL_LIGHT n ∈ (list_to_set (map GL_LIGHT l) : gset Cap) <-> n ∈ l.
Proof.
  rewrite elem_of_list_to_set, list_elem_of_fmap.
  split; [by intros (m & [= ->] & Hm) | eauto].
Qed.

(** From the full pool, [claim_lights] hands out [frame_units]. *)
Lemma claimed_frame_units ls :
  length ls <= 8 -> claimed_units ls all_lights = frame_units ls.
Proof.
  intros Hlen. apply list_eq. intros k. unfold claimed_units, frame_units.
  rewrite lookup_take, list_lookup_fmap.
  destruct (decide (k < length ls)).
  - rewrite rev_all_lights_lookup, lookup_seq_lt by lia. done.
  - rewrite lookup_seq_ge by lia. done.
Qed.

Section Slots.
Context {O : Type} `{Renderable O} `{Raster O} `{!PlainRender O}.

(** With distinct lights, the k-th light's [gl_light] is the k-th
    unit handed out. *)
Lemma claim_fold_nodup ls u lts k i n lt :
  NoDup ls -> ls !! k = Some i -> u !! k = Some n -> lts !! i = Some lt ->
  claim_fold lts (zip ls u) !! i = Some (set_gl_light n lt).
Proof.
  revert k u lts. induction ls as [|j ls IH]; intros k u lts Hnd Hk Hu Hlt; [done|].
  destruct u as [|m u]; [done|]. apply NoDup_cons in Hnd as [Hj Hnd].
  unfold claim_fold. simpl. fold (claim_fold (alter (set_gl_light m) j lts) (zip ls u)).
  destruct k as [|k]; simpl in Hk, Hu.
  - injection Hk as ->. injection Hu as ->.
    by rewrite claim_fold_notin, lookup_alter_eq, Hlt.
  - apply (IH k); [done..|]. rewrite lookup_alter_ne; [done|].
    intros ->. apply Hj. by eapply list_elem_of_lookup_2.
Qed.

(** With distinct lights, the units [release_lights] disables are
    exactly those [claim_lights] enabled. *)
Lemma light_units_claim ls lts :
  NoDup ls -> length ls <= 8 -> Forall (fun i => is_Some (lts !! i)) ls ->
  light_units ls (claim_store ls all_lights lts) = claimed_units ls all_lights.
Proof.
  intros Hnd Hlen Hls. apply omap_Forall2, Forall2_lookup. intros k.
  unfold claimed_units. rewrite lookup_take.
  destruct (ls !! k) as [i|] eqn:Hk.
  - assert (k < length ls) by (by apply lookup_lt_Some in Hk).
    rewrite decide_True by lia. rewrite rev_all_lights_lookup by lia. constructor.
    rewrite Forall_lookup in Hls. destruct (Hls k i Hk) as [lt Hlt].
    unfold claim_store. rewrite (claim_fold_nodup ls (rev all_lights) lts k i (7 - k) lt);
      [done|done|done|by apply rev_all_lights_lookup; lia|done].
  - apply lookup_ge_None in Hk. rewrite decide_False by lia. constructor.
Qed.
End Slots.

Section Release.
Context {O : Type} `{Renderable O} `{Raster O} `{!PlainRender O}.



(** The light units enabled after the 3d pipeline: those enabled
    before or claimed, less those released. *)
Lemma pipeline_3d_light_caps sc objs lts cam mx my s0 n :
  GL_LIGHT n ∈ caps (snd (fst (pipeline_3d sc objs lts cam mx my s0))) <->
  (GL_LIGHT n ∈ caps s0 \/ n ∈ claimed_units (lights (graph sc)) all_lights) /\
  n ∉ light_units (lights (graph sc)) (claim_store (lights (graph sc)) all_lights lts).
Proof.
  unfold pipeline_3d, opaque_stage, enter_stage. destruct cam, (shader (graph sc)); cbn zeta; cbn [fst snd]; autorewrite with gl_caps;
    repeat first [rewrite elem_of_difference | rewrite elem_of_union
                 | rewrite elem_of_singleton | rewrite elem_of_light_set];
    intuition congruence.
Qed.
End Release.

Section LightFrame.
Context {O : Type} `{Renderable O} `{Raster O} `{!PlainRender O}.

(** C3. Light units ([Scene.render], lines 53-55): when the registered
    lights are distinct, the 3d passes run through and leave the light
    store [expected_store]: the k-th registered light holds
    [GL_LIGHT(7-k)] in [gl_light], the pool [all_lights] being popped
    from its end, and the other lights are untouched. *)
Theorem light_slots_assigned sc v cam mx my w :
  frame_3d_ok sc (w_objs w) (w_lights w) -> NoDup (lights (graph sc)) ->
  exists p w', render_3d_passes sc v cam mx my w = inr (p, w') /\
    w_lights w' = expected_store (lights (graph sc)) (w_lights w).
Proof.
  intros Hok Hnd. pose proof Hok as (Hpl & Hlen & Hls & Hpk).
  rewrite render_3d_passes_run by done.
  pose proof (pipeline_3d_store sc (w_objs w) (w_lights w) cam mx my (w_gl w)) as Es.
  destruct (pipeline_3d _ _ _ _ _ _ _) as [[p s] lts'].
  eexists _, _. split; [reflexivity|]. cbn [fst snd w_lights] in Es |- *. subst lts'.
  apply map_eq. intros i. unfold expected_store. rewrite map_lookup_imap. unfold claim_store.
  destruct (slot_of _ i) as [n|] eqn:Hs.
  - apply fmap_Some in Hs as ([k j] & (Hk & -> & _)%list_find_Some & ->).
    rewrite Forall_lookup in Hls. destruct (Hls k i Hk) as [lt Hlt]. rewrite Hlt. cbn.
    apply lookup_lt_Some in Hk as Hk8. apply (claim_fold_nodup _ _ _ k); [done..| |done].
    apply rev_all_lights_lookup. lia.
  - unfold slot_of in Hs. apply fmap_None, list_find_None in Hs.
    rewrite claim_fold_notin; [by destruct (w_lights w !! i)|].
    intros Hi. rewrite Forall_forall in Hs. by apply (Hs i).
Qed.

(** C4. Light release ([Scene.render], lines 105-106): when the
    registered lights are distinct, a light unit is enabled after
    the 3d passes exactly when it was enabled before and is not one
    of the units the frame claimed, [frame_units]. *)
Theorem lights_released sc v cam mx my w :
  frame_3d_ok sc (w_objs w) (w_lights w) -> NoDup (lights (graph sc)) ->
  exists p w', render_3d_passes sc v cam mx my w = inr (p, w') /\
    forall n, GL_LIGHT n ∈ caps (w_gl w') <->
      GL_LIGHT n ∈ caps (w_gl w) /\ n ∉ frame_units (lights (graph sc)).
Proof.
  intros Hok Hnd. pose proof Hok as (Hpl & Hlen & Hls & Hpk).
  rewrite render_3d_passes_run by done.
  pose proof (pipeline_3d_light_caps sc (w_objs w) (w_lights w) cam mx my (w_gl w)) as Ec.
  destruct (pipeline_3d _ _ _ _ _ _ _) as [[p s] lts'].
  eexists _, _. split; [reflexivity|]. intros n. cbn [fst snd] in Ec |- *.
  rewrite Ec, light_units_claim, claimed_frame_units by done. tauto.
Qed.

(** C8. A light registered twice ([add_light] does not check for
    duplicates) claims two units, but its [gl_light] keeps only the
    second, [GL_LIGHT6]: [release_lights] hides that unit twice and
    [GL_LIGHT7], a unit the frame claimed, stays enabled after it. *)
Theorem duplicate_light_leaks sc v cam mx my w i :
  frame_3d_ok sc (w_objs w) (w_lights w) -> lights (graph sc) = [i; i] ->
  exists p w', render_3d_passes sc v cam mx my w = inr (p, w') /\
    7 ∈ frame_units (lights (graph sc)) /\ GL_LIGHT 7 ∈ caps (w_gl w').
Proof.
  intros Hok Hls2. pose proof Hok as (Hpl & Hlen & Hls & Hpk).
  rewrite render_3d_passes_run by done.
  pose proof (pipeline_3d_light_caps sc (w_objs w) (w_lights w) cam mx my (w_gl w) 7) as Ec.
  destruct (pipeline_3d _ _ _ _ _ _ _) as [[p s] lts'].
  eexists _, _. split; [reflexivity|]. split; [rewrite Hls2; cbn; set_solver|].
  cbn [fst snd w_gl] in Ec |- *. apply Ec.
  rewrite Hls2 in Hls |- *. apply Forall_cons in Hls as [[lt Hlt] _].
  unfold light_units, claim_store, claim_fold. cbn. rewrite !lookup_alter_eq, Hlt.
  split; [right; by left|]. cbn. rewrite !elem_of_cons. intros [?|[?|?%not_elem_of_nil]]; lia.
Qed.
End LightFrame.

#[local] Existing Instance demo_raster.

Lemma duplicate_light_leaks_witness :
  exists p w', render_3d_passes (lit_scene [10; 10]) default_view (Some demo_camera) 0 0 demo_world
                 = inr (p, w') /\ 7 ∈ frame_units [10; 10] /\ GL_LIGHT 7 ∈ caps (w_gl w').
Proof.
  apply (duplicate_light_leaks (lit_scene [10; 10]) _ _ _ _ _ 10); [|reflexivity].
  solve_frame_ok.
Defined.

Lemma light_slots_assigned_witness :
  exists p w', render_3d_passes (lit_scene [10]) default_view (Some demo_camera) 0 0 demo_world
                 = inr (p, w') /\
    w_lights w' = expected_store [10] (w_lights demo_world).
Proof.
  apply (light_slots_assigned (lit_scene [10])); [solve_frame_ok | repeat constructor; set_solver].
Defined.

Lemma lights_released_witness :
  exists p w', render_3d_passes (lit_scene [10]) default_view (Some demo_camera) 0 0 demo_world
                 = inr (p, w') /\
    forall n, GL_LIGHT n ∈ caps (w_gl w') <->
      GL_LIGHT n ∈ caps (w_gl demo_world) /\ n ∉ frame_units [10].
Proof.
  apply (lights_released (lit_scene [10])); [solve_frame_ok | repeat constructor; set_solver].
Defined.
