(* ===== verification/Mesh.v ===== *)
(** * Mesh: the Wavefront loaders of [src/trunk/pyggel/mesh.py]

    [OBJ(filename)] reads an OBJ file line by line into lists of
    vertices, normals, texture coordinates and faces, loads the material
    library a [mtllib] line names with [MTL], records one display list
    of polygons, and returns a [BasicMesh] of the faces' vertices.  A
    file is the list of its lines (with their ["\n"]); the file system
    is the function [open_lines] from a path to its lines or the
    exception [open] raises; Python's [float()] of a token is the
    function [py_float] (both are [Context] of Section [Files] of
    module [Loader]).
    [int()] of a token, [str.split()], [str.split('/')] and the
    [posixpath] functions are written out.  [misc.create_empty_texture]
    (not among the sources) is the colour it is made from.

    [BasicMesh.get_dimensions] compares a list with a number, which
    Python 2 orders by type: the values it handles are [PyVal].

    The theorems: the tokenizer against its reference, [int(str(z))],
    the parse invariant [obj_wf], the round trip of [OBJ] through the
    writer [ObjWriter.write_obj], and the loaders' error paths and
    index arithmetic, with witnesses on the sample files of
    [MeshFixture]. *)

From stdpp Require Import base list gmap strings.
From Stdlib Require Import ZArith QArith Qabs Lia Ascii.
From Stdlib Require String.
From S2P Require Import Prelude Font.

Local Open Scope nat_scope.

(** ** Strings *)

Module StrOps.

(** The characters Python 2's [str.split()] treats as whitespace. *)
Definition is_space (c : ascii) : bool :=
  bool_decide (c ∈ map Ascii.ascii_of_nat [32; 9; 10; 11; 12; 13]).

(** [s.split()]: maximal runs of non-whitespace characters. *)
Fixpoint split_ws_go (s cur : pystr) : list pystr :=
  match s with
  | [] => if cur is [] then [] else [cur]
  | c :: r =>
      if is_space c then (if cur is [] then split_ws_go r [] else cur :: split_ws_go r [])
      else split_ws_go r (cur ++ [c])
  end.

Definition split_ws (s : pystr) : list pystr := split_ws_go s [].

(** Splitting at every character [p] holds, empty fields included:
    [cons_first x ls] puts [x] in front of the first field. *)
Definition cons_first (x : pystr) (ls : list pystr) : list pystr :=
  match ls with l :: ls' => (x ++ l) :: ls' | [] => [x] end.

Fixpoint split_by (p : ascii -> bool) (s : pystr) : list pystr :=
  match s with
  | [] => [[]]
  | c :: r => if p c then [] :: split_by p r else cons_first [c] (split_by p r)
  end.

(** [s.split(sep)] with a one-character separator. *)
Definition split_on (sep : ascii) (s : pystr) : list pystr :=
  split_by (fun c => bool_decide (c = sep)) s.

(** [s.startswith(p)] *)
Definition startswith (s p : pystr) : bool := bool_decide (p `prefix_of` s).

(** [int(s)] of a token (tokens hold no whitespace): an optional sign
    and at least one decimal digit, or [ValueError]. *)
Definition digit (c : ascii) : option Z :=
  let n := nat_of_ascii c in if decide (48 <= n <= 57) then Some (Z.of_nat n - 48)%Z else None.

Fixpoint digits_acc (acc : Z) (s : pystr) : option Z :=
  match s with
  | [] => Some acc
  | c :: r => d ← digit c; digits_acc (10 * acc + d)%Z r
  end.

Definition digits (s : pystr) : option Z := if s is [] then None else digits_acc 0 s.

Definition py_int_str (s : pystr) : PyExc + Z :=
  let r := match s with
           | c :: t => if decide (c = "-"%char) then Z.opp <$> digits t
                       else if decide (c = "+"%char) then digits t else digits s
           | [] => None
           end in
  match r with Some z => inr z | None => inl ValueError end.

(** [str(z)] of an int, the inverse [OBJ]'s [int()] is applied to: the
    decimal digits of [n], most significant first, with [fuel] digits at
    most. *)
Definition digit_char (d : N) : ascii := ascii_of_N (48 + d).

Fixpoint n_digits (fuel : nat) (n : N) : pystr :=
  match fuel with
  | O => []
  | S f => (if (n <? 10)%N then [] else n_digits f (n / 10)) ++ [digit_char (n mod 10)]
  end.

(** [n] has at most [log2 n + 1] decimal digits. *)
Definition str_of_N (n : N) : pystr := n_digits (S (N.to_nat (N.log2 n))) n.

Definition str_of_Z (z : Z) : pystr :=
  if (z <? 0)%Z then "-"%char :: str_of_N (Z.to_N (- z)) else str_of_N (Z.to_N z).

(** [posixpath.join(a, b)] *)
Definition path_join (a b : pystr) : pystr :=
  if startswith b ["/"%char] then b
  else if bool_decide (a = []) || bool_decide (last a = Some "/"%char) then a ++ b
  else a ++ ["/"%char] ++ b.

(** [posixpath.split(p)[0]]: up to the last slash, trailing slashes
    removed unless the head is only slashes. *)
Fixpoint rstrip_slash (s : pystr) : pystr :=
  match s with
  | [] => []
  | c :: r => let r' := rstrip_slash r in
              if bool_decide (r' = []) && bool_decide (c = "/"%char) then [] else c :: r'
  end.

Definition path_head (p : pystr) : pystr :=
  let i := length p - (if list_find (fun c => c = "/"%char) (reverse p) is Some (j, _) then j else length p) in
  let head := take i p in
  if bool_decide (Forall (fun c => c = "/"%char) head) then head else rstrip_slash head.

End StrOps.
Export StrOps.

(** ** Values compared by Python 2

    Python 2 orders values of different types by type: every number is
    smaller than every list; lists compare element by element. *)
Inductive PyVal := PNum (q : Q) | PList (l : list Q).

#[export] Instance Q_inhabited : Inhabited Q := populate 0%Q.

Fixpoint list_ltb (a b : list Q) : bool :=
  match a, b with
  | [], [] => false
  | [], _ :: _ => true
  | _ :: _, [] => false
  | x :: a', y :: b' => if Qeq_bool x y then list_ltb a' b' else Qltb x y
  end.

Definition py2_ltb (a b : PyVal) : bool :=
  match a, b with
  | PNum x, PNum y => Qltb x y
  | PNum _, PList _ => true
  | PList _, PNum _ => false
  | PList x, PList y => list_ltb x y
  end.

(** [max((a, b))]: the later item replaces the current one only when it
    is greater. *)
Definition py2_max2 (a b : PyVal) : PyVal := if py2_ltb a b then b else a.

(** [min(l)] of a non-empty list of floats, [ValueError] on an empty one. *)
Definition py_min (l : list Q) : PyExc + Q :=
  match l with
  | [] => inl ValueError
  | x :: r => inr (fold_left (fun m y => if Qltb y m then y else m) r x)
  end.

(** A string literal of the source. *)
Definition lit (s : String.string) : pystr := String.list_ascii_of_string s.

(** ** The loaders *)

Module Loader.

(** A value of [MTL]'s [contents]: [None] after [newmtl], or the
    texture [misc.create_empty_texture(color=...)] makes, given by its
    colour. *)
Definition MtlVal := option (list Q).
Definition Materials := list (pystr * MtlVal).

(** The locals of [MTL]'s loop: [contents] and [mtl]. *)
Definition MtlState : Type := Materials * option pystr.

(** One face, as the tuple [(face, norms, texcoords, material)] of line 80. *)
Record Face := mkFace {
  f_verts : list Z; f_norms : list Z; f_texcoords : list Z; f_material : option pystr }.

(** The locals of [OBJ]'s loop (lines 38-44). *)
Record ObjState := mkObjState {
  svertices : list (list Q); snormals : list (list Q); stexcoords : list (list Q);
  sfaces : list Face; material : option pystr; smtl : option Materials }.

Definition obj_init : ObjState := mkObjState [] [] [] [] None None.

(** The commands the display list records (lines 87-102). *)
Inductive MeshCmd :=
| MBindBlank            (** [blank_texture.bind()] *)
| MBindTex (c : list Q) (** [mtl.bind()] of a colour texture *)
| MBegin                (** [glBegin(GL_POLYGON)] *)
| MNormal (n : list Q)  (** [glNormal3fv] *)
| MTexCoord (t : list Q) (** [glTexCoord2fv] *)
| MVertex (v : list Q)  (** [glVertex3fv] *)
| MEnd.                 (** [glEnd()] *)

(** What [OBJ] hands to [BasicMesh(gl_list, pos, rotation, verts, 1,
    colorize, smtl)] (line 110). *)
Record LoadedMesh := mkLoaded {
  lm_display_list : list MeshCmd; lm_pos : Q * Q * Q; lm_rotation : Q * Q * Q;
  lm_verts : list (list Q); lm_scale : Q; lm_colorize : Q * Q * Q * Q;
  lm_materials : option Materials }.

Section Files.
(** [float(token)] *)
Context (py_float : pystr -> PyExc + Q).
(** [open(path, "r")] iterated: the lines of the file, or the exception. *)
Context (open_lines : pystr -> PyExc + list pystr).

(** The body of [MTL]'s loop (lines 14-31). *)
Definition mtl_line (line : pystr) : PyM MtlState unit := fun st =>
  let '(contents, mtl) := st in
  if startswith line (lit "#") then inr (tt, st) else
  let values := split_ws line in
  match values with
  | [] => inr (tt, st)
  | v0 :: rest =>
      if decide (v0 = lit "newmtl") then
        n <-? py_index values 1 ;; inr (tt, (dict_set n None contents, Some n))
      else match mtl with
      | None => inl ValueError
      | Some m =>
          (* [mtl['map_Kd']] indexes the string [mtl] with a string *)
          if decide (v0 = lit "map_Kd") then inl TypeError
          else if decide (v0 = lit "Kd") then
            c <-? emap py_float rest ;; inr (tt, (dict_set m (Some c) contents, mtl))
          else inr (tt, st)
      end
  end.

(** [MTL(filename, path)] (lines 10-32). *)
Definition MTL (filename path : pystr) : PyExc + Materials :=
  lines <-? open_lines (path_join path filename) ;;
  r <-? pfor lines mtl_line ([], None) ;;
  inr (fst (snd r)).

(** [v = v[0], v[2], v[1]] *)
Definition swap3 (v : list Q) : PyExc + list Q :=
  a <-? py_index v 0 ;; c <-? py_index v 2 ;; b <-? py_index v 1 ;; inr [a; c; b].

(** One token [v] of an [f] line (lines 70-79): [(vertex, texcoord, normal)]. *)
Definition face_token (v : pystr) : PyExc + (Z * Z * Z) :=
  let w := split_on "/"%char v in
  vi <-? (x <-? py_get w 0 ;; py_int_str x) ;;
  ti <-? (if bool_decide (2 <= length w) && bool_decide (0 < length (w !!! 1))
          then py_int_str (w !!! 1) else inr 0%Z) ;;
  ni <-? (if bool_decide (3 <= length w) && bool_decide (0 < length (w !!! 2))
          then py_int_str (w !!! 2) else inr 0%Z) ;;
  inr (vi, ti, ni).

Definition add_vertex (v : list Q) (s : ObjState) : ObjState :=
  mkObjState (svertices s ++ [v]) (snormals s) (stexcoords s) (sfaces s) (material s) (smtl s).
Definition add_normal (v : list Q) (s : ObjState) : ObjState :=
  mkObjState (svertices s) (snormals s ++ [v]) (stexcoords s) (sfaces s) (material s) (smtl s).
Definition add_texcoord (v : list Q) (s : ObjState) : ObjState :=
  mkObjState (svertices s) (snormals s) (stexcoords s ++ [v]) (sfaces s) (material s) (smtl s).
Definition add_face (f : Face) (s : ObjState) : ObjState :=
  mkObjState (svertices s) (snormals s) (stexcoords s) (sfaces s ++ [f]) (material s) (smtl s).
Definition set_material (m : pystr) (s : ObjState) : ObjState :=
  mkObjState (svertices s) (snormals s) (stexcoords s) (sfaces s) (Some m) (smtl s).
Definition set_smtl (d : Materials) (s : ObjState) : ObjState :=
  mkObjState (svertices s) (snormals s) (stexcoords s) (sfaces s) (material s) (Some d).

(** [map(float, values[1:4])], swapped when [swapyz]. *)
Definition read_vec3 (swapyz : bool) (values : list pystr) : PyExc + list Q :=
  v <-? emap py_float (py_slice values 1 4) ;; if swapyz then swap3 v else inr v.

(** The body of [OBJ]'s loop (lines 46-80). *)
Definition obj_line (swapyz : bool) (filename line : pystr) : PyM ObjState unit := fun st =>
  if startswith line (lit "#") then inr (tt, st) else
  let values := split_ws line in
  match values with
  | [] => inr (tt, st)
  | v0 :: _ =>
      if decide (v0 = lit "v") then
        v <-? read_vec3 swapyz values ;; inr (tt, add_vertex v st)
      else if decide (v0 = lit "vn") then
        v <-? read_vec3 swapyz values ;; inr (tt, add_normal v st)
      else if decide (v0 = lit "vt") then
        v <-? emap py_float (py_slice values 1 3) ;; inr (tt, add_texcoord v st)
      else if bool_decide (v0 ∈ [lit "usemtl"; lit "usemat"]) then
        m <-? py_index values 1 ;; inr (tt, set_material m st)
      else if decide (v0 = lit "mtllib") then
        n <-? py_index values 1 ;; d <-? MTL n (path_head filename) ;; inr (tt, set_smtl d st)
      else if decide (v0 = lit "f") then
        ts <-? emap face_token (py_slice_from values 1) ;;
        inr (tt, add_face (mkFace (map (fun t => t.1.1) ts) (map (fun t => t.2) ts)
                                  (map (fun t => t.1.2) ts) (material st)) st)
      else inr (tt, st)
  end.

(** The loop of lines 45-80. *)
Definition obj_parse (swapyz : bool) (filename : pystr) (lines : list pystr) : PyExc + ObjState :=
  r <-? pfor lines (obj_line swapyz filename) obj_init ;; inr (snd r).

(** The texture bound before a face (lines 87-94). *)
Definition face_bind (st : ObjState) (f : Face) : PyExc + MeshCmd :=
  match smtl st with
  | Some ((_ :: _) as d) =>
      m <-? (match f_material f with None => inl KeyError | Some k => dict_get d k end) ;;
      (* [mtl.bind()] of [None] raises [AttributeError], caught by [except:] *)
      inr (match m with None => MBindBlank | Some c => MBindTex c end)
  | _ => inr MBindBlank
  end.

(** One pass of the loop of lines 96-101. *)
Definition vertex_cmds (st : ObjState) (f : Face) (i : nat) : PyExc + list MeshCmd :=
  n <-? py_get (f_norms f) i ;;
  cn <-? (if (0 <? n)%Z then x <-? py_index (snormals st) (n - 1) ;; inr [MNormal x] else inr []) ;;
  t <-? py_get (f_texcoords f) i ;;
  ct <-? (if (0 <? t)%Z then x <-? py_index (stexcoords st) (t - 1) ;; inr [MTexCoord x] else inr []) ;;
  v <-? py_get (f_verts f) i ;;
  x <-? py_index (svertices st) (v - 1) ;;
  inr (cn ++ ct ++ [MVertex x]).

(** One face of the loop of lines 85-102. *)
Definition face_cmds (st : ObjState) (f : Face) : PyExc + list MeshCmd :=
  b <-? face_bind st f ;;
  body <-? emap (vertex_cmds st f) (seq 0 (length (f_verts f))) ;;
  inr (b :: MBegin :: concat body ++ [MEnd]).

(** [verts] (lines 105-108). *)
Definition obj_verts (st : ObjState) : PyExc + list (list Q) :=
  emap (fun x => py_index (svertices st) (x - 1)) (concat (map f_verts (sfaces st))).

(** [OBJ(filename, swapyz, pos, rotation, colorize)] (lines 34-110),
    with [view.require_init()] passed. *)
Definition OBJ (filename : pystr) (swapyz : bool) (pos rotation : Q * Q * Q)
    (colorize : Q * Q * Q * Q) : PyExc + LoadedMesh :=
  lines <-? open_lines filename ;;
  st <-? obj_parse swapyz filename lines ;;
  dl <-? emap (face_cmds st) (sfaces st) ;;
  vs <-? obj_verts st ;;
  inr (mkLoaded (concat dl) pos rotation vs 1 colorize (smtl st)).

End Files.

(** [BasicMesh.get_dimensions] (lines 127-136): [max((x, abs(min(x))))]
    of the list [x] and a number. *)
Definition dimension (xs : list Q) : PyExc + PyVal :=
  m <-? py_min xs ;; inr (py2_max2 (PList xs) (PNum (Qabs m))).

Definition get_dimensions (verts : list (list Q)) : PyExc + (PyVal * PyVal * PyVal) :=
  cs <-? emap (fun i => a <-? py_index i 0 ;; b <-? py_index i 1 ;; c <-? py_index i 2 ;; inr (a, b, c)) verts ;;
  dx <-? dimension (map (fun t => t.1.1) cs) ;;
  dy <-? dimension (map (fun t => t.1.2) cs) ;;
  dz <-? dimension (map (fun t => t.2) cs) ;;
  inr (dx, dy, dz).

(** What the parse loop keeps: every face holds as many normal and
    texture indices as vertex indices, so that the loop of lines 96-101
    finds [normals[i]] and [texture_coords[i]]; with [swapyz] every
    vertex and normal is a triple. *)
Definition face_wf (f : Face) : Prop :=
  length (f_norms f) = length (f_verts f) /\ length (f_texcoords f) = length (f_verts f).

Definition obj_wf (swapyz : bool) (st : ObjState) : Prop :=
  Forall face_wf (sfaces st) /\
  (swapyz = true -> Forall (fun v => length v = 3) (svertices st) /\
                   Forall (fun v => length v = 3) (snormals st)).

End Loader.

(** ** Writing OBJ files

    The files [OBJ] reads back exactly: one [v x y z] line per vertex of
    integer coordinates, then one [f i j k ...] line per face of
    1-based vertex indices, tokens separated by spaces. *)
Module ObjWriter.
Import Loader.

(** A token of a line: non-empty, with no whitespace. *)
Definition is_token (t : pystr) : Prop := t <> [] /\ Forall (fun c => is_space c = false) t.

Definition words_line (toks : list pystr) : pystr :=
  concat (map (fun t => t ++ [" "%char]) toks) ++ [Ascii.ascii_of_nat 10].

Definition v_line (v : Z * Z * Z) : pystr :=
  words_line [lit "v"; str_of_Z v.1.1; str_of_Z v.1.2; str_of_Z v.2].

Definition f_line (f : list nat) : pystr :=
  words_line (lit "f" :: map (fun i => str_of_Z (Z.of_nat i)) f).

Definition write_obj (vs : list (Z * Z * Z)) (fs : list (list nat)) : list pystr :=
  map v_line vs ++ map f_line fs.

(** What [OBJ] makes of them with [swapyz]: the vertex with y and z
    swapped, the face with no normal or texture index, drawn with the
    blank texture. *)
Definition vec_of (v : Z * Z * Z) : list Q := [inject_Z v.1.1; inject_Z v.2; inject_Z v.1.2].

Definition face_of (f : list nat) : Face :=
  mkFace (map Z.of_nat f) (map (fun _ => 0%Z) f) (map (fun _ => 0%Z) f) None.

Definition drawn_face (vs : list (Z * Z * Z)) (f : list nat) : list MeshCmd :=
  MBindBlank :: MBegin :: map (fun i => MVertex (vec_of (vs !!! (i - 1)))) f ++ [MEnd].

End ObjWriter.

(** ** Sample files

    A [float()] that reads the integers [int()] reads, and a directory
    [m/] with a triangle, a triangle whose first face comes before its
    [usemtl], and two material libraries. *)
Module MeshFixture.
Import Loader.

Definition int_float (s : pystr) : PyExc + Q := z <-? py_int_str s ;; inr (inject_Z z).

Definition line (s : String.string) : pystr := lit s ++ [Ascii.ascii_of_nat 10].

Definition tri_obj : list pystr :=
  [line "# a triangle"; line "v 1 2 3"; line "v 4 5 6"; line "v 7 8 9"; line ""; line "f 1 2 0"].

Definition mixed_obj : list pystr :=
  [line "mtllib good.mtl"; line "v 1 2 3"; line "v 4 5 6"; line "v 7 8 9";
   line "f 1 2 3"; line "usemtl red"; line "f 1/1/1 2 3"].

Definition good_mtl : list pystr := [line "newmtl red"; line "Kd 1 0 0"].

Definition tex_mtl : list pystr := [line "# wood"; line "newmtl wood"; line "map_Kd wood.png"].

Definition tri_verts : list (Z * Z * Z) := [(1, 2, 3); (4, 5, 6); (-7, 8, 9)]%Z.

Definition written_obj : list pystr := ObjWriter.write_obj tri_verts [[1; 2; 3]; [3; 1]].

Definition files (p : pystr) : PyExc + list pystr :=
  if decide (p = lit "m/tri.obj") then inr tri_obj
  else if decide (p = lit "m/mixed.obj") then inr mixed_obj
  else if decide (p = lit "m/written.obj") then inr written_obj
  else if decide (p = lit "m/good.mtl") then inr good_mtl
  else if decide (p = lit "m/tex.mtl") then inr tex_mtl
  else inl IOError.

Definition no_face : Face := mkFace [] [] [] None.
Definition no_mesh : LoadedMesh := mkLoaded [] (0, 0, 0)%Q (0, 0, 0)%Q [] 1%Q (1, 1, 1, 1)%Q None.

Definition parsed (fn : String.string) (lines : list pystr) : ObjState :=
  ok_or obj_init (Some (obj_parse int_float files true (lit fn) lines)).
Definition loaded (fn : String.string) : LoadedMesh :=
  ok_or no_mesh (Some (OBJ int_float files (lit fn) true (0, 0, 0)%Q (0, 0, 0)%Q (1, 1, 1, 1)%Q)).
Definition first_face (st : ObjState) : Face := default no_face (head (sfaces st)).

End MeshFixture.

(** ** Strings: tokens and integers *)

Section StrLemmas.

Lemma cons_first_nil ls : ls <> [] -> cons_first [] ls = ls.
Proof. by destruct ls. Qed.

Lemma cons_first_app a b ls : cons_first a (cons_first b ls) = cons_first (a ++ b) ls.
Proof. destruct ls; cbn; by rewrite ?app_assoc, ?app_nil_r. Qed.

Lemma split_by_nonempty p s : split_by p s <> [].
Proof. destruct s as [|c s]; cbn; [done|]. destruct (p c); [done|]. by destruct (split_by p s). Qed.

(** The loop [split_ws_go] keeps the field it is reading in [cur]. *)
Lemma split_ws_go_filter s cur :
  split_ws_go s cur = filter (fun t => t <> []) (cons_first cur (split_by is_space s)).
Proof.
  revert cur. induction s as [|c s IH]; intros cur; cbn [split_ws_go split_by cons_first].
  - rewrite app_nil_r, filter_cons, filter_nil. destruct cur; case_decide; naive_solver.
  - destruct (is_space c); cbn [cons_first].
    + rewrite app_nil_r, filter_cons, IH, cons_first_nil by apply split_by_nonempty.
      destruct cur; case_decide; naive_solver.
    + by rewrite IH, cons_first_app.
Qed.

Lemma split_ws_go_token t s cur :
  Forall (fun c => is_space c = false) t -> split_ws_go (t ++ s) cur = split_ws_go s (cur ++ t).
Proof.
  revert cur. induction t as [|c t IH]; intros cur Ht; cbn; [by rewrite app_nil_r|].
  apply Forall_cons in Ht as [-> Ht]. by rewrite IH, <- app_assoc.
Qed.

Lemma nat_of_digit_char d : (d < 10)%N -> nat_of_ascii (digit_char d) = N.to_nat (48 + d).
Proof. intros. unfold nat_of_ascii, digit_char. rewrite N_ascii_embedding; [done | lia]. Qed.

Lemma digit_digit_char d : (d < 10)%N -> digit (digit_char d) = Some (Z.of_N d).
Proof.
  intros Hd. unfold digit. rewrite nat_of_digit_char by done.
  rewrite decide_True by lia. f_equal. lia.
Qed.

Lemma digits_acc_app a s1 s2 : digits_acc a (s1 ++ s2) = digits_acc a s1 ≫= fun b => digits_acc b s2.
Proof.
  revert a. induction s1 as [|c s1 IH]; intros a; cbn; [done|].
  destruct (digit c); cbn; [apply IH | done].
Qed.

Lemma one_digit d : (d < 10)%N ->
  digits_acc 0 [digit_char d] = Some (Z.of_N d) /\
  Forall (fun c => 48 <= nat_of_ascii c <= 57) [digit_char d].
Proof.
  intros Hd. cbn [digits_acc]. rewrite digit_digit_char by done. split; [cbn; f_equal; lia|].
  constructor; [|constructor]. rewrite nat_of_digit_char by done. lia.
Qed.

Lemma n_digits_S f n :
  n_digits (S f) n = (if (n <? 10)%N then [] else n_digits f (n / 10)) ++ [digit_char (n mod 10)].
Proof. done. Qed.

Lemma n_digits_spec f n :
  (n < 10 ^ N.of_nat (S f))%N ->
  n_digits (S f) n <> [] /\ digits_acc 0 (n_digits (S f) n) = Some (Z.of_N n) /\
  Forall (fun c => 48 <= nat_of_ascii c <= 57) (n_digits (S f) n).
Proof.
  revert n. induction f as [|f IH]; intros n Hn; rewrite n_digits_S.
  - assert (n < 10)%N as Hl by (rewrite N.pow_1_r in Hn; lia).
    rewrite (proj2 (N.ltb_lt _ _) Hl), N.mod_small by done. cbn [app].
    destruct (one_digit n Hl). by split_and!.
  - destruct (N.ltb_spec n 10) as [Hl|Hl]; cbn [app].
    + rewrite N.mod_small by done. destruct (one_digit n Hl). by split_and!.
    + assert (n / 10 < 10 ^ N.of_nat (S f))%N as Hd.
      { apply N.Div0.div_lt_upper_bound. rewrite <- N.pow_succ_r'.
        by replace (N.succ (N.of_nat (S f))) with (N.of_nat (S (S f))) by lia. }
      destruct (IH _ Hd) as (_ & IHd & IHf).
      destruct (one_digit (n mod 10)) as [Hm Hf]; [apply N.mod_lt; lia|].
      split_and!.
      * intros [_ ?]%app_eq_nil; done.
      * rewrite digits_acc_app, IHd. cbn [mbind option_bind]. cbn [digits_acc].
        rewrite digit_digit_char by (apply N.mod_lt; lia). cbn.
        f_equal. pose proof (N.div_mod n 10). lia.
      * by apply Forall_app.
Qed.

Lemma str_of_N_spec n :
  str_of_N n <> [] /\ digits_acc 0 (str_of_N n) = Some (Z.of_N n) /\
  Forall (fun c => 48 <= nat_of_ascii c <= 57) (str_of_N n).
Proof.
  apply n_digits_spec. destruct (N.eq_dec n 0) as [->|Hn]; [cbn; lia|].
  pose proof (N.log2_spec n ltac:(lia)) as [_ H2].
  eapply N.lt_le_trans; [exact H2|]. rewrite Nat2N.inj_succ, N2Nat.id.
  apply N.pow_le_mono_l. lia.
Qed.

(** No digit is whitespace, a sign, a comment mark or a slash. *)
Lemma digit_char_not c : 48 <= nat_of_ascii c <= 57 ->
  is_space c = false /\ c <> "-"%char /\ c <> "+"%char /\ c <> "#"%char /\ c <> "/"%char.
Proof.
  intros Hc. split_and!; [| (intros ->; vm_compute in Hc; lia) ..].
  unfold is_space. apply bool_decide_eq_false. intros (k & -> & Hk)%list_elem_of_fmap.
  rewrite nat_ascii_embedding in Hc by (apply list_elem_of_In in Hk; cbn in Hk; lia).
  apply list_elem_of_In in Hk; cbn in Hk; lia.
Qed.

End StrLemmas.

Lemma digits_str_of_N n : digits (str_of_N n) = Some (Z.of_N n).
Proof.
  destruct (str_of_N_spec n) as (Hne & Hd & _). unfold digits.
  by destruct (str_of_N n).
Qed.

(** ** Tokenizer and integers *)

(** [str.split()] as the loaders use it, reading one field at a time,
    equals its reference reading: split the line at every whitespace
    character and drop the empty fields. *)
Theorem split_ws_spec s : split_ws s = filter (fun t => t <> []) (split_by is_space s).
Proof. unfold split_ws. by rewrite split_ws_go_filter, cons_first_nil by apply split_by_nonempty. Qed.

(** [int()] as the face parser applies it reads back every integer
    [str()] prints: [int(str(z)) == z], negative ones included. *)
Theorem py_int_str_roundtrip z : py_int_str (str_of_Z z) = inr z.
Proof.
  unfold str_of_Z, py_int_str. destruct (Z.ltb_spec z 0) as [Hz|Hz].
  - rewrite decide_True, digits_str_of_N by done. cbn. f_equal. lia.
  - destruct (str_of_N_spec (Z.to_N z)) as (Hne & _ & Hf).
    pose proof (digits_str_of_N (Z.to_N z)) as Hd.
    destruct (str_of_N (Z.to_N z)) as [|c t]; [done|].
    apply Forall_cons in Hf as [Hc _]. destruct (digit_char_not c Hc) as (_ & Hm & Hp & _).
    rewrite !decide_False, Hd by done. f_equal. lia.
Qed.

(** ** The loaders *)

Section LoaderLemmas.
Import Loader.

Lemma py_index_elem {A} (l : list A) i x : py_index l i = inr x -> x ∈ l.
Proof.
  unfold py_index, py_get.
  repeat case_match; try discriminate; intros [= <-]; eauto using list_elem_of_lookup_2.
Qed.

Lemma emap_Forall {A B} (f : A -> PyExc + B) (P : B -> Prop) l ys :
  (forall x y, f x = inr y -> P y) -> emap f l = inr ys -> Forall P ys.
Proof.
  intros Hf. revert ys. induction l as [|x l IH]; intros ys; cbn; [by intros [= <-]|].
  destruct (f x) as [e|y] eqn:Hx; cbn; [done|].
  destruct (emap f l) as [e|ys'] eqn:Hl; cbn; [done|]. intros [= <-].
  constructor; eauto.
Qed.

Lemma emap_map {A B C} (f : B -> PyExc + C) (h : A -> B) l : emap f (map h l) = emap (fun x => f (h x)) l.
Proof. induction l as [|x l IH]; cbn; [done|]. by rewrite IH. Qed.

Lemma dimension_list xs : xs <> [] -> dimension xs = inr (PList xs).
Proof. by destruct xs. Qed.

(** [get_dimensions] of vertices of three coordinates: the lists of
    their x, y and z coordinates. *)
Lemma get_dimensions_lists verts :
  verts <> [] -> Forall (fun v => 3 <= length v) verts ->
  get_dimensions verts = inr (PList (map (fun v => v !!! 0) verts),
                              PList (map (fun v => v !!! 1) verts),
                              PList (map (fun v => v !!! 2) verts)).
Proof.
  intros Hne Hl. unfold get_dimensions.
  rewrite (emap_inr_map _ (fun v => (v !!! 0, v !!! 1, v !!! 2))).
  2:{ intros v Hv. rewrite Forall_forall in Hl. specialize (Hl v Hv).
      pose proof (py_index_nat v 0) as H0; pose proof (py_index_nat v 1) as H1; pose proof (py_index_nat v 2) as H2.
      change (Z.of_nat 0) with 0%Z in H0; change (Z.of_nat 1) with 1%Z in H1; change (Z.of_nat 2) with 2%Z in H2. rewrite H0, H1, H2 by lia. done. }
  cbn. rewrite !map_map. cbn.
  rewrite !dimension_list by (intros ?%map_eq_nil; done). done.
Qed.

End LoaderLemmas.

Section ParseLemmas.
Import Loader.
Context (py_float : pystr -> PyExc + Q) (open_lines : pystr -> PyExc + list pystr).

Lemma read_vec3_length vs v : read_vec3 py_float true vs = inr v -> length v = 3.
Proof.
  unfold read_vec3. intros (v0 & _ & H)%ebind_inr. unfold swap3 in H. ebind_inv. by simplify_eq.
Qed.

Lemma obj_line_wf swapyz fn line st st' :
  obj_wf swapyz st -> obj_line py_float open_lines swapyz fn line st = inr (tt, st') ->
  obj_wf swapyz st'.
Proof.
  intros [Hf Hv]. unfold obj_line.
  destruct (startswith _ _); [by intros [= <-]|].
  destruct (split_ws line) as [|v0 vs]; [by intros [= <-]|].
  assert (forall A (l : list A) (P : A -> Prop), Forall P l -> forall v, P v -> Forall P (l ++ [v])) as Happ
    by (intros; apply Forall_app; by split; [|constructor]).
  destruct (decide (v0 = lit "v")).
  { intros (v & Hr & [= <-])%ebind_inr. split; [done|]. intros ->. destruct (Hv eq_refl).
    split; [apply Happ|]; try done. by eapply read_vec3_length. }
  destruct (decide (v0 = lit "vn")).
  { intros (v & Hr & [= <-])%ebind_inr. split; [done|]. intros ->. destruct (Hv eq_refl).
    split; [|apply Happ]; try done. by eapply read_vec3_length. }
  destruct (decide (v0 = lit "vt")).
  { intros (v & Hr & [= <-])%ebind_inr. by split. }
  destruct (bool_decide _).
  { intros (v & Hr & [= <-])%ebind_inr. by split. }
  destruct (decide (v0 = lit "mtllib")).
  { intros (v & Hr & (d & _ & [= <-])%ebind_inr)%ebind_inr. by split. }
  destruct (decide (v0 = lit "f")); [|by intros [= <-]].
  intros (ts & Hr & [= <-])%ebind_inr. split; [|done].
  apply Happ; [done|]. unfold face_wf; cbn. by rewrite !length_map.
Qed.

Lemma obj_init_wf swapyz : obj_wf swapyz obj_init.
Proof. split; [constructor|]. intros _. split; constructor. Qed.

End ParseLemmas.

Section LoaderErrors.
Import Loader.
Context (py_float : pystr -> PyExc + Q).

Lemma mtl_line_map_Kd line contents m :
  startswith line (lit "#") = false -> head (split_ws line) = Some (lit "map_Kd") ->
  mtl_line py_float line (contents, Some m) = inl TypeError.
Proof.
  intros Hc Hs. unfold mtl_line. rewrite Hc.
  destruct (split_ws line) as [|v0 vs]; [done|]. injection Hs as ->.
  rewrite decide_False by (intros Heq; vm_compute in Heq; congruence). by rewrite decide_True.
Qed.

End LoaderErrors.

(** C17. The parse loop of [OBJ] keeps its invariant: every face it
    appends holds as many normal and texture indices as vertex indices,
    and with [swapyz] every vertex and normal it appends is a triple. *)
Theorem obj_parse_wf py_float open_lines swapyz fn lines st :
  Loader.obj_parse py_float open_lines swapyz fn lines = inr st -> Loader.obj_wf swapyz st.
Proof.
  unfold Loader.obj_parse. intros H. ebind_inv. destruct x as [[] st0]. injection H0 as <-.
  eapply (pfor_inv (Loader.obj_wf swapyz)); [intros ? ? ? _; apply obj_line_wf | apply obj_init_wf | exact H].
Qed.

(** C19. A face index [i] draws [svertices[i - 1]] with Python's negative
    indexing: index [0] draws the last vertex, and the OBJ relative
    index [-k], which names the k-th last vertex, draws the (k+1)-th last
    one. *)
Theorem face_index_wraps st f i k :
  Loader.f_verts f !! i = Some (- Z.of_nat k)%Z -> Loader.f_norms f !! i = Some 0%Z ->
  Loader.f_texcoords f !! i = Some 0%Z -> k < length (Loader.svertices st) ->
  Loader.vertex_cmds st f i =
    inr [Loader.MVertex (Loader.svertices st !!! (length (Loader.svertices st) - S k))].
Proof.
  intros Hv Hn Ht Hk. unfold Loader.vertex_cmds, py_get. rewrite Hn, Ht, Hv. cbn [ebind].
  replace (- Z.of_nat k - 1)%Z with (- Z.of_nat (S k))%Z by lia.
  rewrite py_index_neg by lia. done.
Qed.

(** C21. [MTL] raises [TypeError] at the first [map_Kd] line after a
    [newmtl]: line 24 indexes the material's name [mtl], a string, with
    ['map_Kd'], so no texture map is ever loaded. *)
Theorem mtl_map_Kd_TypeError py_float open_lines fn path pre line post contents m :
  open_lines (path_join path fn) = inr (pre ++ line :: post) ->
  pfor pre (Loader.mtl_line py_float) ([], None) = inr (tt, (contents, Some m)) ->
  startswith line (lit "#") = false -> head (split_ws line) = Some (lit "map_Kd") ->
  Loader.MTL py_float open_lines fn path = inl TypeError.
Proof.
  intros Ho Hp Hc Hs. unfold Loader.MTL. rewrite Ho. cbn [ebind].
  rewrite pfor_app, (pbind_inr _ _ _ _ _ Hp). cbn [pfor].
  by rewrite (pbind_inl _ _ _ _ (mtl_line_map_Kd py_float line contents m Hc Hs)).
Qed.

(** C20. When a material library was loaded ([smtl] is a non-empty
    dict), a face read before any [usemtl] line makes [OBJ] raise
    [KeyError]: line 88 looks up [smtl[None]]. *)
Theorem obj_untextured_face_KeyError py_float open_lines fn swapyz pos rot col lines st f fs d ds :
  open_lines fn = inr lines -> Loader.obj_parse py_float open_lines swapyz fn lines = inr st ->
  Loader.sfaces st = f :: fs -> Loader.f_material f = None -> Loader.smtl st = Some (d :: ds) ->
  Loader.OBJ py_float open_lines fn swapyz pos rot col = inl KeyError.
Proof.
  intros Ho Hp Hf Hm Hs. unfold Loader.OBJ. rewrite Ho. cbn [ebind]. rewrite Hp. cbn [ebind].
  rewrite Hf. cbn [emap]. unfold Loader.face_cmds, Loader.face_bind. by rewrite Hs, Hm.
Qed.

(** C18. [BasicMesh.get_dimensions] of a mesh [OBJ] loaded with [swapyz]
    returns the lists of the x, y and z coordinates of its vertices and
    never a size: Python 2 orders every list after every number, so
    [max((x, abs(min(x))))] is the list [x]. *)
Theorem obj_dimensions_lists py_float open_lines fn pos rot col m :
  Loader.OBJ py_float open_lines fn true pos rot col = inr m -> Loader.lm_verts m <> [] ->
  Loader.get_dimensions (Loader.lm_verts m) =
    inr (PList (map (fun v => v !!! 0) (Loader.lm_verts m)),
         PList (map (fun v => v !!! 1) (Loader.lm_verts m)),
         PList (map (fun v => v !!! 2) (Loader.lm_verts m))).
Proof.
  unfold Loader.OBJ, Loader.obj_parse. intros H Hne. ebind_inv. simplify_eq/=.
  match goal with Hp : pfor _ _ Loader.obj_init = inr ?r |- _ => destruct r as [[] st] end.
  cbn in *. unfold Loader.obj_verts in *.
  assert (Loader.obj_wf true st) as [_ Hwf].
  { eapply (pfor_inv (Loader.obj_wf true));
      [intros ? ? ? _; apply obj_line_wf | apply obj_init_wf | eassumption]. }
  destruct (Hwf eq_refl) as [Hv _]. apply get_dimensions_lists; [done|].
  eapply emap_Forall; [|eassumption]. intros v y ?%py_index_elem.
  rewrite Forall_forall in Hv. rewrite Hv by done. lia.
Qed.

Section WriterLemmas.
Import Loader ObjWriter.
Context (py_float : pystr -> PyExc + Q) (open_lines : pystr -> PyExc + list pystr).
Hypothesis float_int : forall s z, py_int_str s = inr z -> py_float s = inr (inject_Z z).

Lemma split_ws_words toks : Forall is_token toks -> split_ws (words_line toks) = toks.
Proof.
  unfold split_ws, words_line. induction 1 as [|t toks [Hne Ht] _ IH]; [done|].
  cbn [map concat]. rewrite <- !app_assoc, split_ws_go_token by done. cbn [app].
  destruct t; [done|]. cbn [split_ws_go]. by rewrite IH.
Qed.

Lemma str_of_Z_token z : is_token (str_of_Z z) /\ Forall (fun c => c <> "/"%char) (str_of_Z z).
Proof.
  destruct (str_of_N_spec (Z.to_N (- z))) as (Hn & _ & Hf).
  destruct (str_of_N_spec (Z.to_N z)) as (Hn' & _ & Hf').
  unfold str_of_Z, is_token. destruct (z <? 0)%Z; split_and!;
    try (eapply Forall_impl; [done|]; intros c Hc; apply (digit_char_not c Hc)); try done.
  all: constructor; [done|]; eapply Forall_impl; [done|]; intros c Hc; apply (digit_char_not c Hc).
Qed.

Lemma startswith_other a l b : a <> b -> startswith (a :: l) [b] = false.
Proof. intros Hab. apply bool_decide_eq_false. by intros ?%prefix_cons_inv_1. Qed.

Lemma split_by_none p s : Forall (fun c => p c = false) s -> split_by p s = [s].
Proof. induction 1 as [|c s Hc _ IH]; cbn; [done|]. by rewrite Hc, IH. Qed.

Lemma face_token_int z : face_token (str_of_Z z) = inr (z, 0%Z, 0%Z).
Proof.
  destruct (str_of_Z_token z) as [_ Hs]. unfold face_token, split_on.
  rewrite split_by_none.
  2:{ eapply Forall_impl; [done|]. intros c Hc. by apply bool_decide_eq_false. }
  cbn. by rewrite py_int_str_roundtrip.
Qed.

Lemma startswith_words a t toks b : a <> b -> startswith (words_line ((a :: t) :: toks)) [b] = false.
Proof. apply startswith_other. Qed.

Lemma obj_line_v fn v st :
  obj_line py_float open_lines true fn (v_line v) st = inr (tt, add_vertex (vec_of v) st).
Proof.
  assert (Forall is_token [lit "v"; str_of_Z v.1.1; str_of_Z v.1.2; str_of_Z v.2]) as Ht.
  { repeat constructor; try apply str_of_Z_token. all: discriminate. }
  unfold obj_line, v_line. rewrite (split_ws_words _ Ht).
  change (lit "v") with ["v"%char]; change (lit "#") with ["#"%char].
  rewrite startswith_words by discriminate. rewrite decide_True by done.
  unfold read_vec3.
  change (py_slice _ 1 4) with [str_of_Z v.1.1; str_of_Z v.1.2; str_of_Z v.2]. cbn [emap].
  by rewrite !(float_int _ _ (py_int_str_roundtrip _)).
Qed.

Lemma obj_line_f fn f st :
  obj_line py_float open_lines true fn (f_line f) st =
  inr (tt, add_face (mkFace (map Z.of_nat f) (map (fun _ => 0%Z) f) (map (fun _ => 0%Z) f) (material st)) st).
Proof.
  assert (Forall is_token (lit "f" :: map (fun i => str_of_Z (Z.of_nat i)) f)) as Ht.
  { constructor; [split; [discriminate | repeat constructor]|].
    apply Forall_forall. intros t (i & -> & _)%list_elem_of_fmap. apply str_of_Z_token. }
  unfold obj_line, f_line. rewrite (split_ws_words _ Ht).
  change (lit "f") with ["f"%char]; change (lit "#") with ["#"%char].
  rewrite startswith_words by discriminate.
  rewrite !decide_False by (intros Heq; vm_compute in Heq; congruence).
  rewrite bool_decide_false by (intros Heq; vm_compute in Heq; set_solver).
  rewrite decide_True by done.
  rewrite py_slice_from_drop by lia. change (Z.to_nat 1) with 1. cbn [drop]. rewrite drop_0.
  rewrite emap_map, (emap_inr_map _ (fun i => (Z.of_nat i, 0%Z, 0%Z))).
  2:{ intros i _. apply face_token_int. }
  cbn [ebind]. by rewrite !map_map.
Qed.

Lemma pfor_v_lines fn vs sv :
  pfor (map v_line vs) (obj_line py_float open_lines true fn) (mkObjState sv [] [] [] None None) =
  inr (tt, mkObjState (sv ++ map vec_of vs) [] [] [] None None).
Proof.
  revert sv. induction vs as [|v vs IH]; intros sv; cbn [map pfor]; [by rewrite app_nil_r|].
  rewrite (pbind_inr _ _ _ _ _ (obj_line_v _ _ _)). unfold add_vertex; cbn [svertices snormals stexcoords sfaces material smtl].
  by rewrite IH, <- app_assoc.
Qed.

Lemma pfor_f_lines fn fs sv sf :
  pfor (map f_line fs) (obj_line py_float open_lines true fn) (mkObjState sv [] [] sf None None) =
  inr (tt, mkObjState sv [] [] (sf ++ map face_of fs) None None).
Proof.
  revert sf. induction fs as [|f fs IH]; intros sf; cbn [map pfor]; [by rewrite app_nil_r|].
  rewrite (pbind_inr _ _ _ _ _ (obj_line_f _ _ _)). unfold add_face; cbn [svertices snormals stexcoords sfaces material smtl].
  by rewrite IH, <- app_assoc.
Qed.

Lemma obj_parse_written fn vs fs :
  obj_parse py_float open_lines true fn (write_obj vs fs) =
  inr (mkObjState (map vec_of vs) [] [] (map face_of fs) None None).
Proof.
  unfold obj_parse, write_obj, obj_init.
  by rewrite pfor_app, (pbind_inr _ _ _ _ _ (pfor_v_lines fn vs [])), pfor_f_lines.
Qed.

End WriterLemmas.

Section Drawing.
Import Loader ObjWriter.
Context (vs : list (Z * Z * Z)).

Lemma concat_singletons {A B} (h : A -> B) l : concat (map (fun x => [h x]) l) = map h l.
Proof. induction l as [|x l IH]; cbn; [done|]. by rewrite IH. Qed.

Lemma map_seq_lookup_total {A B} `{Inhabited A} (g : A -> B) l :
  map (fun i => g (l !!! i)) (seq 0 (length l)) = map g l.
Proof.
  apply list_eq. intros i. rewrite !list_lookup_fmap.
  destruct (decide (i < length l)) as [Hi|Hi].
  - rewrite lookup_seq_lt by done. destruct (lookup_lt_is_Some_2 l i Hi) as [x Hx].
    cbn. by rewrite Hx, (list_lookup_total_correct _ _ _ Hx).
  - rewrite lookup_seq_ge, lookup_ge_None_2 by lia. done.
Qed.

Lemma py_index_written j : 1 <= j <= length vs ->
  py_index (map vec_of vs) (Z.of_nat j - 1) = inr (vec_of (vs !!! (j - 1))).
Proof.
  intros Hj. replace (Z.of_nat j - 1)%Z with (Z.of_nat (j - 1)) by lia.
  rewrite (py_index_nat (map vec_of vs) (j - 1)) by (rewrite length_map; lia).
  by rewrite (list_lookup_total_fmap vec_of vs (j - 1)) by lia.
Qed.

Lemma vertex_cmds_written st f i :
  svertices st = map vec_of vs -> Forall (fun j => 1 <= j <= length vs) f -> i < length f ->
  vertex_cmds st (face_of f) i = inr [MVertex (vec_of (vs !!! (f !!! i - 1)))].
Proof.
  intros Hs Hf Hi. destruct (lookup_lt_is_Some_2 f i Hi) as [j Hj].
  unfold vertex_cmds, py_get, face_of. cbn [f_norms f_texcoords f_verts].
  rewrite !list_lookup_fmap, Hj. cbn [fmap option_fmap option_map ebind Z.ltb Z.compare].
  rewrite Hs, py_index_written by exact (Forall_lookup_1 _ _ _ _ Hf Hj).
  by rewrite (list_lookup_total_correct _ _ _ Hj).
Qed.

Lemma face_cmds_written st f :
  svertices st = map vec_of vs -> smtl st = None -> Forall (fun j => 1 <= j <= length vs) f ->
  face_cmds st (face_of f) = inr (drawn_face vs f).
Proof.
  intros Hs Hm Hf. unfold face_cmds, face_bind. rewrite Hm. cbn [ebind].
  rewrite (emap_inr_map _ (fun i => [MVertex (vec_of (vs !!! (f !!! i - 1)))])).
  2:{ intros i Hi%elem_of_seq. cbn [face_of f_verts] in Hi. rewrite length_map in Hi.
      apply vertex_cmds_written; [done | done | lia]. }
  cbn [face_of f_verts ebind]. rewrite length_map, concat_singletons.
  by rewrite (map_seq_lookup_total (fun j => MVertex (vec_of (vs !!! (j - 1))))).
Qed.

End Drawing.

(** C16. Round trip of the OBJ reader: for a [float()] that reads what
    [int()] reads, [OBJ] with [swapyz] of the file [write_obj vs fs],
    whose faces name vertices [1 .. len(vs)], returns the mesh whose
    display list draws each face's vertices, y and z swapped, in order
    and with the blank texture, whose [verts] are the faces' vertices
    in order, and which has no materials. *)
Theorem obj_write_roundtrip py_float open_lines fn vs fs pos rot col :
  (forall s z, py_int_str s = inr z -> py_float s = inr (inject_Z z)) ->
  open_lines fn = inr (ObjWriter.write_obj vs fs) ->
  Forall (Forall (fun i => 1 <= i <= length vs)) fs ->
  Loader.OBJ py_float open_lines fn true pos rot col =
  inr (Loader.mkLoaded (concat (map (ObjWriter.drawn_face vs) fs)) pos rot
         (map (fun i => ObjWriter.vec_of (vs !!! (i - 1))) (concat fs)) 1 col None).
Proof.
  intros Hf Ho Hi. unfold Loader.OBJ. rewrite Ho. cbn [ebind].
  rewrite obj_parse_written by done. cbn [ebind Loader.sfaces].
  rewrite emap_map, (emap_inr_map _ (ObjWriter.drawn_face vs)).
  2:{ intros f Hf'. apply face_cmds_written; [done | done |]. exact (proj1 (Forall_forall _ _) Hi f Hf'). }
  cbn [ebind]. unfold Loader.obj_verts. cbn [Loader.sfaces Loader.svertices].
  rewrite map_map. cbn [ObjWriter.face_of Loader.f_verts].
  rewrite <- concat_map, emap_map, (emap_inr_map _ (fun i => ObjWriter.vec_of (vs !!! (i - 1)))).
  2:{ intros j Hj. apply py_index_written. apply list_elem_of_In, in_concat in Hj as (f & Hf' & Hjf).
      apply list_elem_of_In in Hf', Hjf.
      exact (proj1 (Forall_forall _ _) (proj1 (Forall_forall _ _) Hi f Hf') j Hjf). }
  done.
Qed.

(** ** Witnesses *)

Section Witnesses.
Import Loader MeshFixture.

Lemma obj_parse_wf_witness : obj_wf true (parsed "m/tri.obj" tri_obj).
Proof. apply (obj_parse_wf int_float files true (lit "m/tri.obj") tri_obj). vm_refl. Defined.

Lemma face_index_wraps_witness :
  vertex_cmds (parsed "m/tri.obj" tri_obj) (first_face (parsed "m/tri.obj" tri_obj)) 2 =
  inr [MVertex (svertices (parsed "m/tri.obj" tri_obj) !!!
                 (length (svertices (parsed "m/tri.obj" tri_obj)) - 1))].
Proof. apply (face_index_wraps _ _ 2 0); [vm_refl | vm_refl | vm_refl | vm_compute; lia]. Defined.

Lemma mtl_map_Kd_TypeError_witness : MTL int_float files (lit "tex.mtl") (lit "m") = inl TypeError.
Proof.
  apply (mtl_map_Kd_TypeError int_float files (lit "tex.mtl") (lit "m") (take 2 tex_mtl)
           (line "map_Kd wood.png") [] [(lit "wood", None)] (lit "wood")); vm_refl.
Defined.

Lemma obj_untextured_face_KeyError_witness :
  OBJ int_float files (lit "m/mixed.obj") true (0, 0, 0)%Q (0, 0, 0)%Q (1, 1, 1, 1)%Q = inl KeyError.
Proof.
  apply (obj_untextured_face_KeyError int_float files (lit "m/mixed.obj") true _ _ _ mixed_obj
           (parsed "m/mixed.obj" mixed_obj) (first_face (parsed "m/mixed.obj" mixed_obj))
           (tail (sfaces (parsed "m/mixed.obj" mixed_obj))) (lit "red", Some [1; 0; 0]%Q) []); vm_refl.
Defined.

Lemma obj_dimensions_lists_witness :
  get_dimensions (lm_verts (loaded "m/tri.obj")) =
    inr (PList (map (fun v => v !!! 0) (lm_verts (loaded "m/tri.obj"))),
         PList (map (fun v => v !!! 1) (lm_verts (loaded "m/tri.obj"))),
         PList (map (fun v => v !!! 2) (lm_verts (loaded "m/tri.obj")))).
Proof.
  apply (obj_dimensions_lists int_float files (lit "m/tri.obj") (0, 0, 0)%Q (0, 0, 0)%Q (1, 1, 1, 1)%Q);
    [vm_refl | intros Hn; vm_compute in Hn; discriminate].
Defined.

Lemma obj_write_roundtrip_witness :
  OBJ int_float files (lit "m/written.obj") true (0, 0, 0)%Q (0, 0, 0)%Q (1, 1, 1, 1)%Q =
  inr (mkLoaded (concat (map (ObjWriter.drawn_face tri_verts) [[1; 2; 3]; [3; 1]])) (0, 0, 0)%Q (0, 0, 0)%Q
         (map (fun i => ObjWriter.vec_of (tri_verts !!! (i - 1))) (concat [[1; 2; 3]; [3; 1]])) 1
         (1, 1, 1, 1)%Q None).
Proof.
  apply (obj_write_roundtrip int_float files (lit "m/written.obj") tri_verts [[1; 2; 3]; [3; 1]]).
  - intros s z Hs. unfold int_float. by rewrite Hs.
  - vm_refl.
  - repeat constructor; vm_compute; lia.
Defined.

End Witnesses.
