(* ===== verification/Focus.v ===== *)
(** * Focus: cycling the top widget of an [App]

    [App.next_widget] (gui.py lines 108-112) is bound to the key that
    moves the focus: [App.handle_*] give each event to the widgets in
    list order, so the first widget is the one with the focus.  This
    file shows the liveness of that cycle: pressing the key often enough
    brings every visible widget to the top, and at most as many presses
    as the widget stands from the top are needed.  [repeat_gm n m] runs
    [n] presses. *)

From stdpp Require Import base list gmap.
From Stdlib Require Import ZArith Lia.
From S2P Require Import Prelude Gui GuiProps.

Local Open Scope gui_scope.
Local Open Scope nat_scope.

(** [n] successive calls of [m]. *)
Fixpoint repeat_gm (n : nat) (m : GM unit) : GM unit :=
  match n with O => gret tt | S n' => m ;;~ repeat_gm n' m end.

(** Whether handle [i] names a visible object. *)
Definition vis_b (w : GuiWorld) (i : nat) : bool :=
  match objs w !! i with Some x => obj_visible x | None => false end.

Section Focus.

Lemma widgets_of_set_widgets x ws ws' : widgets_of x = inr ws -> widgets_of (set_widgets ws' x) = inr ws'.
Proof. by destruct x. Qed.

Lemma vis_insert_ne w c y i : i <> c -> vis (set_objs w (<[c := y]> (objs w))) i <-> vis w i.
Proof. intros. unfold vis. by rewrite objs_set_objs, lookup_insert_ne. Qed.

Lemma invis_insert_ne w c y i : i <> c -> invis (set_objs w (<[c := y]> (objs w))) i <-> invis w i.
Proof. intros. unfold invis. by rewrite objs_set_objs, lookup_insert_ne. Qed.

Lemma rotate_perm {A} (l : list A) k : drop k l ++ take k l ≡ₚ l.
Proof. rewrite Permutation_app_comm. by rewrite take_drop. Qed.

Lemma vis_b_true w i : is_Some (objs w !! i) -> vis_b w i = true <-> vis w i.
Proof.
  intros [x Hx]. unfold vis_b, vis. rewrite Hx.
  split; [by exists x | by intros (y & [= <-] & ?)].
Qed.

Lemma vis_b_false w i : is_Some (objs w !! i) -> vis_b w i = false <-> invis w i.
Proof.
  intros [x Hx]. unfold vis_b, invis. rewrite Hx.
  split; [by exists x | by intros (y & [= <-] & ?)].
Qed.

(** The first visible widget after the top, when the [p]-th one is visible. *)
Lemma first_visible w ws p v :
  Forall (fun i => is_Some (objs w !! i)) ws -> ws !! p = Some v -> vis w v -> 1 <= p ->
  exists k i, 1 <= k <= p /\ ws !! k = Some i /\ vis w i /\
    forall j, 1 <= j < k -> exists i', ws !! j = Some i' /\ invis w i'.
Proof.
  intros Hs Hp Hv H1. rewrite Forall_lookup in Hs.
  destruct (list_find (fun i => vis_b w i = true) (drop 1 ws)) as [[k i]|] eqn:Hf.
  - apply list_find_Some in Hf as (Hk & Hi & Hmin). rewrite lookup_drop in Hk.
    assert (k < p).
    { destruct (decide (k < p)); [done|]. destruct (decide (k = p - 1)) as [->|].
      - replace (1 + (p - 1)) with p in Hk by lia. lia.
      - exfalso. apply (Hmin (p - 1) v); [rewrite lookup_drop; by replace (1 + (p - 1)) with p by lia | lia |].
        apply vis_b_true; eauto. }
    exists (S k), i. split_and!; [lia | lia | done | apply vis_b_true; eauto |].
    intros j Hj. destruct (lookup_lt_is_Some_2 ws j) as [i' Hi']; [apply lookup_lt_Some in Hp; lia|].
    exists i'. split; [done|]. apply vis_b_false; [eauto|].
    apply not_true_iff_false. apply (Hmin (j - 1)); [rewrite lookup_drop; by replace (1 + (j - 1)) with j by lia | lia].
  - apply list_find_None in Hf. rewrite Forall_lookup in Hf. exfalso.
    apply (Hf (p - 1) v); [rewrite lookup_drop; by replace (1 + (p - 1)) with p by lia|].
    apply vis_b_true; eauto.
Qed.

Lemma repeat_gm_S n m w w1 :
  m w = Some (inr (tt, w1)) -> repeat_gm (S n) m w = repeat_gm n m w1.
Proof. intros Hm. cbn [repeat_gm]. by rewrite (gbind_inr _ _ _ tt w1 Hm). Qed.

(** One press moves the focus to the first visible widget after the
    top; the state it leaves meets the same hypotheses. *)
Lemma next_widget_step c x w ws p v :
  objs w !! c = Some x -> widgets_of x = inr ws -> c ∉ ws ->
  Forall (fun i => is_Some (objs w !! i)) ws -> ws !! p = Some v -> vis w v -> 1 <= p ->
  exists k, 1 <= k <= p /\
    let ws1 := drop k ws ++ take k ws in
    let x1 := set_widgets ws1 x in
    let w1 := set_objs w (<[c := x1]> (objs w)) in
    next_widget c w = Some (inr (tt, w1)) /\ objs w1 !! c = Some x1 /\ widgets_of x1 = inr ws1 /\
    c ∉ ws1 /\ Forall (fun i => is_Some (objs w1 !! i)) ws1 /\ ws1 !! (p - k) = Some v /\ vis w1 v.
Proof.
  intros Hc Hws Hcn Hs Hp Hv H1.
  destruct (first_visible w ws p v Hs Hp Hv H1) as (k & i & Hk & Hi & Hvi & Hinv).
  assert (p < length ws) by (by eapply lookup_lt_Some).
  assert (v <> c) by (intros ->; apply Hcn; by eapply list_elem_of_lookup_2).
  exists k. split; [done|]. cbn zeta. split_and!.
  - apply (next_widget_rotate c x w ws k i); [done | done | lia | | done | done].
    by rewrite lookup_app_l by lia.
  - by rewrite objs_set_objs, lookup_insert_eq.
  - by eapply widgets_of_set_widgets.
  - by rewrite rotate_perm.
  - rewrite rotate_perm. apply Forall_forall. intros i' Hi'.
    rewrite objs_set_objs, lookup_insert_ne by (intros ->; contradiction).
    by apply (proj1 (Forall_forall _ _) Hs).
  - rewrite lookup_app_l by (rewrite length_drop; lia). rewrite lookup_drop.
    by replace (k + (p - k)) with p by lia.
  - by apply vis_insert_ne.
Qed.

End Focus.

(** C14. Liveness of the focus cycle: in an [App] or [Frame] whose
    widgets all exist, every visible widget [v] comes to the top after
    at most [p] calls of [App.next_widget], [p] being its distance from
    the top; every call in between returns. *)
Theorem next_widget_reaches c x w ws p v :
  objs w !! c = Some x -> widgets_of x = inr ws -> c ∉ ws ->
  Forall (fun i => is_Some (objs w !! i)) ws -> ws !! p = Some v -> vis w v ->
  exists n w' x' ws', n <= p /\ repeat_gm n (next_widget c) w = Some (inr (tt, w')) /\
    objs w' !! c = Some x' /\ widgets_of x' = inr (v :: ws').
Proof.
  revert x w ws v. induction p as [p IH] using lt_wf_ind. intros x w ws v Hc Hws Hcn Hs Hp Hv.
  destruct p as [|p'].
  - destruct ws as [|v' ws']; [done|]. injection Hp as ->.
    by exists 0, w, x, ws'.
  - destruct (next_widget_step c x w ws (S p') v) as (k & Hk & Hstep & Hc1 & Hws1 & Hcn1 & Hs1 & Hp1 & Hv1);
      [done..|lia|].
    destruct (IH (S p' - k) ltac:(lia) _ _ _ _ Hc1 Hws1 Hcn1 Hs1 Hp1 Hv1) as (n & w' & x' & ws' & Hn & Hr & Hx' & Hw').
    exists (S n), w', x', ws'. split; [lia|]. by rewrite (repeat_gm_S _ _ _ _ Hstep).
Qed.

(** ** Witness *)

Lemma next_widget_reaches_witness :
  exists n w' x' ws', n <= 2 /\ repeat_gm n (next_widget 0) three_labels = Some (inr (tt, w')) /\
    objs w' !! 0 = Some x' /\ widgets_of x' = inr (1 :: ws').
Proof.
  apply (next_widget_reaches 0 (default no_obj (objs three_labels !! 0)) three_labels [3; 2; 1] 2 1).
  - vm_refl.
  - vm_refl.
  - apply (bool_decide_unpack _). vm_compute. reflexivity.
  - apply (bool_decide_unpack _). vm_compute. reflexivity.
  - reflexivity.
  - apply vis_intro. vm_refl.
Defined.
