(* ===== verification/NewGui.v ===== *)
(** * NewGui: the second widget toolkit of [src/trunk/pyggel/Newgui.py]

    Newgui.py is a rewrite of gui.py in which widgets do not place
    themselves: a [Packer] owned by the [App] positions every widget
    that was created without a position, in one of two layouts
    ([pack_wrap], [pack_center]), and is run by the constructors of
    [NewLine] and [Label].  The state is one record [NWorld]: the [App]
    ([NApp]: its widget list, newest first, and its packer), the store
    of widgets by handle (the widget objects the list and the packer
    share), the mouse position [view.screen.get_mouse_pos()], the events
    the widgets fire, the images drawn and the clock [time.time()].

    Python does not undo the assignments made before an exception: the
    monad [NM] carries the state into an exception as well
    ([inl (e, w)]), so that a failing [pack] leaves the widget list as
    the code left it.  [None] is a call that does not return (the
    [while] loop of [next_widget]).  The MEFont of the [App] is Font.v's
    [new_mefont] of an abstract pygame font.  The theorems show the
    layout, the error paths of the packer and of [_collidem], and the
    store typing [wt] that the constructors keep. *)

From stdpp Require Import base list gmap strings.
From Stdlib Require Import ZArith QArith Lia Ascii.
From Stdlib Require String.
From S2P Require Import Prelude Font.

Local Open Scope Z_scope.

Module NewGui.

(** The classes of Newgui.py a widget can be. *)
Inductive Kind := KWidget | KNewLine | KLabel (text : pystr).

(** A widget object: [Widget.__init__] (lines 209-227) and the fields
    its subclasses set. *)
Record NWidget := mkNW {
  nw_kind : Kind;
  nw_pos : option (Z * Z);
  nw_size : Z * Z;
  nw_override : bool;
  nw_visible : bool;
  nw_image : option MEFontImage;
  nw_mhold : bool;
  nw_key_active : bool;
  nw_key_hold : gmap Z Q;
}.

(** [App] and its [Packer] (lines 12-18, 92-109); [packtype] is the
    string [getattr] completes. *)
Record NApp := mkNApp {
  a_widgets : list nat;
  a_mefont : MEFont;
  a_packtype : String.string;
  a_size : Z * Z;
  a_need_to_pack : bool;
  a_visible : bool;
}.

Record NWorld := mkNWorld {
  app : NApp;
  store : gmap nat NWidget;
  fresh : nat;
  mouse : Z * Z;
  fired : list (nat * String.string);
  drawn : list MEFontImage;
  clock : Q;
}.

(** Statements that may raise (keeping the state reached) or not return. *)
Definition NM (A : Type) : Type := NWorld -> option ((PyExc * NWorld) + (A * NWorld)).

Definition nret {A} (a : A) : NM A := fun w => Some (inr (a, w)).
Definition nbind {A B} (m : NM A) (k : A -> NM B) : NM B :=
  fun w => match m w with
           | Some (inr (a, w')) => k a w'
           | Some (inl ew) => Some (inl ew)
           | None => None
           end.
Definition nraise {A} (e : PyExc) : NM A := fun w => Some (inl (e, w)).
Definition nget : NM NWorld := fun w => Some (inr (w, w)).
Definition nmodify (f : NWorld -> NWorld) : NM unit := fun w => Some (inr (tt, f w)).

Declare Scope ngui_scope.
Delimit Scope ngui_scope with ngui.
Notation "x <@ c ;; k" := (nbind c (fun x => k))
  (at level 100, c at next level, right associativity) : ngui_scope.
Notation "c ;;@ k" := (nbind c (fun _ => k))
  (at level 100, right associativity) : ngui_scope.
Local Open Scope ngui_scope.

Fixpoint nfor {A} (l : list A) (body : A -> NM unit) : NM unit :=
  match l with [] => nret tt | x :: l' => body x ;;@ nfor l' body end.

Definition set_app (a : NApp) (w : NWorld) : NWorld :=
  mkNWorld a (store w) (fresh w) (mouse w) (fired w) (drawn w) (clock w).
Definition set_store (s : gmap nat NWidget) (w : NWorld) : NWorld :=
  mkNWorld (app w) s (fresh w) (mouse w) (fired w) (drawn w) (clock w).

Definition with_widgets (ws : list nat) (a : NApp) : NApp :=
  mkNApp ws (a_mefont a) (a_packtype a) (a_size a) (a_need_to_pack a) (a_visible a).
Definition with_need_to_pack (b : bool) (a : NApp) : NApp :=
  mkNApp (a_widgets a) (a_mefont a) (a_packtype a) (a_size a) b (a_visible a).

Definition get_app : NM NApp := w <@ nget ;; nret (app w).
Definition put_app (a : NApp) : NM unit := nmodify (set_app a).

(** [i.attr] of a handle: a handle names an object of the store. *)
Definition get_widget (i : nat) : NM NWidget :=
  fun w => match store w !! i with Some x => Some (inr (x, w)) | None => Some (inl (AttributeError, w)) end.
Definition put_widget (i : nat) (x : NWidget) : NM unit :=
  nmodify (fun w => set_store (<[i := x]> (store w)) w).

Definition with_pos (p : Z * Z) (x : NWidget) : NWidget :=
  mkNW (nw_kind x) (Some p) (nw_size x) (nw_override x) (nw_visible x) (nw_image x)
       (nw_mhold x) (nw_key_active x) (nw_key_hold x).
Definition with_size (s : Z * Z) (x : NWidget) : NWidget :=
  mkNW (nw_kind x) (nw_pos x) s (nw_override x) (nw_visible x) (nw_image x)
       (nw_mhold x) (nw_key_active x) (nw_key_hold x).
Definition with_mhold (b : bool) (x : NWidget) : NWidget :=
  mkNW (nw_kind x) (nw_pos x) (nw_size x) (nw_override x) (nw_visible x) (nw_image x)
       b (nw_key_active x) (nw_key_hold x).
Definition with_image (img : option MEFontImage) (x : NWidget) : NWidget :=
  mkNW (nw_kind x) (nw_pos x) (nw_size x) (nw_override x) (nw_visible x) img
       (nw_mhold x) (nw_key_active x) (nw_key_hold x).

Definition is_newline (x : NWidget) : bool := if nw_kind x is KNewLine then true else false.

(** [self.dispatch.fire(name)]: the callbacks are the user's; the event
    is recorded. *)
Definition fire (i : nat) (name : String.string) : NM unit :=
  nmodify (fun w => mkNWorld (app w) (store w) (fresh w) (mouse w) (fired w ++ [(i, name)]) (drawn w) (clock w)).

(** [Widget.force_pos_update] (lines 294-295). *)
Definition force_pos_update (i : nat) (p : Z * Z) : NM unit :=
  x <@ get_widget i ;; put_widget i (with_pos p x).

(** ** The packer *)

(** [self.app.widgets.reverse()] *)
Definition reverse_widgets : NM unit :=
  a <@ get_app ;; put_app (with_widgets (rev (a_widgets a)) a).

(** One pass of the loop of [pack_wrap] (lines 32-50) over the
    locals [(nw, nh, newh)]. *)
Definition wrap_step (width : Z) (st : Z * Z * Z) (i : nat) : NM (Z * Z * Z) :=
  x <@ get_widget i ;;
  let '(nw, nh, newh) := st in
  if is_newline x then nret (0, nh + newh + (nw_size x).2, 0)
  else if nw_override x then nret st
  else
    let '(w, h) := nw_size x in
    if (nw + w >? width) && negb (nw =? 0) then
      force_pos_update i (0, nh + newh + 1) ;;@ nret (w, nh + newh + 1, h)
    else
      force_pos_update i (nw, nh) ;;@ nret (nw + w, nh, if h >? newh then h else newh).

Fixpoint wrap_loop (width : Z) (ws : list nat) (st : Z * Z * Z) : NM (Z * Z * Z) :=
  match ws with
  | [] => nret st
  | i :: ws' => st' <@ wrap_step width st i ;; wrap_loop width ws' st'
  end.

(** [Packer.pack_wrap] (lines 26-50). *)
Definition pack_wrap : NM unit :=
  a <@ get_app ;; _ <@ wrap_loop (a_size a).1 (a_widgets a) (0, 0, 0) ;; nret tt.

(** The rows of [pack_center] (lines 53-66) with the running width [w]. *)
Definition center_row_step (width : Z) (st : list (list nat) * Z) (i : nat) : NM (list (list nat) * Z) :=
  x <@ get_widget i ;;
  let '(rows, w) := st in
  if is_newline x then nret (rows ++ [[i]; []], w)
  else if nw_override x then nret st
  else
    match rows with
    | [] => nraise IndexError
    | _ =>
        let rows' := removelast rows ++ [default [] (last rows) ++ [i]] in
        let w' := w + (nw_size x).1 in
        if w' >=? width then nret (rows' ++ [[]], 0) else nret (rows', w')
    end.

Fixpoint center_rows (width : Z) (ws : list nat) (st : list (list nat) * Z) : NM (list (list nat) * Z) :=
  match ws with
  | [] => nret st
  | i :: ws' => st' <@ center_row_step width st i ;; center_rows width ws' st'
  end.

(** The size of a row (lines 69-76): the sum of the widths and the
    largest height. *)
Fixpoint row_size (row : list nat) (acc : Z * Z) : NM (Z * Z) :=
  match row with
  | [] => nret acc
  | i :: r =>
      x <@ get_widget i ;;
      let h := if (nw_size x).2 >? acc.2 then (nw_size x).2 else acc.2 in
      row_size r (acc.1 + (nw_size x).1, h)
  end.

Fixpoint row_sizes (rows : list (list nat)) : NM (list (Z * Z)) :=
  match rows with
  | [] => nret []
  | row :: rs => s <@ row_size row (0, 0) ;; ss <@ row_sizes rs ;; nret (s :: ss)
  end.

(** Lines 85-87: the widgets of one row, left to right from [w]. *)
Fixpoint place_row (row : list nat) (w top : Z) : NM unit :=
  match row with
  | [] => nret tt
  | i :: r => force_pos_update i (w, top) ;;@ x <@ get_widget i ;; place_row r (w + (nw_size x).1) top
  end.

(** Lines 83-88. *)
Fixpoint place_rows (width : Z) (rows : list (list nat)) (sizes : list (Z * Z)) (top : Z) : NM unit :=
  match rows with
  | [] => nret tt
  | row :: rs =>
      match sizes with
      | [] => nraise IndexError
      | s :: ss => place_row row (width / 2 - s.1 / 2) top ;;@ place_rows width rs ss (top + s.2)
      end
  end.

(** [Packer.pack_center] (lines 52-88), Python 2's [/] on ints being
    floor division. *)
Definition pack_center : NM unit :=
  a <@ get_app ;;
  r <@ center_rows (a_size a).1 (a_widgets a) ([[]], 0) ;;
  sizes <@ row_sizes r.1 ;;
  let height := fold_left (fun acc s => acc + s.2) sizes 0 in
  let top := (a_size a).2 / 2 - height / 2 in
  place_rows (a_size a).1 r.1 sizes top.

(** [getattr(self, "pack_%s" % self.packtype)]. *)
Definition pack_method (packtype : String.string) : NM unit :=
  if String.eqb packtype "wrap"%string then pack_wrap
  else if String.eqb packtype "center"%string then pack_center
  else nraise AttributeError.

(** [Packer.pack] (lines 20-24). *)
Definition pack : NM unit :=
  reverse_widgets ;;@
  a <@ get_app ;; pack_method (a_packtype a) ;;@
  reverse_widgets ;;@
  a' <@ get_app ;; put_app (with_need_to_pack false a').

(** ** Construction *)

(** [App.__init__] (lines 92-109) on a screen of size [size]. *)
Definition new_app (mf : PgFont) (size : Z * Z) : NApp :=
  mkNApp [] (new_mefont mf) "wrap"%string size false true.

(** [App.new_widget] (lines 115-120), bound to ["new-widget"]. *)
Definition app_new_widget (i : nat) : NM unit :=
  a <@ get_app ;; x <@ get_widget i ;;
  if decide (i ∈ a_widgets a) then nret tt
  else put_app (with_widgets (i :: a_widgets a) a) ;;@
       (if nw_override x then nret tt else a' <@ get_app ;; put_app (with_need_to_pack true a')).

Definition alloc : NM nat :=
  fun w => Some (inr (fresh w, mkNWorld (app w) (store w) (S (fresh w)) (mouse w) (fired w) (drawn w) (clock w))).

(** [Widget.__init__(app, pos)] (lines 209-227): the fields the
    ["new-widget"] handler reads are set before it fires; the ones set
    after ([image], [_mhold], [key_active], [key_hold_lengths]) are
    read by nothing it runs. *)
Definition widget_init (kind : Kind) (pos : option (Z * Z)) : NM nat :=
  i <@ alloc ;;
  put_widget i (mkNW kind pos (0, 0) (if pos is Some _ then true else false) true None false true ∅) ;;@
  app_new_widget i ;;@ nret i.

(** [NewLine.__init__] (lines 307-310). *)
Definition new_newline (height : Z) : NM nat :=
  i <@ widget_init KNewLine None ;;
  x <@ get_widget i ;; put_widget i (with_size (0, height) x) ;;@
  pack ;;@ nret i.

(** [Label.__init__] (lines 313-319). *)
Definition new_label (text : pystr) (pos : option (Z * Z)) : NM nat :=
  i <@ widget_init (KLabel text) pos ;;
  a <@ get_app ;;
  match me_make_text_image (a_mefont a) text white with
  | None => fun _ => None
  | Some (inl e) => nraise e
  | Some (inr img) =>
      x <@ get_widget i ;; put_widget i (with_image (Some img) x) ;;@
      x <@ get_widget i ;; put_widget i (with_size (get_width img, get_height img) x) ;;@
      pack ;;@ nret i
  end.

(** ** Events *)

(** [Widget._collidem] (lines 232-236): the mouse against the closed
    box of [pos] and [size]; [a, b = self.pos] raises [TypeError] on a
    widget the packer never placed. *)
Definition collidem (i : nat) : NM bool :=
  w <@ nget ;; x <@ get_widget i ;;
  match nw_pos x with
  | None => nraise TypeError
  | Some (a, b) =>
      let '(mx, my) := mouse w in
      let '(sw, sh) := nw_size x in
      nret ((a <=? mx) && (mx <=? a + sw) && (b <=? my) && (my <=? b + sh))
  end.

(** [Widget.handle_mousedown] (lines 238-243); [None] is [false]. *)
Definition widget_mousedown (i : nat) (name : String.string) : NM bool :=
  if String.eqb name "left"%string then
    c <@ collidem i ;;
    if c then x <@ get_widget i ;; put_widget i (with_mhold true x) ;;@ fire i "mousedown"%string ;;@ nret true
    else nret false
  else nret false.

(** [Widget.handle_mouseup] (lines 245-250): [_collidem] is only
    evaluated when [_mhold] holds. *)
Definition widget_mouseup (i : nat) (name : String.string) : NM bool :=
  if String.eqb name "left"%string then
    x <@ get_widget i ;;
    c <@ (if nw_mhold x then collidem i else nret false) ;;
    if c then x <@ get_widget i ;; put_widget i (with_mhold false x) ;;@ fire i "click"%string ;;@ nret true
    else nret false
  else nret false.

(** [Widget.handle_mousehold] (lines 252-259). *)
Definition widget_mousehold (i : nat) (name : String.string) : NM bool :=
  if String.eqb name "left"%string then
    x <@ get_widget i ;;
    if nw_mhold x then
      c <@ collidem i ;;
      fire i (if c then "mouseholdhover" else "mouseholdoff")%string ;;@ nret true
    else nret false
  else nret false.

(** [Widget.can_handle_key] (lines 261-262): no class of Newgui.py
    overrides it. *)
Definition can_handle_key (x : NWidget) (key : Z) (str : pystr) : bool := false.

(** [Widget.handle_keydown] (lines 264-268). *)
Definition widget_keydown (i : nat) (key : Z) (str : pystr) : NM bool :=
  x <@ get_widget i ;;
  if can_handle_key x key str && nw_key_active x then fire i "keypress"%string ;;@ nret true
  else nret false.

(** [Widget.handle_keyhold] (lines 270-279): the branch for a key not
    yet held writes [self.key_hold_lenths], a misspelt attribute, and
    raises [AttributeError]. *)
Definition widget_keyhold (i : nat) (key : Z) (str : pystr) : NM bool :=
  x <@ get_widget i ;;
  if can_handle_key x key str && nw_key_active x then
    match nw_key_hold x !! key with
    | Some t =>
        w <@ nget ;;
        (if Qle_bool (100 # 1) (clock w - t)%Q then
           _ <@ widget_keydown i key str ;;
           x' <@ get_widget i ;;
           put_widget i (mkNW (nw_kind x') (nw_pos x') (nw_size x') (nw_override x') (nw_visible x')
                              (nw_image x') (nw_mhold x') (nw_key_active x') (<[key := clock w]> (nw_key_hold x')))
         else nret tt) ;;@ nret true
    | None => nraise AttributeError
    end
  else nret false.

(** [Widget.handle_keyup] (lines 281-286). *)
Definition widget_keyup (i : nat) (key : Z) (str : pystr) : NM bool :=
  x <@ get_widget i ;;
  if can_handle_key x key str && nw_key_active x then
    put_widget i (mkNW (nw_kind x) (nw_pos x) (nw_size x) (nw_override x) (nw_visible x)
                       (nw_image x) (nw_mhold x) (nw_key_active x) (delete key (nw_key_hold x))) ;;@ nret true
  else nret false.

(** The events [App] passes on. *)
Inductive NEvent :=
| NMouseDown (name : String.string) | NMouseUp (name : String.string) | NMouseHold (name : String.string)
| NKeyDown (key : Z) (s : pystr) | NKeyUp (key : Z) (s : pystr) | NKeyHold (key : Z) (s : pystr).

Definition widget_handle (ev : NEvent) (i : nat) : NM bool :=
  match ev with
  | NMouseDown n => widget_mousedown i n
  | NMouseUp n => widget_mouseup i n
  | NMouseHold n => widget_mousehold i n
  | NKeyDown k s => widget_keydown i k s
  | NKeyUp k s => widget_keyup i k s
  | NKeyHold k s => widget_keyhold i k s
  end.

(** The loop of [App.handle_mousedown] and its siblings (lines 122-187):
    the first visible widget, newest first, that handles the event. *)
Fixpoint first_handler (ev : NEvent) (ws : list nat) : NM bool :=
  match ws with
  | [] => nret false
  | i :: ws' =>
      x <@ get_widget i ;;
      if nw_visible x then
        b <@ widget_handle ev i ;; if b then nret true else first_handler ev ws'
      else first_handler ev ws'
  end.

Definition app_handle (ev : NEvent) : NM bool :=
  a <@ get_app ;; first_handler ev (a_widgets a).

(** A loop over the widgets whose method returns [None] for each of
    them: [Widget.handle_drag] and [Widget.handle_uncaught_event]
    (lines 288-292); only the attribute accesses can fail. *)
Fixpoint ask_all (ws : list nat) : NM bool :=
  match ws with [] => nret false | i :: r => _ <@ get_widget i ;; ask_all r end.

(** [App.handle_drag] (lines 158-163). *)
Definition app_handle_drag : NM bool := a <@ get_app ;; ask_all (a_widgets a).

(** [App.handle_uncaught_event] (lines 146-156): a mouse motion with the
    left button held is a drag, other events go to the widgets. *)
Definition app_handle_uncaught (motion left_held : bool) : NM bool :=
  if motion then (if left_held then app_handle_drag else nret false)
  else a <@ get_app ;; ask_all (a_widgets a).

(** [App.next_widget] (lines 189-193) with fuel for its [while] loop. *)
Fixpoint rotate_until_visible (fuel : nat) (ws : list nat) : NM (list nat) :=
  match fuel with
  | O => fun _ => None
  | S f =>
      match ws with
      | [] => nraise IndexError
      | i :: r => x <@ get_widget i ;; if nw_visible x then nret ws else rotate_until_visible f (r ++ [i])
      end
  end.

Definition next_widget : NM unit :=
  a <@ get_app ;;
  match a_widgets a with
  | [] => nraise IndexError
  | i :: r =>
      put_app (with_widgets (r ++ [i]) a) ;;@
      ws <@ rotate_until_visible (S (length (a_widgets a))) (r ++ [i]) ;;
      a' <@ get_app ;; put_app (with_widgets ws a')
  end.

(** [App.set_top_widget] (lines 195-199). *)
Definition set_top_widget (widg : nat) : NM unit :=
  a <@ get_app ;;
  let ws := if decide (widg ∈ a_widgets a) then default (a_widgets a) (py_remove widg (a_widgets a)) else a_widgets a in
  put_app (with_widgets (widg :: ws) a).

(** [Widget.render] (lines 297-304): the image is moved by [offset],
    drawn, and put back at [self.pos]. *)
Definition widget_render (i : nat) (offset : Z * Z) : NM unit :=
  x <@ get_widget i ;;
  match nw_image x with
  | None => nret tt
  | Some img =>
      match nw_pos x with
      | None => nraise TypeError
      | Some (px, py) =>
          let img' := set_pos img (px + offset.1, py + offset.2) in
          nmodify (fun w => mkNWorld (app w) (store w) (fresh w) (mouse w) (fired w) (drawn w ++ [img']) (clock w)) ;;@
          put_widget i (with_image (Some (set_pos img' (px, py))) x)
      end
  end.

(** [App.render] (lines 201-206): oldest widget first. *)
Definition app_render : NM unit :=
  reverse_widgets ;;@
  a <@ get_app ;;
  nfor (a_widgets a) (fun i => x <@ get_widget i ;; if nw_visible x then widget_render i (0, 0) else nret tt) ;;@
  reverse_widgets.

(** ** The layout [pack_wrap] promises *)

(** The box [_collidem] tests: [pos] and [size]. *)
Definition box (p s : Z * Z) : Rect := mkRect p.1 p.2 s.1 s.2.

(** The widgets the packer positions. *)
Definition placed (x : NWidget) : bool := negb (is_newline x) && negb (nw_override x).

(** Every two placed widgets among [P] have positions and boxes that do
    not overlap (they may share an edge). *)
Definition boxes_disjoint (w : NWorld) (P : list nat) : Prop :=
  forall i j xi xj, i ∈ P -> j ∈ P -> i <> j -> store w !! i = Some xi -> store w !! j = Some xj ->
    placed xi = true -> placed xj = true ->
    exists pi pj, nw_pos xi = Some pi /\ nw_pos xj = Some pj /\ rect_disjoint (box pi (nw_size xi)) (box pj (nw_size xj)).

(** The loop invariant of [pack_wrap] over [(nw, nh, newh)]: every
    widget placed so far lies above row [nh], or in it left of [nw] and
    no taller than [newh]. *)
Definition in_rows (st : Z * Z * Z) (p s : Z * Z) : Prop :=
  let '(nw, nh, newh) := st in
  p.2 + s.2 <= nh \/ (p.2 = nh /\ p.1 + s.1 <= nw /\ s.2 <= newh).

Definition row_inv (w : NWorld) (P : list nat) (st : Z * Z * Z) : Prop :=
  0 <= st.2 /\
  forall j x, j ∈ P -> store w !! j = Some x -> placed x = true ->
    exists p, nw_pos x = Some p /\ in_rows st p (nw_size x).

(** Sizes the code gives its widgets: never negative. *)
Definition sizes_ok (w : NWorld) (ws : list nat) : Prop :=
  Forall (fun j => forall x, store w !! j = Some x -> 0 <= (nw_size x).1 /\ 0 <= (nw_size x).2) ws.

(** ** Store typing *)

(** The handles of the world are well typed: the [App]'s list holds
    distinct handles ([new_widget] tests membership before it adds),
    each naming an object of the store, and every object of the store
    was allocated before [fresh]. *)
Definition wt (w : NWorld) : Prop :=
  NoDup (a_widgets (app w)) /\
  Forall (fun i => i ∈ dom (store w)) (a_widgets (app w)) /\
  set_Forall (fun i => i < fresh w)%nat (dom (store w)).

(** The statements that move widgets keep the shape of the world: the
    [App]'s list, packer and font, the handles of the store and [fresh]. *)
Definition same_shape (w w' : NWorld) : Prop :=
  a_widgets (app w') = a_widgets (app w) /\ a_packtype (app w') = a_packtype (app w) /\
  a_size (app w') = a_size (app w) /\ a_mefont (app w') = a_mefont (app w) /\
  dom (store w') = dom (store w) /\ fresh w' = fresh w.

(** A script of the demos: the widget constructors it calls, in order. *)
Inductive Ctor := CNewLine (height : Z) | CLabel (text : pystr) (pos : option (Z * Z)).

Definition run_ctor (c : Ctor) : NM nat :=
  match c with CNewLine h => new_newline h | CLabel t p => new_label t p end.

Fixpoint run_ctors (cs : list Ctor) : NM (list nat) :=
  match cs with
  | [] => nret []
  | c :: cs' => i <@ run_ctor c ;; hs <@ run_ctors cs' ;; nret (i :: hs)
  end.

(** The font of the [App] renders the text of a [Label]. *)
Definition renders (fo : MEFont) (c : Ctor) : bool :=
  match c with
  | CNewLine _ => true
  | CLabel t _ => if me_make_text_image fo t white is Some (inr _) then true else false
  end.

(** ** Sample worlds *)

(** The result of a call that returned, or [d]. *)
Definition nrun {A} (d : A * NWorld) (m : NM A) (w : NWorld) : A * NWorld :=
  match m w with Some (inr r) => r | _ => d end.

(** A fresh [App] on a 640x480 screen with the monospace font of Font.v,
    the mouse in a corner. *)
Definition nw0 : NWorld := mkNWorld (new_app mono_font (640, 480)) ∅ 0 (639, 479) [] [] 0%Q.

(** [NewLine(app, 5)] in it. *)
Definition with_newline : nat * NWorld := nrun (0%nat, nw0) (new_newline 5) nw0.

(** Two labels and a [NewLine] between them, packed by their constructors. *)
Definition two_labels : NWorld :=
  (nrun (0%nat, nw0) (_ <@ new_label (String.list_ascii_of_string "ab") None ;;
                      _ <@ new_newline 5 ;; new_label (String.list_ascii_of_string "cde") None) nw0).2.

(** The script of [two_labels]. *)
Definition two_labels_script : list Ctor :=
  [CLabel (String.list_ascii_of_string "ab") None; CNewLine 5; CLabel (String.list_ascii_of_string "cde") None].

(** ** Monad lemmas *)

Lemma nbind_inr {A B} (m : NM A) (k : A -> NM B) w a w1 :
  m w = Some (inr (a, w1)) -> nbind m k w = k a w1.
Proof. intros Hm. unfold nbind. by rewrite Hm. Qed.

Lemma nbind_inl {A B} (m : NM A) (k : A -> NM B) w ew :
  m w = Some (inl ew) -> nbind m k w = Some (inl ew).
Proof. intros Hm. unfold nbind. by rewrite Hm. Qed.

Lemma nbind_inr_inv {A B} (m : NM A) (k : A -> NM B) w b w' :
  nbind m k w = Some (inr (b, w')) -> exists a w1, m w = Some (inr (a, w1)) /\ k a w1 = Some (inr (b, w')).
Proof. unfold nbind. destruct (m w) as [[[e w1]|[a w1]]|]; [done| |done]. eauto. Qed.

Ltac nbind_inv :=
  repeat match goal with
         | H : nbind _ _ _ = Some (inr _) |- _ => apply nbind_inr_inv in H as (? & ? & ? & ?)
         end.

(** ** [Packer.pack] with an unknown pack type *)

(** C25. [Packer.pack] with a [packtype] other than ["wrap"] and
    ["center"] raises [AttributeError] from [getattr] after the first
    [reverse()]: the exception leaves [app.widgets] reversed and
    [need_to_pack] as it was. *)
Theorem pack_unknown_AttributeError w :
  a_packtype (app w) <> "wrap"%string -> a_packtype (app w) <> "center"%string ->
  pack w = Some (inl (AttributeError, set_app (with_widgets (rev (a_widgets (app w))) (app w)) w)).
Proof.
  intros H1 H2. unfold pack, reverse_widgets, get_app, put_app, nget, nmodify. cbn.
  unfold pack_method. cbn. by rewrite (proj2 (String.eqb_neq _ _) H1), (proj2 (String.eqb_neq _ _) H2).
Qed.

(** ** Frames of the constructors and the packer *)

Section Frames.

Lemma widget_init_inv k pos w i w' :
  Forall (fun j => j < fresh w)%nat (a_widgets (app w)) ->
  widget_init k pos w = Some (inr (i, w')) ->
  i = fresh w /\ a_widgets (app w') = i :: a_widgets (app w) /\ a_packtype (app w') = a_packtype (app w) /\
  store w' !! i = Some (mkNW k pos (0, 0) (if pos is Some _ then true else false) true None false true ∅) /\
  mouse w' = mouse w.
Proof.
  intros Hf H. unfold widget_init, alloc, put_widget, app_new_widget, get_app, get_widget, put_app, nget, nmodify, nbind, nret in H.
  cbn in H. rewrite lookup_insert_eq in H. cbn in H.
  rewrite decide_False in H.
  2:{ intros Hin. rewrite Forall_forall in Hf. specialize (Hf _ Hin). lia. }
  destruct pos; cbn in H; injection H as <- <-; cbn; split_and!; try done; by rewrite lookup_insert_eq.
Qed.

(** The packer's loop moves only the widgets it places: every object
    that is a [NewLine] keeps all its fields, and the [App] is not
    touched. *)
Definition keeps_newlines (w w' : NWorld) : Prop :=
  app w' = app w /\ mouse w' = mouse w /\
  forall k x, store w !! k = Some x -> is_newline x = true -> store w' !! k = Some x.

Lemma keeps_newlines_refl w : keeps_newlines w w.
Proof. by split_and!. Qed.

Lemma keeps_newlines_trans w1 w2 w3 : keeps_newlines w1 w2 -> keeps_newlines w2 w3 -> keeps_newlines w1 w3.
Proof. intros (? & ? & H1) (? & ? & H2). split_and!; [congruence | congruence |]. intros k x Hk Hn. eauto. Qed.

Lemma wrap_step_keeps width st j w st' w' :
  wrap_step width st j w = Some (inr (st', w')) -> keeps_newlines w w'.
Proof.
  unfold wrap_step, get_widget, nbind at 1. cbv beta. destruct (store w !! j) as [x|] eqn:Hj; [|done].
  destruct st as [[nw nh] newh]. destruct (is_newline x) eqn:Hn; [intros [= _ <-]; apply keeps_newlines_refl|].
  destruct (nw_override x); [intros [= _ <-]; apply keeps_newlines_refl|].
  destruct (nw_size x) as [sw sh].
  unfold force_pos_update, get_widget, put_widget, nmodify, nbind, nret.
  destruct (_ && _); cbv beta; rewrite Hj; intros [= _ <-]; (split_and!; [done | done |]);
    intros k y Hk Hy; cbn; rewrite lookup_insert_ne; [done | intros ->; congruence | done | intros ->; congruence].
Qed.

Lemma wrap_loop_keeps width ws st w st' w' :
  wrap_loop width ws st w = Some (inr (st', w')) -> keeps_newlines w w'.
Proof.
  revert st w. induction ws as [|j ws IH]; intros st w; cbn; [intros [= _ <-]; apply keeps_newlines_refl|].
  intros H. nbind_inv. eapply keeps_newlines_trans; [eapply wrap_step_keeps | eapply IH]; eauto.
Qed.

(** [pack] with the wrap layout: the loop of [pack_wrap] over the
    reversed list, and the list put back. *)
Lemma pack_wrap_run w w' :
  a_packtype (app w) = "wrap"%string -> pack w = Some (inr (tt, w')) ->
  exists st w1,
    wrap_loop (a_size (app w)).1 (rev (a_widgets (app w))) (0, 0, 0)
      (set_app (with_widgets (rev (a_widgets (app w))) (app w)) w) = Some (inr (st, w1)) /\
    app w1 = with_widgets (rev (a_widgets (app w))) (app w) /\
    w' = set_app (with_need_to_pack false (with_widgets (a_widgets (app w)) (app w1))) w1.
Proof.
  intros Hp H. unfold pack, reverse_widgets, get_app, put_app, nget, nmodify, nbind, nret in H.
  cbn in H. unfold pack_method in H. rewrite Hp in H. cbn in H.
  unfold pack_wrap, get_app, nget, nbind, nret in H. cbn in H.
  destruct (wrap_loop _ _ _ _) as [[[e w2]|[st w2]]|] eqn:Hl; try discriminate.
  destruct (wrap_loop_keeps _ _ _ _ _ _ Hl) as (Ha & _ & _).
  exists st, w2. split_and!; [done | done |].
  rewrite Ha in H. cbn in H. injection H as <-. rewrite Ha. cbn. by rewrite rev_involutive.
Qed.

(** [pack] with the wrap layout returns the widget list as it found it,
    and moves no [NewLine]. *)
Lemma pack_wrap_keeps w w' :
  a_packtype (app w) = "wrap"%string -> pack w = Some (inr (tt, w')) ->
  a_widgets (app w') = a_widgets (app w) /\ a_packtype (app w') = a_packtype (app w) /\
  mouse w' = mouse w /\
  forall k x, store w !! k = Some x -> is_newline x = true -> store w' !! k = Some x.
Proof.
  intros Hp H. destruct (pack_wrap_run w w' Hp H) as (st & w1 & Hl & Ha & ->).
  destruct (wrap_loop_keeps _ _ _ _ _ _ Hl) as (Ha' & Hm & Hs).
  cbn. rewrite Ha. cbn. split_and!; [done | done | done |]. intros k x Hk Hn. by apply (Hs k x).
Qed.

End Frames.


(** ** The wrap layout *)

Section Wrap.

Lemma wrap_step_inv width nw nh newh j w st' w' :
  wrap_step width (nw, nh, newh) j w = Some (inr (st', w')) ->
  exists x, store w !! j = Some x /\
   ((placed x = false /\ w' = w /\
       (is_newline x = true /\ st' = (0, nh + newh + (nw_size x).2, 0) \/ st' = (nw, nh, newh))) \/
    (placed x = true /\ exists p, w' = set_store (<[j := with_pos p x]> (store w)) w /\
       ((p = (0, nh + newh + 1) /\ st' = ((nw_size x).1, nh + newh + 1, (nw_size x).2)) \/
        (p = (nw, nh) /\ st' = (nw + (nw_size x).1, nh, Z.max (nw_size x).2 newh))))).
Proof.
  unfold wrap_step, get_widget, nbind at 1. cbv beta. destruct (store w !! j) as [x|] eqn:Hj; [|done].
  intros H. exists x. split; [done|]. unfold placed. revert H.
  destruct (is_newline x) eqn:Hn; [intros [= <- <-]; left; by split_and!; [| |left]|].
  destruct (nw_override x) eqn:Ho; [intros [= <- <-]; left; by split_and!; [| |right]|].
  destruct (nw_size x) as [sw sh] eqn:Hs.
  unfold force_pos_update, get_widget, put_widget, nmodify, nbind, nret.
  destruct (_ && _); cbv beta; rewrite Hj; intros [= <- <-]; right; (split; [done|]); eexists; (split; [done|]).
  - by left.
  - right. by rewrite gtb_max.
Qed.

Lemma lookup_set_store_ne w j k y : k <> j -> store (set_store (<[j := y]> (store w)) w) !! k = store w !! k.
Proof. intros. cbn. by rewrite lookup_insert_ne. Qed.

Lemma placed_with_pos p x : placed (with_pos p x) = placed x.
Proof. done. Qed.

(** Adding an unplaced widget to the processed ones. *)
Lemma invs_add_unplaced w P j x st st' :
  store w !! j = Some x -> placed x = false -> 0 <= st'.2 ->
  (forall p s, in_rows st p s -> in_rows st' p s) ->
  row_inv w P st -> boxes_disjoint w P -> row_inv w (j :: P) st' /\ boxes_disjoint w (j :: P).
Proof.
  intros Hj Hp Hn Hmono [_ Hr] Hd. split; [split; [done|]|].
  - intros k y Hk Hy Hpy. apply elem_of_cons in Hk as [->|Hk]; [congruence|].
    destruct (Hr k y Hk Hy Hpy) as (q & Hq & Hin). eauto.
  - intros a b xa xb Ha Hb Hab La Lb Pa Pb.
    apply elem_of_cons in Ha as [->|Ha]; [congruence|]. apply elem_of_cons in Hb as [->|Hb]; [congruence|].
    eauto.
Qed.

(** Adding a widget placed at [p]. *)
Lemma invs_add_placed w P j x p st' :
  store w !! j = Some x -> 0 <= st'.2 -> in_rows st' p (nw_size x) ->
  (forall k y, k ∈ P -> k <> j -> store w !! k = Some y -> placed y = true ->
     exists q, nw_pos y = Some q /\ in_rows st' q (nw_size y) /\ rect_disjoint (box q (nw_size y)) (box p (nw_size x))) ->
  boxes_disjoint w P ->
  let w' := set_store (<[j := with_pos p x]> (store w)) w in
  row_inv w' (j :: P) st' /\ boxes_disjoint w' (j :: P).
Proof.
  intros Hj Hn Hin Hk Hd w'. subst w'. split; [split; [done|]|].
  - intros k y Hk' Hy Hpy. destruct (decide (k = j)) as [->|Hne].
    + cbn in Hy. rewrite lookup_insert_eq in Hy. injection Hy as <-. by exists p.
    + rewrite lookup_set_store_ne in Hy by done. apply elem_of_cons in Hk' as [->|Hk']; [done|].
      destruct (Hk k y Hk' Hne Hy Hpy) as (q & ? & ? & _). eauto.
  - intros a b xa xb Ha Hb Hab La Lb Pa Pb.
    destruct (decide (a = j)) as [->|Haj]; [|destruct (decide (b = j)) as [->|Hbj]].
    + cbn in La. rewrite lookup_insert_eq in La. injection La as <-.
      rewrite lookup_set_store_ne in Lb by congruence.
      apply elem_of_cons in Hb as [->|Hb]; [done|].
      destruct (Hk b xb Hb ltac:(congruence) Lb Pb) as (q & Hq & _ & Hdq).
      exists p, q. split_and!; [done | done | by apply rect_disjoint_sym].
    + cbn in Lb. rewrite lookup_insert_eq in Lb. injection Lb as <-.
      rewrite lookup_set_store_ne in La by done.
      apply elem_of_cons in Ha as [->|Ha]; [done|].
      destruct (Hk a xa Ha Haj La Pa) as (q & Hq & _ & Hdq). by exists q, p.
    + rewrite lookup_set_store_ne in La, Lb by done.
      apply elem_of_cons in Ha as [->|Ha]; [done|]. apply elem_of_cons in Hb as [->|Hb]; [done|].
      eauto.
Qed.

Lemma in_rows_below nw nh newh p s : 0 <= newh -> in_rows (nw, nh, newh) p s -> p.2 + s.2 <= nh + newh.
Proof. cbn. lia. Qed.

Lemma wrap_step_invs width st j w st' w' P :
  (forall x, store w !! j = Some x -> 0 <= (nw_size x).1 /\ 0 <= (nw_size x).2) ->
  row_inv w P st -> boxes_disjoint w P -> wrap_step width st j w = Some (inr (st', w')) ->
  row_inv w' (j :: P) st' /\ boxes_disjoint w' (j :: P).
Proof.
  destruct st as [[nw nh] newh]. intros Hsz Hr Hd H.
  destruct (wrap_step_inv _ _ _ _ _ _ _ _ H) as (x & Hj & [(Hp & -> & Hst)|(Hp & p & -> & Hst)]);
    destruct (Hsz x Hj) as [Hw Hh]; pose proof Hr as [Hn Hr']; cbn in Hn.
  - destruct Hst as [(_ & ->) | ->]; (eapply invs_add_unplaced; [done | done | cbn; lia | | exact Hr | done]);
      cbn; intros q s Hq; lia.
  - destruct Hst as [(-> & ->)|(-> & ->)]; (apply invs_add_placed; [done | cbn; lia | cbn; lia | | done]);
      intros k y Hk Hkj Hy Hpy; destruct (Hr' k y Hk Hy Hpy) as (q & Hq & Hin);
      exists q; (split; [done|]); unfold rect_disjoint, box; cbn in Hin |- *; lia.
Qed.

Lemma wrap_loop_invs width ws st w st' w' P :
  sizes_ok w ws -> row_inv w P st -> boxes_disjoint w P ->
  wrap_loop width ws st w = Some (inr (st', w')) -> boxes_disjoint w' (rev ws ++ P).
Proof.
  revert st w P. induction ws as [|j ws IH]; intros st w P Hs Hr Hd; cbn; [by intros [= _ <-]|].
  intros H. apply nbind_inr_inv in H as (st1 & w1 & Hst & H).
  apply Forall_cons in Hs as [Hj Hs].
  destruct (wrap_step_invs _ _ _ _ _ _ _ Hj Hr Hd Hst) as [Hr1 Hd1].
  rewrite <- app_assoc. apply (IH st1 w1 (j :: P)); [|done|done|done].
  (* sizes are kept by the step *)
  destruct st as [[nw nh] newh].
  destruct (wrap_step_inv _ _ _ _ _ _ _ _ Hst) as (x & Hx & [(_ & -> & _)|(_ & p & -> & _)]); [done|].
  apply Forall_forall. intros k Hk y Hy. destruct (decide (k = j)) as [->|Hne].
  - cbn in Hy. rewrite lookup_insert_eq in Hy. injection Hy as <-. exact (Hj x Hx).
  - rewrite lookup_set_store_ne in Hy by done. by apply (proj1 (Forall_forall _ _) Hs k Hk).
Qed.

End Wrap.

Lemma boxes_disjoint_store w w' P : store w' = store w -> boxes_disjoint w P -> boxes_disjoint w' P.
Proof. unfold boxes_disjoint. intros ->. done. Qed.

(** ** Store typing is kept by the constructors *)

Section Typing.

Lemma same_shape_refl w : same_shape w w.
Proof. by split_and!. Qed.

Lemma same_shape_trans w1 w2 w3 : same_shape w1 w2 -> same_shape w2 w3 -> same_shape w1 w3.
Proof. intros (? & ? & ? & ? & ? & ?) (? & ? & ? & ? & ? & ?). split_and!; congruence. Qed.

Lemma wt_shape w w' : same_shape w w' -> wt w -> wt w'.
Proof. intros (Hws & _ & _ & _ & Hd & Hf) (Hn & Ha & Hs). unfold wt. by rewrite Hws, Hd, Hf. Qed.

Lemma dom_in_shape w w' ws : same_shape w w' -> Forall (fun i => i ∈ dom (store w)) ws -> Forall (fun i => i ∈ dom (store w')) ws.
Proof. intros (_ & _ & _ & _ & -> & _). done. Qed.

Lemma put_widget_shape i x w : i ∈ dom (store w) -> same_shape w (set_store (<[i := x]> (store w)) w).
Proof. intros Hi. split_and!; try done. cbn. rewrite dom_insert_L. set_solver. Qed.

Lemma force_pos_update_total i p w :
  i ∈ dom (store w) -> exists w', force_pos_update i p w = Some (inr (tt, w')) /\ same_shape w w'.
Proof.
  intros Hi. pose proof Hi as [x Hx]%elem_of_dom.
  unfold force_pos_update, get_widget, put_widget, nmodify, nbind. rewrite Hx.
  eexists; split; [reflexivity | by apply put_widget_shape].
Qed.

Lemma wrap_step_total width st j w :
  j ∈ dom (store w) -> exists st' w', wrap_step width st j w = Some (inr (st', w')) /\ same_shape w w'.
Proof.
  intros Hj. pose proof Hj as [x Hx]%elem_of_dom.
  unfold wrap_step, get_widget, nbind at 1. rewrite Hx. destruct st as [[nw nh] newh].
  destruct (is_newline x); [by do 2 eexists; split; [reflexivity | apply same_shape_refl]|].
  destruct (nw_override x); [by do 2 eexists; split; [reflexivity | apply same_shape_refl]|].
  destruct (nw_size x) as [sw sh].
  destruct (_ && _); [destruct (force_pos_update_total j (0, nh + newh + 1) w Hj) as (w' & Hw' & Hs)
                     |destruct (force_pos_update_total j (nw, nh) w Hj) as (w' & Hw' & Hs)];
    unfold nbind; rewrite Hw'; by do 2 eexists.
Qed.

Lemma wrap_loop_total width ws st w :
  Forall (fun i => i ∈ dom (store w)) ws ->
  exists st' w', wrap_loop width ws st w = Some (inr (st', w')) /\ same_shape w w'.
Proof.
  revert st w. induction ws as [|j ws IH]; intros st w Hws; cbn; [by do 2 eexists; split; [|apply same_shape_refl]|].
  apply Forall_cons in Hws as [Hj Hws].
  destruct (wrap_step_total width st j w Hj) as (st1 & w1 & H1 & Hs1).
  destruct (IH st1 w1 (dom_in_shape _ _ _ Hs1 Hws)) as (st2 & w2 & H2 & Hs2).
  rewrite (nbind_inr _ _ _ _ _ H1). eauto using same_shape_trans.
Qed.

(** [pack] with the wrap layout returns when every handle of the list
    names an object, and keeps the shape of the world. *)
Lemma pack_wrap_total w :
  a_packtype (app w) = "wrap"%string -> Forall (fun i => i ∈ dom (store w)) (a_widgets (app w)) ->
  exists w', pack w = Some (inr (tt, w')) /\ same_shape w w'.
Proof.
  intros Hp Hws. set (w0 := set_app (with_widgets (rev (a_widgets (app w))) (app w)) w).
  destruct (wrap_loop_total (a_size (app w)).1 (rev (a_widgets (app w))) (0, 0, 0) w0)
    as (st & w1 & Hl & Hs1 & Hp1 & Hz1 & Hf1 & Hd1 & Hr1); [by apply Forall_rev|].
  unfold pack, reverse_widgets, get_app, put_app, nget, nmodify, nbind, nret. cbn.
  unfold pack_method. rewrite Hp. cbn. unfold pack_wrap, get_app, nget, nbind, nret. cbn.
  fold w0. rewrite Hl. eexists; split; [reflexivity|].
  cbn in Hs1, Hp1, Hz1, Hf1, Hd1, Hr1 |- *. rewrite Hs1, rev_involutive. by split_and!.
Qed.

Lemma fresh_not_listed w : wt w -> fresh w ∉ a_widgets (app w).
Proof.
  intros (_ & Ha & Hs) Hin. rewrite Forall_forall in Ha. specialize (Hs _ (Ha _ Hin)). cbn in Hs. lia.
Qed.

(** The world after [Widget.__init__] allocated the handle [fresh]. *)
Lemma wt_new_handle w x w' :
  wt w -> a_widgets (app w') = fresh w :: a_widgets (app w) -> store w' = <[fresh w := x]> (store w) ->
  fresh w' = S (fresh w) -> wt w'.
Proof.
  intros Hwt Hws Hst Hf. pose proof (fresh_not_listed w Hwt) as Hnot. destruct Hwt as (Hn & Ha & Hs).
  unfold wt. rewrite Hws, Hst, Hf, dom_insert_L. split_and!.
  - by constructor.
  - constructor; [set_solver | eapply Forall_impl; [exact Ha | set_solver]].
  - apply set_Forall_union; [intros ? ->%elem_of_singleton; lia | intros i Hi; specialize (Hs i Hi); cbn in Hs; lia].
Qed.

(** [Widget.__init__] on a well-typed world returns the handle [fresh],
    at the head of the [App]'s list, and keeps the world well typed. *)
Lemma widget_init_total k pos w :
  wt w -> exists w', widget_init k pos w = Some (inr (fresh w, w')) /\ wt w' /\
    a_widgets (app w') = fresh w :: a_widgets (app w) /\ a_packtype (app w') = a_packtype (app w) /\
    a_mefont (app w') = a_mefont (app w) /\ fresh w' = S (fresh w) /\ fresh w ∈ dom (store w').
Proof.
  intros Hwt. pose proof (fresh_not_listed w Hwt) as Hnot.
  unfold widget_init, alloc, put_widget, app_new_widget, get_app, get_widget, put_app, nget, nmodify, nbind, nret.
  cbn. rewrite lookup_insert_eq. cbn. rewrite decide_False by done.
  destruct pos; (eexists; split; [reflexivity|]);
    (split_and!; [eapply wt_new_handle; [exact Hwt | reflexivity..] | done.. | cbn; rewrite dom_insert_L; set_solver]).
Qed.

Lemma update_widget_total {A} i (f : NWidget -> NWidget) (k : NM A) w :
  i ∈ dom (store w) -> exists w', (x <@ get_widget i ;; put_widget i (f x) ;;@ k) w = k w' /\ same_shape w w'.
Proof.
  intros Hi. pose proof Hi as [x Hx]%elem_of_dom.
  unfold get_widget, put_widget, nmodify, nbind. rewrite Hx. eexists; split; [reflexivity | by apply put_widget_shape].
Qed.

(** [pack ;; return i] on a shape of a well-typed world with the wrap layout. *)
Lemma pack_ret_total {A} (i : A) w w' :
  wt w -> a_packtype (app w) = "wrap"%string -> same_shape w w' ->
  exists w'', (pack ;;@ nret i) w' = Some (inr (i, w'')) /\ same_shape w w''.
Proof.
  intros Hwt Hp Hs. destruct (pack_wrap_total w') as (w'' & H & Hs');
    [destruct Hs as (_ & Hp' & _); congruence | by destruct Hwt as (_ & Ha & _); rewrite (proj1 Hs); eapply dom_in_shape |].
  rewrite (nbind_inr _ _ _ _ _ H). eexists; split; [reflexivity | eauto using same_shape_trans].
Qed.

(** One constructor on a well-typed world with the wrap layout returns
    the handle [fresh] and keeps the world well typed. *)
Lemma run_ctor_total c w :
  wt w -> a_packtype (app w) = "wrap"%string -> renders (a_mefont (app w)) c = true ->
  exists w', run_ctor c w = Some (inr (fresh w, w')) /\ wt w' /\
    a_widgets (app w') = fresh w :: a_widgets (app w) /\ a_packtype (app w') = a_packtype (app w) /\
    a_mefont (app w') = a_mefont (app w) /\ fresh w' = S (fresh w).
Proof.
  intros Hwt Hp Hr.
  destruct (widget_init_total (if c is CLabel t _ then KLabel t else KNewLine) (if c is CLabel _ p then p else None) w Hwt)
    as (w1 & H1 & Hwt1 & Hws1 & Hp1 & Hm1 & Hf1 & Hd1).
  destruct c as [h|t pos]; cbn [run_ctor]; [unfold new_newline | unfold new_label]; rewrite (nbind_inr _ _ _ _ _ H1).
  - destruct (update_widget_total (fresh w) (with_size (0, h)) (pack ;;@ nret (fresh w)) w1 Hd1) as (w2 & -> & Hs2).
    destruct (pack_ret_total (fresh w) w1 w2) as (w3 & -> & Hs3); [done | congruence | done |].
    destruct Hs3 as (? & ? & ? & ? & ? & ?). eexists; split_and!; [done | eapply wt_shape; [split_and!|]; eauto | congruence..].
  - rewrite (nbind_inr get_app _ w1 (app w1) w1 eq_refl). cbv beta. cbn in Hr. rewrite Hm1.
    destruct (me_make_text_image _ t white) as [[|img]|]; [done| |done].
    destruct (update_widget_total (fresh w) (with_image (Some img))
      (x <@ get_widget (fresh w) ;; put_widget (fresh w) (with_size (get_width img, get_height img) x) ;;@ pack ;;@ nret (fresh w)) w1 Hd1) as (w2 & -> & Hs2).
    destruct (update_widget_total (fresh w) (with_size (get_width img, get_height img)) (pack ;;@ nret (fresh w)) w2)
      as (w3 & -> & Hs3); [by destruct Hs2 as (_ & _ & _ & _ & -> & _)|].
    destruct (pack_ret_total (fresh w) w1 w3) as (w4 & -> & Hs4); [done | congruence | eauto using same_shape_trans |].
    destruct Hs4 as (? & ? & ? & ? & ? & ?). eexists; split_and!; [done | eapply wt_shape; [split_and!|]; eauto | congruence..].
Qed.

Lemma wt_nw0 : wt nw0.
Proof. split_and!; [constructor | constructor |]. cbn. rewrite dom_empty_L. apply set_Forall_empty. Qed.

End Typing.

(** C23. The wrap layout: after [Packer.pack] with ["wrap"] returns, every
    two distinct widgets of the [App] that the packer positions (not a
    [NewLine], not given a position) have boxes that do not overlap,
    provided no widget has a negative size. *)
Theorem pack_wrap_disjoint w w' :
  a_packtype (app w) = "wrap"%string -> sizes_ok w (a_widgets (app w)) -> pack w = Some (inr (tt, w')) ->
  boxes_disjoint w' (a_widgets (app w')).
Proof.
  intros Hp Hs H. destruct (pack_wrap_run w w' Hp H) as (st & w1 & Hl & Ha & ->).
  apply (boxes_disjoint_store w1); [reflexivity|]. cbn.
  rewrite <- (app_nil_r (a_widgets (app w))), <- (rev_involutive (a_widgets (app w))) at 1.
  eapply (wrap_loop_invs _ _ _ _ _ _ []); [| | | exact Hl].
  - by apply Forall_rev.
  - split; [done|]. intros j x Hj. by apply not_elem_of_nil in Hj.
  - intros a b ? ? Ha'. by apply not_elem_of_nil in Ha'.
Qed.

(** C22. In an [App] with the default wrap packer, a [NewLine] is never
    placed ([pack_wrap] skips it), so right after [NewLine(app)] returns
    every left mouse press raises [TypeError]: the [NewLine] is the
    first widget [App.handle_mousedown] asks, and its [_collidem]
    unpacks its position [None]. *)
Theorem newline_click_TypeError w h i w1 :
  a_packtype (app w) = "wrap"%string -> Forall (fun j => j < fresh w)%nat (a_widgets (app w)) ->
  new_newline h w = Some (inr (i, w1)) ->
  app_handle (NMouseDown "left"%string) w1 = Some (inl (TypeError, w1)).
Proof.
  intros Hp Hf H. unfold new_newline in H.
  apply nbind_inr_inv in H as (i0 & wa & Hi & H).
  destruct (widget_init_inv _ _ _ _ _ Hf Hi) as (-> & Hws & Hpa & Hst & Hm).
  unfold get_widget, put_widget, nmodify, nbind at 1 in H. rewrite Hst in H.
  apply nbind_inr_inv in H as ([] & wb & [= <-] & H).
  apply nbind_inr_inv in H as ([] & wc & Hpk & [= <- <-]).
  apply pack_wrap_keeps in Hpk as (Hws' & _ & _ & Hs'); [|cbn; congruence].
  specialize (Hs' (fresh w)). cbn in Hs', Hws'. rewrite lookup_insert_eq in Hs'.
  specialize (Hs' _ eq_refl eq_refl).
  unfold app_handle, get_app, nget, nbind, nret. rewrite Hws', Hws. cbn [first_handler].
  unfold get_widget, nbind. rewrite Hs'. cbn. unfold collidem, nget, get_widget, nbind. rewrite Hs'. done.
Qed.

(** C24. Store typing: on a well-typed world whose [App] has the
    default wrap packer, a script of [NewLine] and [Label] constructors
    whose texts the font renders runs to its end; the constructors
    return the consecutive handles from [fresh], the [App]'s list holds
    them newest first before the widgets it had, and the world stays well
    typed: distinct handles in the list, each naming an object of the
    store, none allocated at or above [fresh]. *)
Theorem ctors_typed cs w :
  wt w -> a_packtype (app w) = "wrap"%string -> Forall (fun c => renders (a_mefont (app w)) c = true) cs ->
  exists w', run_ctors cs w = Some (inr (seq (fresh w) (length cs), w')) /\ wt w' /\
    a_widgets (app w') = rev (seq (fresh w) (length cs)) ++ a_widgets (app w).
Proof.
  revert w. induction cs as [|c cs IH]; intros w Hwt Hp Hr; cbn; [by eexists|].
  apply Forall_cons in Hr as [Hc Hr].
  destruct (run_ctor_total c w Hwt Hp Hc) as (w1 & H1 & Hwt1 & Hws1 & Hp1 & Hm1 & Hf1).
  rewrite (nbind_inr _ _ _ _ _ H1).
  destruct (IH w1) as (w2 & H2 & Hwt2 & Hws2); [done | congruence | by rewrite Hm1 |].
  rewrite (nbind_inr _ _ _ _ _ H2), Hf1. eexists; split_and!; [reflexivity | done |].
  rewrite Hws2, Hws1, Hf1. by rewrite <- app_assoc.
Qed.

(** ** Witnesses *)

Lemma newline_click_TypeError_witness :
  app_handle (NMouseDown "left"%string) with_newline.2 = Some (inl (TypeError, with_newline.2)).
Proof. apply (newline_click_TypeError nw0 5 with_newline.1); [reflexivity | constructor | vm_refl]. Defined.

Lemma pack_unknown_AttributeError_witness :
  let w := set_app (mkNApp [0%nat] (a_mefont (app with_newline.2)) "grid"%string (640, 480) true true) with_newline.2 in
  pack w = Some (inl (AttributeError, set_app (with_widgets [0%nat] (app w)) w)).
Proof. intros w. apply (pack_unknown_AttributeError w); discriminate. Defined.

Lemma pack_wrap_disjoint_witness :
  boxes_disjoint (nrun (tt, two_labels) pack two_labels).2 (a_widgets (app (nrun (tt, two_labels) pack two_labels).2)).
Proof.
  apply (pack_wrap_disjoint two_labels); [reflexivity | | vm_refl].
  assert (Hws : a_widgets (app two_labels) = [2; 1; 0]%nat) by vm_refl.
  unfold sizes_ok. rewrite Hws.
  repeat apply Forall_cons_2; try apply Forall_nil_2; intros x Hx; vm_compute in Hx; injection Hx as <-; cbn; lia.
Defined.

Lemma ctors_typed_witness :
  exists w', run_ctors two_labels_script nw0 = Some (inr (seq (fresh nw0) (length two_labels_script), w')) /\ wt w' /\
    a_widgets (app w') = rev (seq (fresh nw0) (length two_labels_script)) ++ a_widgets (app nw0).
Proof.
  apply (ctors_typed two_labels_script nw0); [apply wt_nw0 | reflexivity |].
  repeat (apply Forall_cons_2; [vm_refl|]). apply Forall_nil_2.
Defined.

End NewGui.
