(* ===== verification/Particles.v ===== *)
(** * Particles: the fountain of [devtests/particles.py]

    [src/branches/v0.1-nextgen/devtests/particles.py] is a development
    test that simulates a water fountain of [count] droplets on numpy
    arrays.  [PState] holds the fields of its [TestContext]
    ([points.coord.point], [points.color.color], [velocities],
    [lastFraction], [points.minSize], [points.maxSize], the timer's
    [multiplier], the text shown and the lines printed) and the module
    global [initialVelocityVector], which [OnHigher] and [OnLower]
    update in place.  [random.random()] is a function [rnd] of the
    number of draws made so far ([draws]); the [RandomArray] branch is
    not taken (the [Numeric] module it imports is absent where numpy
    is).  Python floats are exact rationals: the theorems are about the
    arithmetic the code writes, not about rounding.  The OpenGLContext
    scene graph, timers and event registration are the library's and
    not modelled; the registration (lines 89-102) is [handle]. *)

From stdpp Require Import base list sets strings.
From Stdlib Require Import QArith Qminmax Lqa Lia Ascii.
From Stdlib Require String.
From S2P Require Import Prelude.

Module Particles.

Local Open Scope Q_scope.

(** ** Vectors and numpy arrays of rows *)

Definition V3 : Type := (Q * Q * Q)%type.
Definition vx (v : V3) : Q := v.1.1.
Definition vy (v : V3) : Q := v.1.2.
Definition vz (v : V3) : Q := v.2.
Definition vadd (a b : V3) : V3 := (vx a + vx b, vy a + vy b, vz a + vz b).
Definition vscale (a : V3) (s : Q) : V3 := (vx a * s, vy a * s, vz a * s).
Definition vmul (a b : V3) : V3 := (vx a * vx b, vy a * vy b, vz a * vz b).
Definition vdiv (a b : V3) : V3 := (vx a / vx b, vy a / vy b, vz a / vz b).

(** [a + b] on two arrays of rows: equal lengths add row by row, an
    array of one row is broadcast, other shapes raise [ValueError]. *)
Definition np_add (a b : list V3) : PyExc + list V3 :=
  if decide (length a = length b) then inr (zip_with vadd a b)
  else match a, b with
       | [x], _ => inr (map (vadd x) b)
       | _, [y] => inr (map (fun x => vadd x y) a)
       | _, _ => inl ValueError
       end.

(** [nonzero(below)]: the indices of the true entries, in order. *)
Fixpoint nonzero_from (k : nat) (l : list bool) : list nat :=
  match l with
  | [] => []
  | b :: l' => if b then k :: nonzero_from (S k) l' else nonzero_from (S k) l'
  end.
Definition nonzero (l : list bool) : list nat := nonzero_from 0 l.

(** [less_equal(points[:,1], 0.0)] (line 118). *)
Definition below (pts : list V3) : list bool := map (fun p => Qle_bool (vy p) 0) pts.

(** The local [put(a, ind, b)] (lines 124-126). *)
Fixpoint put (a : list V3) (ind : list nat) (b : V3) : PyExc + list V3 :=
  match ind with
  | [] => inr a
  | i :: ind' => a' <-? py_setitem a i b ;; put a' ind' b
  end.

(** The local [copy(a, ind, b)] (lines 138-141): [a[ind[x]] = b[x]]. *)
Fixpoint copy (a : list V3) (ind : list nat) (b : list V3) : PyExc + list V3 :=
  match ind with
  | [] => inr a
  | i :: ind' =>
      match b with
      | [] => inl IndexError
      | y :: b' => a' <-? py_setitem a i y ;; copy a' ind' b'
      end
  end.

(** ** The module's parameters (lines 28-34) *)

Definition gravity : Q := -98 # 10.
Definition emitter : V3 := (0, 0, 0).
Definition count : nat := 3000.
Definition initialColor : V3 := (1, 9 # 10, 9 # 10).
Definition colorVelocities : V3 := (1, 9 # 10, 7 # 10).
Definition initialVelocityVector0 : V3 := (3 # 2, 20, 3 # 2).

(** ** The test context *)

Record PState := mkPS {
  points : list V3;
  colors : list V3;
  velocities : list V3;
  lastFraction : Q;
  initialVelocityVector : V3;
  minSize : Q;
  maxSize : Q;
  multiplier : Q;
  shown : option Q;
  printed : list (String.string * Q);
  draws : nat;
}.

(** [OnInit] (lines 39-104), the fields it sets on a fountain of [n]
    droplets ([n = count] in the code); [lastFraction] is the class
    attribute [0.0] (line 38), the multiplier the [1.0] the text shows. *)
Definition on_init (n : nat) : PState :=
  mkPS (replicate n emitter) (replicate n initialColor) (replicate n (0, 0, 0)) 0
       initialVelocityVector0 7 10 1 None [] 0.

Section Fountain.

(** [glutfont] is not [None] (lines 16-19); [rnd k] is the [k]-th
    value of [random.random()]. *)
Variable glutfont : bool.
Variable rnd : nat -> Q.

(** One droplet's nozzle speed (lines 134-137), from the draws [k],
    [k+1], [k+2] in the order Python evaluates the tuple. *)
Definition draw_velocity (ivv : V3) (k : nat) : V3 :=
  vmul (rnd k - (1 # 2), rnd (S k), rnd (S (S k)) - (1 # 2)) ivv.

Definition new_velocities (ivv : V3) (k n : nat) : list V3 :=
  map (fun x => draw_velocity ivv (k + 3 * x)%nat) (seq 0 n).

(** Lines 120-142 once [points], [colors] and [velocities] are
    computed: the dead droplets go back to the emitter, and the first
    half of them (and one more) get the initial colour and a new
    velocity.  The result is the three arrays and the draws made. *)
Definition respawn (ivv : V3) (k : nat) (pts cols vels : list V3) :
    PyExc + (list V3 * list V3 * list V3 * nat) :=
  let dead := nonzero (below pts) in
  if length dead =? 0 then inr (pts, cols, vels, k) else
  pts' <-? put pts dead emitter ;;
  let dead' := take (length dead `div` 2 + 1)%nat dead in
  if length dead' =? 0 then inr (pts', cols, vels, k) else
  cols' <-? put cols dead' initialColor ;;
  vels' <-? copy vels dead' (new_velocities ivv k (length dead')) ;;
  inr (pts', cols', vels', k + 3 * length dead')%nat.

(** Lines 108-111: the time since the last frame, the fraction
    wrapping around once per cycle of the timer. *)
Definition frame_delta (last fr : Q) : Q := (if Qltb fr last then fr + 1 else fr) - last.

(** [OnTimerFraction] (lines 104-145) at [event.fraction() = fr]. *)
Definition on_timer_fraction (fr : Q) : PyM PState unit :=
  s <- pget ;;
  let delta := frame_delta (lastFraction s) fr in
  let s := mkPS (points s) (colors s) (velocities s) fr (initialVelocityVector s)
                (minSize s) (maxSize s) (multiplier s) (shown s) (printed s) (draws s) in
  if Qeq_bool delta 0 then pput s else
  match np_add (points s) (map (fun v => vscale v delta) (velocities s)) with
  | inl e => praise e
  | inr pts =>
      let cols := map (fun c => vadd c (vscale colorVelocities delta)) (colors s) in
      let vels := map (fun v => (vx v, vy v + gravity * delta, vz v)) (velocities s) in
      match respawn (initialVelocityVector s) (draws s) pts cols vels with
      | inl e => praise e
      | inr (pts', cols', vels', k) =>
          pput (mkPS pts' cols' vels' fr (initialVelocityVector s) (minSize s) (maxSize s)
                     (multiplier s) (shown s) (printed s) k)
      end
  end.

(** The text or the line [OnSlower] and [OnFaster] show. *)
Definition show_multiplier (what : String.string) (m : Q) (s : PState) : PState :=
  mkPS (points s) (colors s) (velocities s) (lastFraction s) (initialVelocityVector s)
       (minSize s) (maxSize s) m
       (if glutfont then Some m else shown s)
       (if glutfont then printed s else printed s ++ [(what, m)]) (draws s).

(** [OnSlower] and [OnFaster] (lines 146-157). *)
Definition on_slower : PyM PState unit :=
  pmodify (fun s => show_multiplier "slower"%string (multiplier s / 2) s).
Definition on_faster : PyM PState unit :=
  pmodify (fun s => show_multiplier "faster"%string (multiplier s * 2) s).

Definition with_ivv (v : V3) (s : PState) : PState :=
  mkPS (points s) (colors s) (velocities s) (lastFraction s) v
       (minSize s) (maxSize s) (multiplier s) (shown s) (printed s) (draws s).

Definition with_sizes (mn mx : Q) (s : PState) : PState :=
  mkPS (points s) (colors s) (velocities s) (lastFraction s) (initialVelocityVector s)
       mn mx (multiplier s) (shown s) (printed s) (draws s).

(** [OnHigher] (lines 158-160). *)
Definition on_higher : PyM PState unit :=
  pmodify (fun s => with_ivv (vmul (initialVelocityVector s) (1, 5 # 4, 1)) s).

(** [OnLower] (lines 161-166); [count] is [event.count()] of the
    timer's cycle event, a key press having no [count]. *)
Definition on_lower (count : option nat) : PyM PState unit :=
  pmodify (fun s =>
    match count with
    | Some c => if Nat.eqb (c mod 4) 0 then with_ivv initialVelocityVector0 s
                else with_ivv (vdiv (initialVelocityVector s) (1, 3 # 2, 1)) s
    | None => with_ivv (vdiv (initialVelocityVector s) (1, 3 # 2, 1)) s
    end).

(** [OnLarger] and [OnSmaller] (lines 167-172). *)
Definition on_larger : PyM PState unit :=
  pmodify (fun s => with_sizes (minSize s + 1) (maxSize s + 1) s).
Definition on_smaller : PyM PState unit :=
  pmodify (fun s => with_sizes (Qmax 0 (minSize s - 1)) (Qmax 1 (maxSize s - 1)) s).

(** The events [OnInit] registers (lines 93-103). *)
Inductive PEvent :=
| EvKey (name : ascii)
| EvFraction (fr : Q)
| EvCycle (count : nat).

(** The key press handlers by key name (lines 89-94). *)
Definition key_handler (name : ascii) : PyM PState unit :=
  if decide (name = "s"%char) then on_slower
  else if decide (name = "f"%char) then on_faster
  else if decide (name = "h"%char) then on_higher
  else if decide (name = "l"%char) then on_lower None
  else if decide (name = "]"%char) then on_larger
  else if decide (name = "["%char) then on_smaller
  else pret tt.

(** The timers' events: [fraction] of [time] (lines 95-98) and
    [cycle] of [time2] (lines 99-102). *)
Definition handle (ev : PEvent) : PyM PState unit :=
  match ev with
  | EvKey name => key_handler name
  | EvFraction fr => on_timer_fraction fr
  | EvCycle c => on_lower (Some c)
  end.

(** The states of a fountain of [n] droplets the events reach. *)
Inductive reachable (n : nat) : PState -> Prop :=
| reach_init : reachable n (on_init n)
| reach_step s ev s' : reachable n s -> handle ev s = inr (tt, s') -> reachable n s'.

End Fountain.

(** ** What the fountain promises *)

(** A droplet at or below the ground is back at the emitter. *)
Definition reset (p : V3) : V3 := if Qle_bool (vy p) 0 then emitter else p.

(** The droplets a frame gives a new velocity: the first half of the
    dead ones, and one more. *)
Definition respawned (pts : list V3) : list nat :=
  take (length (nonzero (below pts)) `div` 2 + 1)%nat (nonzero (below pts)).

Definition pos3 (v : V3) : Prop := 0 < vx v /\ 0 < vy v /\ 0 < vz v.

(** The fountain of [n] droplets: three arrays of [n] rows, no droplet
    under the ground, point sizes with [0 <= minSize <= maxSize] and
    [1 <= maxSize], a positive time multiplier and nozzle speed. *)
Definition fountain_inv (n : nat) (s : PState) : Prop :=
  length (points s) = n /\ length (colors s) = n /\ length (velocities s) = n /\
  Forall (fun p => 0 <= vy p) (points s) /\
  0 <= minSize s /\ minSize s <= maxSize s /\ 1 <= maxSize s /\
  0 < multiplier s /\ pos3 (initialVelocityVector s).

(** ** A sample fountain *)

(** A stand-in for [random.random()]: [k mod 7 / 7]. *)
Definition demo_rnd (k : nat) : Q := Z.of_nat (k mod 7) # 7.

(** A fountain of four droplets after its first frame, at a tenth of
    the timer's cycle. *)
Definition demo_frame : PState :=
  match handle true demo_rnd (EvFraction (1 # 10)) (on_init 4) with inr (_, s) => s | inl _ => on_init 4 end.

(** ** [nonzero], [put] and [copy] *)

Lemma nonzero_from_ge k l i : i ∈ nonzero_from k l -> (k <= i)%nat.
Proof.
  revert k. induction l as [|b l IH]; intros k; cbn; [by intros ?%elem_of_nil|].
  destruct b; [intros [->|Hi]%elem_of_cons; [lia|] | intros Hi]; specialize (IH _ Hi); lia.
Qed.

Lemma elem_of_nonzero_from k l j : (k + j)%nat ∈ nonzero_from k l <-> l !! j = Some true.
Proof.
  revert k j. induction l as [|b l IH]; intros k j; cbn; [split; [by intros ?%elem_of_nil | by rewrite lookup_nil]|].
  destruct j as [|j].
  - rewrite Nat.add_0_r. destruct b; cbn; [split; [done | intros; left]|].
    split; [intros ?%nonzero_from_ge; lia | done].
  - replace (k + S j)%nat with (S k + j)%nat by lia. change ((b :: l) !! S j) with (l !! j). rewrite <- (IH (S k) j).
    destruct b; [rewrite elem_of_cons; split; [intros [?|?]; [lia|done] | by right] | done].
Qed.

Lemma elem_of_nonzero l i : i ∈ nonzero l <-> l !! i = Some true.
Proof. apply (elem_of_nonzero_from 0). Qed.

Lemma NoDup_nonzero_from k l : NoDup (nonzero_from k l).
Proof.
  revert k. induction l as [|b l IH]; intros k; cbn; [constructor|].
  destruct b; [constructor; [intros ?%nonzero_from_ge; lia|]|]; apply IH.
Qed.

Lemma nonzero_lt l : Forall (fun i => i < length l)%nat (nonzero l).
Proof. apply Forall_forall. intros i Hi%elem_of_nonzero. by eapply lookup_lt_Some. Qed.

Lemma NoDup_take {A} n (l : list A) : NoDup l -> NoDup (take n l).
Proof. intros Hl. rewrite <- (take_drop n l) in Hl. by apply NoDup_app in Hl as (? & _ & _). Qed.

Lemma put_spec a ind b :
  Forall (fun i => i < length a)%nat ind ->
  exists a', put a ind b = inr a' /\ length a' = length a /\
    forall i, a' !! i = if decide (i ∈ ind) then Some b else a !! i.
Proof.
  revert a. induction ind as [|i0 ind IH]; intros a Hind; cbn.
  - exists a. split_and!; [done | done |]. intros i. by rewrite decide_False by (by intros ?%elem_of_nil).
  - apply Forall_cons in Hind as [Hi0 Hind]. unfold py_setitem. rewrite decide_True by done. cbn.
    destruct (IH (<[i0 := b]> a)) as (a' & Ha' & Hlen & Hlk); [by rewrite length_insert|].
    exists a'. split_and!; [done | by rewrite Hlen, length_insert |]. intros i. rewrite Hlk.
    destruct (decide (i = i0)) as [->|Hne].
    + destruct (decide (i0 ∈ i0 :: ind)) as [_|Hn]; [|destruct Hn; apply elem_of_cons; by left].
      case_decide; [done | by apply list_lookup_insert_eq].
    + rewrite list_lookup_insert_ne by congruence.
      assert (Hiff : i ∈ i0 :: ind <-> i ∈ ind) by (rewrite elem_of_cons; naive_solver).
      destruct (decide (i ∈ ind)), (decide (i ∈ i0 :: ind)); naive_solver.
Qed.

Lemma copy_spec a ind b :
  NoDup ind -> Forall (fun i => i < length a)%nat ind -> (length ind <= length b)%nat ->
  exists a', copy a ind b = inr a' /\ length a' = length a /\
    (forall x i, ind !! x = Some i -> a' !! i = b !! x) /\ (forall i, i ∉ ind -> a' !! i = a !! i).
Proof.
  revert a b. induction ind as [|i0 ind IH]; intros a b Hnd Hind Hb; cbn.
  - exists a. split_and!; [done | done | by intros ? ? Hx; rewrite lookup_nil in Hx | done].
  - destruct b as [|y b]; cbn in Hb; [lia|].
    apply NoDup_cons in Hnd as [Hi0 Hnd]. apply Forall_cons in Hind as [Hlt Hind].
    unfold py_setitem. rewrite decide_True by done. cbn.
    destruct (IH (<[i0 := y]> a) b) as (a' & Ha' & Hlen & Hin & Hout); [done | by rewrite length_insert | lia |].
    exists a'. split_and!; [done | by rewrite Hlen, length_insert | |].
    + intros [|x] i Hx; cbn in Hx; [injection Hx as <-; rewrite Hout by done; by apply list_lookup_insert_eq | by apply Hin].
    + intros i [Hne Hi]%not_elem_of_cons. rewrite Hout by done. apply list_lookup_insert_ne. congruence.
Qed.

(** [put] of the dead droplets' indices, the emitter at each: every
    droplet at or below the ground is back at the emitter. *)
Lemma put_dead_reset pts : put pts (nonzero (below pts)) emitter = inr (map reset pts).
Proof.
  destruct (put_spec pts (nonzero (below pts)) emitter) as (a' & -> & _ & Hlk).
  { eapply Forall_impl; [apply nonzero_lt | intros i; unfold below; by rewrite length_map]. }
  f_equal. apply list_eq. intros i. rewrite Hlk, list_lookup_fmap.
  destruct (decide _) as [Hd|Hd]; rewrite elem_of_nonzero in Hd; unfold below in Hd; rewrite list_lookup_fmap in Hd;
    destruct (pts !! i) as [p|]; cbn in Hd |- *; try done; unfold reset.
  - injection Hd as ->. done.
  - destruct (Qle_bool (vy p) 0); [by destruct Hd | done].
Qed.

(** ** One frame *)

Section Frame.
Variable rnd : nat -> Q.

Lemma respawned_nil_reset pts : respawned pts = [] -> map reset pts = pts.
Proof.
  unfold respawned. intros Hr. apply take_nil_inv in Hr as [Hr|Hr]; [lia|].
  pose proof (put_dead_reset pts) as Hp. rewrite Hr in Hp. cbn in Hp. congruence.
Qed.

(** Lines 120-142: the dead droplets are back at the emitter; the
    [x]-th of the first half (and one more) gets the initial colour and
    the velocity of the draws [k + 3x], [k + 3x + 1], [k + 3x + 2]; every
    other droplet keeps its colour and velocity. *)
Lemma respawn_run ivv k pts cols vels :
  length cols = length pts -> length vels = length pts ->
  exists cols' vels',
    respawn rnd ivv k pts cols vels = inr (map reset pts, cols', vels', k + 3 * length (respawned pts))%nat /\
    length cols' = length cols /\ length vels' = length vels /\
    (forall x i, respawned pts !! x = Some i ->
       cols' !! i = Some initialColor /\ vels' !! i = Some (draw_velocity rnd ivv (k + 3 * x))) /\
    (forall i, i ∉ respawned pts -> cols' !! i = cols !! i /\ vels' !! i = vels !! i).
Proof.
  intros Hc Hv.
  assert (Hlt : Forall (fun i => i < length pts)%nat (respawned pts)).
  { apply Forall_take. eapply Forall_impl; [apply nonzero_lt | intros i; unfold below; by rewrite length_map]. }
  assert (Hnd : NoDup (respawned pts)) by (apply NoDup_take, NoDup_nonzero_from).
  destruct (put_spec cols (respawned pts) initialColor) as (cols' & Hcp & Hcl & Hck); [by rewrite Hc|].
  destruct (copy_spec vels (respawned pts) (new_velocities rnd ivv k (length (respawned pts))))
    as (vels' & Hvp & Hvl & Hvin & Hvout); [done | by rewrite Hv | unfold new_velocities; by rewrite length_map, length_seq |].
  assert (Hkeep : respawned pts = [] ->
    exists cols'' vels'', inr (A := PyExc) (pts, cols, vels, k) = inr (map reset pts, cols'', vels'', k + 3 * length (respawned pts))%nat /\
    length cols'' = length cols /\ length vels'' = length vels /\
    (forall x i, respawned pts !! x = Some i ->
       cols'' !! i = Some initialColor /\ vels'' !! i = Some (draw_velocity rnd ivv (k + 3 * x))) /\
    (forall i, i ∉ respawned pts -> cols'' !! i = cols !! i /\ vels'' !! i = vels !! i)).
  { intros Hr. exists cols, vels. rewrite Hr, respawned_nil_reset by done.
    split_and!; [by rewrite Nat.add_0_r | done | done | intros x i Hx; by rewrite lookup_nil in Hx | done]. }
  unfold respawn. cbv zeta. change (take _ (nonzero (below pts))) with (respawned pts).
  destruct (length (nonzero (below pts)) =? 0)%nat eqn:E.
  { apply Hkeep. apply Nat.eqb_eq, nil_length_inv in E. unfold respawned. by rewrite E. }
  rewrite put_dead_reset. cbn [ebind].
  destruct (length (respawned pts) =? 0)%nat eqn:E'.
  { apply Nat.eqb_eq, nil_length_inv in E'. rewrite respawned_nil_reset in Hkeep |- * by done. by apply Hkeep. }
  rewrite Hcp. cbn [ebind]. rewrite Hvp. cbn [ebind].
  exists cols', vels'. split_and!; [done | done | done | |].
  - intros x i Hx. rewrite Hck, decide_True by (by eapply list_elem_of_lookup_2). split; [done|].
    rewrite (Hvin x i Hx). unfold new_velocities.
    rewrite list_lookup_fmap, lookup_seq_lt by (by eapply lookup_lt_Some). done.
  - intros i Hi. rewrite Hck, decide_False by done. split; [done | by apply Hvout].
Qed.

End Frame.

(** ** Every event keeps the fountain *)

Lemma np_add_eq a b : length a = length b -> np_add a b = inr (zip_with vadd a b).
Proof. intros H. unfold np_add. by rewrite decide_True. Qed.

Lemma reset_above p : 0 <= vy (reset p).
Proof.
  unfold reset. destruct (Qle_bool (vy p) 0) eqn:E; [cbn; lra|].
  assert (~ vy p <= 0) by (rewrite <- Qle_bool_iff; congruence). lra.
Qed.

Lemma on_init_inv n : fountain_inv n (on_init n).
Proof.
  unfold fountain_inv, on_init, pos3. cbn. rewrite !length_replicate.
  split_and!; try done; try lra. apply Forall_replicate. cbn. lra.
Qed.

Lemma Qdiv_pos a b : 0 < a -> 0 < b -> 0 < a / b.
Proof. intros Ha Hb. apply Qlt_shift_div_l; lra. Qed.

(** [OnTimerFraction]'s arrays once [points + velocities*delta] is
    computed: the respawn of [respawn_run]. *)
Ltac run_respawn rnd :=
  match goal with
  | |- context [respawn _ ?i ?k ?p ?c ?v] =>
      let Hr := fresh "Hr" in
      destruct (respawn_run rnd i k p c v) as (?cols' & ?vels' & Hr & ?Hcl & ?Hvl & ?Hin & ?Hout);
      [rewrite ?length_map, ?length_zip_with_l_eq; rewrite ?length_map; congruence.. | rewrite Hr]
  end.

(** Projections of a state record written out. *)
Ltac simpl_proj := cbn [points colors velocities lastFraction initialVelocityVector minSize maxSize
                        multiplier shown printed draws].

Section Run.
Variable glutfont : bool.
Variable rnd : nat -> Q.

Lemma timer_inv n fr s :
  fountain_inv n s -> exists s', on_timer_fraction rnd fr s = inr (tt, s') /\ fountain_inv n s'.
Proof.
  intros Hi. pose proof Hi as (Hp & Hc & Hv & _ & Hs).
  unfold on_timer_fraction, pbind, pget, pput. cbv zeta. simpl_proj.
  destruct (Qeq_bool _ 0); [by eexists; split; [reflexivity | exact Hi]|].
  rewrite np_add_eq by (rewrite length_map; congruence).
  run_respawn rnd. eexists; split; [reflexivity|]. unfold fountain_inv. cbn.
  rewrite length_map, length_zip_with_l_eq, Hcl, Hvl, !length_map by (rewrite length_map; congruence).
  split_and!; try done; try apply Hs.
  apply Forall_forall. intros p (q & -> & _)%list_elem_of_fmap. apply reset_above.
Qed.

Lemma handle_inv n ev s :
  fountain_inv n s -> exists s', handle glutfont rnd ev s = inr (tt, s') /\ fountain_inv n s'.
Proof.
  intros Hi. destruct ev as [c|fr|c]; cbn [handle]; [|by apply timer_inv|].
  all: destruct Hi as (Hp & Hc & Hv & Hy & H0 & Hle & H1 & Hm & Hx & Hy' & Hz);
    unfold key_handler, on_slower, on_faster, on_higher, on_lower, on_larger, on_smaller, pmodify, pret;
    repeat case_decide; try destruct (_ mod 4 =? 0)%nat; (eexists; split; [reflexivity|]);
    unfold fountain_inv, pos3; cbn; split_and!; try done; try lra;
    try (apply Qdiv_pos; [done | reflexivity]).
  - apply Q.le_max_l.
  - apply Q.max_le_compat; lra.
  - apply Q.le_max_l.
Qed.

(** C26. The fountain of [n] droplets: in every state the events reach
    from [OnInit], the three arrays have [n] rows, no droplet is under
    the ground, [0 <= minSize <= maxSize] and [1 <= maxSize], the time
    multiplier and the nozzle speed are positive, and no event (key
    press, timer fraction, timer cycle) raises: numpy's shapes always
    agree and [put] and [copy] index in range. *)
Theorem fountain_reachable_inv n s :
  reachable glutfont rnd n s -> fountain_inv n s /\ forall ev, exists s', handle glutfont rnd ev s = inr (tt, s').
Proof.
  intros Hr. assert (Hi : fountain_inv n s).
  { induction Hr as [|s ev s' _ IH Hs]; [apply on_init_inv|].
    destruct (handle_inv n ev s IH) as (s'' & Hs' & Hi). congruence. }
  split; [done|]. intros ev. destruct (handle_inv n ev s Hi) as (s' & ? & _). eauto.
Qed.

(** C27. One frame of [OnTimerFraction] at [event.fraction() = fr] on
    arrays of equal length, [delta] the time since the last frame
    (the fraction wrapping once per cycle): every droplet moves by
    [velocity * delta] and is back at the emitter if it is then at or
    below the ground; the [x]-th of the first half (and one more) of
    those gets the initial colour and the velocity drawn from the
    random values [k + 3x .. k + 3x + 2]; every other droplet's colour
    changes by [colorVelocities * delta] and its vertical speed by
    [gravity * delta]; [lastFraction] becomes [fr]. *)
Theorem timer_frame fr s :
  length (colors s) = length (points s) -> length (velocities s) = length (points s) ->
  ~ frame_delta (lastFraction s) fr == 0 ->
  let d := frame_delta (lastFraction s) fr in
  let pts := zip_with vadd (points s) (map (fun v => vscale v d) (velocities s)) in
  exists s', on_timer_fraction rnd fr s = inr (tt, s') /\
    points s' = map reset pts /\ lastFraction s' = fr /\ draws s' = (draws s + 3 * length (respawned pts))%nat /\
    (forall x i, respawned pts !! x = Some i ->
       colors s' !! i = Some initialColor /\
       velocities s' !! i = Some (draw_velocity rnd (initialVelocityVector s) (draws s + 3 * x))) /\
    (forall i, i ∉ respawned pts ->
       colors s' !! i = (fun c => vadd c (vscale colorVelocities d)) <$> colors s !! i /\
       velocities s' !! i = (fun v => (vx v, vy v + gravity * d, vz v) : V3) <$> velocities s !! i).
Proof.
  intros Hc Hv Hd. cbv zeta. unfold on_timer_fraction, pbind, pget, pput. cbv zeta. simpl_proj.
  destruct (Qeq_bool _ 0) eqn:E; [by apply Qeq_bool_iff in E|].
  rewrite np_add_eq by (rewrite length_map; congruence).
  run_respawn rnd. eexists; split; [reflexivity|]. cbn. split_and!; [done.. | |].
  - done.
  - intros i Hi. destruct (Hout i Hi) as [Hc' Hv']. split; [rewrite Hc' | rewrite Hv']; apply list_lookup_fmap.
Qed.

End Run.

(** ** Witnesses *)

Lemma fountain_reachable_inv_witness :
  fountain_inv 4 demo_frame /\ forall ev, exists s', handle true demo_rnd ev demo_frame = inr (tt, s').
Proof.
  apply (fountain_reachable_inv true demo_rnd 4 demo_frame).
  apply (reach_step true demo_rnd 4 (on_init 4) (EvFraction (1 # 10))); [apply reach_init | vm_refl].
Defined.

Lemma timer_frame_witness :
  let s := demo_frame in
  let d := frame_delta (lastFraction s) (3 # 10) in
  let pts := zip_with vadd (points s) (map (fun v => vscale v d) (velocities s)) in
  exists s', on_timer_fraction demo_rnd (3 # 10) s = inr (tt, s') /\
    points s' = map reset pts /\ lastFraction s' = 3 # 10 /\ draws s' = (draws s + 3 * length (respawned pts))%nat /\
    (forall x i, respawned pts !! x = Some i ->
       colors s' !! i = Some initialColor /\
       velocities s' !! i = Some (draw_velocity demo_rnd (initialVelocityVector s) (draws s + 3 * x))) /\
    (forall i, i ∉ respawned pts ->
       colors s' !! i = (fun c => vadd c (vscale colorVelocities d)) <$> colors s !! i /\
       velocities s' !! i = (fun v => (vx v, vy v + gravity * d, vz v) : V3) <$> velocities s !! i).
Proof.
  apply (timer_frame demo_rnd (3 # 10) demo_frame); [vm_refl | vm_refl | intros H; vm_compute in H; discriminate].
Defined.

End Particles.
