(* ===== verification/Game.v ===== *)
(** * Game: the level and the main loop of [Robocalypto/gamelib/game.py]

    [game.py] is the demo game built on pyggel.  [level_parse] walks
    the map [GRID] row by row and builds, for every cell, a floor and a
    ceiling [Quad] and, for a wall cell, a wall [Cube] with a texture
    picked by [random.choice]; it registers a [Wall] for each wall cell
    and a [RoboBaddie] for each cell marked 2.  The shapes are built by
    Geometry.v's [new_quad] and [new_cube]; [pyggel.image.Texture(path)]
    (the [image] module is not in the sources) is a texture loaded from
    [path] whose GL name is the number of textures loaded before it, and
    [glGenLists(1)] hands out display lists in order.  [Wall] and
    [RoboBaddie] come from the game's [objects] module, which is not in
    the repository: their constructions are recorded by position.
    [random.random()] is a function [rnd] of the number of draws made.

    [Game.main_loop] runs [do_input], [do_update] and [do_draw] until
    [running] is false; the state of the loop is [GState]: [running],
    [grabbed], [frame] and the [pygame.event.set_grab] calls made.  Of
    [do_update] the frame counter is modelled; the player, shots and
    baddies it updates are [objects]' and not modelled, nor is
    [do_draw] (the scene's rendering is Scene.v's). *)

From stdpp Require Import base list strings.
From Stdlib Require Import ZArith QArith Qround Lqa Lia.
From Stdlib Require String.
From S2P Require Import Prelude GL Geometry.

Module Game.

Local Open Scope Z_scope.

(** ** The level *)

(** [GRID] (lines 19-37): 1 a wall, 2 a robot, 0 an empty cell. *)
Definition GRID : list (list Z) :=
  [[1; 1; 1; 1; 1; 1; 1; 1; 1; 1; 1; 1; 1; 1; 1; 1; 1; 1; 1; 1; 1; 1];
   [1; 1; 0; 0; 0; 1; 0; 0; 0; 0; 1; 0; 0; 0; 0; 1; 0; 0; 0; 0; 0; 1];
   [1; 1; 0; 0; 0; 1; 0; 0; 0; 0; 1; 0; 0; 0; 0; 1; 0; 0; 0; 0; 0; 1];
   [1; 1; 0; 0; 0; 0; 0; 0; 2; 0; 1; 0; 0; 2; 0; 1; 0; 2; 0; 0; 0; 1];
   [1; 1; 0; 0; 0; 1; 0; 0; 0; 0; 1; 0; 0; 0; 0; 1; 0; 0; 0; 0; 0; 1];
   [1; 1; 0; 0; 0; 1; 0; 1; 0; 0; 1; 0; 0; 0; 0; 1; 0; 0; 0; 2; 0; 1];
   [1; 0; 0; 2; 0; 1; 0; 1; 0; 0; 1; 0; 0; 0; 0; 1; 0; 0; 0; 0; 0; 1];
   [1; 0; 0; 0; 0; 0; 0; 1; 1; 0; 1; 0; 1; 1; 0; 1; 0; 2; 0; 0; 0; 1];
   [1; 0; 0; 0; 0; 1; 0; 1; 0; 0; 1; 0; 1; 0; 0; 1; 0; 0; 0; 0; 0; 1];
   [1; 1; 0; 0; 1; 1; 0; 1; 0; 0; 1; 0; 1; 0; 0; 1; 0; 0; 0; 2; 0; 1];
   [0; 1; 0; 0; 0; 1; 0; 0; 0; 0; 1; 1; 1; 0; 1; 1; 0; 0; 0; 0; 0; 1];
   [0; 1; 0; 0; 0; 1; 0; 0; 2; 0; 0; 0; 0; 0; 0; 1; 0; 2; 0; 0; 0; 1];
   [0; 1; 0; 0; 0; 1; 0; 0; 0; 0; 1; 0; 0; 0; 0; 1; 0; 0; 0; 0; 0; 1];
   [0; 1; 0; 0; 0; 0; 1; 0; 1; 1; 1; 0; 0; 2; 0; 1; 0; 0; 0; 2; 0; 1];
   [1; 1; 0; 0; 1; 1; 0; 0; 0; 0; 1; 0; 0; 0; 0; 1; 0; 1; 0; 1; 0; 1];
   [1; 1; 0; 2; 0; 1; 0; 0; 0; 0; 1; 0; 1; 1; 1; 1; 1; 1; 0; 1; 1; 1];
   [1; 0; 0; 0; 0; 1; 0; 0; 0; 0; 1; 0; 0; 0; 0; 0; 0; 0; 0; 0; 0; 1];
   [1; 1; 1; 1; 1; 1; 1; 1; 1; 1; 1; 1; 1; 1; 1; 1; 1; 1; 1; 1; 1; 1]].

(** What [level_parse] has built so far. *)
Record LState := mkLS {
  static : list Shape;
  walls : list (Z * Z);
  baddies : list (Z * Z);
  textures : list String.string;
  gl_lists : nat;
  draws : nat;
}.

Definition plift {A} (r : PyExc + A) : PyM LState A :=
  fun s => match r with inl e => inl e | inr a => inr (a, s) end.

(** [pyggel.image.Texture(path)]: the GL name of the texture loaded. *)
Definition load_texture (path : String.string) : PyM LState nat :=
  fun s => inr (length (textures s),
                mkLS (static s) (walls s) (baddies s) (textures s ++ [path]) (gl_lists s) (draws s)).

(** [glGenLists(1)] in [Cube.__init__]. *)
Definition gen_list : PyM LState nat :=
  fun s => inr (gl_lists s, mkLS (static s) (walls s) (baddies s) (textures s) (S (gl_lists s)) (draws s)).

Definition push_static (o : Shape) : PyM LState unit :=
  pmodify (fun s => mkLS (static s ++ [o]) (walls s) (baddies s) (textures s) (gl_lists s) (draws s)).

(** [Wall([box.pos[0], box.pos[2]])] with the game's [Wall] class. *)
Definition new_wall (p : Z * Z) : PyM LState unit :=
  pmodify (fun s => mkLS (static s) (walls s ++ [p]) (baddies s) (textures s) (gl_lists s) (draws s)).

(** [RoboBaddie(scene, [x*5, y*5])] with the game's [RoboBaddie] class. *)
Definition new_baddie (p : Z * Z) : PyM LState unit :=
  pmodify (fun s => mkLS (static s) (walls s) (baddies s ++ [p]) (textures s) (gl_lists s) (draws s)).

Definition white4 : Color := RGBA 1 1 1 1.

(** [box.pos = (x*5, 0, y*5)] *)
Definition with_cube_pos (p : Q * Q * Q) (c : Cube) : Cube :=
  mkCube (cube_size c) p (cube_rotation c) (cube_texture c) (cube_colorize c) (cube_sides c)
         (cube_dlist c) (cube_scale c) (cube_gl_list c) (cube_visible c).

(** The wall textures [random.choice] picks from (line 59). *)
Definition wall_files : list String.string := ["wall.png"; "door.png"; "wall.png"; "wall.png"]%string.

Section Level.

Variable rnd : nat -> Q.

(** [random.choice(seq)] of Python 2: [seq[int(random() * len(seq))]]. *)
Definition choice {A} (l : list A) : PyM LState A :=
  fun s => match py_get l (Z.to_nat (py_int (rnd (draws s) * inject_Z (Z.of_nat (length l))))) with
           | inl e => inl e
           | inr a => inr (a, mkLS (static s) (walls s) (baddies s) (textures s) (gl_lists s) (S (draws s)))
           end.

(** A floor or ceiling tile (lines 49-55): the texture is loaded before
    [Quad.__init__] takes its display list. *)
Definition tile (x y : Z) (facing path : String.string) : PyM LState unit :=
  t <- load_texture path ;;
  gl <- gen_list ;;
  q <- plift (new_quad (455 # 100) (inject_Z (x * 5), 0, inject_Z (y * 5))%Q (0, 0, 0)%Q white4
                       (Some (ImageTexture t)) (FName facing) gl) ;;
  push_static (SQuad q.1 q.2).

(** The body of the inner loop of [level_parse] (lines 48-69). *)
Definition cell (x y c : Z) : PyM LState unit :=
  tile x y "bottom" "data/floor.png" ;;;
  tile x y "top" "data/ceiling.png" ;;;
  (if c =? 1 then
     f <- choice wall_files ;;
     t <- load_texture ("data/" ++ f) ;;
     gl <- gen_list ;;
     box <- plift (new_cube (455 # 100) (0, 0, 0)%Q (0, 0, 0)%Q white4 (Some (TextureList (replicate 6 t))) gl) ;;
     push_static (SCube (with_cube_pos (inject_Z (x * 5), 0, inject_Z (y * 5))%Q box)) ;;;
     new_wall (x * 5, y * 5)
   else pret tt) ;;;
  (if c =? 2 then new_baddie (x * 5, y * 5) else pret tt).

Fixpoint row_loop (x y : Z) (row : list Z) : PyM LState unit :=
  match row with
  | [] => pret tt
  | c :: r => cell x y c ;;; row_loop (x + 1) y r
  end.

Fixpoint grid_loop (y : Z) (grid : list (list Z)) : PyM LState unit :=
  match grid with
  | [] => pret tt
  | row :: g => row_loop 0 y row ;;; grid_loop (y + 1) g
  end.

(** [level_parse(scene)] (lines 40-72) on a map: the static shapes and
    the walls. *)
Definition level_parse (grid : list (list Z)) : PyM LState (list Shape * list (Z * Z)) :=
  grid_loop 0 grid ;;; s <- pget ;; pret (static s, walls s).

End Level.

(** ** The main loop *)

Record GState := mkGS {
  running : bool;
  grabbed : Z;
  frame : Z;
  grabs : list Z;
}.

(** The events [pyggel.get_events()] returns, as [do_input] reads them. *)
Inductive GEvent :=
| EQuit
| EKeyDown (key : Z)
| EOther.

Definition K_ESCAPE : Z := 27.
Definition K_SPACE : Z := 32.

(** One event of the loop of [do_input] (lines 146-161). *)
Definition input_event (s : GState) (e : GEvent) : GState :=
  match e with
  | EQuit => mkGS false (grabbed s) (frame s) (grabs s)
  | EKeyDown k =>
      let s := if k =? K_ESCAPE then mkGS false (grabbed s) (frame s) (grabs s) else s in
      if k =? K_SPACE then
        let g := Z.lxor (grabbed s) 1 in mkGS (running s) g (frame s) (grabs s ++ [g])
      else s
  | EOther => s
  end.

(** [Game.do_input] (lines 143-161). *)
Definition do_input (evs : list GEvent) (s : GState) : GState := fold_left input_event evs s.

(** The frame counter of [Game.do_update] (lines 163-168). *)
Definition do_update_frame (s : GState) : GState :=
  let f := frame s + 1 in
  mkGS (running s) (grabbed s) (if f >? 360 then 0 else f) (grabs s).

(** [Game.main_loop] (lines 203-210) over the batches of events
    [evs k] of the frames [k], with [fuel] frames at most: [None] when
    the loop has not stopped. *)
Fixpoint main_loop (evs : nat -> list GEvent) (fuel k : nat) (s : GState) : option GState :=
  match fuel with
  | O => None
  | S fuel' =>
      let s' := do_update_frame (do_input (evs k) s) in
      if running s' then main_loop evs fuel' (S k) s' else Some s'
  end.

(** The state [Game.__init__] leaves ([grabbed = 1], [frame = 0]) and
    [main_loop] sets ([running = True]), [set_grab(1)] made. *)
Definition game_init : GState := mkGS true 1 0 [1].

(** A batch of events that stops the loop: [QUIT] or Escape. *)
Definition quits (e : GEvent) : bool :=
  match e with EQuit => true | EKeyDown k => k =? K_ESCAPE | EOther => false end.

(** ** Samples *)

(** [random.random()] always [0.5], and the empty level state. *)
Definition half_rnd (k : nat) : Q := 1 # 2.
Definition level0 : LState := mkLS [] [] [] [] 1 0.

(** A session that presses space and closes the window at frame 400. *)
Definition quit_at_400 (k : nat) : list GEvent :=
  if Nat.eqb k 400 then [EKeyDown K_SPACE; EQuit; EOther] else [EOther].

(** ** What the level and the loop promise *)

(** The cells of a map with their coordinates, row by row. *)
Fixpoint row_cells (x y : Z) (row : list Z) : list (Z * Z * Z) :=
  match row with [] => [] | c :: r => (x, y, c) :: row_cells (x + 1) y r end.

Fixpoint grid_cells (y : Z) (grid : list (list Z)) : list (Z * Z * Z) :=
  match grid with [] => [] | row :: g => row_cells 0 y row ++ grid_cells (y + 1) g end.

(** The positions [(5x, 5y)] of the cells marked [v]. *)
Definition marked (v : Z) (cs : list (Z * Z * Z)) : list (Z * Z) :=
  map (fun t => (t.1.1 * 5, t.1.2 * 5)) (filter (fun t => t.2 = v) cs).

(** What [level_parse] adds for the cells [cs]: a [Wall] per wall cell
    and a [RoboBaddie] per robot cell, in order; two tiles per cell and
    a cube per wall cell, each with its texture and display list; a
    random draw per wall cell. *)
Definition builds (cs : list (Z * Z * Z)) (s s' : LState) : Prop :=
  walls s' = walls s ++ marked 1 cs /\ baddies s' = baddies s ++ marked 2 cs /\
  length (static s') = (length (static s) + 2 * length cs + length (marked 1 cs))%nat /\
  length (textures s') = (length (textures s) + 2 * length cs + length (marked 1 cs))%nat /\
  gl_lists s' = (gl_lists s + 2 * length cs + length (marked 1 cs))%nat /\
  draws s' = (draws s + length (marked 1 cs))%nat.

(** No batch before frame [n] stops the loop, and frame [n]'s does. *)
Definition first_quit (evs : nat -> list GEvent) (n : nat) : Prop :=
  (forall k, (k < n)%nat -> forallb (fun e => negb (quits e)) (evs k) = true) /\
  forallb (fun e => negb (quits e)) (evs n) = false.

(** ** The level is built cell by cell *)

Lemma builds_nil s : builds [] s s.
Proof. unfold builds, marked. cbn. rewrite !app_nil_r. split_and!; try done; lia. Qed.

Lemma builds_app cs1 cs2 s1 s2 s3 : builds cs1 s1 s2 -> builds cs2 s2 s3 -> builds (cs1 ++ cs2) s1 s3.
Proof.
  unfold builds, marked. rewrite !filter_app, !map_app, !length_app.
  intros (? & ? & ? & ? & ? & ?) (? & ? & ? & ? & ? & ?). split_and!; try lia; rewrite app_assoc; congruence.
Qed.

Section LevelRun.
Variable rnd : nat -> Q.
Hypothesis rnd_range : forall k, (0 <= rnd k < 1)%Q.

Lemma choice_index k : (Z.to_nat (py_int (rnd k * inject_Z (Z.of_nat (length wall_files)))) < 4)%nat.
Proof.
  change (Z.of_nat (length wall_files)) with 4.
  destruct (rnd_range k) as [H0 H1]. unfold py_int.
  assert (Hx : (0 <= rnd k * inject_Z 4)%Q) by (unfold inject_Z; lra).
  rewrite (proj2 (Qle_bool_iff _ _) Hx).
  pose proof (Qfloor_le (rnd k * inject_Z 4)) as Hle. pose proof (Qlt_floor (rnd k * inject_Z 4)) as Hlt.
  assert (Hf : (inject_Z (Qfloor (rnd k * inject_Z 4)) < inject_Z 4)%Q) by (unfold inject_Z in *; lra).
  assert (Hg : (inject_Z (-1) < inject_Z (Qfloor (rnd k * inject_Z 4)))%Q).
  { rewrite inject_Z_plus in Hlt. unfold inject_Z in *. lra. }
  rewrite <- Zlt_Qlt in Hf, Hg. lia.
Qed.

Lemma tile_run x y f path s :
  f = "bottom"%string \/ f = "top"%string ->
  exists q, tile x y f path s =
    inr (tt, mkLS (static s ++ [q]) (walls s) (baddies s) (textures s ++ [path]) (S (gl_lists s)) (draws s)).
Proof. intros [-> | ->]; eexists; reflexivity. Qed.

(** Lines 58-62: a wall cell's cube and [Wall]. *)
Lemma wall_run x y s :
  exists f box,
    (f <- choice rnd wall_files ;;
     t <- load_texture ("data/" ++ f) ;;
     gl <- gen_list ;;
     box <- plift (new_cube (455 # 100) (0, 0, 0)%Q (0, 0, 0)%Q white4 (Some (TextureList (replicate 6 t))) gl) ;;
     push_static (SCube (with_cube_pos (inject_Z (x * 5), 0, inject_Z (y * 5))%Q box)) ;;;
     new_wall (x * 5, y * 5)) s =
    inr (tt, mkLS (static s ++ [box]) (walls s ++ [(x * 5, y * 5)]) (baddies s)
                  (textures s ++ [("data/" ++ f)%string]) (S (gl_lists s)) (S (draws s))).
Proof.
  pose proof (choice_index (draws s)) as Hi.
  destruct (wall_files !! Z.to_nat (py_int (rnd (draws s) * inject_Z (Z.of_nat (length wall_files)))))
    as [f|] eqn:Hf; [|apply lookup_ge_None in Hf; change (length wall_files) with 4%nat in *; lia].
  assert (Hc : choice rnd wall_files s =
    inr (f, mkLS (static s) (walls s) (baddies s) (textures s) (gl_lists s) (S (draws s)))).
  { unfold choice, py_get. by rewrite Hf. }
  exists f. eexists. rewrite (pbind_inr _ _ _ _ _ Hc). reflexivity.
Qed.

(** The tail of [cell_run]: the cell's effects against [builds]. *)
Local Ltac close_cell :=
  eexists; split; [reflexivity|]; cbn; repeat case_decide; try discriminate; try congruence;
  cbn; rewrite ?length_app, ?app_nil_r; cbn; split_and!; try done; lia.

Lemma cell_run x y c s : exists s', cell rnd x y c s = inr (tt, s') /\ builds [(x, y, c)] s s'.
Proof.
  unfold cell. destruct (tile_run x y "bottom" "data/floor.png" s) as (q1 & H1); [by left|].
  rewrite (pbind_inr _ _ _ _ _ H1).
  lazymatch goal with
  | |- context [pbind (tile _ _ _ _) _ ?s1] =>
      destruct (tile_run x y "top" "data/ceiling.png" s1) as (q2 & H2); [by right|]
  end.
  rewrite (pbind_inr _ _ _ _ _ H2).
  unfold builds, marked.
  destruct (Z.eqb_spec c 1) as [->|H1'].
  - lazymatch goal with
    | |- context [pbind (pbind (choice _ _) _) _ ?s2] => destruct (wall_run x y s2) as (f & box & Hw)
    end.
    rewrite (pbind_inr _ _ _ _ _ Hw). cbn. close_cell.
  - rewrite pbind_ret. destruct (Z.eqb_spec c 2) as [->|H2']; close_cell.
Qed.

Lemma row_loop_run x y row s :
  exists s', row_loop rnd x y row s = inr (tt, s') /\ builds (row_cells x y row) s s'.
Proof.
  revert x s. induction row as [|c r IH]; intros x s; cbn [row_loop row_cells].
  - eexists; split; [reflexivity | apply builds_nil].
  - destruct (cell_run x y c s) as (s1 & H1 & B1). rewrite (pbind_inr _ _ _ _ _ H1).
    destruct (IH (x + 1) s1) as (s2 & H2 & B2). exists s2. split; [done|].
    by apply (builds_app [(x, y, c)] _ s s1 s2).
Qed.

Lemma grid_loop_run y grid s :
  exists s', grid_loop rnd y grid s = inr (tt, s') /\ builds (grid_cells y grid) s s'.
Proof.
  revert y s. induction grid as [|row g IH]; intros y s; cbn [grid_loop grid_cells].
  - eexists; split; [reflexivity | apply builds_nil].
  - destruct (row_loop_run 0 y row s) as (s1 & H1 & B1). rewrite (pbind_inr _ _ _ _ _ H1).
    destruct (IH (y + 1) s1) as (s2 & H2 & B2). exists s2. split; [done|].
    by apply (builds_app _ _ s s1 s2).
Qed.

(** C28. [level_parse] on any map, with [random.random()] in [0, 1),
    returns the static shapes and walls it built: a [Wall] at
    [(5x, 5y)] for every wall cell and a [RoboBaddie] for every robot
    cell, in row-major order, two tiles per cell and a cube per wall
    cell (as many textures loaded and display lists taken), and one
    random draw per wall cell; no texture choice is out of range. *)
Theorem level_parse_spec grid s :
  exists s', level_parse rnd grid s = inr ((static s', walls s'), s') /\ builds (grid_cells 0 grid) s s'.
Proof.
  destruct (grid_loop_run 0 grid s) as (s' & H & B). exists s'. split; [|done].
  unfold level_parse. by rewrite (pbind_inr _ _ _ _ _ H).
Qed.

End LevelRun.

(** ** The main loop stops at the first [QUIT] or Escape *)

Lemma do_input_running evs s :
  running (do_input evs s) = running s && forallb (fun e => negb (quits e)) evs.
Proof.
  unfold do_input. revert s. induction evs as [|e evs IH]; intros s; cbn [fold_left forallb].
  - by rewrite andb_true_r.
  - rewrite IH, andb_assoc. f_equal.
    destruct e as [|k|]; cbn; [by rewrite andb_false_r | | by rewrite andb_true_r].
    unfold K_ESCAPE, K_SPACE. destruct (k =? 27), (k =? 32); cbn; by rewrite ?andb_false_r, ?andb_true_r.
Qed.

Lemma do_input_frame evs s : frame (do_input evs s) = frame s.
Proof.
  unfold do_input. revert s. induction evs as [|e evs IH]; intros s; cbn [fold_left]; [done|].
  rewrite IH. destruct e as [|k|]; cbn; [done | | done].
  unfold K_ESCAPE, K_SPACE. by destruct (k =? 27), (k =? 32).
Qed.

Lemma frame_step k :
  (if Z.of_nat (k mod 361) + 1 >? 360 then 0 else Z.of_nat (k mod 361) + 1) = Z.of_nat (S k mod 361).
Proof.
  pose proof (Nat.mod_upper_bound k 361 ltac:(lia)) as Hr.
  replace (S k) with (k + 1)%nat by lia. rewrite <- Nat.add_mod_idemp_l by lia.
  set (r := (k mod 361)%nat) in *.
  destruct (Z.gtb_spec (Z.of_nat r + 1) 360) as [H|H].
  - replace (r + 1)%nat with 361%nat by lia. by rewrite Nat.mod_same.
  - rewrite Nat.mod_small by lia. lia.
Qed.

Lemma main_loop_stops evs m : forall k s fuel,
  running s = true -> frame s = Z.of_nat (k mod 361) ->
  (forall j, (k <= j < k + m)%nat -> forallb (fun e => negb (quits e)) (evs j) = true) ->
  forallb (fun e => negb (quits e)) (evs (k + m)%nat) = false -> (m < fuel)%nat ->
  exists s', main_loop evs fuel k s = Some s' /\ running s' = false /\ frame s' = Z.of_nat (S (k + m) mod 361).
Proof.
  induction m as [|m IH]; intros k s fuel Hr Hf Hpre Hq Hfuel; (destruct fuel as [|fuel]; [lia|]); cbn [main_loop].
  - rewrite Nat.add_0_r in Hq |- *. unfold do_update_frame at 1. cbn [running].
    rewrite do_input_running, Hr, Hq. cbn [andb]. eexists; split; [reflexivity|].
    unfold do_update_frame. cbn [running frame]. rewrite do_input_running, Hr, Hq, do_input_frame, Hf.
    split; [done | apply frame_step].
  - unfold do_update_frame at 1. cbn [running]. rewrite do_input_running, Hr, Hpre by lia. cbn [andb].
    replace (k + S m)%nat with (S k + m)%nat by lia.
    apply IH.
    + unfold do_update_frame. cbn [running]. by rewrite do_input_running, Hr, Hpre by lia.
    + unfold do_update_frame. cbn [frame]. rewrite do_input_frame, Hf. apply frame_step.
    + intros j Hj. apply Hpre. lia.
    + by replace (S k + m)%nat with (k + S m)%nat by lia.
    + lia.
Qed.

Lemma main_loop_runs evs fuel : forall k s,
  running s = true -> (forall j, (k <= j < k + fuel)%nat -> forallb (fun e => negb (quits e)) (evs j) = true) ->
  main_loop evs fuel k s = None.
Proof.
  induction fuel as [|fuel IH]; intros k s Hr Hpre; cbn [main_loop]; [done|].
  unfold do_update_frame at 1. cbn [running]. rewrite do_input_running, Hr, Hpre by lia. cbn [andb].
  apply IH; [| intros j Hj; apply Hpre; lia].
  unfold do_update_frame. cbn [running]. by rewrite do_input_running, Hr, Hpre by lia.
Qed.

(** C29. [Game.main_loop] stops exactly at the first frame [n] whose
    events hold a [QUIT] or an Escape key press: it has not returned
    after [n] frames or fewer, and it returns after frame [n] with
    [running] false and the frame counter of [do_update], which wraps
    from 360 to 0, at [(n + 1) mod 361]. *)
Theorem main_loop_exits evs n :
  first_quit evs n ->
  (forall fuel, (fuel <= n)%nat -> main_loop evs fuel 0 game_init = None) /\
  (forall fuel, (n < fuel)%nat ->
     exists s, main_loop evs fuel 0 game_init = Some s /\ running s = false /\ frame s = Z.of_nat (S n mod 361)).
Proof.
  intros [Hpre Hq]. split.
  - intros fuel Hfuel. apply main_loop_runs; [done | intros j Hj; apply Hpre; lia].
  - intros fuel Hfuel. apply (main_loop_stops evs n 0 game_init fuel); [done | done | | done | done].
    intros j Hj. apply Hpre. lia.
Qed.

(** ** Witnesses *)

Lemma level_parse_spec_witness :
  exists s', level_parse half_rnd GRID level0 = inr ((static s', walls s'), s') /\ builds (grid_cells 0 GRID) level0 s'.
Proof.
  apply (level_parse_spec half_rnd); intros k; split; vm_compute; [intros H; discriminate H | reflexivity].
Defined.

Lemma main_loop_exits_witness :
  (forall fuel, (fuel <= 400)%nat -> main_loop quit_at_400 fuel 0 game_init = None) /\
  (forall fuel, (400 < fuel)%nat ->
     exists s, main_loop quit_at_400 fuel 0 game_init = Some s /\ running s = false /\ frame s = Z.of_nat (S 400 mod 361)).
Proof.
  apply (main_loop_exits quit_at_400 400). split; [|reflexivity].
  intros k Hk. unfold quit_at_400. by rewrite (proj2 (Nat.eqb_neq k 400)) by lia.
Defined.

End Game.
